(** * Dexter scoring core: series utilities, BRS and MDS engines, narrative
    shock classifier.

    Shallow embedding of the TypeScript sources [utils/series.ts],
    [utils/brs.ts], [utils/mds.ts], [utils/narrative-shock.ts] and
    [utils/short-interest.ts], with the properties of the specification
    stated over it.

    Modelling conventions.
    - A JavaScript [number] is an exact rational or one of [Infinity],
      [-Infinity], [NaN]. The rounding of IEEE doubles, overflow to infinity
      and the sign of zero are outside the model; a property that such a
      rounding could decide is stated with a margin from the tie of
      [toFixed(2)], or at a whole index of a percentile.
    - [null] and [undefined] of an optional numeric field are both [None].
    - Built-ins of the runtime that are not code of the repository (the [Date]
      constructor on strings, the clock, [Math.sqrt], [Math.exp], [Math.log])
      are fields of the class [Platform]; every definition is generic in it.
    - [Array.prototype.sort] is the stable insertion sort [js_sort]. For a
      consistent comparator ECMAScript fixes the result of a stable sort and
      [js_sort] computes it; for an inconsistent one (here: dates that parse
      mixed with dates that do not) the standard leaves the order to the
      implementation, and the order of [js_sort] need not be that of an
      engine.
    - A mutable [warnings] array that a function pushes to is the list of the
      pushed codes, returned next to the result and appended in program
      order. *)

From Stdlib Require Import ZArith QArith Qround Qabs Lia Lqa Ascii String Sorted.
From stdpp Require Import base option list strings gmap.

Local Open Scope Q_scope.

(** ** JavaScript numbers *)

Inductive number : Type :=
| Num (q : Q)
| PInf
| NInf
| NaN.

Module JS.

Definition sgn (q : Q) : comparison := q ?= 0.

Definition add (a b : number) : number :=
  match a, b with
  | NaN, _ | _, NaN => NaN
  | Num x, Num y => Num (x + y)
  | PInf, NInf | NInf, PInf => NaN
  | PInf, _ | _, PInf => PInf
  | NInf, _ | _, NInf => NInf
  end.

Definition neg (a : number) : number :=
  match a with
  | Num x => Num (- x)
  | PInf => NInf
  | NInf => PInf
  | NaN => NaN
  end.

Definition sub (a b : number) : number := add a (neg b).

Definition inf_of (c : comparison) : number :=
  match c with Gt => PInf | Lt => NInf | Eq => NaN end.

Definition mul (a b : number) : number :=
  match a, b with
  | NaN, _ | _, NaN => NaN
  | Num x, Num y => Num (x * y)
  | PInf, Num y | Num y, PInf => inf_of (sgn y)
  | NInf, Num y | Num y, NInf => inf_of (CompOpp (sgn y))
  | PInf, PInf | NInf, NInf => PInf
  | PInf, NInf | NInf, PInf => NInf
  end.

Definition div (a b : number) : number :=
  match a, b with
  | NaN, _ | _, NaN => NaN
  | Num x, Num y => if Qeq_bool y 0 then inf_of (sgn x) else Num (x / y)
  | Num _, (PInf | NInf) => Num 0
  | PInf, Num y => match sgn y with Lt => NInf | _ => PInf end
  | NInf, Num y => match sgn y with Lt => PInf | _ => NInf end
  | (PInf | NInf), (PInf | NInf) => NaN
  end.

(** [a < b], [a <= b], [a === b] and their mirrors; all false on [NaN]. *)
Definition lt (a b : number) : bool :=
  match a, b with
  | Num x, Num y => match x ?= y with Lt => true | _ => false end
  | NInf, (Num _ | PInf) | Num _, PInf => true
  | _, _ => false
  end.

Definition eq (a b : number) : bool :=
  match a, b with
  | Num x, Num y => Qeq_bool x y
  | PInf, PInf | NInf, NInf => true
  | _, _ => false
  end.

Definition le (a b : number) : bool := lt a b || eq a b.
Definition gt (a b : number) : bool := lt b a.
Definition ge (a b : number) : bool := le b a.

Definition isNaN (a : number) : bool :=
  match a with NaN => true | _ => false end.

Definition isFinite (a : number) : bool :=
  match a with Num _ => true | _ => false end.

(** Truthiness of a number: everything but [0] and [NaN]. *)
Definition truthy (a : number) : bool :=
  match a with
  | Num x => negb (Qeq_bool x 0)
  | NaN => false
  | _ => true
  end.

Definition abs (a : number) : number :=
  match a with
  | Num x => Num (Qabs x)
  | PInf | NInf => PInf
  | NaN => NaN
  end.

Definition min (a b : number) : number :=
  match a, b with
  | NaN, _ | _, NaN => NaN
  | _, _ => if lt b a then b else a
  end.

Definition max (a b : number) : number :=
  match a, b with
  | NaN, _ | _, NaN => NaN
  | _, _ => if lt a b then b else a
  end.

(** [Math.min(...xs)] and [Math.max(...xs)]. *)
Definition min_list (xs : list number) : number := foldr min PInf xs.
Definition max_list (xs : list number) : number := foldr max NInf xs.

Definition floor (a : number) : number :=
  match a with Num x => Num (inject_Z (Qfloor x)) | _ => a end.

Definition ceil (a : number) : number :=
  match a with Num x => Num (inject_Z (Qceiling x)) | _ => a end.

(** [Math.round]: the nearest integer, a tie going up. *)
Definition round (a : number) : number :=
  match a with Num x => Num (inject_Z (Qfloor (x + (1 # 2)))) | _ => a end.

(** [Number(x.toFixed(2))]: the nearest multiple of 1/100, a tie going
    away from zero; numbers of magnitude 1e21 and more, the infinities and
    [NaN] print as themselves. *)
Definition toFixed2 (a : number) : number :=
  match a with
  | Num x =>
      if Qle_bool (inject_Z (10 ^ 21)%Z) (Qabs x) then a
      else
        let n := Qfloor (Qabs x * 100 + (1 # 2)) in
        match sgn x with
        | Lt => Num (- (inject_Z n / 100))
        | _ => Num (inject_Z n / 100)
        end
  | _ => a
  end.

Definition of_Z (z : Z) : number := Num (inject_Z z).
Definition of_nat (n : nat) : number := Num (inject_Z (Z.of_nat n)).

End JS.

(** Two numbers denote the same value. *)
Definition num_eqv (a b : number) : Prop :=
  match a, b with
  | Num x, Num y => x == y
  | PInf, PInf | NInf, NInf | NaN, NaN => True
  | _, _ => False
  end.

(** [a] is a finite number within [[lo, hi]]. *)
Definition within (lo hi : Q) (a : number) : Prop :=
  match a with Num x => lo <= x /\ x <= hi | _ => False end.

Definition clamp (value min max : number) : number :=
  JS.max min (JS.min max value).

(** ** The runtime *)

(** A valid [Date] is its time value, the milliseconds since the epoch; an
    invalid [Date] (time value [NaN]) is [None]. *)
Definition Date : Type := Z.

Class Platform : Type := {
  (** [new Date(s)]: [None] for an invalid date. *)
  Date_parse : string -> option Date;
  (** [Date.now()], also the time of [new Date()]. *)
  Date_now : Date;
  (** [d.toISOString()] of a valid date. *)
  Date_toISOString : Date -> string;
  Math_sqrt : number -> number;
  Math_exp : number -> number;
  (** [Math.log(2)]. *)
  Math_log2 : number;
}.

(** What a function that can raise an exception produces. *)
Inductive completion (A : Type) : Type :=
| Return (a : A)
| Throw (error : string).
Arguments Return {A} a.
Arguments Throw {A} error.

Definition ms_per_day : Z := (1000 * 60 * 60 * 24)%Z.

(** [Array.prototype.sort(cmp)]: each element in turn moves left past the
    elements it compares strictly below ([cmp x y < 0]); [sorted_rev] is the
    sorted prefix, last element first. *)
Section Sort.
Context {A : Type} (cmp : A -> A -> number).

Fixpoint sort_insert (x : A) (sorted_rev : list A) : list A :=
  match sorted_rev with
  | [] => [x]
  | y :: rest =>
      if JS.lt (cmp x y) (Num 0) then y :: sort_insert x rest
      else x :: sorted_rev
  end.

Definition js_sort (xs : list A) : list A :=
  rev (fold_left (fun acc x => sort_insert x acc) xs []).
End Sort.

(** [xs.slice(start, end)] for indices within range or beyond the end. *)
Definition slice {A : Type} (start stop : nat) (xs : list A) : list A :=
  take (stop - start) (drop start xs).

(** [xs.slice(-n)]. *)
Definition slice_last {A : Type} (n : nat) (xs : list A) : list A :=
  drop (length xs - n) xs.

(** ** Series utilities ([utils/series.ts]) *)

Class DatedValue (T : Type) : Type := report_period : T -> string.

Record TtmPoint : Type := mkPoint {
  point_period : string;
  value : number;
}.

#[global] Instance TtmPoint_dated : DatedValue TtmPoint := point_period.

Section Series.
Context `{P : Platform}.

Definition parseReportDate (value : string) : option Date :=
  Date_parse value.

Definition compareReportPeriod {T} `{DatedValue T} (a b : T) : number :=
  match parseReportDate (report_period a),
        parseReportDate (report_period b) with
  | Some da, Some db => JS.of_Z (da - db)
  | _, _ => Num 0
  end.

Definition sortByReportPeriod {T} `{DatedValue T} (rows : list T) : list T :=
  js_sort compareReportPeriod rows.

Definition sort_numbers (values : list number) : list number :=
  js_sort (fun a b => JS.sub a b) values.

(** [sorted[i]] of an index within range; [NaN] stands for the [undefined]
    of a read out of range, which arithmetic turns into [NaN]. *)
Definition at_index (xs : list number) (i : nat) : number :=
  default NaN (xs !! i).

Definition median (values : list number) : option number :=
  if decide (length values = 0%nat) then None
  else
    let sorted := sort_numbers values in
    let mid := (length sorted / 2)%nat in
    if decide ((length sorted mod 2)%nat = 0%nat) then
      Some (JS.div (JS.add (at_index sorted (mid - 1)) (at_index sorted mid))
                   (Num 2))
    else Some (at_index sorted mid).

(** An array index computed as a number: [sorted[idx]] is [undefined]
    unless [idx] is a non-negative integer within range. *)
Definition at_number (xs : list number) (idx : number) : number :=
  match idx with
  | Num q =>
      if Qeq_bool q (inject_Z (Qfloor q)) && (0 <=? Qfloor q)%Z
      then at_index xs (Z.to_nat (Qfloor q))
      else NaN
  | _ => NaN
  end.

Definition percentile (values : list number) (p : number) : option number :=
  if decide (length values = 0%nat) then None
  else
    let sorted := sort_numbers values in
    let idx := JS.mul (JS.of_nat (length sorted - 1)) p in
    let lower := JS.floor idx in
    let upper := JS.ceil idx in
    if JS.eq lower upper then Some (at_number sorted lower)
    else
      let weight := JS.sub idx lower in
      Some (JS.add (JS.mul (at_number sorted lower) (JS.sub (Num 1) weight))
                   (JS.mul (at_number sorted upper) weight)).

Definition percentileRank (values : list number) (value : number)
  : option number :=
  if decide (length values = 0%nat) then None
  else
    let sorted := sort_numbers values in
    let count :=
      fold_left (fun count v => if JS.le v value then S count else count)
                sorted 0%nat in
    Some (JS.div (JS.of_nat count) (JS.of_nat (length sorted))).

Definition sum_numbers (values : list number) : number :=
  fold_left JS.add values (Num 0).

Definition stdev (values : list number) : option number :=
  if decide (length values = 0%nat) then None
  else
    let n := JS.of_nat (length values) in
    let avg := JS.div (sum_numbers values) n in
    let variance :=
      JS.div
        (fold_left
           (fun sum v => JS.add sum (JS.mul (JS.sub v avg) (JS.sub v avg)))
           values (Num 0))
        n in
    Some (Math_sqrt variance).

Definition slope (values : list number) : option number :=
  if decide (length values < 2)%nat then None
  else
    let first := at_index values 0 in
    let last := at_index values (length values - 1) in
    Some (JS.div (JS.sub last first) (JS.of_nat (length values - 1))).

(** A value is missing when it is [null], [undefined] or [NaN]. *)
Definition missing (v : option number) : bool :=
  match v with
  | None => true
  | Some n => JS.isNaN n
  end.

Definition sum (values : list (option number)) : option number :=
  if existsb missing values then None
  else Some (fold_left (fun acc v => JS.add acc (default NaN v)) values
                       (Num 0)).

(** One turn of the loop of [rollingTtmSeries], at index [i]. *)
Definition ttm_step {T} `{DatedValue T} (sorted : list T)
    (getValue : T -> option number) (i : nat) : list TtmPoint :=
  let slice := slice (i - 3) (i + 1) sorted in
  let values := map getValue slice in
  match sum values, sorted !! i with
  | Some total, Some row => [mkPoint (report_period row) total]
  | _, _ => []
  end.

Definition rollingTtmSeries {T} `{DatedValue T} (rows : list T)
    (getValue : T -> option number) : list TtmPoint :=
  let sorted := sortByReportPeriod rows in
  flat_map (ttm_step sorted getValue) (seq 3 (length sorted - 3)).

(** The state of the loop of [nearestByDate]: the best row and its
    distance in days. *)
Definition nearest_step {T} `{DatedValue T} (targetDate : Date)
    (maxDaysDiff : number) (best : option (T * number)) (row : T)
  : option (T * number) :=
  match parseReportDate (report_period row) with
  | None => best
  | Some date =>
      let diff := JS.div (JS.abs (JS.of_Z (date - targetDate)))
                         (JS.of_Z ms_per_day) in
      if JS.gt diff maxDaysDiff then best
      else
        match best with
        | None => Some (row, diff)
        | Some (_, best_diff) =>
            if JS.lt diff best_diff then Some (row, diff) else best
        end
  end.

Definition nearestByDate {T} `{DatedValue T} (rows : list T)
    (targetDate : Date) (maxDaysDiff : number) : option T :=
  let sorted := sortByReportPeriod rows in
  fst <$> fold_left (nearest_step targetDate maxDaysDiff) sorted None.

End Series.

(** The vocabulary of the properties of [sortByReportPeriod]. *)
Section SortVocabulary.
Context `{P : Platform} {T : Type} `{DatedValue T}.

Definition parsed_date (row : T) : option Date :=
  parseReportDate (report_period row).

(** The date of [row] does not parse. *)
Definition unparseable (row : T) : bool :=
  match parsed_date row with Some _ => false | None => true end.

(** The date of [row] parses to [d]. *)
Definition has_date (d : Date) (row : T) : bool :=
  match parsed_date row with Some d' => (d' =? d)%Z | None => false end.

(** Every two rows of [rows] whose dates parse are in non-decreasing order
    of date. *)
Definition dates_ascending (rows : list T) : Prop :=
  forall i j a b da db,
    (i < j)%nat -> rows !! i = Some a -> rows !! j = Some b ->
    parsed_date a = Some da -> parsed_date b = Some db -> (da <= db)%Z.

End SortVocabulary.

(** ** Strings *)

Local Open Scope string_scope.
Local Open Scope list_scope.

Definition ascii_upper (c : ascii) : ascii :=
  let n := nat_of_ascii c in
  if ((97 <=? n) && (n <=? 122))%nat then ascii_of_nat (n - 32) else c.

Definition ascii_lower (c : ascii) : ascii :=
  let n := nat_of_ascii c in
  if ((65 <=? n) && (n <=? 90))%nat then ascii_of_nat (n + 32) else c.

Fixpoint string_map (f : ascii -> ascii) (s : string) : string :=
  match s with
  | EmptyString => EmptyString
  | String c rest => String (f c) (string_map f rest)
  end.

(** [s.toUpperCase()] and [s.toLowerCase()] of an ASCII string. *)
Definition toUpperCase (s : string) : string := string_map ascii_upper s.
Definition toLowerCase (s : string) : string := string_map ascii_lower s.

(** [text.includes(pattern)]. *)
Fixpoint includes (text pattern : string) : bool :=
  String.prefix pattern text
  || match text with
     | EmptyString => false
     | String _ rest => includes rest pattern
     end.

(** A string is truthy unless it is empty; an absent one is falsy. *)
Definition truthy_string (s : option string) : bool :=
  match s with
  | Some s => negb (String.eqb s "")
  | None => false
  end.

(** Truthiness of [number | null | undefined]. *)
Definition truthy (v : option number) : bool :=
  match v with
  | Some n => JS.truthy n
  | None => false
  end.

(** The distinct elements of [xs] in the order of their first occurrence:
    the iteration order of [new Set(xs)]. *)
Fixpoint set_of (xs : list string) : list string :=
  match xs with
  | [] => []
  | x :: rest => x :: List.filter (fun y => negb (String.eqb x y)) (set_of rest)
  end.

Definition set_has (s : list string) (x : string) : bool :=
  existsb (String.eqb x) s.

(** ** Business Resilience Score ([utils/brs.ts]) *)

Module CompanyFacts.
Record t : Type := mk {
  ticker : string;
  sector : option string;
  industry : option string;
}.
End CompanyFacts.

Module IncomeStatement.
Record t : Type := mk {
  report_period : string;
  revenue : option number;
  gross_profit : option number;
  ebit : option number;
  interest_expense : option number;
}.
End IncomeStatement.

Module BalanceSheet.
Record t : Type := mk {
  report_period : string;
  total_debt : option number;
  cash_and_equivalents : option number;
}.
End BalanceSheet.

Module CashFlowStatement.
Record t : Type := mk {
  report_period : string;
  depreciation_and_amortization : option number;
  net_cash_flow_from_operations : option number;
  free_cash_flow : option number;
  capital_expenditure : option number;
  dividends_and_other_cash_distributions : option number;
  issuance_or_purchase_of_equity_shares : option number;
  share_based_compensation : option number;
}.
End CashFlowStatement.

Module MetricsPoint.
Record t : Type := mk {
  report_period : string;
  enterprise_value_to_ebitda_ratio : option number;
  free_cash_flow_yield : option number;
  return_on_invested_capital : option number;
  interest_coverage : option number;
  gross_margin : option number;
  market_cap : option number;
  enterprise_value : option number;
}.
End MetricsPoint.

Module UniverseMetric.
Record t : Type := mk {
  ticker : string;
  sector : option string;
  industry : option string;
  ev_to_ebitda : option number;
  roic_series : option (list TtmPoint);
}.
End UniverseMetric.

#[global] Instance IncomeStatement_dated : DatedValue IncomeStatement.t :=
  IncomeStatement.report_period.
#[global] Instance BalanceSheet_dated : DatedValue BalanceSheet.t :=
  BalanceSheet.report_period.
#[global] Instance CashFlowStatement_dated : DatedValue CashFlowStatement.t :=
  CashFlowStatement.report_period.
#[global] Instance MetricsPoint_dated : DatedValue MetricsPoint.t :=
  MetricsPoint.report_period.

Module MedianBands.
Record t : Type := mk {
  cheap : number;
  mid : number;
  rich : number;
}.
End MedianBands.

Module BrsConfig.
Record t : Type := mk {
  min_peers : number;
  gm_stdev_threshold : number;
  low_history_gm_multiplier : number;
  winsor_low : number;
  winsor_high : number;
  median_bands : MedianBands.t;
}.

(** [Partial<BrsConfig>]: a key that is absent is [None]. *)
Record partial : Type := mkPartial {
  min_peers' : option number;
  gm_stdev_threshold' : option number;
  low_history_gm_multiplier' : option number;
  winsor_low' : option number;
  winsor_high' : option number;
  median_bands' : option MedianBands.t;
}.

Definition no_override : partial :=
  mkPartial None None None None None None.

(** [{ ...base, ...over }]. *)
Definition merge (base : t) (over : partial) : t :=
  {| min_peers := default (min_peers base) (min_peers' over);
     gm_stdev_threshold :=
       default (gm_stdev_threshold base) (gm_stdev_threshold' over);
     low_history_gm_multiplier :=
       default (low_history_gm_multiplier base)
               (low_history_gm_multiplier' over);
     winsor_low := default (winsor_low base) (winsor_low' over);
     winsor_high := default (winsor_high base) (winsor_high' over);
     median_bands := default (median_bands base) (median_bands' over) |}.
End BrsConfig.

Definition DEFAULT_BRS_CONFIG : BrsConfig.t :=
  {| BrsConfig.min_peers := Num 15;
     BrsConfig.gm_stdev_threshold := Num 0.02;
     BrsConfig.low_history_gm_multiplier := Num 0.5;
     BrsConfig.winsor_low := Num 0.05;
     BrsConfig.winsor_high := Num 0.95;
     BrsConfig.median_bands :=
       {| MedianBands.cheap := Num 0.7;
          MedianBands.mid := Num 1.0;
          MedianBands.rich := Num 1.3 |} |}.

Module BrsInputs.
Record t : Type := mk {
  ticker : string;
  company_facts : list CompanyFacts.t;
  income_statements : list IncomeStatement.t;
  balance_sheets : list BalanceSheet.t;
  cash_flow_statements : list CashFlowStatement.t;
  metrics_history : list MetricsPoint.t;
  universe_metrics : list UniverseMetric.t;
  config : option BrsConfig.partial;
}.
End BrsInputs.

Module BrsScores.
Record t : Type := mk {
  valuation_sanity : number;
  cash_truth_quality : number;
  capital_efficiency : number;
  balance_sheet_risk : number;
  durability_alignment : number;
  total : number;
}.
End BrsScores.

Module BrsSubscores.
Record t : Type := mk {
  ev_to_ebitda : number;
  fcf_yield : number;
  cash_conversion : number;
  fcf_conversion : number;
  roic_vs_wacc : number;
  incremental_roic : number;
  net_debt_to_ebitda : number;
  interest_coverage : number;
  gross_margin_stability : number;
  shareholder_yield : number;
  sbc_to_fcf : number;
}.
End BrsSubscores.

Module BrsResult.
Record t : Type := mk {
  ticker : string;
  asof_date : option string;
  scores : BrsScores.t;
  subscores : BrsSubscores.t;
  warnings : list string;
}.
End BrsResult.

Inductive PeerLevel : Type :=
| level_industry
| level_sector
| level_universe
| level_median.

#[global] Instance PeerLevel_eq_dec : EqDecision PeerLevel.
Proof. solve_decision. Defined.


Section Brs.
Context `{P : Platform}.

Definition latestReportDate {T} `{DatedValue T} (rows : list T)
  : option Date :=
  let sorted := sortByReportPeriod rows in
  match sorted !! (length sorted - 1)%nat with
  | None => None
  | Some last => parseReportDate (report_period last)
  end.

(** [a || b] on [Date | null]: a [Date] object is truthy. *)
Definition or_else {A} (a b : option A) : option A :=
  match a with Some _ => a | None => b end.

(** The entries [{ d, date }] of the candidate periods whose date parses,
    sorted by date. *)
Definition sorted_candidates (candidates : list string)
  : list (string * Date) :=
  js_sort (fun a b => JS.of_Z (snd a - snd b))
    (omap (fun d => pair d <$> parseReportDate d) candidates).

(** The report periods that the three statements have in common, in the
    order of the income statements: [candidates] of [resolveAsofDate]. *)
Definition asof_candidates (income : list IncomeStatement.t)
    (balance : list BalanceSheet.t) (cashflow : list CashFlowStatement.t)
  : list string :=
  let incomeDates := set_of (map report_period income) in
  let balanceDates := set_of (map report_period balance) in
  let cashDates := set_of (map report_period cashflow) in
  List.filter (fun d => set_has balanceDates d && set_has cashDates d)
              incomeDates.

(** [resolveAsofDate] of [brs.ts]. When every common period fails to parse,
    [sorted] is empty and reading [.date] of [sorted[-1]] raises a
    [TypeError]. *)
Definition resolveAsofDate (income : list IncomeStatement.t)
    (balance : list BalanceSheet.t) (cashflow : list CashFlowStatement.t)
  : completion (option Date * list string) :=
  let candidates := asof_candidates income balance cashflow in
  if decide (0 < length candidates)%nat then
    let sorted := sorted_candidates candidates in
    match sorted !! (length sorted - 1)%nat with
    | Some entry => Return (Some (snd entry), [])
    | None => Throw "TypeError"
    end
  else
    Return (or_else (latestReportDate income)
              (or_else (latestReportDate balance) (latestReportDate cashflow)),
            ["asof_misalignment"]).

(** [n] is positive at every call. *)
Definition lastNRows {T} `{DatedValue T} (rows : list T) (asofDate : Date)
    (n : nat) : list T :=
  let sorted := sortByReportPeriod rows in
  let filtered :=
    List.filter
      (fun row =>
         match parseReportDate (report_period row) with
         | Some date => (date <=? asofDate)%Z
         | None => false
         end)
      sorted in
  slice_last n filtered.

Definition sumTtm {T} `{DatedValue T} (rows : list T) (asofDate : Date)
    (getValue : T -> option number) : option number :=
  let slice := lastNRows rows asofDate 4 in
  if decide (length slice < 4)%nat then None
  else sum (map getValue slice).

Definition scoreEvToEbitdaPercentile (percentileRankValue : option number)
  : number * list string :=
  match percentileRankValue with
  | None => (Num 0, ["missing_peer_ev_to_ebitda"])
  | Some rank =>
      if JS.le rank (Num 0.3) then (Num 15, [])
      else if JS.le rank (Num 0.6) then (Num 10, [])
      else if JS.le rank (Num 0.8) then (Num 5, [])
      else (Num 0, [])
  end.

Definition scoreEvToEbitdaMedian (value medianValue : option number)
    (medianBands : MedianBands.t) : number * list string :=
  match value, medianValue with
  | Some value, Some medianValue =>
      if JS.eq medianValue (Num 0) then (Num 0, ["missing_peer_ev_to_ebitda"])
      else
        let ratio := JS.div value medianValue in
        if JS.le ratio (MedianBands.cheap medianBands) then (Num 15, [])
        else if JS.le ratio (MedianBands.mid medianBands) then (Num 10, [])
        else if JS.le ratio (MedianBands.rich medianBands) then (Num 5, [])
        else (Num 0, [])
  | _, _ => (Num 0, ["missing_peer_ev_to_ebitda"])
  end.

Definition winsorize (values : list number) (pLow pHigh : number)
  : list number :=
  match percentile values pLow, percentile values pHigh with
  | Some low, Some high =>
      map (fun v => JS.min high (JS.max low v)) values
  | _, _ => values
  end.

Definition scoreFcfYield (value : option number) : number :=
  match value with
  | None => Num 0
  | Some value =>
      if JS.gt value (Num 0.10) then Num 10
      else if JS.ge value (Num 0.06) then Num 7
      else if JS.ge value (Num 0.03) then Num 4
      else Num 0
  end.

Definition scoreCashConversion (value : option number) : number :=
  match value with
  | None => Num 0
  | Some value =>
      if JS.gt value (Num 0.90) then Num 10
      else if JS.ge value (Num 0.70) then Num 7
      else if JS.ge value (Num 0.50) then Num 3
      else Num 0
  end.

Definition scoreFcfConversion (value : option number) : number :=
  match value with
  | None => Num 0
  | Some value =>
      if JS.gt value (Num 0.60) then Num 10
      else if JS.ge value (Num 0.40) then Num 6
      else if JS.ge value (Num 0.20) then Num 3
      else Num 0
  end.

Definition normalizeRoicSeries (series : list TtmPoint) : list number :=
  let sorted := sortByReportPeriod series in
  map value (slice_last 8 sorted).

(** One turn of the year-over-year loop, at index [i >= 4]. *)
Definition yoy_step (sorted : list TtmPoint) (i : nat) : list number :=
  match sorted !! i, sorted !! (i - 4)%nat with
  | Some current, Some prev =>
      if JS.eq (value prev) (Num 0) then []
      else [JS.sub (JS.div (value current) (value prev)) (Num 1)]
  | _, _ => []
  end.

(** The growths collected by the loop [for (i = 4; i < sorted.length; ...)]. *)
Definition computeYoYGrowth (series : list TtmPoint) : list number :=
  let sorted := sortByReportPeriod series in
  flat_map (yoy_step sorted) (seq 4 (length sorted - 4)).

Definition growthFromSeries (series : list TtmPoint) : option number :=
  median (computeYoYGrowth series).

Definition scoreIncrementalRoic (roicSeries ebitdaSeries : option (list TtmPoint))
  : number * list string :=
  let growth0 := roicSeries ≫= growthFromSeries in
  let '(growth, w1) :=
    match growth0, ebitdaSeries with
    | None, Some ebitdaSeries =>
        let growth := growthFromSeries ebitdaSeries in
        (growth,
         if growth is Some _ then ["incremental_roic_proxy_ebitda"] else [])
    | _, _ => (growth0, [])
    end in
  match growth with
  | None => (Num 0, w1 ++ ["missing_incremental_roic"])
  | Some growth =>
      if JS.gt growth (Num 0.15) then (Num 10, w1)
      else if JS.ge growth (Num 0.08) then (Num 6, w1)
      else (Num 0, w1)
  end.

Definition scoreGrossMarginStability (gmSeries : list number)
    (config : BrsConfig.t) : number * list string :=
  if decide (length gmSeries < 4)%nat then
    (Num 0, ["missing_gross_margin_history"])
  else
    let seriesToUse := slice_last 8 gmSeries in
    match slope seriesToUse, stdev seriesToUse with
    | Some gmSlope, Some gmStdev =>
        let isStable :=
          JS.ge gmSlope (Num 0)
          && JS.le gmStdev (BrsConfig.gm_stdev_threshold config) in
        let score := if isStable then Num 5 else Num 0 in
        if decide (length gmSeries < 8)%nat then
          (JS.round (JS.mul score (BrsConfig.low_history_gm_multiplier config)),
           ["low_gross_margin_history"])
        else (score, [])
    | _, _ => (Num 0, ["missing_gross_margin_history"])
    end.

(** The margin of one row of [buildGmSeries], before the filter. *)
Definition gm_of_row (revenue gross : option number) : option number :=
  if negb (truthy revenue) || negb (truthy gross) then None
  else Some (JS.div (default NaN gross) (default NaN revenue)).

Definition is_finite (v : option number) : bool :=
  match v with Some n => JS.isFinite n | None => false end.

(** [xs.filter((v) => v !== null && Number.isFinite(v))]. *)
Definition finite_values (xs : list (option number)) : list number :=
  omap (fun v => if is_finite v then v else None) xs.

Definition buildGmSeries (income : list IncomeStatement.t) : list number :=
  let sorted := sortByReportPeriod income in
  finite_values
    (map (fun row => gm_of_row (IncomeStatement.revenue row)
                               (IncomeStatement.gross_profit row))
         sorted).

Definition resolveCompanyFacts (ticker : string) (facts : list CompanyFacts.t)
  : option CompanyFacts.t :=
  List.find
    (fun f => String.eqb (toUpperCase (CompanyFacts.ticker f))
                         (toUpperCase ticker))
    facts.

(** [u.industry === industry] for an [industry] that is a non-empty string. *)
Definition same_group (mine : option string) (theirs : option string) : bool :=
  match mine, theirs with
  | Some a, Some b => String.eqb b a
  | _, _ => false
  end.

(** The constants [byIndustry] and [bySector] of [resolvePeerSet]. *)
Definition byIndustry (ticker : string) (facts : list CompanyFacts.t)
    (universe : list UniverseMetric.t) : list UniverseMetric.t :=
  let industry := resolveCompanyFacts ticker facts ≫= CompanyFacts.industry in
  if truthy_string industry
  then List.filter (fun u => same_group industry (UniverseMetric.industry u))
                   universe
  else [].

Definition bySector (ticker : string) (facts : list CompanyFacts.t)
    (universe : list UniverseMetric.t) : list UniverseMetric.t :=
  let sector := resolveCompanyFacts ticker facts ≫= CompanyFacts.sector in
  if truthy_string sector
  then List.filter (fun u => same_group sector (UniverseMetric.sector u))
                   universe
  else [].

(** [peers.length >= minPeers]. *)
Definition reaches (peers : list UniverseMetric.t) (minPeers : number) : bool :=
  JS.ge (JS.of_nat (length peers)) minPeers.

Definition resolvePeerSet (ticker : string) (facts : list CompanyFacts.t)
    (universe : list UniverseMetric.t) (minPeers : number)
  : list UniverseMetric.t * PeerLevel :=
  let byIndustry := byIndustry ticker facts universe in
  if reaches byIndustry minPeers then (byIndustry, level_industry)
  else
    let bySector := bySector ticker facts universe in
    if reaches bySector minPeers then (bySector, level_sector)
    else if reaches universe minPeers then (universe, level_universe)
    else (if decide (0 < length bySector)%nat then bySector else universe,
          level_median).

Definition medianRoicFromPeers (peers : list UniverseMetric.t)
  : option number * list string :=
  let peerMedians :=
    finite_values
      (map (fun peer =>
              match UniverseMetric.roic_series peer with
              | None | Some [] => None
              | Some series => median (normalizeRoicSeries series)
              end)
           peers) in
  let med := median peerMedians in
  (med, if med is None then ["missing_wacc_proxy"] else []).

(** The [value] of the first point of [series] for the period [period]:
    [series.find((item) => item.report_period === period)?.value ?? null]. *)
Definition value_at (series : list TtmPoint) (period : string)
  : option number :=
  value <$> List.find (fun item => String.eqb (point_period item) period) series.

(** The EBITDA series: TTM EBIT plus the TTM D&A of the same period. *)
Definition buildEbitdaSeries (income : list IncomeStatement.t)
    (cashflow : list CashFlowStatement.t) : list TtmPoint :=
  let ebitTtm := rollingTtmSeries income IncomeStatement.ebit in
  let dAndATtm :=
    rollingTtmSeries cashflow CashFlowStatement.depreciation_and_amortization in
  omap
    (fun row =>
       match value_at dAndATtm (point_period row) with
       | None => None
       | Some dAndA =>
           Some (mkPoint (point_period row) (JS.add (value row) dAndA))
       end)
    ebitTtm.

Definition push_if (cond : bool) (code : string) : list string :=
  if cond then [code] else [].

Definition is_null {A} (v : option A) : bool :=
  match v with None => true | Some _ => false end.

Definition non_empty {A} (xs : list A) : option (list A) :=
  if decide (0 < length xs)%nat then Some xs else None.

End Brs.

(** The local constants of [computeBrs], under their names in the source. *)
Module BrsLocals.
Record t : Type := mk {
  config : BrsConfig.t;
  asofDate : option Date;
  metricsAsOf : option MetricsPoint.t;
  revenueTtm : option number;
  grossProfitTtm : option number;
  ebitTtm : option number;
  interestExpenseTtm : option number;
  dAndATtm : option number;
  ocfTtm : option number;
  fcfTtm : option number;
  capexTtm : option number;
  dividendsTtm : option number;
  buybacksTtm : option number;
  sbcTtm : option number;
  ebitdaTtm : option number;
  balanceAsOf : option BalanceSheet.t;
  netDebt : option number;
  marketCap : option number;
  evToEbitda : option number;
  fcfYield : option number;
  cashConversion : option number;
  fcfConversion : option number;
  roic : option number;
  roicSeries : list TtmPoint;
  peerInfo : list UniverseMetric.t * PeerLevel;
  peerValues : list number;
  winsorizedPeers : list number;
  evPercentile : option number;
  evScore : number;
  fcfYieldScore : number;
  cashConversionScore : number;
  fcfConversionScore : number;
  waccProxy : option number;
  roicVsWaccScore : number;
  ebitdaSeries : list TtmPoint;
  incrementalRoicScore : number;
  netDebtToEbitda : option number;
  netDebtScore : number;
  interestCoverage : option number;
  interestCoverageScore : number;
  gmSeries : list number;
  grossMarginScore : number;
  shareholderYieldScore : number;
  sbcToFcfScore : number;
  valuationSanity : number;
  cashTruthQuality : number;
  capitalEfficiency : number;
  balanceSheetRisk : number;
  durabilityAlignment : number;
  total : number;
  warnings : list string;
}.
End BrsLocals.

Section ComputeBrs.
Context `{P : Platform}.

(** [a && b ? a / b : null]. *)
Definition ratio_if_truthy (a b : option number) : option number :=
  if truthy a && truthy b
  then Some (JS.div (default NaN a) (default NaN b))
  else None.

(** [a ?? b]. *)
Definition coalesce {A} (a b : option A) : option A :=
  match a with Some _ => a | None => b end.

(** The body of [computeBrs] after the as-of date is resolved; [w_asof] are
    the warnings pushed by [resolveAsofDate]. *)
Definition brs_locals (inputs : BrsInputs.t) (asofDate : option Date)
    (w_asof : list string) : BrsLocals.t :=
  let config :=
    BrsConfig.merge DEFAULT_BRS_CONFIG
      (default BrsConfig.no_override (BrsInputs.config inputs)) in
  let w_asof_missing := push_if (is_null asofDate) "missing_asof_date" in
  let metricsAsOf :=
    asofDate ≫= fun d => nearestByDate (BrsInputs.metrics_history inputs) d (Num 5) in
  let income_ttm (getValue : IncomeStatement.t -> option number) :=
    asofDate ≫= fun d => sumTtm (BrsInputs.income_statements inputs) d getValue in
  let cash_ttm (getValue : CashFlowStatement.t -> option number) :=
    asofDate ≫= fun d =>
      sumTtm (BrsInputs.cash_flow_statements inputs) d getValue in
  let revenueTtm := income_ttm IncomeStatement.revenue in
  let grossProfitTtm := income_ttm IncomeStatement.gross_profit in
  let ebitTtm := income_ttm IncomeStatement.ebit in
  let interestExpenseTtm := income_ttm IncomeStatement.interest_expense in
  let dAndATtm := cash_ttm CashFlowStatement.depreciation_and_amortization in
  let ocfTtm := cash_ttm CashFlowStatement.net_cash_flow_from_operations in
  let fcfTtm := cash_ttm CashFlowStatement.free_cash_flow in
  let capexTtm := cash_ttm CashFlowStatement.capital_expenditure in
  let dividendsTtm :=
    cash_ttm CashFlowStatement.dividends_and_other_cash_distributions in
  let buybacksTtm :=
    cash_ttm CashFlowStatement.issuance_or_purchase_of_equity_shares in
  let sbcTtm := cash_ttm CashFlowStatement.share_based_compensation in
  let ebitdaTtm :=
    match ebitTtm, dAndATtm with
    | Some e, Some d => Some (JS.add e d)
    | _, _ => None
    end in
  let balanceAsOf :=
    asofDate ≫= fun d => nearestByDate (BrsInputs.balance_sheets inputs) d (Num 5) in
  let netDebt :=
    match balanceAsOf with
    | Some b =>
        match BalanceSheet.total_debt b, BalanceSheet.cash_and_equivalents b with
        | Some debt, Some cash => Some (JS.sub debt cash)
        | _, _ => None
        end
    | None => None
    end in
  let marketCap := metricsAsOf ≫= MetricsPoint.market_cap in
  let w_market_cap := push_if (is_null marketCap) "missing_market_cap" in
  let evToEbitda :=
    coalesce (metricsAsOf ≫= MetricsPoint.enterprise_value_to_ebitda_ratio)
             (ratio_if_truthy (metricsAsOf ≫= MetricsPoint.enterprise_value)
                              ebitdaTtm) in
  let fcfYield :=
    coalesce (metricsAsOf ≫= MetricsPoint.free_cash_flow_yield)
             (ratio_if_truthy fcfTtm marketCap) in
  let w_fcf_yield := push_if (is_null fcfYield) "missing_fcf_yield" in
  let cashConversion := ratio_if_truthy ocfTtm ebitdaTtm in
  let fcfConversion := ratio_if_truthy fcfTtm ebitdaTtm in
  let w_cash_conversion :=
    push_if (is_null cashConversion) "missing_cash_conversion" in
  let w_fcf_conversion :=
    push_if (is_null fcfConversion) "missing_fcf_conversion" in
  let roic := metricsAsOf ≫= MetricsPoint.return_on_invested_capital in
  let w_roic := push_if (is_null roic) "missing_roic" in
  let roicSeries :=
    rollingTtmSeries (BrsInputs.metrics_history inputs)
                     MetricsPoint.return_on_invested_capital in
  let peerInfo :=
    resolvePeerSet (BrsInputs.ticker inputs) (BrsInputs.company_facts inputs)
                   (BrsInputs.universe_metrics inputs)
                   (BrsConfig.min_peers config) in
  let peerValues :=
    finite_values (map UniverseMetric.ev_to_ebitda (fst peerInfo)) in
  let winsorizedPeers :=
    winsorize peerValues (BrsConfig.winsor_low config)
              (BrsConfig.winsor_high config) in
  let evPercentile :=
    match evToEbitda with
    | Some ev =>
        if decide (0 < length winsorizedPeers)%nat then
          percentileRank winsorizedPeers
            (clamp ev (JS.min_list winsorizedPeers)
                      (JS.max_list winsorizedPeers))
        else None
    | None => None
    end in
  let evScore_and_warnings :=
    if decide (snd peerInfo = level_median) then
      let scored :=
        scoreEvToEbitdaMedian evToEbitda (median peerValues)
                              (BrsConfig.median_bands config) in
      (fst scored, "peer_set_too_small" :: snd scored)
    else scoreEvToEbitdaPercentile evPercentile in
  let evScore := fst evScore_and_warnings in
  let w_ev := snd evScore_and_warnings in
  let fcfYieldScore := scoreFcfYield fcfYield in
  let cashConversionScore := scoreCashConversion cashConversion in
  let fcfConversionScore := scoreFcfConversion fcfConversion in
  let waccProxy_and_warnings :=
    medianRoicFromPeers
      (match snd peerInfo with
       | level_sector | level_industry => fst peerInfo
       | _ => BrsInputs.universe_metrics inputs
       end) in
  let waccProxy := fst waccProxy_and_warnings in
  let w_wacc := snd waccProxy_and_warnings in
  let roicVsWaccScore :=
    match roic, waccProxy with
    | Some roic, Some waccProxy =>
        if JS.ge roic (JS.add waccProxy (Num 0.05)) then Num 15
        else if JS.ge roic waccProxy then Num 10
        else Num 0
    | _, _ => Num 0
    end in
  let ebitdaSeries :=
    buildEbitdaSeries (BrsInputs.income_statements inputs)
                      (BrsInputs.cash_flow_statements inputs) in
  let incrementalRoicScore_and_warnings :=
    scoreIncrementalRoic (non_empty roicSeries) (non_empty ebitdaSeries) in
  let incrementalRoicScore := fst incrementalRoicScore_and_warnings in
  let w_incremental := snd incrementalRoicScore_and_warnings in
  let netDebtToEbitda :=
    match netDebt with
    | Some nd =>
        if truthy ebitdaTtm then Some (JS.div nd (default NaN ebitdaTtm))
        else None
    | None => None
    end in
  let netDebtScore :=
    match netDebtToEbitda with
    | None => Num 0
    | Some r =>
        if JS.lt r (Num 2) then Num 10
        else if JS.le r (Num 4) then Num 5
        else Num 0
    end in
  let w_net_debt := push_if (is_null netDebtToEbitda) "missing_net_debt" in
  let interestCoverage :=
    coalesce (metricsAsOf ≫= MetricsPoint.interest_coverage)
             (ratio_if_truthy ebitTtm interestExpenseTtm) in
  let interestCoverageScore :=
    match interestCoverage with
    | None => Num 0
    | Some c =>
        if JS.gt c (Num 8) then Num 5
        else if JS.ge c (Num 4) then Num 3
        else Num 0
    end in
  let w_interest :=
    push_if (is_null interestCoverage) "missing_interest_coverage" in
  let gmSeries := buildGmSeries (BrsInputs.income_statements inputs) in
  let grossMarginScore_and_warnings :=
    scoreGrossMarginStability gmSeries config in
  let grossMarginScore := fst grossMarginScore_and_warnings in
  let w_gm := snd grossMarginScore_and_warnings in
  let shareholderYieldScore_and_warnings :=
    match dividendsTtm, buybacksTtm with
    | Some dividends, Some buybacks =>
        if truthy marketCap then
          let netBuybacks := JS.neg buybacks in
          let shareholderYield :=
            JS.div (JS.add dividends netBuybacks) (default NaN marketCap) in
          (if JS.gt shareholderYield (Num 0.05) then Num 5
           else if JS.ge shareholderYield (Num 0.02) then Num 3
           else Num 0,
           [])
        else (Num 0, ["missing_shareholder_yield"])
    | _, _ => (Num 0, ["missing_shareholder_yield"])
    end in
  let shareholderYieldScore := fst shareholderYieldScore_and_warnings in
  let w_shareholder := snd shareholderYieldScore_and_warnings in
  let sbcToFcfScore_and_warnings :=
    match sbcTtm with
    | Some sbc =>
        if truthy fcfTtm && negb (JS.eq (default NaN fcfTtm) (Num 0)) then
          let sbcRatio := JS.div sbc (default NaN fcfTtm) in
          (if JS.lt sbcRatio (Num 0.10) then Num 5
           else if JS.le sbcRatio (Num 0.25) then Num 3
           else Num 0,
           [])
        else (Num 0, ["missing_sbc_or_fcf"])
    | None => (Num 0, ["missing_sbc_or_fcf"])
    end in
  let sbcToFcfScore := fst sbcToFcfScore_and_warnings in
  let w_sbc := snd sbcToFcfScore_and_warnings in
  let valuationSanity := JS.add evScore fcfYieldScore in
  let cashTruthQuality := JS.add cashConversionScore fcfConversionScore in
  let capitalEfficiency := JS.add roicVsWaccScore incrementalRoicScore in
  let balanceSheetRisk := JS.add netDebtScore interestCoverageScore in
  let durabilityAlignment :=
    JS.add (JS.add grossMarginScore shareholderYieldScore) sbcToFcfScore in
  let total :=
    JS.add (JS.add (JS.add (JS.add valuationSanity cashTruthQuality)
                           capitalEfficiency)
                   balanceSheetRisk)
           durabilityAlignment in
  let warnings :=
    w_asof ++ w_asof_missing ++ w_market_cap ++ w_fcf_yield
    ++ w_cash_conversion ++ w_fcf_conversion ++ w_roic ++ w_ev ++ w_wacc
    ++ w_incremental ++ w_net_debt ++ w_interest ++ w_gm ++ w_shareholder
    ++ w_sbc in
  BrsLocals.mk config asofDate metricsAsOf revenueTtm grossProfitTtm ebitTtm
    interestExpenseTtm dAndATtm ocfTtm fcfTtm capexTtm dividendsTtm
    buybacksTtm sbcTtm ebitdaTtm balanceAsOf netDebt marketCap evToEbitda
    fcfYield cashConversion fcfConversion roic roicSeries peerInfo peerValues
    winsorizedPeers evPercentile evScore fcfYieldScore cashConversionScore
    fcfConversionScore waccProxy roicVsWaccScore ebitdaSeries
    incrementalRoicScore netDebtToEbitda netDebtScore interestCoverage
    interestCoverageScore gmSeries grossMarginScore shareholderYieldScore
    sbcToFcfScore valuationSanity cashTruthQuality capitalEfficiency
    balanceSheetRisk durabilityAlignment total warnings.

(** [asofDate.toISOString().slice(0, 10)]. *)
Definition iso_day (d : Date) : string :=
  String.substring 0 10 (Date_toISOString d).

Definition brs_result (inputs : BrsInputs.t) (l : BrsLocals.t) : BrsResult.t :=
  {| BrsResult.ticker := BrsInputs.ticker inputs;
     BrsResult.asof_date := iso_day <$> BrsLocals.asofDate l;
     BrsResult.scores :=
       {| BrsScores.valuation_sanity := BrsLocals.valuationSanity l;
          BrsScores.cash_truth_quality := BrsLocals.cashTruthQuality l;
          BrsScores.capital_efficiency := BrsLocals.capitalEfficiency l;
          BrsScores.balance_sheet_risk := BrsLocals.balanceSheetRisk l;
          BrsScores.durability_alignment := BrsLocals.durabilityAlignment l;
          BrsScores.total := BrsLocals.total l |};
     BrsResult.subscores :=
       {| BrsSubscores.ev_to_ebitda := BrsLocals.evScore l;
          BrsSubscores.fcf_yield := BrsLocals.fcfYieldScore l;
          BrsSubscores.cash_conversion := BrsLocals.cashConversionScore l;
          BrsSubscores.fcf_conversion := BrsLocals.fcfConversionScore l;
          BrsSubscores.roic_vs_wacc := BrsLocals.roicVsWaccScore l;
          BrsSubscores.incremental_roic := BrsLocals.incrementalRoicScore l;
          BrsSubscores.net_debt_to_ebitda := BrsLocals.netDebtScore l;
          BrsSubscores.interest_coverage := BrsLocals.interestCoverageScore l;
          BrsSubscores.gross_margin_stability := BrsLocals.grossMarginScore l;
          BrsSubscores.shareholder_yield := BrsLocals.shareholderYieldScore l;
          BrsSubscores.sbc_to_fcf := BrsLocals.sbcToFcfScore l |};
     BrsResult.warnings := BrsLocals.warnings l |}.

(** [computeBrs]. The call of [logToFile] writes a log line and does not
    affect the result. *)
Definition computeBrs (inputs : BrsInputs.t) : completion BrsResult.t :=
  match resolveAsofDate (BrsInputs.income_statements inputs)
          (BrsInputs.balance_sheets inputs)
          (BrsInputs.cash_flow_statements inputs) with
  | Throw e => Throw e
  | Return (asofDate, w_asof) =>
      Return (brs_result inputs (brs_locals inputs asofDate w_asof))
  end.

End ComputeBrs.

(** ** Narrative shock classifier ([utils/narrative-shock.ts]) *)

Inductive SourceType : Type :=
| SEC_FILING
| EARNINGS_RELEASE
| PRESS_RELEASE
| NEWS.

#[global] Instance SourceType_eq_dec : EqDecision SourceType.
Proof. solve_decision. Defined.

Module NarrativeDoc.
Record t : Type := mk {
  source_type : SourceType;
  title : string;
  body : string;
  published_at : string;
  form_type : option string;
  filing_item : option string;
  url : option string;
  id : option string;
}.
End NarrativeDoc.

Module NarrativeShockParams.
Record t : Type := mk {
  window_days : number;
  recency_half_life_days : number;
  (** [source_weights[s]] is [None] for a key that the object lacks. *)
  source_weights : SourceType -> option number;
  max_points_per_event_class : option number;
  require_confirmation_for_accounting : bool;
  structural_threshold : number;
  primary_min_threshold : number;
  macro_threshold : number;
}.

(** [Partial<NarrativeShockParams>]: the keys that are present, with their
    values. *)
Record partial : Type := mkPartial {
  window_days' : option number;
  recency_half_life_days' : option number;
  source_weights' : option (SourceType -> option number);
  max_points_per_event_class' : option number;
  require_confirmation_for_accounting' : option bool;
  structural_threshold' : option number;
  primary_min_threshold' : option number;
  macro_threshold' : option number;
}.

Definition no_override : partial :=
  mkPartial None None None None None None None None.

(** [Partial<NarrativeShockParams> & { ticker?, window_end? }]. *)
Record options : Type := mkOptions {
  ticker : option string;
  window_end : option string;
  overrides : partial;
}.

Definition no_options : options := mkOptions None None no_override.

(** [{ ...base, ...over }]. *)
Definition merge (base : t) (over : partial) : t :=
  {| window_days := default (window_days base) (window_days' over);
     recency_half_life_days :=
       default (recency_half_life_days base) (recency_half_life_days' over);
     source_weights := default (source_weights base) (source_weights' over);
     max_points_per_event_class :=
       coalesce (max_points_per_event_class' over)
                (max_points_per_event_class base);
     require_confirmation_for_accounting :=
       default (require_confirmation_for_accounting base)
               (require_confirmation_for_accounting' over);
     structural_threshold :=
       default (structural_threshold base) (structural_threshold' over);
     primary_min_threshold :=
       default (primary_min_threshold base) (primary_min_threshold' over);
     macro_threshold := default (macro_threshold base) (macro_threshold' over) |}.
End NarrativeShockParams.

Inductive ShockType : Type :=
| ONE_OFF
| MACRO_ROTATION
| STRUCTURAL_RISK
| NONE.

Module TopMatch.
Record t : Type := mk {
  event_class : string;
  pattern : string;
  source_type : SourceType;
  published_at : string;
  weight : number;
}.
End TopMatch.

Module NarrativeShockResult.
Record t : Type := mk {
  ticker : option string;
  window_start : string;
  window_end : string;
  primary_event_class : string;
  shock_type : ShockType;
  severity_0_100 : number;
  structural_risk_0_100 : number;
  mds_narrative_shock_points : number;
  top_matches : list TopMatch.t;
  secondary_event_classes : list (string * number);
}.
End NarrativeShockResult.

Inductive Pattern : Type :=
| Literal (text : string)
| Composite (all : list string) (any : option (list string)) (label : string).

Module Points.
Record t : Type := mk {
  strong : number;
  weak : number;
}.
End Points.

Module EventClass.
Record t : Type := mk {
  id : string;
  priority : nat;
  strong : list Pattern;
  weak : list Pattern;
  severity : Points.t;
  structural : Points.t;
  cap : number;
}.
End EventClass.

Module ProcessedDoc.
Record t : Type := mk {
  source_type : SourceType;
  published_at : string;
  text : string;
  weight : number;
}.
End ProcessedDoc.

Module DocMatch.
Record t : Type := mk {
  doc : ProcessedDoc.t;
  strongMatches : list string;
  weakMatches : list string;
}.
End DocMatch.

Definition default_source_weights (s : SourceType) : option number :=
  Some match s with
       | SEC_FILING => Num 1.0
       | EARNINGS_RELEASE => Num 0.9
       | PRESS_RELEASE => Num 0.7
       | NEWS => Num 0.5
       end.

Definition DEFAULT_PARAMS : NarrativeShockParams.t :=
  {| NarrativeShockParams.window_days := Num 30;
     NarrativeShockParams.recency_half_life_days := Num 10;
     NarrativeShockParams.source_weights := default_source_weights;
     NarrativeShockParams.max_points_per_event_class := None;
     NarrativeShockParams.require_confirmation_for_accounting := true;
     NarrativeShockParams.structural_threshold := Num 50;
     NarrativeShockParams.primary_min_threshold := Num 10;
     NarrativeShockParams.macro_threshold := Num 10 |}.

Definition pts (strong weak : Q) : Points.t := Points.mk (Num strong) (Num weak).

Definition EVENT_CLASSES : list EventClass.t :=
  [ EventClass.mk "ACCOUNTING_RESTATEMENT" 1
      [ Literal "restate"; Literal "restatement";
        Literal "previously issued financial statements should no longer be relied upon";
        Literal "non-reliance"; Literal "revision of previously issued";
        Literal "error in previously issued" ]
      [ Literal "accounting error"; Literal "misstatement";
        Literal "reclassification" ]
      (pts 35 10) (pts 35 10) (Num 60);
    EventClass.mk "FRAUD_OR_INTERNAL_CONTROL" 2
      [ Literal "material weakness";
        Literal "internal control over financial reporting"; Literal "icfr";
        Literal "auditor resignation";
        Literal "resigned as our independent registered public accounting firm";
        Literal "sec investigation"; Literal "doj investigation" ]
      [ Literal "investigation"; Literal "whistleblower";
        Literal "irregularities" ]
      (pts 30 8) (pts 30 8) (Num 55);
    EventClass.mk "REGULATORY_OR_GOVERNMENT_ACTION" 3
      [ Literal "consent decree"; Literal "cease and desist";
        Literal "license suspended"; Literal "license revoked";
        Literal "regulatory settlement"; Literal "ban"; Literal "prohibited";
        Literal "fined" ]
      [ Literal "inquiry"; Literal "notice of violation"; Literal "regulator" ]
      (pts 25 6) (pts 20 4) (Num 45);
    EventClass.mk "LEGAL_LITIGATION" 4
      [ Literal "class action"; Literal "lawsuit"; Literal "litigation";
        Literal "settlement"; Literal "damages"; Literal "injunction" ]
      [ Literal "legal proceeding"; Literal "complaint" ]
      (pts 18 5) (pts 10 2) (Num 35);
    EventClass.mk "EXECUTIVE_CHANGE" 5
      [ Literal "ceo resign"; Literal "cfo resign";
        Literal "chief executive officer resigned"; Literal "terminated";
        Literal "effective immediately"; Literal "transition agreement" ]
      [ Literal "appointed as"; Literal "interim ceo" ]
      (pts 15 4) (pts 10 2) (Num 25);
    EventClass.mk "GUIDANCE_SHOCK_OR_EARNINGS_MISS" 6
      [ Literal "withdraw guidance"; Literal "suspending guidance";
        Literal "lowered guidance"; Literal "reduced outlook";
        Literal "missed expectations"; Literal "below expectations";
        Literal "materially below" ]
      [ Literal "headwinds"; Literal "soft demand"; Literal "pricing pressure";
        Literal "margin pressure" ]
      (pts 18 4) (pts 10 2) (Num 35);
    EventClass.mk "PRODUCT_RECALL_OR_SAFETY" 7
      [ Literal "recall"; Literal "safety issue"; Literal "product defect";
        Literal "injury"; Literal "fatality" ]
      [ Literal "quality issue" ]
      (pts 20 5) (pts 15 3) (Num 35);
    EventClass.mk "CYBERSECURITY_INCIDENT" 8
      [ Literal "data breach"; Literal "ransomware"; Literal "cyberattack";
        Literal "security incident"; Literal "unauthorized access" ]
      [ Literal "incident response"; Literal "forensic" ]
      (pts 18 4) (pts 8 2) (Num 30);
    EventClass.mk "CREDIT_LIQUIDITY_DISTRESS" 9
      [ Literal "going concern"; Literal "covenant breach"; Literal "default";
        Literal "liquidity shortfall"; Literal "refinancing";
        Literal "debt restructuring"; Literal "chapter 11" ]
      [ Literal "significant doubt"; Literal "liquidity"; Literal "cash burn" ]
      (pts 30 8) (pts 30 8) (Num 55);
    EventClass.mk "MAJOR_CONTRACT_OR_CUSTOMER_LOSS" 10
      [ Literal "terminated agreement"; Literal "customer churn";
        Literal "lost a major customer"; Literal "non-renewal";
        Literal "largest customer"; Literal "material customer" ]
      [ Literal "contract renewal"; Literal "pipeline weakness" ]
      (pts 20 5) (pts 20 5) (Num 40);
    EventClass.mk "M_AND_A_OR_STRATEGIC_REVIEW" 11
      [ Literal "strategic alternatives"; Literal "strategic review";
        Literal "exploring a sale"; Literal "acquisition"; Literal "merger" ]
      [ Literal "evaluate options" ]
      (pts 10 3) (pts 0 0) (Num 20);
    EventClass.mk "CAPITAL_STRUCTURE_ACTION" 12
      [ Literal "dividend cut"; Literal "suspend dividend";
        Literal "buyback suspended"; Literal "dilution";
        Literal "secondary offering"; Literal "at-the-market offering";
        Literal "atm offering" ]
      [ Literal "issue shares"; Literal "repurchase" ]
      (pts 12 3) (pts 8 2) (Num 25);
    EventClass.mk "MACRO_ROTATION" 13
      [ Literal "higher for longer"; Literal "interest rates";
        Literal "inflation"; Literal "recession"; Literal "soft landing";
        Literal "hard landing"; Literal "commodity cycle"; Literal "oil price";
        Literal "china slowdown" ]
      [ Literal "macro"; Literal "sector rotation" ]
      (pts 8 2) (pts 0 0) (Num 15);
    EventClass.mk "STRUCTURAL_MODEL_RISK" 14
      [ Literal "structural decline"; Literal "secular decline";
        Literal "demand destruction"; Literal "unit economics";
        Composite ["customer acquisition cost"] (Some ["rising"; "spiking"])
                  "customer acquisition cost + rising/spiking";
        Composite ["pricing power"] (Some ["lost"; "deteriorating"])
                  "pricing power + lost/deteriorating";
        Composite ["permanent"] (Some ["impairment"; "headwind"])
                  "permanent + impairment/headwind" ]
      [ Literal "competitive pressure"; Literal "market share loss";
        Literal "disruption" ]
      (pts 0 0) (pts 35 10) (Num 60) ].

(** The whitespace of [\s] within ASCII. *)
Definition is_space (c : ascii) : bool :=
  let n := nat_of_ascii c in
  ((n =? 32) || ((9 <=? n) && (n <=? 13)))%nat.

(** The characters that [/[^a-z0-9%$.\-\s]/] keeps. *)
Definition is_kept (c : ascii) : bool :=
  let n := nat_of_ascii c in
  (((97 <=? n) && (n <=? 122)) || ((48 <=? n) && (n <=? 57))
   || (n =? 37) || (n =? 36) || (n =? 46) || (n =? 45))%nat
  || is_space c.

(** [.replace(/\s+/g, ' ')]; [in_run] says that the previous character was
    whitespace. *)
Fixpoint collapse_spaces (in_run : bool) (cs : list ascii) : list ascii :=
  match cs with
  | [] => []
  | c :: rest =>
      if is_space c then
        if in_run then collapse_spaces true rest
        else " "%char :: collapse_spaces true rest
      else c :: collapse_spaces false rest
  end.

Fixpoint trim_start (cs : list ascii) : list ascii :=
  match cs with
  | c :: rest => if is_space c then trim_start rest else cs
  | [] => []
  end.

Definition trim (cs : list ascii) : list ascii :=
  rev (trim_start (rev (trim_start cs))).

Definition normalizeText (input : string) : string :=
  let lowered := list_ascii_of_string (toLowerCase input) in
  let replaced := map (fun c => if is_kept c then c else " "%char) lowered in
  string_of_list_ascii (trim (collapse_spaces false replaced)).

Definition matchPattern (text : string) (pattern : Pattern) : bool :=
  match pattern with
  | Literal p => includes text p
  | Composite all any _ =>
      let hasAll := forallb (includes text) all in
      let hasAny :=
        match any with
        | Some any => existsb (includes text) any
        | None => true
        end in
      hasAll && hasAny
  end.

Definition patternLabel (pattern : Pattern) : string :=
  match pattern with
  | Literal p => p
  | Composite _ _ label => label
  end.

Definition hasAny (text : string) (patterns : list string) : bool :=
  existsb (includes text) patterns.

(** [d.getTime()]. *)
Definition getTime (d : option Date) : number :=
  match d with
  | Some t => JS.of_Z t
  | None => NaN
  end.

(** [new Date(t)] of a number: the time value is truncated to an integer, and
    is invalid beyond 8.64e15 ms. *)
Definition Date_of_number (t : number) : option Date :=
  match t with
  | Num q =>
      let z := (Qnum q ÷ Zpos (Qden q))%Z in
      if (Z.abs z <=? 8640000000000000)%Z then Some z else None
  | _ => None
  end.

Definition daysBetween (a b : option Date) : number :=
  let ms := JS.abs (JS.sub (getTime a) (getTime b)) in
  JS.div ms (JS.of_Z ms_per_day).

(** The entries of [Record<string, number>] objects, in insertion order. *)
Definition lookup_score (scores : list (string * number)) (key : string)
  : option number :=
  snd <$> List.find (fun entry => String.eqb (fst entry) key) scores.

Definition ACCOUNTING_RESTATEMENT : string := "ACCOUNTING_RESTATEMENT".
Definition FRAUD_OR_INTERNAL_CONTROL : string := "FRAUD_OR_INTERNAL_CONTROL".

(** The event class of the taxonomy with the identifier [id]. *)
Definition event_class (id : string) : option EventClass.t :=
  List.find (fun c => String.eqb (EventClass.id c) id) EVENT_CLASSES.

(** [matches] scored with the weak-tier points for the strong matches too. *)
Definition weak_tier (pts : Points.t) : Points.t :=
  {| Points.strong := Points.weak pts; Points.weak := Points.weak pts |}.

(** The local constants of [classifyNarrativeShock]. *)
Module NarrativeLocals.
Record t : Type := mk {
  params : NarrativeShockParams.t;
  windowEnd : option Date;
  windowStart : option Date;
  processedDocs : list ProcessedDoc.t;
  classMatches : gmap string (list DocMatch.t);
  allMatches : list TopMatch.t;
  classScores : list (string * number);
  structuralScores : list (string * number);
  severity : number;
  structuralRisk : number;
  sortedByScore : list (string * number);
  primaryEvent : string;
  shockType : ShockType;
  mdsPoints : number;
}.
End NarrativeLocals.

Section Narrative.
Context `{P : Platform}.

Definition getDocWeight (doc : NarrativeDoc.t) (params : NarrativeShockParams.t)
    (windowEnd : option Date) : number :=
  let sourceWeight :=
    default (Num 0.5)
      (NarrativeShockParams.source_weights params (NarrativeDoc.source_type doc)) in
  let publishedAt := Date_parse (NarrativeDoc.published_at doc) in
  let ageDays := daysBetween windowEnd publishedAt in
  let decay :=
    Math_exp
      (JS.div (JS.mul (JS.neg Math_log2) ageDays)
              (NarrativeShockParams.recency_half_life_days params)) in
  JS.mul sourceWeight decay.

Definition buildProcessedDocs (docs : list NarrativeDoc.t)
    (params : NarrativeShockParams.t) (windowStart windowEnd : option Date)
  : list ProcessedDoc.t :=
  map
    (fun doc =>
       let docText :=
         NarrativeDoc.title doc +:+ String "010"%char "" +:+ NarrativeDoc.body doc in
       {| ProcessedDoc.source_type := NarrativeDoc.source_type doc;
          ProcessedDoc.published_at := NarrativeDoc.published_at doc;
          ProcessedDoc.text := normalizeText docText;
          ProcessedDoc.weight := getDocWeight doc params windowEnd |})
    (List.filter
       (fun doc =>
          let publishedAt := getTime (Date_parse (NarrativeDoc.published_at doc)) in
          JS.ge publishedAt (getTime windowStart)
          && JS.le publishedAt (getTime windowEnd))
       docs).

Definition computeClassScore (matches : list DocMatch.t) (pts : Points.t)
    (cap : number) (downgradeStrong : bool) : number :=
  let raw :=
    fold_left
      (fun raw m =>
         let raw :=
           if decide (0 < length (DocMatch.strongMatches m))%nat then
             JS.add raw
               (JS.mul (ProcessedDoc.weight (DocMatch.doc m))
                       (if downgradeStrong then Points.weak pts
                        else Points.strong pts))
           else raw in
         if decide (0 < length (DocMatch.weakMatches m))%nat then
           JS.add raw
             (JS.mul
                (JS.mul (ProcessedDoc.weight (DocMatch.doc m))
                        (JS.of_nat (length (DocMatch.weakMatches m))))
                (Points.weak pts))
         else raw)
      matches (Num 0) in
  JS.min raw cap.


(** The loop over the documents and the event classes: [classMatches] and
    [allMatches] after it. *)
Definition match_state : Type :=
  gmap string (list DocMatch.t) * list TopMatch.t.

Definition labels_of (text : string) (patterns : list Pattern) : list string :=
  map patternLabel (List.filter (matchPattern text) patterns).

Definition top_match (eventClass : EventClass.t) (doc : ProcessedDoc.t)
    (pattern : string) : TopMatch.t :=
  {| TopMatch.event_class := EventClass.id eventClass;
     TopMatch.pattern := pattern;
     TopMatch.source_type := ProcessedDoc.source_type doc;
     TopMatch.published_at := ProcessedDoc.published_at doc;
     TopMatch.weight := ProcessedDoc.weight doc |}.

Definition match_class (doc : ProcessedDoc.t) (st : match_state)
    (eventClass : EventClass.t) : match_state :=
  let strongMatches := labels_of (ProcessedDoc.text doc) (EventClass.strong eventClass) in
  let weakMatches := labels_of (ProcessedDoc.text doc) (EventClass.weak eventClass) in
  if decide (length strongMatches = 0%nat /\ length weakMatches = 0%nat) then st
  else
    let key := EventClass.id eventClass in
    let entry := DocMatch.mk doc strongMatches weakMatches in
    (<[key := default [] (fst st !! key) ++ [entry]]> (fst st),
     snd st ++ map (top_match eventClass doc) strongMatches
            ++ map (top_match eventClass doc) weakMatches).

Definition match_doc (st : match_state) (doc : ProcessedDoc.t) : match_state :=
  fold_left (match_class doc) EVENT_CLASSES st.

Definition initial_matches : gmap string (list DocMatch.t) :=
  fold_left (fun m eventClass => <[EventClass.id eventClass := []]> m)
            EVENT_CLASSES ∅.

Definition collect_matches (processedDocs : list ProcessedDoc.t) : match_state :=
  fold_left match_doc processedDocs (initial_matches, []).

Definition has_strong (m : DocMatch.t) : bool :=
  bool_decide (0 < length (DocMatch.strongMatches m))%nat.

(** The number of distinct source types among [docs]: the size of
    [new Set(docs.map((m) => m.doc.source_type))]. *)
Definition distinct_sources (docs : list DocMatch.t) : nat :=
  length (remove_dups (map (fun m => ProcessedDoc.source_type (DocMatch.doc m)) docs)).

Definition accountingConfirmed (classMatches : gmap string (list DocMatch.t))
    (classId : string) : bool :=
  match classMatches !! classId with
  | None | Some [] => false
  | Some matches =>
      let strongDocs := List.filter has_strong matches in
      if decide (length strongDocs = 0%nat) then false
      else
        let hasSecFiling :=
          existsb
            (fun m => bool_decide (ProcessedDoc.source_type (DocMatch.doc m) = SEC_FILING))
            strongDocs in
        if hasSecFiling then true
        else bool_decide (2 <= distinct_sources strongDocs)%nat
  end.

Definition classCap (params : NarrativeShockParams.t) (eventClass : EventClass.t)
  : number :=
  if truthy (NarrativeShockParams.max_points_per_event_class params)
  then JS.min (EventClass.cap eventClass)
              (default NaN (NarrativeShockParams.max_points_per_event_class params))
  else EventClass.cap eventClass.

Definition needsConfirm (params : NarrativeShockParams.t)
    (eventClass : EventClass.t) : bool :=
  NarrativeShockParams.require_confirmation_for_accounting params
  && (String.eqb (EventClass.id eventClass) ACCOUNTING_RESTATEMENT
      || String.eqb (EventClass.id eventClass) FRAUD_OR_INTERNAL_CONTROL).

Definition downgradeStrong (params : NarrativeShockParams.t)
    (classMatches : gmap string (list DocMatch.t)) (eventClass : EventClass.t)
  : bool :=
  let confirmed :=
    if needsConfirm params eventClass
    then accountingConfirmed classMatches (EventClass.id eventClass)
    else true in
  needsConfirm params eventClass && negb confirmed.

(** [matches] of a class that the loop initialised; the read of a missing key
    does not occur. *)
Definition matches_of (classMatches : gmap string (list DocMatch.t))
    (classId : string) : list DocMatch.t :=
  default [] (classMatches !! classId).

(** [classScores] (for [severity]) and [structuralScores] (for [structural]),
    as the entries of the object in insertion order. *)
Definition class_scores (params : NarrativeShockParams.t)
    (classMatches : gmap string (list DocMatch.t))
    (points : EventClass.t -> Points.t) : list (string * number) :=
  map
    (fun eventClass =>
       (EventClass.id eventClass,
        computeClassScore (matches_of classMatches (EventClass.id eventClass))
          (points eventClass) (classCap params eventClass)
          (downgradeStrong params classMatches eventClass)))
    EVENT_CLASSES.

(** [Object.values(scores).reduce((sum, v) => sum + v, 0)]. *)
Definition sum_scores (scores : list (string * number)) : number :=
  fold_left (fun sum entry => JS.add sum (snd entry)) scores (Num 0).

Definition classHasStrong (classMatches : gmap string (list DocMatch.t))
    (id : string) : bool :=
  existsb has_strong (matches_of classMatches id).

(** The escalation rules, in the order of the source; each adds to
    [structuralRisk]. *)
Definition escalations (classMatches : gmap string (list DocMatch.t))
    (combinedText : string) : list (bool * number) :=
  [ (classHasStrong classMatches "CREDIT_LIQUIDITY_DISTRESS"
     && hasAny combinedText ["going concern"; "covenant breach"; "refinancing"],
     Num 30);
    (bool_decide
       (2 <= length (List.filter has_strong
                       (matches_of classMatches "GUIDANCE_SHOCK_OR_EARNINGS_MISS")))%nat
     || (classHasStrong classMatches "GUIDANCE_SHOCK_OR_EARNINGS_MISS"
         && hasAny combinedText ["demand weakening"; "pricing pressure"; "structural"]),
     Num 20);
    (classHasStrong classMatches "MAJOR_CONTRACT_OR_CUSTOMER_LOSS"
     && hasAny combinedText ["largest"; "significant portion"],
     Num 25);
    (classHasStrong classMatches "ACCOUNTING_RESTATEMENT"
     || (hasAny combinedText ["material weakness"] && hasAny combinedText ["auditor"]),
     Num 35);
    (classHasStrong classMatches "PRODUCT_RECALL_OR_SAFETY"
     && hasAny combinedText ["fatality"; "ban"; "regulator"],
     Num 25);
    (classHasStrong classMatches "EXECUTIVE_CHANGE"
     && hasAny combinedText ["effective immediately"; "terminated"],
     Num 15);
    (classHasStrong classMatches "REGULATORY_OR_GOVERNMENT_ACTION"
     && hasAny combinedText ["consent decree"; "settlement"; "ban"; "license revoked"],
     Num 25) ].

Definition escalate (structuralRisk : number) (rules : list (bool * number))
  : number :=
  fold_left
    (fun risk (rule : bool * number) =>
       if fst rule then JS.add risk (snd rule) else risk)
    rules structuralRisk.

(** [scores[key] || 0]. *)
Definition score_or_zero (scores : list (string * number)) (key : string)
  : number :=
  match lookup_score scores key with
  | Some v => if JS.truthy v then v else Num 0
  | None => Num 0
  end.

Definition narrative_locals (docs : list NarrativeDoc.t)
    (options : NarrativeShockParams.options) : NarrativeLocals.t :=
  let params :=
    NarrativeShockParams.merge DEFAULT_PARAMS
      (NarrativeShockParams.overrides options) in
  let windowEnd :=
    if truthy_string (NarrativeShockParams.window_end options)
    then Date_parse (default "" (NarrativeShockParams.window_end options))
    else Some Date_now in
  let windowStart :=
    Date_of_number
      (JS.sub (getTime windowEnd)
         (JS.mul (NarrativeShockParams.window_days params) (JS.of_Z ms_per_day))) in
  let processedDocs := buildProcessedDocs docs params windowStart windowEnd in
  let collected := collect_matches processedDocs in
  let classMatches := fst collected in
  let allMatches := snd collected in
  let classScores := class_scores params classMatches EventClass.severity in
  let structuralScores := class_scores params classMatches EventClass.structural in
  let severity := clamp (sum_scores classScores) (Num 0) (Num 100) in
  let combinedText := String.concat " " (map ProcessedDoc.text processedDocs) in
  let structuralRisk :=
    clamp (escalate (sum_scores structuralScores)
                    (escalations classMatches combinedText))
          (Num 0) (Num 100) in
  let sortedByScore :=
    js_sort (fun a b => JS.sub (snd b) (snd a))
      (map (fun c => (EventClass.id c,
                      default NaN (lookup_score classScores (EventClass.id c))))
           EVENT_CLASSES) in
  let macroScore := score_or_zero classScores "MACRO_ROTATION" in
  let bestNonMacro :=
    List.find (fun c => negb (String.eqb (fst c) "MACRO_ROTATION")) sortedByScore in
  let primaryEvent :=
    match bestNonMacro with
    | Some best =>
        if JS.ge (snd best) (NarrativeShockParams.primary_min_threshold params)
        then fst best
        else if JS.ge macroScore (NarrativeShockParams.macro_threshold params)
        then "MACRO_ROTATION"
        else "NONE"
    | None =>
        if JS.ge macroScore (NarrativeShockParams.macro_threshold params)
        then "MACRO_ROTATION"
        else "NONE"
    end in
  let shockType :=
    if String.eqb primaryEvent "MACRO_ROTATION" then MACRO_ROTATION
    else if negb (String.eqb primaryEvent "NONE") then
      if JS.ge structuralRisk (NarrativeShockParams.structural_threshold params)
      then STRUCTURAL_RISK
      else ONE_OFF
    else if JS.ge macroScore (NarrativeShockParams.macro_threshold params)
    then MACRO_ROTATION
    else NONE in
  let mdsPoints :=
    match shockType with
    | ONE_OFF => Num 15
    | MACRO_ROTATION => Num 10
    | _ => Num 0
    end in
  NarrativeLocals.mk params windowEnd windowStart processedDocs classMatches
    allMatches classScores structuralScores severity structuralRisk
    sortedByScore primaryEvent shockType mdsPoints.

(** [classifyNarrativeShock]. [toISOString] of an invalid [Date] raises a
    [RangeError]. *)
Definition classifyNarrativeShock (docs : list NarrativeDoc.t)
    (options : NarrativeShockParams.options)
  : completion NarrativeShockResult.t :=
  let l := narrative_locals docs options in
  match NarrativeLocals.windowStart l, NarrativeLocals.windowEnd l with
  | Some windowStart, Some windowEnd =>
      let secondary :=
        map (fun c => (fst c, JS.toFixed2 (snd c)))
          (List.filter
             (fun c => JS.gt (snd c) (Num 0)
                       && negb (String.eqb (fst c) (NarrativeLocals.primaryEvent l)))
             (NarrativeLocals.sortedByScore l)) in
      let topMatches :=
        take 10
          (js_sort (fun a b => JS.sub (TopMatch.weight b) (TopMatch.weight a))
                   (NarrativeLocals.allMatches l)) in
      Return
        {| NarrativeShockResult.ticker := NarrativeShockParams.ticker options;
           NarrativeShockResult.window_start := Date_toISOString windowStart;
           NarrativeShockResult.window_end := Date_toISOString windowEnd;
           NarrativeShockResult.primary_event_class := NarrativeLocals.primaryEvent l;
           NarrativeShockResult.shock_type := NarrativeLocals.shockType l;
           NarrativeShockResult.severity_0_100 := JS.round (NarrativeLocals.severity l);
           NarrativeShockResult.structural_risk_0_100 :=
             JS.round (NarrativeLocals.structuralRisk l);
           NarrativeShockResult.mds_narrative_shock_points := NarrativeLocals.mdsPoints l;
           NarrativeShockResult.top_matches := topMatches;
           NarrativeShockResult.secondary_event_classes := secondary |}
  | _, _ => Throw "RangeError"
  end.

End Narrative.

(** ** Market Dislocation Score ([utils/mds.ts]) *)

Module MdsConfig.
Record t : Type := mk {
  history_short : number;
  history_long : number;
  history_min : number;
  ebitda_flat : number;
  ebitda_mild : number;
  ebitda_collapse : number;
  fcf_stdev_stable : number;
  fcf_stdev_volatile : number;
  ocf_stdev_stable : number;
  ocf_stdev_volatile : number;
  gm_stdev : number;
  revenue_stable : number;
  multiple_strong : number;
  multiple_mild : number;
  fcf_yield_up : number;
  eps_drop : number;
  short_elevated : number;
  short_extreme : number;
  insider_value_threshold : number;
  insider_pct_threshold : number;
  ownership_holders_drop : number;
  ownership_shares_drop : number;
}.

(** [Partial<MdsConfig>]: the keys that are present, with their values. *)
Record partial : Type := mkPartial {
  history_short' : option number;
  history_long' : option number;
  history_min' : option number;
  ebitda_flat' : option number;
  ebitda_mild' : option number;
  ebitda_collapse' : option number;
  fcf_stdev_stable' : option number;
  fcf_stdev_volatile' : option number;
  ocf_stdev_stable' : option number;
  ocf_stdev_volatile' : option number;
  gm_stdev' : option number;
  revenue_stable' : option number;
  multiple_strong' : option number;
  multiple_mild' : option number;
  fcf_yield_up' : option number;
  eps_drop' : option number;
  short_elevated' : option number;
  short_extreme' : option number;
  insider_value_threshold' : option number;
  insider_pct_threshold' : option number;
  ownership_holders_drop' : option number;
  ownership_shares_drop' : option number;
}.

Definition no_override : partial :=
  mkPartial None None None None None None None None None None None
            None None None None None None None None None None None.

(** [{ ...base, ...over }]. *)
Definition merge (base : t) (over : partial) : t :=
  {| history_short := default (history_short base) (history_short' over);
     history_long := default (history_long base) (history_long' over);
     history_min := default (history_min base) (history_min' over);
     ebitda_flat := default (ebitda_flat base) (ebitda_flat' over);
     ebitda_mild := default (ebitda_mild base) (ebitda_mild' over);
     ebitda_collapse := default (ebitda_collapse base) (ebitda_collapse' over);
     fcf_stdev_stable := default (fcf_stdev_stable base) (fcf_stdev_stable' over);
     fcf_stdev_volatile :=
       default (fcf_stdev_volatile base) (fcf_stdev_volatile' over);
     ocf_stdev_stable := default (ocf_stdev_stable base) (ocf_stdev_stable' over);
     ocf_stdev_volatile :=
       default (ocf_stdev_volatile base) (ocf_stdev_volatile' over);
     gm_stdev := default (gm_stdev base) (gm_stdev' over);
     revenue_stable := default (revenue_stable base) (revenue_stable' over);
     multiple_strong := default (multiple_strong base) (multiple_strong' over);
     multiple_mild := default (multiple_mild base) (multiple_mild' over);
     fcf_yield_up := default (fcf_yield_up base) (fcf_yield_up' over);
     eps_drop := default (eps_drop base) (eps_drop' over);
     short_elevated := default (short_elevated base) (short_elevated' over);
     short_extreme := default (short_extreme base) (short_extreme' over);
     insider_value_threshold :=
       default (insider_value_threshold base) (insider_value_threshold' over);
     insider_pct_threshold :=
       default (insider_pct_threshold base) (insider_pct_threshold' over);
     ownership_holders_drop :=
       default (ownership_holders_drop base) (ownership_holders_drop' over);
     ownership_shares_drop :=
       default (ownership_shares_drop base) (ownership_shares_drop' over) |}.
End MdsConfig.

Definition DEFAULT_MDS_CONFIG : MdsConfig.t :=
  {| MdsConfig.history_short := Num 12;
     MdsConfig.history_long := Num 20;
     MdsConfig.history_min := Num 12;
     MdsConfig.ebitda_flat := Num (-0.05);
     MdsConfig.ebitda_mild := Num (-0.20);
     MdsConfig.ebitda_collapse := Num (-0.30);
     MdsConfig.fcf_stdev_stable := Num 0.03;
     MdsConfig.fcf_stdev_volatile := Num 0.07;
     MdsConfig.ocf_stdev_stable := Num 0.02;
     MdsConfig.ocf_stdev_volatile := Num 0.05;
     MdsConfig.gm_stdev := Num 0.02;
     MdsConfig.revenue_stable := Num (-0.05);
     MdsConfig.multiple_strong := Num 0.30;
     MdsConfig.multiple_mild := Num 0.20;
     MdsConfig.fcf_yield_up := Num 0.30;
     MdsConfig.eps_drop := Num (-0.10);
     MdsConfig.short_elevated := Num 0.10;
     MdsConfig.short_extreme := Num 0.20;
     MdsConfig.insider_value_threshold := Num 1000000;
     MdsConfig.insider_pct_threshold := Num 0.0005;
     MdsConfig.ownership_holders_drop := Num 0.10;
     MdsConfig.ownership_shares_drop := Num 0.05 |}.

Module EstimatePoint.
Record t : Type := mk {
  report_period : string;
  eps_estimate : option number;
  revenue_estimate : option number;
}.
End EstimatePoint.

Module OwnershipPoint.
Record t : Type := mk {
  report_period : string;
  institutional_holders : option number;
  institutional_shares : option number;
}.
End OwnershipPoint.

#[global] Instance EstimatePoint_dated : DatedValue EstimatePoint.t :=
  EstimatePoint.report_period.
#[global] Instance OwnershipPoint_dated : DatedValue OwnershipPoint.t :=
  OwnershipPoint.report_period.

Inductive TransactionType : Type :=
| buy
| sell.

Module InsiderTrade.
Record t : Type := mk {
  transaction_date : string;
  transaction_type : option TransactionType;
  transaction_value : option number;
}.
End InsiderTrade.

Module MdsSeriesInputs.
Record t : Type := mk {
  ticker : option string;
  asof_date : option string;
  metrics_history : list MetricsPoint.t;
  income_statements : list IncomeStatement.t;
  cash_flow_statements : list CashFlowStatement.t;
  estimates : option (list EstimatePoint.t);
  ownership_history : option (list OwnershipPoint.t);
  insider_trades : option (list InsiderTrade.t);
  short_interest_pct : option number;
  docs : option (list NarrativeDoc.t);
  narrative_params : option NarrativeShockParams.partial;
  fundamentals_intact : option bool;
  config : option MdsConfig.partial;
}.
End MdsSeriesInputs.

Module MdsSubscores.
Record t : Type := mk {
  multiple_compression : number;
  fcf_yield_expansion : number;
  expectation_reset : number;
  narrative_shock : number;
  operating_resilience : number;
  market_positioning : number;
  gm_defense : number;
  ocf_stability : number;
  capex_discipline : number;
  short_interest : number;
  ownership_capitulation : number;
  insider_bonus : number;
}.
End MdsSubscores.

Module MdsSeriesResult.
Record t : Type := mk {
  ticker : option string;
  multiple_compression_points : number;
  expectation_reset_points : number;
  narrative_shock_points : number;
  operating_resilience_points : number;
  market_positioning_points : number;
  expectation_reset_total : number;
  total_mds_points : number;
  narrative_detail : option NarrativeShockResult.t;
  subscores : MdsSubscores.t;
  warnings : list string;
}.
End MdsSeriesResult.

Inductive EbitdaTrend : Type :=
| trend_flat
| trend_mild
| trend_collapse
| trend_unknown.

#[global] Instance EbitdaTrend_eq_dec : EqDecision EbitdaTrend.
Proof. solve_decision. Defined.

Inductive FcfStability : Type :=
| fcf_stable
| fcf_volatile
| fcf_collapse
| fcf_unknown.

#[global] Instance FcfStability_eq_dec : EqDecision FcfStability.
Proof. solve_decision. Defined.

Inductive OcfStability : Type :=
| ocf_stable
| ocf_volatile
| ocf_deteriorating
| ocf_unknown.

#[global] Instance OcfStability_eq_dec : EqDecision OcfStability.
Proof. solve_decision. Defined.

Inductive GmStatus : Type :=
| gm_stable
| gm_slight
| gm_collapse
| gm_unknown.

#[global] Instance GmStatus_eq_dec : EqDecision GmStatus.
Proof. solve_decision. Defined.

(** [xs.slice(start)] for a [start] that is any number: it is truncated to an
    integer ([NaN] to 0) and counts from the end when negative. *)
Definition slice_from {A} (start : number) (xs : list A) : list A :=
  let len := Z.of_nat (length xs) in
  let k :=
    match start with
    | Num q =>
        let rel := (Qnum q ÷ Zpos (Qden q))%Z in
        if (rel <? 0)%Z then Z.max (len + rel) 0 else Z.min rel len
    | PInf => len
    | NInf | NaN => 0%Z
    end in
  drop (Z.to_nat k) xs.

(** The local constants of [computeMdsFromSeries] that the result or a
    warning depends on. *)
Module MdsLocals.
Record t : Type := mk {
  config : MdsConfig.t;
  asofDate : option Date;
  metricsAsOf : option MetricsPoint.t;
  ebitdaSeries : list TtmPoint;
  revenueSeries : list TtmPoint;
  ocfSeries : list TtmPoint;
  fcfSeries : list TtmPoint;
  capexSeries : list TtmPoint;
  evToEbitdaSeries : list TtmPoint;
  fcfYieldSeries : list TtmPoint;
  currentEvToEbitda : option number;
  currentFcfYield : option number;
  ebitdaTrend : EbitdaTrend;
  fcfStability : FcfStability;
  h3Compression : number * nat;
  h5Compression : number * nat;
  compressionScore : number;
  h3FcfYield : number * nat;
  h5FcfYield : number * nat;
  fcfYieldScore : number;
  multipleCompressionPoints : number;
  expectationReset : number;
  narrativeShockPoints : number;
  narrativeDetail : option NarrativeShockResult.t;
  gmStatus : GmStatus;
  revenueTrend : option number;
  gmDefense : number;
  ocfStability : OcfStability;
  ocfScore : number;
  capexScore : number;
  operatingResilience : number;
  shortInterestScore : number;
  ownershipScore : number;
  insiderBonus : number;
  marketPositioning : number;
  expectationResetTotal : number;
  total : number;
  warnings : list string;
}.
End MdsLocals.

Module Mds.
Section Defs.
Context `{P : Platform}.

(** [rows.length > 0 ? sortByReportPeriod(rows).slice(-1)[0] : null]. *)
Definition latest_row {T} `{DatedValue T} (rows : list T) : option T :=
  if decide (0 < length rows)%nat then last (sortByReportPeriod rows) else None.

(** [resolveAsofDate] of [mds.ts]; it raises the [TypeError] of its
    counterpart in [brs.ts]. *)
Definition resolveAsofDate (income : list IncomeStatement.t)
    (cashflow : list CashFlowStatement.t)
  : completion (option Date * list string) :=
  let incomeDates := set_of (map report_period income) in
  let cashDates := set_of (map report_period cashflow) in
  let candidates := List.filter (set_has cashDates) incomeDates in
  if decide (0 < length candidates)%nat then
    let sorted := sorted_candidates candidates in
    match sorted !! (length sorted - 1)%nat with
    | Some entry => Return (Some (snd entry), [])
    | None => Throw "TypeError"
    end
  else
    let incomeLatest := report_period <$> latest_row income in
    let cashLatest := report_period <$> latest_row cashflow in
    let candidatesFallback :=
      omap (fun row => row ≫= parseReportDate) [incomeLatest; cashLatest] in
    let sorted :=
      js_sort (fun a b => JS.of_Z (a - b)) candidatesFallback in
    Return (last sorted, ["asof_misalignment"]).

Definition buildTtmSeries {T} `{DatedValue T} (rows : list T)
    (getter : T -> option number) : list TtmPoint :=
  rollingTtmSeries rows getter.

Definition buildRevenueSeries (income : list IncomeStatement.t) : list TtmPoint :=
  buildTtmSeries income IncomeStatement.revenue.

(** [growths[i] < c && growths[i - 1] < c] for some [i >= 1]. *)
Fixpoint has_severe (collapse : number) (growths : list number) : bool :=
  match growths with
  | prev :: ((next :: _) as rest) =>
      (JS.lt next collapse && JS.lt prev collapse) || has_severe collapse rest
  | _ => false
  end.

Definition classifyEbitdaTrend (series : list TtmPoint) (config : MdsConfig.t)
  : EbitdaTrend :=
  let growths := computeYoYGrowth series in
  if decide (length growths = 0%nat) then trend_unknown
  else
    match median growths with
    | None => trend_unknown
    | Some medianGrowth =>
        let hasSevere := has_severe (MdsConfig.ebitda_collapse config) growths in
        if JS.lt medianGrowth (MdsConfig.ebitda_mild config) || hasSevere
        then trend_collapse
        else if JS.lt medianGrowth (MdsConfig.ebitda_flat config)
        then trend_mild
        else trend_flat
    end.

(** The finite ratios of a series to the revenue of the same period. *)
Definition ratios_to_revenue (series revenueSeries : list TtmPoint)
  : list number :=
  finite_values
    (map
       (fun row =>
          match value_at revenueSeries (point_period row) with
          | None => None
          | Some revenue =>
              if JS.eq revenue (Num 0) then None
              else Some (JS.div (value row) revenue)
          end)
       series).

Definition positive_count (xs : list number) : nat :=
  length (List.filter (fun v => JS.gt v (Num 0)) xs).

(** [stdev !== null && stdev <= bound]. *)
Definition stdev_within (ratioStdev : option number) (bound : number) : bool :=
  match ratioStdev with
  | Some s => JS.le s bound
  | None => false
  end.

Definition classifyFcfStability (fcfSeries revenueSeries : list TtmPoint)
    (config : MdsConfig.t) : FcfStability :=
  let ratios := ratios_to_revenue fcfSeries revenueSeries in
  if decide (length ratios < 4)%nat then fcf_unknown
  else
    let last8 := slice_last 8 ratios in
    let positiveCount := positive_count last8 in
    let ratioStdev := stdev last8 in
    let lastTwo := slice_last 2 last8 in
    let collapsing :=
      bool_decide (positiveCount <= 3)%nat
      || match lastTwo with
         | [a; b] => JS.lt a (Num 0) && JS.lt b a
         | _ => false
         end in
    if collapsing then fcf_collapse
    else if bool_decide (6 <= positiveCount)%nat
            && stdev_within ratioStdev (MdsConfig.fcf_stdev_stable config)
    then fcf_stable
    else if bool_decide (4 <= positiveCount)%nat
            || stdev_within ratioStdev (MdsConfig.fcf_stdev_volatile config)
    then fcf_volatile
    else fcf_collapse.

Definition classifyOcfStability (ocfSeries revenueSeries : list TtmPoint)
    (config : MdsConfig.t) : OcfStability :=
  let ratios := ratios_to_revenue ocfSeries revenueSeries in
  if decide (length ratios < 4)%nat then ocf_unknown
  else
    let last8 := slice_last 8 ratios in
    let positiveCount := positive_count last8 in
    let ratioStdev := stdev last8 in
    if bool_decide (7 <= positiveCount)%nat
       && stdev_within ratioStdev (MdsConfig.ocf_stdev_stable config)
    then ocf_stable
    else if bool_decide (5 <= positiveCount)%nat
            || stdev_within ratioStdev (MdsConfig.ocf_stdev_volatile config)
    then ocf_volatile
    else ocf_deteriorating.

Definition classifyGrossMargin (income : list IncomeStatement.t)
    (config : MdsConfig.t) : GmStatus * list number :=
  let series := buildGmSeries income in
  if decide (length series < 4)%nat then (gm_unknown, series)
  else
    let last8 := slice_last 8 series in
    match slope last8, stdev last8 with
    | Some gmSlope, Some gmStdev =>
        if JS.gt gmStdev (MdsConfig.gm_stdev config) then (gm_collapse, series)
        else if JS.lt gmSlope (Num 0) then (gm_slight, series)
        else (gm_stable, series)
    | _, _ => (gm_unknown, series)
    end.

(** [{ score, available }]. *)
Definition computeHistoryScore (currentValue : option number)
    (history : list TtmPoint) (windowSize : number)
    (scoreFn : number -> number -> number) : number * nat :=
  match currentValue with
  | None => (Num 0, 0%nat)
  | Some current =>
      let sorted := sortByReportPeriod history in
      let window := slice_from (JS.neg windowSize) sorted in
      let values := List.filter JS.isFinite (map value window) in
      if decide (length values = 0%nat) then (Num 0, 0%nat)
      else
        match median values with
        | None => (Num 0, length values)
        | Some med => (scoreFn current med, length values)
        end
  end.

Definition applyCoverage (score : number) (available : nat)
    (config : MdsConfig.t) (tag : string) : number * list string :=
  if JS.ge (JS.of_nat available) (MdsConfig.history_min config) then (score, [])
  else if decide (available = 0%nat) then (Num 0, ["missing_history_" +:+ tag])
  else
    let ratio := JS.div (JS.of_nat available) (MdsConfig.history_min config) in
    (JS.toFixed2 (JS.mul score ratio), ["short_history_" +:+ tag]).

Definition compressionScoreFn (config : MdsConfig.t) (ebitdaTrend : EbitdaTrend)
    (current med : number) : number :=
  if JS.le med (Num 0) || JS.le current (Num 0) then Num 0
  else
    let compression := JS.sub (Num 1) (JS.div current med) in
    if bool_decide (ebitdaTrend = trend_unknown) then Num 0
    else if JS.ge compression (MdsConfig.multiple_strong config)
            && bool_decide (ebitdaTrend = trend_flat)
    then Num 15
    else if JS.ge compression (MdsConfig.multiple_mild config)
            && negb (bool_decide (ebitdaTrend = trend_collapse))
    then Num 10
    else if JS.gt compression (Num 0)
            && bool_decide (ebitdaTrend = trend_collapse)
    then Num 0
    else Num 0.

Definition fcfYieldScoreFn (config : MdsConfig.t) (fcfStability : FcfStability)
    (current med : number) : number :=
  if JS.eq med (Num 0) then Num 0
  else
    let change := JS.div (JS.sub current med) (JS.abs med) in
    if JS.lt change (MdsConfig.fcf_yield_up config) then Num 0
    else if bool_decide (fcfStability = fcf_unknown) then Num 0
    else if bool_decide (fcfStability = fcf_stable) then Num 15
    else if bool_decide (fcfStability = fcf_volatile) then Num 8
    else Num 0.

(** [xs.slice(-1)[0]?.value ?? null]. *)
Definition latest_value (series : list TtmPoint) : option number :=
  value <$> last series.

(** [(recent - prior) / Math.abs(prior)]. *)
Definition relative_change (recent prior : number) : number :=
  JS.div (JS.sub recent prior) (JS.abs prior).

Definition expectation_reset (config : MdsConfig.t)
    (estimates : option (list EstimatePoint.t)) (revenueSeries : list TtmPoint)
  : number * list string :=
  let epsEstimates :=
    match estimates with
    | Some e => sortByReportPeriod e
    | None => []
    end in
  if decide (2 <= length epsEstimates)%nat then
    match last epsEstimates, epsEstimates !! (length epsEstimates - 4)%nat with
    | Some recentRow, Some priorRow =>
        match EstimatePoint.eps_estimate recentRow,
              EstimatePoint.eps_estimate priorRow with
        | Some recent, Some prior =>
            if negb (JS.eq prior (Num 0))
               && JS.le (relative_change recent prior) (MdsConfig.eps_drop config)
            then
              let fromTrend :=
                (fun revenueTrend =>
                   JS.ge revenueTrend (MdsConfig.revenue_stable config))
                <$> median (computeYoYGrowth revenueSeries) in
              let signal :=
                match EstimatePoint.revenue_estimate recentRow,
                      EstimatePoint.revenue_estimate priorRow with
                | Some recentRev, Some priorRev =>
                    if negb (JS.eq priorRev (Num 0)) then
                      Some (JS.ge (relative_change recentRev priorRev)
                                  (MdsConfig.revenue_stable config))
                    else fromTrend
                | _, _ => fromTrend
                end in
              match signal with
              | Some revenueStable =>
                  (if revenueStable then Num 10 else Num 5, [])
              | None => (Num 0, ["missing_revenue_signal"])
              end
            else (Num 0, [])
        | _, _ => (Num 0, [])
        end
    | _, _ => (Num 0, [])
    end
  else (Num 0, ["missing_eps_estimates"]).

(** [a && b ? (b - a) / b : 0] for the drop from [prev] to [latest]. *)
Definition drop_ratio (latest prev : option number) : number :=
  if truthy latest && truthy prev
  then JS.div (JS.sub (default NaN prev) (default NaN latest)) (default NaN prev)
  else Num 0.

Definition ownership_score (config : MdsConfig.t)
    (ownership_history : option (list OwnershipPoint.t))
    (fundamentals_intact : option bool) (ocfSeries : list TtmPoint)
  : number * list string :=
  match ownership_history with
  | Some history =>
      if decide (3 <= length history)%nat then
        let sorted := sortByReportPeriod history in
        match sorted !! (length sorted - 1)%nat, sorted !! (length sorted - 3)%nat with
        | Some latest, Some prev =>
            let holdersDrop :=
              drop_ratio (OwnershipPoint.institutional_holders latest)
                         (OwnershipPoint.institutional_holders prev) in
            let sharesDrop :=
              drop_ratio (OwnershipPoint.institutional_shares latest)
                         (OwnershipPoint.institutional_shares prev) in
            let ocfLatest := latest_value ocfSeries in
            let fundamentalsIntact :=
              match fundamentals_intact with
              | Some b => b
              | None =>
                  match ocfLatest with
                  | Some v => JS.gt v (Num 0)
                  | None => false
                  end
              end in
            if fundamentalsIntact
               && (JS.ge holdersDrop (MdsConfig.ownership_holders_drop config)
                   || JS.ge sharesDrop (MdsConfig.ownership_shares_drop config))
            then (Num 10, [])
            else (Num 0, [])
        | _, _ => (Num 0, [])
        end
      else (Num 0, ["missing_ownership_history"])
  | None => (Num 0, ["missing_ownership_history"])
  end.

(** One turn of the loop over the insider trades. *)
Definition insider_step (cutoff : number) (net : number) (trade : InsiderTrade.t)
  : number :=
  match parseReportDate (InsiderTrade.transaction_date trade) with
  | None => net
  | Some date =>
      if JS.lt (JS.of_Z date) cutoff then net
      else
        match InsiderTrade.transaction_value trade,
              InsiderTrade.transaction_type trade with
        | Some v, Some type =>
            if JS.truthy v then
              JS.add net (match type with buy => v | sell => JS.neg v end)
            else net
        | _, _ => net
        end
  end.

Definition insider_bonus (config : MdsConfig.t)
    (insider_trades : option (list InsiderTrade.t)) (asofDate : option Date)
    (marketCap : option number) : number * list string :=
  match insider_trades with
  | Some (_ :: _ as trades) =>
      let days180 := (180 * 24 * 60 * 60 * 1000)%Z in
      let cutoff :=
        match asofDate with
        | Some d => JS.of_Z (d - days180)
        | None => JS.of_Z (Date_now - days180)
        end in
      let net := fold_left (insider_step cutoff) trades (Num 0) in
      if JS.gt net (Num 0) then
        let pct :=
          if truthy marketCap then JS.div net (default NaN marketCap) else Num 0 in
        if JS.ge net (MdsConfig.insider_value_threshold config)
           || JS.ge pct (MdsConfig.insider_pct_threshold config)
        then (Num 5, [])
        else (Num 0, [])
      else (Num 0, [])
  | _ => (Num 0, ["missing_insider_trades"])
  end.

Definition short_interest_score (config : MdsConfig.t)
    (short_interest_pct : option number) : number * list string :=
  match short_interest_pct with
  | Some pct =>
      (if JS.ge pct (MdsConfig.short_extreme config) then Num 5
       else if JS.ge pct (MdsConfig.short_elevated config) then Num 10
       else Num 0,
       [])
  | None => (Num 0, ["missing_short_interest"])
  end.


(** The point of a metrics row in [evToEbitdaSeries]. *)
Definition ev_point (row : MetricsPoint.t) : option TtmPoint :=
  mkPoint (MetricsPoint.report_period row)
  <$> MetricsPoint.enterprise_value_to_ebitda_ratio row.

(** The point of a metrics row in [fcfYieldSeries]. *)
Definition fcf_yield_point (fcfSeries : list TtmPoint) (row : MetricsPoint.t)
  : option TtmPoint :=
  match MetricsPoint.free_cash_flow_yield row with
  | Some y => Some (mkPoint (MetricsPoint.report_period row) y)
  | None =>
      match MetricsPoint.market_cap row with
      | Some market_cap =>
          match value_at fcfSeries (MetricsPoint.report_period row) with
          | None => None
          | Some fcf =>
              if JS.eq market_cap (Num 0) then None
              else Some (mkPoint (MetricsPoint.report_period row)
                                 (JS.div fcf market_cap))
          end
      | None => None
      end
  end.

(** The narrative step: the points, the detail and the warning, or the
    exception of the classifier. *)
Definition narrative_step (inputs : MdsSeriesInputs.t)
  : completion (number * option NarrativeShockResult.t * list string) :=
  match MdsSeriesInputs.docs inputs with
  | Some (_ :: _ as docs) =>
      let options :=
        {| NarrativeShockParams.ticker := MdsSeriesInputs.ticker inputs;
           NarrativeShockParams.window_end := MdsSeriesInputs.asof_date inputs;
           NarrativeShockParams.overrides :=
             default NarrativeShockParams.no_override
                     (MdsSeriesInputs.narrative_params inputs) |} in
      match classifyNarrativeShock docs options with
      | Return detail =>
          Return (NarrativeShockResult.mds_narrative_shock_points detail,
                  Some detail, [])
      | Throw e => Throw e
      end
  | _ => Return (Num 0, None, ["missing_narrative_corpus"])
  end.

(** The body of [computeMdsFromSeries] once the as-of date is resolved and
    the narrative step has returned. *)
Definition mds_locals (inputs : MdsSeriesInputs.t) (asofDate : option Date)
    (w_asof : list string)
    (narrative : number * option NarrativeShockResult.t * list string)
  : MdsLocals.t :=
  let config :=
    MdsConfig.merge DEFAULT_MDS_CONFIG
      (default MdsConfig.no_override (MdsSeriesInputs.config inputs)) in
  let w_asof_missing := push_if (is_null asofDate) "missing_asof_date" in
  let metricsAsOf :=
    asofDate ≫= fun d =>
      nearestByDate (MdsSeriesInputs.metrics_history inputs) d (Num 5) in
  let income := MdsSeriesInputs.income_statements inputs in
  let cashflow := MdsSeriesInputs.cash_flow_statements inputs in
  let ebitdaSeries := buildEbitdaSeries income cashflow in
  let revenueSeries := buildRevenueSeries income in
  let ocfSeries :=
    buildTtmSeries cashflow CashFlowStatement.net_cash_flow_from_operations in
  let fcfSeries := buildTtmSeries cashflow CashFlowStatement.free_cash_flow in
  let capexSeries :=
    buildTtmSeries cashflow CashFlowStatement.capital_expenditure in
  let evToEbitdaSeries :=
    omap ev_point (MdsSeriesInputs.metrics_history inputs) in
  let fcfYieldSeries :=
    omap (fcf_yield_point fcfSeries) (MdsSeriesInputs.metrics_history inputs) in
  let latestEv := latest_value evToEbitdaSeries in
  let latestFcfYield := latest_value fcfYieldSeries in
  let ebitdaAsOf :=
    metricsAsOf ≫= fun m => value_at ebitdaSeries (MetricsPoint.report_period m) in
  let fcfAsOf :=
    metricsAsOf ≫= fun m => value_at fcfSeries (MetricsPoint.report_period m) in
  let currentEvToEbitda :=
    coalesce
      (coalesce (metricsAsOf ≫= MetricsPoint.enterprise_value_to_ebitda_ratio)
                (ratio_if_truthy (metricsAsOf ≫= MetricsPoint.enterprise_value)
                                 ebitdaAsOf))
      latestEv in
  let currentFcfYield :=
    coalesce
      (coalesce (metricsAsOf ≫= MetricsPoint.free_cash_flow_yield)
                (if truthy (metricsAsOf ≫= MetricsPoint.market_cap)
                    && truthy fcfAsOf
                 then Some (JS.div (default NaN fcfAsOf)
                              (default NaN (metricsAsOf ≫= MetricsPoint.market_cap)))
                 else None))
      latestFcfYield in
  let w_current :=
    push_if (is_null currentEvToEbitda) "missing_ev_to_ebitda"
    ++ push_if (is_null currentFcfYield) "missing_fcf_yield" in
  let ebitdaTrend := classifyEbitdaTrend ebitdaSeries config in
  let fcfStability := classifyFcfStability fcfSeries revenueSeries config in
  let w_regimes :=
    push_if (bool_decide (ebitdaTrend = trend_unknown)) "missing_ebitda_history"
    ++ push_if (bool_decide (fcfStability = fcf_unknown)) "missing_fcf_history" in
  let h3Compression :=
    computeHistoryScore currentEvToEbitda evToEbitdaSeries
      (MdsConfig.history_short config) (compressionScoreFn config ebitdaTrend) in
  let h5Compression :=
    computeHistoryScore currentEvToEbitda evToEbitdaSeries
      (MdsConfig.history_long config) (compressionScoreFn config ebitdaTrend) in
  let c3 := applyCoverage (fst h3Compression) (snd h3Compression) config "multiple_h3" in
  let c5 := applyCoverage (fst h5Compression) (snd h5Compression) config "multiple_h5" in
  let compressionScore := JS.min (fst c3) (fst c5) in
  let h3FcfYield :=
    computeHistoryScore currentFcfYield fcfYieldSeries
      (MdsConfig.history_short config) (fcfYieldScoreFn config fcfStability) in
  let h5FcfYield :=
    computeHistoryScore currentFcfYield fcfYieldSeries
      (MdsConfig.history_long config) (fcfYieldScoreFn config fcfStability) in
  let f3 := applyCoverage (fst h3FcfYield) (snd h3FcfYield) config "fcf_yield_h3" in
  let f5 := applyCoverage (fst h5FcfYield) (snd h5FcfYield) config "fcf_yield_h5" in
  let fcfYieldScore := JS.min (fst f3) (fst f5) in
  let w_coverage := snd c3 ++ snd c5 ++ snd f3 ++ snd f5 in
  let multipleCompressionPoints :=
    clamp (JS.add compressionScore fcfYieldScore) (Num 0) (Num 30) in
  let expectation :=
    expectation_reset config (MdsSeriesInputs.estimates inputs) revenueSeries in
  let expectationReset := fst expectation in
  let narrativeShockPoints := fst (fst narrative) in
  let narrativeDetail := snd (fst narrative) in
  let gm := classifyGrossMargin income config in
  let gmStatus := fst gm in
  let w_gm :=
    push_if (bool_decide (gmStatus = gm_unknown)) "missing_gross_margin_history" in
  let revenueTrend := median (computeYoYGrowth revenueSeries) in
  let revenueDeclining :=
    match revenueTrend with
    | Some t => JS.lt t (MdsConfig.revenue_stable config)
    | None => false
    end in
  let gmDefense :=
    if bool_decide (gmStatus = gm_stable) && revenueDeclining then Num 10
    else if bool_decide (gmStatus = gm_stable) || bool_decide (gmStatus = gm_slight)
    then Num 5
    else Num 0 in
  let ocfStability := classifyOcfStability ocfSeries revenueSeries config in
  let w_ocf :=
    push_if (bool_decide (ocfStability = ocf_unknown)) "missing_ocf_history" in
  let ocfScore :=
    if bool_decide (ocfStability = ocf_stable) then Num 10
    else if bool_decide (ocfStability = ocf_volatile) then Num 5
    else Num 0 in
  let capexRatios := ratios_to_revenue capexSeries revenueSeries in
  let capex :=
    if decide (4 <= length capexRatios)%nat then
      let capexSlope := default (Num 0) (slope (slice_last 8 capexRatios)) in
      (if JS.le capexSlope (Num 0) then Num 5
       else if match revenueTrend with
               | Some t => JS.lt t (Num 0)
               | None => false
               end
       then Num 3
       else Num 0,
       [])
    else (Num 0, ["missing_capex_history"]) in
  let capexScore := fst capex in
  let operatingResilience :=
    clamp (JS.add (JS.add gmDefense ocfScore) capexScore) (Num 0) (Num 25) in
  let short := short_interest_score config (MdsSeriesInputs.short_interest_pct inputs) in
  let shortInterestScore := fst short in
  let ownership :=
    ownership_score config (MdsSeriesInputs.ownership_history inputs)
      (MdsSeriesInputs.fundamentals_intact inputs) ocfSeries in
  let ownershipScore := fst ownership in
  let marketCap := metricsAsOf ≫= MetricsPoint.market_cap in
  let insider :=
    insider_bonus config (MdsSeriesInputs.insider_trades inputs) asofDate marketCap in
  let insiderBonus := fst insider in
  let marketPositioning :=
    clamp (JS.add (JS.add shortInterestScore ownershipScore) insiderBonus)
          (Num 0) (Num 20) in
  let expectationResetTotal := JS.add expectationReset narrativeShockPoints in
  let total :=
    clamp
      (JS.add (JS.add (JS.add multipleCompressionPoints expectationResetTotal)
                      operatingResilience)
              marketPositioning)
      (Num 0) (Num 100) in
  let warnings :=
    w_asof ++ w_asof_missing ++ w_current ++ w_regimes ++ w_coverage
    ++ snd expectation ++ snd narrative ++ w_gm ++ w_ocf ++ snd capex
    ++ snd short ++ snd ownership ++ snd insider in
  MdsLocals.mk config asofDate metricsAsOf ebitdaSeries revenueSeries ocfSeries
    fcfSeries capexSeries evToEbitdaSeries fcfYieldSeries currentEvToEbitda
    currentFcfYield ebitdaTrend fcfStability h3Compression h5Compression
    compressionScore h3FcfYield h5FcfYield fcfYieldScore
    multipleCompressionPoints expectationReset narrativeShockPoints
    narrativeDetail gmStatus revenueTrend gmDefense ocfStability ocfScore
    capexScore operatingResilience shortInterestScore ownershipScore
    insiderBonus marketPositioning expectationResetTotal total warnings.

Definition mds_result (inputs : MdsSeriesInputs.t) (l : MdsLocals.t)
  : MdsSeriesResult.t :=
  {| MdsSeriesResult.ticker := MdsSeriesInputs.ticker inputs;
     MdsSeriesResult.multiple_compression_points :=
       MdsLocals.multipleCompressionPoints l;
     MdsSeriesResult.expectation_reset_points := MdsLocals.expectationReset l;
     MdsSeriesResult.narrative_shock_points := MdsLocals.narrativeShockPoints l;
     MdsSeriesResult.operating_resilience_points :=
       MdsLocals.operatingResilience l;
     MdsSeriesResult.market_positioning_points := MdsLocals.marketPositioning l;
     MdsSeriesResult.expectation_reset_total := MdsLocals.expectationResetTotal l;
     MdsSeriesResult.total_mds_points := MdsLocals.total l;
     MdsSeriesResult.narrative_detail := MdsLocals.narrativeDetail l;
     MdsSeriesResult.subscores :=
       {| MdsSubscores.multiple_compression := MdsLocals.compressionScore l;
          MdsSubscores.fcf_yield_expansion := MdsLocals.fcfYieldScore l;
          MdsSubscores.expectation_reset := MdsLocals.expectationReset l;
          MdsSubscores.narrative_shock := MdsLocals.narrativeShockPoints l;
          MdsSubscores.operating_resilience := MdsLocals.operatingResilience l;
          MdsSubscores.market_positioning := MdsLocals.marketPositioning l;
          MdsSubscores.gm_defense := MdsLocals.gmDefense l;
          MdsSubscores.ocf_stability := MdsLocals.ocfScore l;
          MdsSubscores.capex_discipline := MdsLocals.capexScore l;
          MdsSubscores.short_interest := MdsLocals.shortInterestScore l;
          MdsSubscores.ownership_capitulation := MdsLocals.ownershipScore l;
          MdsSubscores.insider_bonus := MdsLocals.insiderBonus l |};
     MdsSeriesResult.warnings := MdsLocals.warnings l |}.

(** The as-of date of [computeMdsFromSeries] and the warnings of its
    resolution. *)
Definition mds_asof (inputs : MdsSeriesInputs.t)
  : completion (option Date * list string) :=
  if truthy_string (MdsSeriesInputs.asof_date inputs)
  then Return (parseReportDate (default "" (MdsSeriesInputs.asof_date inputs)),
               [])
  else resolveAsofDate (MdsSeriesInputs.income_statements inputs)
                       (MdsSeriesInputs.cash_flow_statements inputs).

(** [computeMdsFromSeries]. [logMdsResult] writes a log line and does not
    affect the result. *)
Definition computeMdsFromSeries (inputs : MdsSeriesInputs.t)
  : completion MdsSeriesResult.t :=
  match mds_asof inputs with
  | Throw e => Throw e
  | Return (asofDate, w_asof) =>
      match narrative_step inputs with
      | Throw e => Throw e
      | Return narrative =>
          Return (mds_result inputs (mds_locals inputs asofDate w_asof narrative))
      end
  end.

End Defs.
End Mds.

(** ** Short interest ([utils/short-interest.ts]) *)

(** A value of type [unknown]. A value that is neither [null], [undefined]
    nor a number is given by the number that [Number(value)] converts it
    to ([NaN] for a text that is not numeric). *)
Inductive unknown : Type :=
| U_null
| U_undefined
| U_number (n : number)
| U_other (converted : number).

Definition normalizeShortInterest (value : unknown) : option number :=
  match value with
  | U_null | U_undefined => None
  | U_number num | U_other num =>
      if negb (JS.isFinite num) then None
      else if JS.lt num (Num 0) then None
      else if JS.gt num (Num 1) && JS.le num (Num 100)
      then Some (JS.div num (Num 100))
      else if JS.gt num (Num 1) then None
      else Some num
  end.

(** ** A concrete runtime for the examples

    [Date] accepts the ISO calendar dates [YYYY-MM-DD] (midnight UTC) and
    nothing else; [Math.sqrt] and [Math.exp] are rational approximations. *)

Module Sample.

Definition digit (c : ascii) : option Z :=
  let n := nat_of_ascii c in
  if ((48 <=? n) && (n <=? 57))%nat then Some (Z.of_nat (n - 48)) else None.

Fixpoint digits (cs : list ascii) (acc : Z) : option Z :=
  match cs with
  | [] => Some acc
  | c :: rest =>
      match digit c with
      | Some d => digits rest (acc * 10 + d)%Z
      | None => None
      end
  end.

Definition is_leap (y : Z) : bool :=
  ((y mod 4 =? 0) && negb (y mod 100 =? 0) || (y mod 400 =? 0))%Z.

Definition days_in_month (y m : Z) : Z :=
  if (m =? 2)%Z then (if is_leap y then 29 else 28)%Z
  else if ((m =? 4) || (m =? 6) || (m =? 9) || (m =? 11))%Z then 30%Z
  else 31%Z.

(** Days from 1970-01-01 to the civil date [y]-[m]-[d]. *)
Definition days_from_civil (y m d : Z) : Z :=
  let y' := (if m <=? 2 then y - 1 else y)%Z in
  let era := (y' / 400)%Z in
  let yoe := (y' - era * 400)%Z in
  let mp := ((m + 9) mod 12)%Z in
  let doy := ((153 * mp + 2) / 5 + d - 1)%Z in
  let doe := (yoe * 365 + yoe / 4 - yoe / 100 + doy)%Z in
  (era * 146097 + doe - 719468)%Z.

Definition parse_iso_date (s : string) : option Date :=
  match list_ascii_of_string s with
  | [y1; y2; y3; y4; "-"%char; m1; m2; "-"%char; d1; d2] =>
      match digits [y1; y2; y3; y4] 0, digits [m1; m2] 0, digits [d1; d2] 0 with
      | Some y, Some m, Some d =>
          if ((1 <=? m) && (m <=? 12) && (1 <=? d) && (d <=? days_in_month y m))%Z
          then Some (days_from_civil y m d * ms_per_day)%Z
          else None
      | _, _, _ => None
      end
  | _ => None
  end.

(** The civil date of a day number, as [(year, month, day)]. *)
Definition civil_from_days (z : Z) : Z * Z * Z :=
  let z := (z + 719468)%Z in
  let era := (z / 146097)%Z in
  let doe := (z - era * 146097)%Z in
  let yoe := ((doe - doe / 1460 + doe / 36524 - doe / 146096) / 365)%Z in
  let doy := (doe - (365 * yoe + yoe / 4 - yoe / 100))%Z in
  let mp := ((5 * doy + 2) / 153)%Z in
  let d := (doy - (153 * mp + 2) / 5 + 1)%Z in
  let m := (if mp <? 10 then mp + 3 else mp - 9)%Z in
  let y := (yoe + era * 400 + (if m <=? 2 then 1 else 0))%Z in
  (y, m, d).

Definition digit_char (d : Z) : ascii := ascii_of_nat (48 + Z.to_nat (d mod 10)).

(** [n] in decimal, padded with zeros to [width] digits. *)
Fixpoint pad (width : nat) (n : Z) (acc : string) : string :=
  match width with
  | O => acc
  | S w => pad w (n / 10)%Z (String (digit_char n) acc)
  end.

Definition toISOString (t : Date) : string :=
  let day := (t / ms_per_day)%Z in
  let ms := (t mod ms_per_day)%Z in
  let '(y, m, d) := civil_from_days day in
  pad 4 y ("-" +:+ pad 2 m ("-" +:+ pad 2 d
    ("T" +:+ pad 2 (ms / 3600000)%Z (":" +:+ pad 2 (ms / 60000 mod 60)%Z
      (":" +:+ pad 2 (ms / 1000 mod 60)%Z ("." +:+ pad 3 (ms mod 1000)%Z "Z")))))).

Definition sqrt (a : number) : number :=
  match a with
  | Num x =>
      match JS.sgn x with
      | Lt => NaN
      | _ => Num (inject_Z (Z.sqrt (Qfloor (x * inject_Z (10 ^ 16)%Z)))
                  / inject_Z (10 ^ 8)%Z)
      end
  | NInf => NaN
  | _ => a
  end.

Fixpoint exp_series (terms : nat) (x term : Q) (k : Z) : Q :=
  match terms with
  | O => 0
  | S n => term + exp_series n x (Qred (term * x / inject_Z k)) (k + 1)%Z
  end.

Definition exp (a : number) : number :=
  match a with
  | Num x => Num (Qred (exp_series 16 x 1 1))
  | NInf => Num 0
  | _ => a
  end.

Definition platform : Platform :=
  {| Date_parse := parse_iso_date;
     Date_now := 1767225600000%Z;
     Date_toISOString := toISOString;
     Math_sqrt := sqrt;
     Math_exp := exp;
     Math_log2 := Num 0.6931471805599453 |}.

End Sample.

(** A TTM aggregate that is absent, or present and exactly zero. *)
Definition absent_or_zero (v : option number) : Prop :=
  v = None \/ exists z, v = Some (Num z) /\ z == 0.

(** ** Example data *)

Module Examples.

(** A quarterly income statement with revenue 100 and gross profit 40. *)
Definition quarter (period : string) : IncomeStatement.t :=
  {| IncomeStatement.report_period := period;
     IncomeStatement.revenue := Some (Num 100);
     IncomeStatement.gross_profit := Some (Num 40);
     IncomeStatement.ebit := None;
     IncomeStatement.interest_expense := None |}.

Definition four_quarters : list IncomeStatement.t :=
  [quarter "2023-03-31"; quarter "2023-06-30"; quarter "2023-09-30";
   quarter "2023-12-31"].

Definition shuffled_quarters : list IncomeStatement.t :=
  [quarter "2023-12-31"; quarter "2023-03-31"; quarter "2023-09-30";
   quarter "2023-06-30"; quarter "2024-03-31"].

(** Two rows whose period is no date stand between a later and an earlier
    quarter. *)
Definition rows_with_bad_dates : list IncomeStatement.t :=
  [quarter "2020-12-31"; quarter "n/a"; quarter "pending";
   quarter "2019-12-31"].

(** Inputs of [computeMdsFromSeries] without any history, with the short
    interest [pct]. *)
Definition mds_inputs (pct : option number) : MdsSeriesInputs.t :=
  {| MdsSeriesInputs.ticker := Some "ACME";
     MdsSeriesInputs.asof_date := Some "2023-12-31";
     MdsSeriesInputs.metrics_history := [];
     MdsSeriesInputs.income_statements := [];
     MdsSeriesInputs.cash_flow_statements := [];
     MdsSeriesInputs.estimates := None;
     MdsSeriesInputs.ownership_history := None;
     MdsSeriesInputs.insider_trades := None;
     MdsSeriesInputs.short_interest_pct := pct;
     MdsSeriesInputs.docs := None;
     MdsSeriesInputs.narrative_params := None;
     MdsSeriesInputs.fundamentals_intact := None;
     MdsSeriesInputs.config := None |}.

Definition eight_periods : list string :=
  ["2022-03-31"; "2022-06-30"; "2022-09-30"; "2022-12-31";
   "2023-03-31"; "2023-06-30"; "2023-09-30"; "2023-12-31"].

(** A quarter with revenue 100, gross profit 40 and EBIT 10. *)
Definition income_row (period : string) : IncomeStatement.t :=
  {| IncomeStatement.report_period := period;
     IncomeStatement.revenue := Some (Num 100);
     IncomeStatement.gross_profit := Some (Num 40);
     IncomeStatement.ebit := Some (Num 10);
     IncomeStatement.interest_expense := Some (Num 1) |}.

(** A quarter with D&A 2 and the operating cash flow [ocf]. *)
Definition cash_row (ocf : number) (period : string) : CashFlowStatement.t :=
  {| CashFlowStatement.report_period := period;
     CashFlowStatement.depreciation_and_amortization := Some (Num 2);
     CashFlowStatement.net_cash_flow_from_operations := Some ocf;
     CashFlowStatement.free_cash_flow := Some (Num 5);
     CashFlowStatement.capital_expenditure := Some (Num 3);
     CashFlowStatement.dividends_and_other_cash_distributions := None;
     CashFlowStatement.issuance_or_purchase_of_equity_shares := None;
     CashFlowStatement.share_based_compensation := None |}.

Definition metrics_row (ev_to_ebitda : number) (period : string)
  : MetricsPoint.t :=
  {| MetricsPoint.report_period := period;
     MetricsPoint.enterprise_value_to_ebitda_ratio := Some ev_to_ebitda;
     MetricsPoint.free_cash_flow_yield := None;
     MetricsPoint.return_on_invested_capital := None;
     MetricsPoint.interest_coverage := None;
     MetricsPoint.gross_margin := None;
     MetricsPoint.market_cap := None;
     MetricsPoint.enterprise_value := None |}.

(** Eight flat quarters and seven observations of EV/EBITDA: six at 10 and
    the latest at 7.5, a compression of 25% against the median. *)
Definition mds_short_history : MdsSeriesInputs.t :=
  {| MdsSeriesInputs.ticker := Some "ACME";
     MdsSeriesInputs.asof_date := None;
     MdsSeriesInputs.metrics_history :=
       map (metrics_row (Num 10)) (take 6 (drop 1 eight_periods))
       ++ [metrics_row (Num 7.5) "2023-12-31"];
     MdsSeriesInputs.income_statements := map income_row eight_periods;
     MdsSeriesInputs.cash_flow_statements := map (cash_row (Num 8)) eight_periods;
     MdsSeriesInputs.estimates := None;
     MdsSeriesInputs.ownership_history := None;
     MdsSeriesInputs.insider_trades := None;
     MdsSeriesInputs.short_interest_pct := None;
     MdsSeriesInputs.docs := None;
     MdsSeriesInputs.narrative_params := None;
     MdsSeriesInputs.fundamentals_intact := None;
     MdsSeriesInputs.config := None |}.

Definition balance_row (period : string) : BalanceSheet.t :=
  {| BalanceSheet.report_period := period;
     BalanceSheet.total_debt := Some (Num 30);
     BalanceSheet.cash_and_equivalents := Some (Num 10) |}.

Definition peer (ticker sector industry : string) (ev_to_ebitda : number)
  : UniverseMetric.t :=
  {| UniverseMetric.ticker := ticker;
     UniverseMetric.sector := Some sector;
     UniverseMetric.industry := Some industry;
     UniverseMetric.ev_to_ebitda := Some ev_to_ebitda;
     UniverseMetric.roic_series := None |}.

(** A company with eight flat quarters, an EV/EBITDA of 7 and three peers,
    two of them in its sector; every quarter has the operating cash flow
    [ocf]. *)
Definition brs_inputs (ocf : number) (config : option BrsConfig.partial)
  : BrsInputs.t :=
  {| BrsInputs.ticker := "acme";
     BrsInputs.company_facts :=
       [CompanyFacts.mk "ACME" (Some "Technology") (Some "Software")];
     BrsInputs.income_statements := map income_row eight_periods;
     BrsInputs.balance_sheets := map balance_row eight_periods;
     BrsInputs.cash_flow_statements := map (cash_row ocf) eight_periods;
     BrsInputs.metrics_history := [metrics_row (Num 7) "2023-12-31"];
     BrsInputs.universe_metrics :=
       [peer "P1" "Technology" "Software" (Num 8);
        peer "P2" "Technology" "Hardware" (Num 10);
        peer "P3" "Energy" "Oil" (Num 12)];
     BrsInputs.config := config |}.

(** An override of [low_history_gm_multiplier] alone. *)
Definition gm_multiplier (m : number) : BrsConfig.partial :=
  {| BrsConfig.min_peers' := None;
     BrsConfig.gm_stdev_threshold' := None;
     BrsConfig.low_history_gm_multiplier' := Some m;
     BrsConfig.winsor_low' := None;
     BrsConfig.winsor_high' := None;
     BrsConfig.median_bands' := None |}.

(** Four quarters of a steady margin, and nothing else. *)
Definition brs_four_quarters (config : option BrsConfig.partial) : BrsInputs.t :=
  {| BrsInputs.ticker := "ACME";
     BrsInputs.company_facts := [];
     BrsInputs.income_statements := four_quarters;
     BrsInputs.balance_sheets := [];
     BrsInputs.cash_flow_statements := [];
     BrsInputs.metrics_history := [];
     BrsInputs.universe_metrics := [];
     BrsInputs.config := config |}.

(** The restatement notice of the end-to-end scenarios, as published by
    [source] on the last day of the window. *)
Definition restatement_doc (source : SourceType) : NarrativeDoc.t :=
  {| NarrativeDoc.source_type := source;
     NarrativeDoc.title := "Company update";
     NarrativeDoc.body :=
       "the Company will restate previously issued financial statements";
     NarrativeDoc.published_at := "2024-05-01";
     NarrativeDoc.form_type := None;
     NarrativeDoc.filing_item := None;
     NarrativeDoc.url := None;
     NarrativeDoc.id := None |}.

Definition window_2024_05_01 : NarrativeShockParams.options :=
  {| NarrativeShockParams.ticker := Some "ACME";
     NarrativeShockParams.window_end := Some "2024-05-01";
     NarrativeShockParams.overrides := NarrativeShockParams.no_override |}.

End Examples.

(** * The callers of the scoring core

    [computeMds] of [utils/mds.ts], the helpers of the pipeline and score
    tools ([tools/scoring/brs-mds-pipeline.ts], [tools/scoring/brs-mds-score.ts]),
    the score runner ([utils/score-runner.ts]) and the source filter of the
    narrative corpus ([tools/narrative/narrative-shock-corpus.ts]).

    The tools read their input as values of type [unknown]; a value is modelled
    by the cases that the code tells apart with [typeof]. Network and file
    access is outside the model: a function is modelled from the point where
    it has its data. *)

(** ** Vocabulary of the properties of [nearestByDate] *)

(** The distance in days between a date and the target: [diff]. *)
Definition days_from (targetDate date : Date) : number :=
  JS.div (JS.abs (JS.of_Z (date - targetDate))) (JS.of_Z ms_per_day).

Section Reach.
Context `{P : Platform} {T : Type} `{DatedValue T}.

(** [row] has a date, at most [maxDaysDiff] days away from the target: the
    loop does not skip it. *)
Definition in_reach (targetDate : Date) (maxDaysDiff : number) (row : T) : bool :=
  match parsed_date row with
  | Some date => negb (JS.gt (days_from targetDate date) maxDaysDiff)
  | None => false
  end.

End Reach.

(** Every value is a finite number. *)
Definition all_finite (values : list number) : Prop :=
  Forall (fun v => JS.isFinite v = true) values.

(** ** Vocabulary of the properties of [applyCoverage] *)

(** A rational that a binary floating-point number can hold: a whole number
    over a power of two. *)
Definition dyadic (q : Q) : Prop :=
  exists (a : Z) (j : nat), q == inject_Z a / inject_Z (2 ^ Z.of_nat j).

(** [x] is not within a hundred-thousandth of a number midway between two
    hundredths: [x.toFixed(2)] rounds [x] to the same hundredth whether [x]
    is the exact product or the floating-point one. *)
Definition away_from_tie (x : Q) : Prop :=
  forall k : Z, 1 # 1000 <= Qabs (100 * x - (inject_Z k + (1 # 2))).

(** ** Vocabulary of the properties of [classifyNarrativeShock] *)

(** The entry that the loop of [classifyNarrativeShock] pushes for the
    document [doc] in the class [eventClass]: the document with the labels of
    the strong and of the weak patterns of the class that its text matches;
    none when it matches no pattern of the class. *)
Definition doc_match (eventClass : EventClass.t) (doc : ProcessedDoc.t)
  : option DocMatch.t :=
  let strongMatches :=
    map patternLabel
        (List.filter (matchPattern (ProcessedDoc.text doc))
                     (EventClass.strong eventClass)) in
  let weakMatches :=
    map patternLabel
        (List.filter (matchPattern (ProcessedDoc.text doc))
                     (EventClass.weak eventClass)) in
  match strongMatches, weakMatches with
  | [], [] => None
  | _, _ => Some (DocMatch.mk doc strongMatches weakMatches)
  end.

(** The points and the cap of a class are numbers, with the weak-tier points
    between 0 and the strong-tier points. *)
Definition sound_points (eventClass : EventClass.t) : bool :=
  match EventClass.severity eventClass, EventClass.structural eventClass,
        EventClass.cap eventClass with
  | Points.mk (Num s) (Num w), Points.mk (Num s') (Num w'), Num _ =>
      Qle_bool 0 w && Qle_bool w s && Qle_bool 0 w' && Qle_bool w' s'
  | _, _, _ => false
  end.

(** [filed] reads as [doc] does and is published in an SEC filing, with a
    weight that is not lower; both weights are numbers that are not
    negative. *)
Definition filed_copy (doc filed : ProcessedDoc.t) : Prop :=
  ProcessedDoc.text filed = ProcessedDoc.text doc
  /\ ProcessedDoc.source_type filed = SEC_FILING
  /\ exists x y,
       ProcessedDoc.weight doc = Num x /\ ProcessedDoc.weight filed = Num y
       /\ 0 <= x /\ x <= y.

(** ** [computeMds] ([utils/mds.ts]) *)

Module MdsInputs.
Record t : Type := mk {
  ticker : option string;
  window_end : option string;
  docs : option (list NarrativeDoc.t);
  narrative_params : option NarrativeShockParams.partial;
  multiple_compression_points : number;
  expectation_reset_points : number;
  operating_resilience_points : number;
  market_positioning_points : number;
  (** [0 | 10 | 15] by its type; [None] when the key is absent. *)
  narrative_shock_override : option number;
}.
End MdsInputs.

Module MdsResult.
Record t : Type := mk {
  ticker : option string;
  multiple_compression_points : number;
  expectation_reset_points : number;
  narrative_shock_points : number;
  operating_resilience_points : number;
  market_positioning_points : number;
  expectation_reset_total : number;
  total_mds_points : number;
  narrative_detail : option NarrativeShockResult.t;
}.
End MdsResult.

Section ComputeMds.
Context `{P : Platform}.

(** [narrativeShockPoints] and [narrativeDetail] of [computeMds], or the
    exception of the classifier. *)
Definition mds_narrative (inputs : MdsInputs.t)
  : completion (number * option NarrativeShockResult.t) :=
  match MdsInputs.narrative_shock_override inputs with
  | Some override => Return (override, None)
  | None =>
      match MdsInputs.docs inputs with
      | Some (_ :: _ as docs) =>
          let options :=
            {| NarrativeShockParams.ticker := MdsInputs.ticker inputs;
               NarrativeShockParams.window_end := MdsInputs.window_end inputs;
               NarrativeShockParams.overrides :=
                 default NarrativeShockParams.no_override
                         (MdsInputs.narrative_params inputs) |} in
          match classifyNarrativeShock docs options with
          | Return detail =>
              Return (NarrativeShockResult.mds_narrative_shock_points detail,
                      Some detail)
          | Throw e => Throw e
          end
      | _ => Return (Num 0, None)
      end
  end.

Definition computeMds (inputs : MdsInputs.t) : completion MdsResult.t :=
  let multipleCompression :=
    clamp (MdsInputs.multiple_compression_points inputs) (Num 0) (Num 30) in
  let expectationReset :=
    clamp (MdsInputs.expectation_reset_points inputs) (Num 0) (Num 10) in
  let operatingResilience :=
    clamp (MdsInputs.operating_resilience_points inputs) (Num 0) (Num 25) in
  let marketPositioning :=
    clamp (MdsInputs.market_positioning_points inputs) (Num 0) (Num 20) in
  match mds_narrative inputs with
  | Throw e => Throw e
  | Return (narrativeShockPoints, narrativeDetail) =>
      let expectationResetTotal := JS.add expectationReset narrativeShockPoints in
      let total :=
        clamp
          (JS.add (JS.add (JS.add multipleCompression expectationResetTotal)
                          operatingResilience)
                  marketPositioning)
          (Num 0) (Num 100) in
      Return
        {| MdsResult.ticker := MdsInputs.ticker inputs;
           MdsResult.multiple_compression_points := multipleCompression;
           MdsResult.expectation_reset_points := expectationReset;
           MdsResult.narrative_shock_points := narrativeShockPoints;
           MdsResult.operating_resilience_points := operatingResilience;
           MdsResult.market_positioning_points := marketPositioning;
           MdsResult.expectation_reset_total := expectationResetTotal;
           MdsResult.total_mds_points := total;
           MdsResult.narrative_detail := narrativeDetail |}
  end.

End ComputeMds.

(** ** The pipeline tool ([tools/scoring/brs-mds-pipeline.ts]) *)

(** [s.trim()] of an ASCII string. *)
Definition js_trim (s : string) : string :=
  string_of_list_ascii (trim (list_ascii_of_string s)).

(** An element of [tickers], of type [unknown]: a string; an object, with its
    property [ticker] when that is a string; or another value (a number, a
    boolean, [null], [undefined]), with its truthiness. *)
Inductive TickerInput : Type :=
| TickerString (s : string)
| TickerObject (ticker : option string)
| TickerOther (is_truthy : bool).

(** [!ticker]. *)
Definition falsy_ticker (ticker : TickerInput) : bool :=
  match ticker with
  | TickerString s => String.eqb s ""
  | TickerObject _ => false
  | TickerOther is_truthy => negb is_truthy
  end.

(** [value] of the loop of [toUpperTickers]. *)
Definition ticker_value (ticker : TickerInput) : string :=
  match ticker with
  | TickerString s => s
  | TickerObject (Some s) => s
  | _ => ""
  end.

(** [unique.add(x)], on the elements of the [Set] in insertion order. *)
Definition set_add (unique : list string) (x : string) : list string :=
  if set_has unique x then unique else unique ++ [x].

Definition upper_ticker_step (unique : list string) (ticker : TickerInput)
  : list string :=
  if falsy_ticker ticker then unique
  else
    let value := ticker_value ticker in
    if String.eqb value "" then unique
    else set_add unique (toUpperCase (js_trim value)).

Definition toUpperTickers (tickers : list TickerInput) : list string :=
  fold_left upper_ticker_step tickers [].

Definition MAX_LOOKBACK_YEARS : number := Num 10.
Definition MIN_HISTORY_QUARTERS : number := Num 8.
Definition DEFAULT_LOOKBACK_YEARS : number := Num 5.

Definition clampLookbackYears (value : number) : number :=
  if negb (JS.isFinite value) then DEFAULT_LOOKBACK_YEARS
  else JS.min (JS.max (Num 1) value) MAX_LOOKBACK_YEARS.

Definition lookbackQuarters (years : number) : number :=
  JS.max MIN_HISTORY_QUARTERS (JS.round (JS.mul years (Num 4))).

(** [historyLimit] of the tool, from [input.lookback_years] ([None] when it
    is not a number). *)
Definition historyLimit (lookback_years : option number) : number :=
  lookbackQuarters
    (clampLookbackYears (default DEFAULT_LOOKBACK_YEARS lookback_years)).

Definition brsTier (value : option number) : string :=
  match value with
  | None => "n/a"
  | Some value =>
      if JS.ge value (Num 80) then "Elite"
      else if JS.ge value (Num 60) then "High"
      else if JS.ge value (Num 40) then "Mixed"
      else "Weak"
  end.

Definition mdsTier (value : option number) : string :=
  match value with
  | None => "n/a"
  | Some value =>
      if JS.ge value (Num 70) then "Severe"
      else if JS.ge value (Num 50) then "Moderate"
      else "Low"
  end.

(** [a || b] on [string | null]: the empty string is falsy. *)
Definition or_string (a b : option string) : option string :=
  if truthy_string a then a else b.

Section PipelineDates.
Context `{P : Platform}.

(** One turn of the loop of [latestDate]: [latest] is [{ date, value }]. *)
Definition latest_step {T} `{DatedValue T} (latest : option (Date * string))
    (row : T) : option (Date * string) :=
  match parseReportDate (report_period row) with
  | None => latest
  | Some parsed =>
      match latest with
      | None => Some (parsed, report_period row)
      | Some (date, _) =>
          if (date <? parsed)%Z then Some (parsed, report_period row)
          else latest
      end
  end.

Definition latestDate {T} `{DatedValue T} (rows : list T) : option string :=
  snd <$> fold_left latest_step rows None.

(** [candidates] and [withDates] are computed as in [resolveAsofDate] of
    [brs.ts]: the common periods, and those that parse, sorted by date. *)
Definition computeAsofDate (income : list IncomeStatement.t)
    (balance : list BalanceSheet.t) (cashflow : list CashFlowStatement.t)
  : option string :=
  let candidates := asof_candidates income balance cashflow in
  if decide (0 < length candidates)%nat then
    let withDates := sorted_candidates candidates in
    fst <$> withDates !! (length withDates - 1)%nat
  else
    or_string (latestDate income)
      (or_string (latestDate balance) (latestDate cashflow)).

End PipelineDates.

(** The loop over [Object.entries(shortInterestMap)]: [shortInterestValues],
    [shortInterestSources] and [shortInterestErrors]. The schema of the tool
    admits numbers only as values of the map. *)
Module ShortInterestState.
Record t : Type := mk {
  values : gmap string number;
  sources : gmap string string;
  errors : list (string * string);
}.
End ShortInterestState.

Definition short_interest_step (st : ShortInterestState.t)
    (entry : string * number) : ShortInterestState.t :=
  let ticker := toUpperCase (fst entry) in
  match normalizeShortInterest (U_number (snd entry)) with
  | Some normalized =>
      {| ShortInterestState.values :=
           <[ticker := normalized]> (ShortInterestState.values st);
         ShortInterestState.sources :=
           <[ticker := "input"]> (ShortInterestState.sources st);
         ShortInterestState.errors := ShortInterestState.errors st |}
  | None =>
      {| ShortInterestState.values := ShortInterestState.values st;
         ShortInterestState.sources := ShortInterestState.sources st;
         ShortInterestState.errors :=
           ShortInterestState.errors st ++ [(ticker, "short_interest_invalid")] |}
  end.

Definition collect_short_interest (shortInterestMap : list (string * number))
  : ShortInterestState.t :=
  fold_left short_interest_step shortInterestMap
    (ShortInterestState.mk ∅ ∅ []).

(** *** The summary table *)

Definition TABLE_HEADERS : list string :=
  ["Ticker"; "BRS"; "MDS"; "BRS Tier"; "MDS Tier"; "As-of"; "Short %"].

(** An element of [results], as far as [buildSummaryTable] reads it: each
    field is present when the value has the type that the code asks for. *)
Module SummaryEntry.
Record t : Type := mk {
  (** [result.ticker], when a string. *)
  ticker : option string;
  (** [result.brs.scores.total], when [scores] is truthy and [total] a
      number. *)
  brs_total : option number;
  (** [result.mds.total_mds_points], when a number. *)
  mds_total : option number;
  (** [result.asof_date], when a string. *)
  asof_date : option string;
}.
End SummaryEntry.

(** [s.padEnd(width)]. *)
Definition padEnd (width : nat) (s : string) : string :=
  s +:+ string_of_list_ascii (replicate (width - String.length s) " "%char).

(** ['-'.repeat(n)]. *)
Definition dashes (n : nat) : string :=
  string_of_list_ascii (replicate n "-"%char).

(** [xs.join(sep)]. *)
Definition js_join (sep : string) (xs : list string) : string :=
  String.concat sep xs.

Section SummaryTable.
(** [String(n)] and [n.toFixed(1)] of a number. *)
Context (String_of_number : number -> string) (toFixed1 : number -> string).

Definition formatPercent (value : option number) : string :=
  match value with
  | None => "n/a"
  | Some value =>
      if JS.isNaN value then "n/a"
      else toFixed1 (JS.mul value (Num 100)) +:+ "%"
  end.

Definition summary_row (shortInterest : gmap string number)
    (result : SummaryEntry.t) : list string :=
  let ticker := default "" (SummaryEntry.ticker result) in
  let brsValue := SummaryEntry.brs_total result in
  let mdsValue := SummaryEntry.mds_total result in
  let asof :=
    match SummaryEntry.asof_date result with
    | Some s => if decide (0 < String.length (js_trim s))%nat then s else "n/a"
    | None => "n/a"
    end in
  let shortValue := shortInterest !! ticker in
  [ ticker;
    match brsValue with None => "n/a" | Some v => String_of_number v end;
    match mdsValue with None => "n/a" | Some v => String_of_number v end;
    brsTier brsValue;
    mdsTier mdsValue;
    asof;
    formatPercent shortValue ].

(** [widths] after the rows are measured. *)
Definition widen (widths : list nat) (row : list string) : list nat :=
  imap (fun index width =>
          match row !! index with
          | Some cell => Nat.max width (String.length cell)
          | None => width
          end)
       widths.

Definition table_widths (rows : list (list string)) : list nat :=
  fold_left widen rows (map String.length TABLE_HEADERS).

Definition table_line (widths : list nat) (cells : list string) : string :=
  "| "
  +:+ js_join " | "
        (imap (fun i cell => padEnd (default 0%nat (widths !! i)) cell) cells)
  +:+ " |".

(** The lines of the table; every row has as many cells as there are
    headers. *)
Definition summary_lines (results : list SummaryEntry.t)
    (shortInterest : gmap string number) : list string :=
  let rows := map (summary_row shortInterest) results in
  let widths := table_widths rows in
  let separator :=
    "+" +:+ js_join "+" (map (fun w => dashes (w + 2)) widths) +:+ "+" in
  let headerRow := table_line widths TABLE_HEADERS in
  let dataRows := map (table_line widths) rows in
  [separator; headerRow; separator] ++ dataRows ++ [separator].

Definition buildSummaryTable (results : list SummaryEntry.t)
    (shortInterest : gmap string number) : string :=
  js_join (String "010"%char "") (summary_lines results shortInterest).

End SummaryTable.

(** The length of a line of a table whose columns have the given widths:
    two characters before the first cell and three after each cell. *)
Definition line_length (widths : list nat) : nat :=
  match widths with
  | [] => 4
  | w :: ws => w + 4 + sum_list_with (fun w => 3 + w)%nat ws
  end.

(** ** The score tool ([tools/scoring/brs-mds-score.ts]) *)

Section Lookback.
Context `{P : Platform}.
(** [d.setFullYear(d.getFullYear() - years)] of a copy of [d]: the date the
    given number of calendar years earlier, [None] when it is out of the range
    of [Date]. *)
Context (years_before : Z -> Date -> option Date).
Context {T : Type} (date_of : T -> string).

(** [dates.reduce((max, d) => (d > max ? d : max), dates[0])]. *)
Definition latest_of (dates : list Date) (first : Date) : Date :=
  fold_left (fun max d => if (max <? d)%Z then d else max) dates first.

(** The three functions [trimRowsByLookback], [trimTradesByLookback] and
    [trimDocsByLookback] are this one, with [date_of] the field
    [report_period], [transaction_date] or [published_at]; the result is the
    rows kept and the warnings pushed. *)
Definition trimByLookback (rows : list T) (label : string)
  : list T * list string :=
  if decide (length rows = 0%nat) then (rows, [])
  else
    let dates := omap (fun row => parseReportDate (date_of row)) rows in
    match dates with
    | [] => (rows, [])
    | first :: _ =>
        let latest := latest_of dates first in
        let cutoff := years_before 10 latest in
        let filtered :=
          List.filter
            (fun row =>
               match parseReportDate (date_of row) with
               | Some date => JS.ge (JS.of_Z date) (getTime cutoff)
               | None => true
               end)
            rows in
        (filtered,
         push_if (length filtered <? length rows)%nat
                 ("trimmed_" +:+ label +:+ "_lookback"))
    end.

End Lookback.

(** ** The score runner ([utils/score-runner.ts]) *)

Module ScoreConfig.
Record t : Type := mk {
  brs : option BrsConfig.partial;
  mds : option MdsConfig.partial;
}.
Definition empty : t := mk None None.
End ScoreConfig.

Module ScoreRequest.
Record t : Type := mk {
  brs : option BrsInputs.t;
  mds : option MdsSeriesInputs.t;
  config : option ScoreConfig.t;
}.
End ScoreRequest.

Module ScoreResponse.
Record t : Type := mk {
  brs : option BrsResult.t;
  mds : option MdsSeriesResult.t;
}.
End ScoreResponse.

(** [{ ...base, ...over }] of two partial configurations. *)
Definition spread_brs (base over : BrsConfig.partial) : BrsConfig.partial :=
  {| BrsConfig.min_peers' :=
       coalesce (BrsConfig.min_peers' over) (BrsConfig.min_peers' base);
     BrsConfig.gm_stdev_threshold' :=
       coalesce (BrsConfig.gm_stdev_threshold' over)
                (BrsConfig.gm_stdev_threshold' base);
     BrsConfig.low_history_gm_multiplier' :=
       coalesce (BrsConfig.low_history_gm_multiplier' over)
                (BrsConfig.low_history_gm_multiplier' base);
     BrsConfig.winsor_low' :=
       coalesce (BrsConfig.winsor_low' over) (BrsConfig.winsor_low' base);
     BrsConfig.winsor_high' :=
       coalesce (BrsConfig.winsor_high' over) (BrsConfig.winsor_high' base);
     BrsConfig.median_bands' :=
       coalesce (BrsConfig.median_bands' over) (BrsConfig.median_bands' base) |}.

Definition spread_mds (base over : MdsConfig.partial) : MdsConfig.partial :=
  {| MdsConfig.history_short' :=
       coalesce (MdsConfig.history_short' over) (MdsConfig.history_short' base);
     MdsConfig.history_long' :=
       coalesce (MdsConfig.history_long' over) (MdsConfig.history_long' base);
     MdsConfig.history_min' :=
       coalesce (MdsConfig.history_min' over) (MdsConfig.history_min' base);
     MdsConfig.ebitda_flat' :=
       coalesce (MdsConfig.ebitda_flat' over) (MdsConfig.ebitda_flat' base);
     MdsConfig.ebitda_mild' :=
       coalesce (MdsConfig.ebitda_mild' over) (MdsConfig.ebitda_mild' base);
     MdsConfig.ebitda_collapse' :=
       coalesce (MdsConfig.ebitda_collapse' over)
                (MdsConfig.ebitda_collapse' base);
     MdsConfig.fcf_stdev_stable' :=
       coalesce (MdsConfig.fcf_stdev_stable' over)
                (MdsConfig.fcf_stdev_stable' base);
     MdsConfig.fcf_stdev_volatile' :=
       coalesce (MdsConfig.fcf_stdev_volatile' over)
                (MdsConfig.fcf_stdev_volatile' base);
     MdsConfig.ocf_stdev_stable' :=
       coalesce (MdsConfig.ocf_stdev_stable' over)
                (MdsConfig.ocf_stdev_stable' base);
     MdsConfig.ocf_stdev_volatile' :=
       coalesce (MdsConfig.ocf_stdev_volatile' over)
                (MdsConfig.ocf_stdev_volatile' base);
     MdsConfig.gm_stdev' :=
       coalesce (MdsConfig.gm_stdev' over) (MdsConfig.gm_stdev' base);
     MdsConfig.revenue_stable' :=
       coalesce (MdsConfig.revenue_stable' over)
                (MdsConfig.revenue_stable' base);
     MdsConfig.multiple_strong' :=
       coalesce (MdsConfig.multiple_strong' over)
                (MdsConfig.multiple_strong' base);
     MdsConfig.multiple_mild' :=
       coalesce (MdsConfig.multiple_mild' over) (MdsConfig.multiple_mild' base);
     MdsConfig.fcf_yield_up' :=
       coalesce (MdsConfig.fcf_yield_up' over) (MdsConfig.fcf_yield_up' base);
     MdsConfig.eps_drop' :=
       coalesce (MdsConfig.eps_drop' over) (MdsConfig.eps_drop' base);
     MdsConfig.short_elevated' :=
       coalesce (MdsConfig.short_elevated' over)
                (MdsConfig.short_elevated' base);
     MdsConfig.short_extreme' :=
       coalesce (MdsConfig.short_extreme' over) (MdsConfig.short_extreme' base);
     MdsConfig.insider_value_threshold' :=
       coalesce (MdsConfig.insider_value_threshold' over)
                (MdsConfig.insider_value_threshold' base);
     MdsConfig.insider_pct_threshold' :=
       coalesce (MdsConfig.insider_pct_threshold' over)
                (MdsConfig.insider_pct_threshold' base);
     MdsConfig.ownership_holders_drop' :=
       coalesce (MdsConfig.ownership_holders_drop' over)
                (MdsConfig.ownership_holders_drop' base);
     MdsConfig.ownership_shares_drop' :=
       coalesce (MdsConfig.ownership_shares_drop' over)
                (MdsConfig.ownership_shares_drop' base) |}.

(** [{ ...inputs, config }]. *)
Definition with_brs_config (inputs : BrsInputs.t)
    (config : option BrsConfig.partial) : BrsInputs.t :=
  {| BrsInputs.ticker := BrsInputs.ticker inputs;
     BrsInputs.company_facts := BrsInputs.company_facts inputs;
     BrsInputs.income_statements := BrsInputs.income_statements inputs;
     BrsInputs.balance_sheets := BrsInputs.balance_sheets inputs;
     BrsInputs.cash_flow_statements := BrsInputs.cash_flow_statements inputs;
     BrsInputs.metrics_history := BrsInputs.metrics_history inputs;
     BrsInputs.universe_metrics := BrsInputs.universe_metrics inputs;
     BrsInputs.config := config |}.

Definition with_mds_config (inputs : MdsSeriesInputs.t)
    (config : option MdsConfig.partial) : MdsSeriesInputs.t :=
  {| MdsSeriesInputs.ticker := MdsSeriesInputs.ticker inputs;
     MdsSeriesInputs.asof_date := MdsSeriesInputs.asof_date inputs;
     MdsSeriesInputs.metrics_history := MdsSeriesInputs.metrics_history inputs;
     MdsSeriesInputs.income_statements :=
       MdsSeriesInputs.income_statements inputs;
     MdsSeriesInputs.cash_flow_statements :=
       MdsSeriesInputs.cash_flow_statements inputs;
     MdsSeriesInputs.estimates := MdsSeriesInputs.estimates inputs;
     MdsSeriesInputs.ownership_history :=
       MdsSeriesInputs.ownership_history inputs;
     MdsSeriesInputs.insider_trades := MdsSeriesInputs.insider_trades inputs;
     MdsSeriesInputs.short_interest_pct :=
       MdsSeriesInputs.short_interest_pct inputs;
     MdsSeriesInputs.docs := MdsSeriesInputs.docs inputs;
     MdsSeriesInputs.narrative_params :=
       MdsSeriesInputs.narrative_params inputs;
     MdsSeriesInputs.fundamentals_intact :=
       MdsSeriesInputs.fundamentals_intact inputs;
     MdsSeriesInputs.config := config |}.

Section ScoreRunner.
Context `{P : Platform}.
(** [getSetting('scoring', {})]: the scoring section of the settings file. *)
Context (settings : ScoreConfig.t).

Definition mergeConfig (requestConfig : option ScoreConfig.t) : ScoreConfig.t :=
  {| ScoreConfig.brs :=
       Some (spread_brs
               (default BrsConfig.no_override (ScoreConfig.brs settings))
               (default BrsConfig.no_override
                        (requestConfig ≫= ScoreConfig.brs)));
     ScoreConfig.mds :=
       Some (spread_mds
               (default MdsConfig.no_override (ScoreConfig.mds settings))
               (default MdsConfig.no_override
                        (requestConfig ≫= ScoreConfig.mds))) |}.

(** [runScoreRequest]. The calls of [logToFile] write log lines and do not
    affect the result. *)
Definition runScoreRequest (request : ScoreRequest.t)
  : completion ScoreResponse.t :=
  let config := mergeConfig (ScoreRequest.config request) in
  let brs :=
    match ScoreRequest.brs request with
    | Some inputs =>
        match computeBrs (with_brs_config inputs (ScoreConfig.brs config)) with
        | Return result => Return (Some result)
        | Throw e => Throw e
        end
    | None => Return None
    end in
  match brs with
  | Throw e => Throw e
  | Return brs =>
      let mds :=
        match ScoreRequest.mds request with
        | Some inputs =>
            match Mds.computeMdsFromSeries
                    (with_mds_config inputs (ScoreConfig.mds config)) with
            | Return result => Return (Some result)
            | Throw e => Throw e
            end
        | None => Return None
        end in
      match mds with
      | Throw e => Throw e
      | Return mds => Return (ScoreResponse.mk brs mds)
      end
  end.

End ScoreRunner.

(** ** The narrative corpus ([tools/narrative/narrative-shock-corpus.ts]) *)

Definition normalizeSource (value : string) : string :=
  toLowerCase (js_trim value).

Definition matchesAllowedSources (source : string) (hostname : option string)
    (allowedSources : list string) : bool :=
  if decide (length allowedSources = 0%nat) then true
  else
    let sourceValue := normalizeSource source in
    let hostValue :=
      if truthy_string hostname then normalizeSource (default "" hostname)
      else "" in
    existsb
      (fun allowed =>
         let token := normalizeSource allowed in
         if String.eqb token "" then false
         else includes sourceValue token || includes hostValue token
              || includes token sourceValue)
      allowedSources.

Definition COMPANY_NAME_STOPWORDS : list string :=
  ["inc"; "incorporated"; "corp"; "corporation"; "co"; "company"; "ltd";
   "limited"; "plc"; "holdings"; "group"].

(** The characters of [[a-z0-9]]. *)
Definition is_name_char (c : ascii) : bool :=
  let n := nat_of_ascii c in
  (((97 <=? n) && (n <=? 122)) || ((48 <=? n) && (n <=? 57)))%nat.

(** [s.split(/[^a-z0-9]+/g)]: the pieces between the maximal runs of other
    characters. [current] is the piece being read, last character first;
    [in_run] says that the previous character was a separator. *)
Fixpoint split_name (in_run : bool) (current : list ascii) (cs : list ascii)
  : list string :=
  match cs with
  | [] => [string_of_list_ascii (rev current)]
  | c :: rest =>
      if is_name_char c then split_name false (c :: current) rest
      else if in_run then split_name true current rest
      else string_of_list_ascii (rev current) :: split_name true [] rest
  end.

Definition buildNameTokens (name : string) : list string :=
  List.filter
    (fun token =>
       bool_decide (3 <= String.length token)%nat
       && negb (set_has COMPANY_NAME_STOPWORDS token))
    (map js_trim
       (split_name false [] (list_ascii_of_string (toLowerCase name)))).

(** ** Example data of the callers *)

Module Scenarios.

(** Inputs of [computeMds] with every component above its maximum, the
    restatement notice as the corpus and the narrative points [override]. *)
Definition mds_points (override : option number) : MdsInputs.t :=
  {| MdsInputs.ticker := Some "ACME";
     MdsInputs.window_end := Some "not a date";
     MdsInputs.docs := Some [Examples.restatement_doc NEWS];
     MdsInputs.narrative_params := None;
     MdsInputs.multiple_compression_points := Num 40;
     MdsInputs.expectation_reset_points := Num 12;
     MdsInputs.operating_resilience_points := Num 30;
     MdsInputs.market_positioning_points := Num 25;
     MdsInputs.narrative_shock_override := override |}.

(** A notice of a restatement, of a going-concern doubt and of the loss of
    the largest customer, as published by [source] on the last day of the
    window. *)
Definition distress_doc (source : SourceType) : NarrativeDoc.t :=
  {| NarrativeDoc.source_type := source;
     NarrativeDoc.title := "Company update";
     NarrativeDoc.body :=
       "the Company will restate previously issued financial statements, "
       +:+ "reports a going concern doubt and lost its largest customer";
     NarrativeDoc.published_at := "2024-05-01";
     NarrativeDoc.form_type := None;
     NarrativeDoc.filing_item := None;
     NarrativeDoc.url := None;
     NarrativeDoc.id := None |}.

(** An override of [min_peers] alone. *)
Definition min_peers (n : number) : BrsConfig.partial :=
  {| BrsConfig.min_peers' := Some n;
     BrsConfig.gm_stdev_threshold' := None;
     BrsConfig.low_history_gm_multiplier' := None;
     BrsConfig.winsor_low' := None;
     BrsConfig.winsor_high' := None;
     BrsConfig.median_bands' := None |}.

(** A quarter with revenue 100, gross profit 40 and the EBIT [ebit]. *)
Definition income_with_ebit (ebit : number) (period : string)
  : IncomeStatement.t :=
  {| IncomeStatement.report_period := period;
     IncomeStatement.revenue := Some (Num 100);
     IncomeStatement.gross_profit := Some (Num 40);
     IncomeStatement.ebit := Some ebit;
     IncomeStatement.interest_expense := Some (Num 1) |}.

(** A quarter with D&A 2 and the free cash flow [fcf]. *)
Definition cash_with_fcf (fcf : number) (period : string)
  : CashFlowStatement.t :=
  {| CashFlowStatement.report_period := period;
     CashFlowStatement.depreciation_and_amortization := Some (Num 2);
     CashFlowStatement.net_cash_flow_from_operations := Some (Num 8);
     CashFlowStatement.free_cash_flow := Some fcf;
     CashFlowStatement.capital_expenditure := Some (Num 3);
     CashFlowStatement.dividends_and_other_cash_distributions := None;
     CashFlowStatement.issuance_or_purchase_of_equity_shares := None;
     CashFlowStatement.share_based_compensation := None |}.

(** A metrics point with an EV/EBITDA and a free-cash-flow yield. *)
Definition metrics_with_yield (ev_to_ebitda fcf_yield : number)
    (period : string) : MetricsPoint.t :=
  {| MetricsPoint.report_period := period;
     MetricsPoint.enterprise_value_to_ebitda_ratio := Some ev_to_ebitda;
     MetricsPoint.free_cash_flow_yield := Some fcf_yield;
     MetricsPoint.return_on_invested_capital := None;
     MetricsPoint.interest_coverage := None;
     MetricsPoint.gross_margin := None;
     MetricsPoint.market_cap := None;
     MetricsPoint.enterprise_value := None |}.

(** A cheap-looking company: seven observations, the EV/EBITDA down from 10
    to 7.5 and the free-cash-flow yield up from 5% to 10%, over eight quarters
    whose EBIT is [ebit] in the last four (10 in the first four) and whose
    free cash flow is [fcf] throughout. *)
Definition cheap_company (ebit fcf : number) : MdsSeriesInputs.t :=
  {| MdsSeriesInputs.ticker := Some "ACME";
     MdsSeriesInputs.asof_date := None;
     MdsSeriesInputs.metrics_history :=
       map (metrics_with_yield (Num 10) (Num 0.05))
           (take 6 (drop 1 Examples.eight_periods))
       ++ [metrics_with_yield (Num 7.5) (Num 0.10) "2023-12-31"];
     MdsSeriesInputs.income_statements :=
       map (income_with_ebit (Num 10)) (take 4 Examples.eight_periods)
       ++ map (income_with_ebit ebit) (drop 4 Examples.eight_periods);
     MdsSeriesInputs.cash_flow_statements :=
       map (cash_with_fcf fcf) Examples.eight_periods;
     MdsSeriesInputs.estimates := None;
     MdsSeriesInputs.ownership_history := None;
     MdsSeriesInputs.insider_trades := None;
     MdsSeriesInputs.short_interest_pct := None;
     MdsSeriesInputs.docs := None;
     MdsSeriesInputs.narrative_params := None;
     MdsSeriesInputs.fundamentals_intact := None;
     MdsSeriesInputs.config := None |}.

(** [d.setFullYear(d.getFullYear() - years)] of a copy of [d] in a process
    whose time zone is UTC: the same month, day and time of day [years]
    calendar years earlier, a 29 February that does not exist being the
    1 March; [None] beyond the range of [Date]. *)
Definition utc_years_before (years : Z) (d : Date) : option Date :=
  let '(y, m, day) := Sample.civil_from_days (d / ms_per_day)%Z in
  let t :=
    (Sample.days_from_civil (y - years) m day * ms_per_day + d mod ms_per_day)%Z in
  if (Z.abs t <=? 8640000000000000)%Z then Some t else None.

(** Quarterly rows of which two are more than ten years older than the
    latest, and one has no date. *)
Definition long_history : list IncomeStatement.t :=
  map Examples.quarter
    ["2012-06-30"; "2024-03-31"; "n/a"; "2014-03-31"; "2014-03-30";
     "2023-12-31"].

End Scenarios.

(** * Properties *)

Local Open Scope Q_scope.

(** ** Comparisons and arithmetic of numbers *)

Arguments JS.lt : simpl never.
Arguments JS.le : simpl never.
Arguments JS.gt : simpl never.
Arguments JS.ge : simpl never.
Arguments JS.eq : simpl never.

Lemma lt_Num (x y : Q) : JS.lt (Num x) (Num y) = true <-> x < y.
Proof.
  unfold JS.lt. rewrite Qlt_alt. destruct (x ?= y); intuition congruence.
Qed.

Lemma eq_Num (x y : Q) : JS.eq (Num x) (Num y) = true <-> x == y.
Proof. apply Qeq_bool_iff. Qed.

Lemma le_Num (x y : Q) : JS.le (Num x) (Num y) = true <-> x <= y.
Proof.
  unfold JS.le. rewrite orb_true_iff, lt_Num, eq_Num.
  split; [intros [H | H]; lra | intros H].
  destruct (Qlt_le_dec x y); [left; lra | right; lra].
Qed.

Lemma gt_Num (x y : Q) : JS.gt (Num x) (Num y) = true <-> y < x.
Proof. apply lt_Num. Qed.

Lemma ge_Num (x y : Q) : JS.ge (Num x) (Num y) = true <-> y <= x.
Proof. apply le_Num. Qed.

Lemma lt_Num_false (x y : Q) : JS.lt (Num x) (Num y) = false <-> y <= x.
Proof.
  rewrite <- not_true_iff_false, lt_Num. split; intros; lra.
Qed.

Lemma le_Num_false (x y : Q) : JS.le (Num x) (Num y) = false <-> y < x.
Proof.
  rewrite <- not_true_iff_false, le_Num. split; intros; lra.
Qed.

Lemma eq_Num_false (x y : Q) : JS.eq (Num x) (Num y) = false <-> ~ x == y.
Proof. rewrite <- not_true_iff_false, eq_Num. tauto. Qed.

(** Every comparison with [NaN] is false. *)
Lemma compare_NaN (a : number) :
  JS.lt NaN a = false /\ JS.lt a NaN = false /\ JS.le NaN a = false
  /\ JS.le a NaN = false /\ JS.eq NaN a = false /\ JS.eq a NaN = false.
Proof. destruct a; repeat split; reflexivity. Qed.

(** Turns the comparisons of finite numbers, in the goal and the
    hypotheses, into rational inequalities. *)
Ltac js_compare :=
  repeat match goal with
    | H : JS.lt (Num _) (Num _) = true |- _ => apply lt_Num in H
    | H : JS.lt (Num _) (Num _) = false |- _ => apply lt_Num_false in H
    | H : JS.le (Num _) (Num _) = true |- _ => apply le_Num in H
    | H : JS.le (Num _) (Num _) = false |- _ => apply le_Num_false in H
    | H : JS.gt (Num _) (Num _) = true |- _ => apply gt_Num in H
    | H : JS.gt (Num _) (Num _) = false |- _ => apply lt_Num_false in H
    | H : JS.ge (Num _) (Num _) = true |- _ => apply ge_Num in H
    | H : JS.ge (Num _) (Num _) = false |- _ => apply le_Num_false in H
    | H : JS.eq (Num _) (Num _) = true |- _ => apply eq_Num in H
    | H : JS.eq (Num _) (Num _) = false |- _ => apply eq_Num_false in H
    end.

Lemma clamp_within (lo hi : Q) (v : number) :
  lo <= hi -> v <> NaN -> within lo hi (clamp v (Num lo) (Num hi)).
Proof.
  intros Hlh Hv. unfold clamp, JS.max, JS.min.
  destruct v as [q | | |]; try congruence.
  - destruct (JS.lt (Num q) (Num hi)) eqn:E1.
    + destruct (JS.lt (Num lo) (Num q)) eqn:E2; simpl; js_compare; lra.
    + destruct (JS.lt (Num lo) (Num hi)) eqn:E2; simpl; js_compare; lra.
  - change (JS.lt PInf (Num hi)) with false. cbv iota.
    destruct (JS.lt (Num lo) (Num hi)) eqn:E2; simpl; js_compare; lra.
  - change (JS.lt NInf (Num hi)) with true. cbv iota.
    change (JS.lt (Num lo) NInf) with false. simpl. lra.
Qed.

Lemma clamp_NaN (lo hi : number) : clamp NaN lo hi = NaN.
Proof. unfold clamp. destruct hi, lo; reflexivity. Qed.

(** ** Short interest *)

(** C9: [normalizeShortInterest] rejects null, undefined, non-numeric,
    non-finite, negative and above-100 inputs, reads an input above 1 and at
    most 100 as a percentage and returns it divided by 100, returns an input
    within [[0, 1]] unchanged, and so only returns values within [[0, 1]]. *)
Theorem normalizeShortInterest_spec (value : unknown) :
  (value = U_null \/ value = U_undefined -> normalizeShortInterest value = None)
  /\ (forall num, value = U_number num \/ value = U_other num ->
        (JS.isFinite num = false -> normalizeShortInterest value = None)
        /\ (forall q, num = Num q -> q < 0 \/ 100 < q ->
              normalizeShortInterest value = None)
        /\ (forall q, num = Num q -> 1 < q <= 100 ->
              normalizeShortInterest value = Some (Num (q / 100)))
        /\ (forall q, num = Num q -> 0 <= q <= 1 ->
              normalizeShortInterest value = Some (Num q)))
  /\ (forall r, normalizeShortInterest value = Some r -> within 0 1 r).
Proof.
  split; [| split].
  - intros [-> | ->]; reflexivity.
  - intros num Hv.
    assert (Hn : normalizeShortInterest value
                 = normalizeShortInterest (U_number num))
      by (destruct Hv as [-> | ->]; reflexivity).
    rewrite Hn. clear Hn Hv. repeat split.
    + intros Hf. simpl. now rewrite Hf.
    + intros q -> Hq. simpl.
      destruct (JS.lt (Num q) (Num 0)) eqn:E0; [reflexivity |].
      destruct (JS.gt (Num q) (Num 1)) eqn:E1;
        destruct (JS.le (Num q) (Num 100)) eqn:E2; simpl; try reflexivity;
        js_compare; lra.
    + intros q -> Hq. simpl.
      destruct (JS.lt (Num q) (Num 0)) eqn:E0; [js_compare; lra |].
      destruct (JS.gt (Num q) (Num 1)) eqn:E1;
        destruct (JS.le (Num q) (Num 100)) eqn:E2; simpl; try reflexivity;
        js_compare; lra.
    + intros q -> Hq. simpl.
      destruct (JS.lt (Num q) (Num 0)) eqn:E0; [js_compare; lra |].
      destruct (JS.gt (Num q) (Num 1)) eqn:E1; simpl.
      * js_compare; lra.
      * reflexivity.
  - intros r. destruct value as [| | num | num]; simpl; try discriminate.
    all: destruct num as [q | | |]; simpl; try discriminate.
    all: destruct (JS.lt (Num q) (Num 0)) eqn:E0; [discriminate |].
    all: destruct (JS.gt (Num q) (Num 1)) eqn:E1;
      destruct (JS.le (Num q) (Num 100)) eqn:E2; simpl; try discriminate.
    all: intros [= <-]; simpl; js_compare.
    all: try (split; [apply Qle_shift_div_l | apply Qle_shift_div_r]; lra).
    all: lra.
Qed.

(** A percentage of 25 is the fraction 25/100, which lies within [[0, 1]]. *)
Lemma normalizeShortInterest_spec_witness :
  normalizeShortInterest (U_number (Num 25)) = Some (Num (25 / 100))
  /\ within 0 1 (Num (25 / 100)).
Proof.
  pose proof (normalizeShortInterest_spec (U_number (Num 25))) as [_ [H1 H2]].
  destruct (H1 (Num 25) (or_introl eq_refl)) as [_ [_ [H3 _]]].
  assert (H4 : normalizeShortInterest (U_number (Num 25)) = Some (Num (25 / 100))).
  { apply (H3 25 eq_refl). split; [reflexivity | discriminate]. }
  split; [exact H4 | exact (H2 _ H4)].
Defined.

(** ** Sorting *)

Lemma rev_lookup {A} (l : list A) (i : nat) :
  (i < length l)%nat -> rev l !! i = l !! (length l - S i)%nat.
Proof.
  intros Hi. rewrite rev_alt. change (rev_append l []) with (reverse l).
  now apply reverse_lookup.
Qed.

Section SortFacts.
Context {A : Type} (cmp : A -> A -> number).

Lemma sort_insert_perm (x : A) (acc : list A) :
  sort_insert cmp x acc ≡ₚ x :: acc.
Proof.
  induction acc as [| y rest IH]; simpl; [reflexivity |].
  destruct (JS.lt (cmp x y) (Num 0)); [| reflexivity].
  rewrite IH. apply Permutation_swap.
Qed.

Lemma sort_loop_perm (xs acc : list A) :
  fold_left (fun acc x => sort_insert cmp x acc) xs acc ≡ₚ xs ++ acc.
Proof.
  revert acc. induction xs as [| x xs IH]; intros acc; simpl; [reflexivity |].
  rewrite IH, sort_insert_perm. symmetry. apply Permutation_middle.
Qed.

Lemma js_sort_perm (xs : list A) : js_sort cmp xs ≡ₚ xs.
Proof.
  unfold js_sort. rewrite <- Permutation_rev, sort_loop_perm.
  now rewrite app_nil_r.
Qed.

Lemma js_sort_length (xs : list A) : length (js_sort cmp xs) = length xs.
Proof. apply Permutation_length, js_sort_perm. Qed.

(** A class [p] of elements of which no two compare strictly keeps its
    order. *)
Section Stable.
Context (p : A -> bool).
Hypothesis never_strict :
  forall x y, JS.lt (cmp x y) (Num 0) = true -> p x = true -> p y = true -> False.

Lemma sort_insert_filter (x : A) (acc : list A) :
  List.filter p (sort_insert cmp x acc) = List.filter p (x :: acc).
Proof.
  induction acc as [| y rest IH]; [reflexivity |].
  cbn [sort_insert].
  destruct (JS.lt (cmp x y) (Num 0)) eqn:E; [| reflexivity].
  cbn [List.filter] in *. rewrite IH.
  destruct (p x) eqn:Ex, (p y) eqn:Ey; try reflexivity.
  exfalso. eauto.
Qed.

Lemma sort_loop_filter (xs acc : list A) :
  List.filter p (fold_left (fun acc x => sort_insert cmp x acc) xs acc)
  = rev (List.filter p xs) ++ List.filter p acc.
Proof.
  revert acc. induction xs as [| x xs IH]; intros acc; [reflexivity |].
  cbn [fold_left]. rewrite IH, sort_insert_filter. cbn [List.filter].
  destruct (p x); cbn [rev]; [| reflexivity].
  now rewrite <- app_assoc.
Qed.

Lemma js_sort_filter (xs : list A) :
  List.filter p (js_sort cmp xs) = List.filter p xs.
Proof.
  unfold js_sort. rewrite List.filter_rev, sort_loop_filter.
  cbn [List.filter]. now rewrite app_nil_r, rev_involutive.
Qed.
End Stable.

(** When [cmp] compares by a key, the result is in order of the key. *)
Section Keyed.
Context (key : A -> Z) (ok : A -> Prop).
Hypothesis cmp_key :
  forall x y, ok x -> ok y ->
    (JS.lt (cmp x y) (Num 0) = true <-> (key x < key y)%Z).

Local Abbreviation descending := (StronglySorted (fun a b => (key b <= key a)%Z)).

Lemma sort_insert_descending (x : A) (acc : list A) :
  ok x -> Forall ok acc -> descending acc ->
  descending (sort_insert cmp x acc).
Proof.
  intros Hx Hok Hs. induction Hs as [| y rest Hs IH Hy]; simpl.
  - repeat constructor.
  - apply Forall_cons in Hok as [Hoky Hokr].
    destruct (JS.lt (cmp x y) (Num 0)) eqn:E.
    + apply cmp_key in E; [| assumption ..].
      constructor; [now apply IH |].
      rewrite sort_insert_perm. constructor; [lia | assumption].
    + assert (key y <= key x)%Z.
      { destruct (Z.lt_ge_cases (key x) (key y)) as [Hlt | Hge]; [| lia].
        apply cmp_key in Hlt; [congruence | assumption ..]. }
      constructor; [now constructor |].
      constructor; [assumption |].
      eapply Forall_impl; [exact Hy |]. simpl. intros; lia.
Qed.

Lemma sort_loop_descending (xs acc : list A) :
  Forall ok xs -> Forall ok acc -> descending acc ->
  descending (fold_left (fun acc x => sort_insert cmp x acc) xs acc).
Proof.
  revert acc. induction xs as [| x xs IH]; intros acc Hxs Hacc Hs; [assumption |].
  apply Forall_cons in Hxs as [Hx Hxs]. cbn [fold_left]. apply IH.
  - assumption.
  - rewrite sort_insert_perm. now constructor.
  - now apply sort_insert_descending.
Qed.

Lemma descending_lookup (acc : list A) :
  descending acc ->
  forall i j a b, (i < j)%nat -> acc !! i = Some a -> acc !! j = Some b ->
                  (key b <= key a)%Z.
Proof.
  induction 1 as [| y rest Hs IH Hy]; intros i j a b Hij Hi Hj.
  - now rewrite lookup_nil in Hi.
  - destruct j as [| j]; [lia |]. destruct i as [| i]; simpl in *.
    + injection Hi as <-. rewrite Forall_forall in Hy. apply Hy.
      eapply list_elem_of_lookup_2. exact Hj.
    + eapply IH; [| eassumption ..]. lia.
Qed.

Lemma js_sort_ascending (xs : list A) :
  Forall ok xs ->
  forall i j a b, (i < j)%nat ->
    js_sort cmp xs !! i = Some a -> js_sort cmp xs !! j = Some b ->
    (key a <= key b)%Z.
Proof.
  intros Hok i j a b Hij Hi Hj.
  assert (Hd := sort_loop_descending xs [] Hok (Forall_nil_2 _) (SSorted_nil _)).
  unfold js_sort in *.
  set (acc := fold_left _ xs []) in *.
  assert (Hlen_j : (j < length acc)%nat).
  { apply lookup_lt_Some in Hj. now rewrite length_rev in Hj. }
  rewrite rev_lookup in Hi by lia. rewrite rev_lookup in Hj by lia.
  eapply (descending_lookup acc Hd); [| exact Hj | exact Hi]. lia.
Qed.
End Keyed.

End SortFacts.

Section SortByReportPeriod.
Context `{P : Platform} {T : Type} `{DatedValue T}.

Lemma compare_strict (a b : T) :
  JS.lt (compareReportPeriod a b) (Num 0) = true ->
  exists da db, parsed_date a = Some da /\ parsed_date b = Some db /\ (da < db)%Z.
Proof.
  unfold compareReportPeriod, parsed_date.
  destruct (parseReportDate (report_period a)) as [da |],
           (parseReportDate (report_period b)) as [db |]; try discriminate.
  intros E. exists da, db. repeat split.
  unfold JS.of_Z in E. apply lt_Num in E.
  change 0 with (inject_Z 0) in E. rewrite <- Zlt_Qlt in E. lia.
Qed.

Lemma compare_by_date (a b : T) :
  unparseable a = false -> unparseable b = false ->
  JS.lt (compareReportPeriod a b) (Num 0) = true
  <-> (default 0%Z (parsed_date a) < default 0%Z (parsed_date b))%Z.
Proof.
  unfold unparseable, compareReportPeriod, parsed_date.
  destruct (parseReportDate (report_period a)) as [da |],
           (parseReportDate (report_period b)) as [db |]; try discriminate.
  intros _ _. simpl. unfold JS.of_Z. rewrite lt_Num.
  change 0 with (inject_Z 0). rewrite <- Zlt_Qlt. lia.
Qed.

Lemma sortByReportPeriod_perm (rows : list T) :
  sortByReportPeriod rows ≡ₚ rows.
Proof. apply js_sort_perm. Qed.

Lemma sortByReportPeriod_length (rows : list T) :
  length (sortByReportPeriod rows) = length rows.
Proof. apply js_sort_length. Qed.

(** With a date on every row the comparator is a consistent ordering, and
    [sortByReportPeriod] does what it is written for: it returns the rows in
    non-decreasing order of date, the rows of one and the same date in their
    original order. *)
Lemma sortByReportPeriod_dated_rows (rows : list T) :
  Forall (fun row => unparseable row = false) rows ->
  sortByReportPeriod rows ≡ₚ rows
  /\ dates_ascending (sortByReportPeriod rows)
  /\ forall d, List.filter (has_date d) (sortByReportPeriod rows)
               = List.filter (has_date d) rows.
Proof.
  intros Hok. split; [apply sortByReportPeriod_perm |]. split.
  - intros i j a b da db Hij Hi Hj Ha Hb.
    pose proof (js_sort_ascending compareReportPeriod
                  (fun r => default 0%Z (parsed_date r))
                  (fun r => unparseable r = false)
                  compare_by_date rows Hok i j a b Hij Hi Hj) as Hle.
    cbv beta in Hle. now rewrite Ha, Hb in Hle.
  - intros d. apply js_sort_filter. intros x y E Hx Hy.
    apply compare_strict in E as (da & db & Ha & Hb & Hlt).
    unfold has_date in Hx, Hy. rewrite Ha in Hx. rewrite Hb in Hy.
    apply Z.eqb_eq in Hx, Hy. lia.
Qed.

End SortByReportPeriod.

(** C8: [sortByReportPeriod] fails to sort rows of which some have no date
    that parses. Its comparator answers 0 whenever one of the two dates fails
    to parse, so that it is no consistent ordering: on the rows of the periods
    2020-12-31, n/a, pending and 2019-12-31 it puts the row of 2020 level with
    the row of n/a and the row of n/a level with the row of 2019, yet the row
    of 2020 after the row of 2019. The four rows are returned as they stand,
    the row of 2020 before the row of 2019. *)
Lemma sortByReportPeriod_not_ascending :
  let later := Examples.quarter "2020-12-31" in
  let undated := Examples.quarter "n/a" in
  let earlier := Examples.quarter "2019-12-31" in
  Examples.rows_with_bad_dates
  = [later; undated; Examples.quarter "pending"; earlier]
  /\ compareReportPeriod (P := Sample.platform) later undated = Num 0
  /\ compareReportPeriod (P := Sample.platform) undated earlier = Num 0
  /\ JS.gt (compareReportPeriod (P := Sample.platform) later earlier) (Num 0)
     = true
  /\ sortByReportPeriod (P := Sample.platform) Examples.rows_with_bad_dates
     = Examples.rows_with_bad_dates
  /\ ~ dates_ascending (P := Sample.platform)
         (sortByReportPeriod (P := Sample.platform) Examples.rows_with_bad_dates).
Proof.
  cbv zeta. split; [reflexivity |]. split; [reflexivity |].
  split; [reflexivity |]. split; [reflexivity |]. split; [reflexivity |].
  intros Hasc.
  specialize (Hasc 0%nat 3%nat (Examples.quarter "2020-12-31")
                (Examples.quarter "2019-12-31")
                1609372800000%Z 1577750400000%Z).
  assert (1609372800000 <= 1577750400000)%Z as Hle; [| lia].
  apply Hasc; [lia | reflexivity ..].
Qed.

(** ** Trailing twelve months *)

Section Ttm.
Context `{P : Platform} {T : Type} `{DatedValue T}.

Lemma sum_some (values : list (option number)) :
  (exists total, sum values = Some total) <-> existsb missing values = false.
Proof.
  unfold sum. destruct (existsb missing values); split; eauto.
  - intros [? ?]; discriminate.
  - discriminate.
Qed.

Lemma existsb_missing_false (getValue : T -> option number) (rows : list T) :
  existsb missing (map getValue rows) = false
  <-> forall row, row ∈ rows -> missing (getValue row) = false.
Proof.
  induction rows as [| r rows IH]; simpl.
  - split; [intros _ row Hin; inversion Hin | reflexivity].
  - rewrite orb_false_iff, IH. split.
    + intros [Hr Hrows] row Hin. apply elem_of_cons in Hin as [-> | Hin]; auto.
    + intros Hall. split; [apply Hall; left | intros row Hin; apply Hall; now right].
Qed.

Lemma slice_subset (start stop : nat) (rows : list T) (row : T) :
  row ∈ slice start stop rows -> row ∈ rows.
Proof.
  unfold slice. intros Hin.
  apply elem_of_take in Hin as (i & Hi & _).
  rewrite lookup_drop in Hi. eapply list_elem_of_lookup_2. exact Hi.
Qed.

Lemma ttm_step_missing (sorted : list T) (getValue : T -> option number)
    (i : nat) (row : T) :
  row ∈ slice (i - 3) (i + 1) sorted -> missing (getValue row) = true ->
  ttm_step sorted getValue i = [].
Proof.
  intros Hin Hmiss. unfold ttm_step.
  destruct (sum _) as [total |] eqn:E; [| reflexivity].
  assert (Hex : exists t, sum (map getValue (slice (i - 3) (i + 1) sorted)) = Some t)
    by eauto.
  apply sum_some in Hex. rewrite existsb_missing_false in Hex.
  rewrite (Hex row Hin) in Hmiss. discriminate.
Qed.

Lemma ttm_step_complete (sorted : list T) (getValue : T -> option number)
    (i : nat) (p : TtmPoint) :
  p ∈ ttm_step sorted getValue i ->
  forall row, row ∈ slice (i - 3) (i + 1) sorted -> missing (getValue row) = false.
Proof.
  intros Hp row Hin.
  destruct (missing (getValue row)) eqn:E; [| reflexivity].
  rewrite (ttm_step_missing sorted getValue i row Hin E) in Hp. inversion Hp.
Qed.

Lemma ttm_step_populated (sorted : list T) (getValue : T -> option number)
    (i : nat) :
  (i < length sorted)%nat ->
  (forall row, row ∈ sorted -> missing (getValue row) = false) ->
  length (ttm_step sorted getValue i) = 1%nat.
Proof.
  intros Hi Hall. unfold ttm_step.
  destruct (lookup_lt_is_Some_2 sorted i Hi) as [row ->].
  destruct (proj2 (sum_some (map getValue (slice (i - 3) (i + 1) sorted))))
    as [total ->]; [| reflexivity].
  apply existsb_missing_false. intros r Hin. apply Hall.
  eapply slice_subset. exact Hin.
Qed.

Lemma flat_map_singletons {X Y} (f : X -> list Y) (xs : list X) :
  (forall x, x ∈ xs -> length (f x) = 1%nat) ->
  length (flat_map f xs) = length xs.
Proof.
  induction xs as [| x xs IH]; intros Hall; [reflexivity |].
  simpl. rewrite length_app, Hall by left. rewrite IH; [reflexivity |].
  intros y Hy. apply Hall. now right.
Qed.

(** C7: [rollingTtmSeries] emits nothing for a window of four rows one of
    which has a missing (null, undefined or NaN) value, every point that it
    emits comes from a window without a missing value, and [N >= 4] rows
    that all have a value yield exactly [N - 3] points. *)
Theorem rollingTtmSeries_windows (rows : list T) (getValue : T -> option number) :
  let sorted := sortByReportPeriod rows in
  (forall i row, (3 <= i < length sorted)%nat ->
     row ∈ slice (i - 3) (i + 1) sorted -> missing (getValue row) = true ->
     ttm_step sorted getValue i = [])
  /\ (forall p, p ∈ rollingTtmSeries rows getValue ->
        exists i, (3 <= i < length sorted)%nat
                  /\ p ∈ ttm_step sorted getValue i
                  /\ forall row, row ∈ slice (i - 3) (i + 1) sorted ->
                                 missing (getValue row) = false)
  /\ ((4 <= length rows)%nat ->
      Forall (fun row => missing (getValue row) = false) rows ->
      length (rollingTtmSeries rows getValue) = (length rows - 3)%nat).
Proof.
  intros sorted. split; [| split].
  - intros i row _ Hin Hmiss. eapply ttm_step_missing; eassumption.
  - intros p Hp. unfold rollingTtmSeries in Hp. fold sorted in Hp.
    apply list_elem_of_In, in_flat_map in Hp as (i & Hi & Hp).
    apply in_seq in Hi. apply list_elem_of_In in Hp.
    exists i. split; [lia |]. split; [exact Hp |].
    eapply ttm_step_complete. exact Hp.
  - intros Hlen Hall. unfold rollingTtmSeries. fold sorted.
    rewrite flat_map_singletons.
    + rewrite length_seq. subst sorted. now rewrite sortByReportPeriod_length.
    + intros i Hi. apply list_elem_of_In, in_seq in Hi.
      apply ttm_step_populated; [lia |].
      intros row Hin. rewrite Forall_forall in Hall. apply Hall.
      subst sorted. now rewrite sortByReportPeriod_perm in Hin.
Qed.

End Ttm.

(** Five quarters that all report revenue yield two TTM points. *)
Lemma rollingTtmSeries_windows_witness :
  (4 <= length Examples.shuffled_quarters)%nat
  /\ Forall (fun row => missing (IncomeStatement.revenue row) = false)
            Examples.shuffled_quarters
  /\ length (rollingTtmSeries (P := Sample.platform) Examples.shuffled_quarters
               IncomeStatement.revenue) = 2%nat.
Proof.
  assert (Hlen : (4 <= length Examples.shuffled_quarters)%nat) by (simpl; lia).
  assert (Hall : Forall (fun row => missing (IncomeStatement.revenue row) = false)
                        Examples.shuffled_quarters) by (repeat constructor).
  split; [exact Hlen |]. split; [exact Hall |].
  exact (proj2 (proj2 (rollingTtmSeries_windows (P := Sample.platform)
                         Examples.shuffled_quarters IncomeStatement.revenue))
           Hlen Hall).
Defined.

(** C2, as amended: four quarters that each report revenue 100 and gross
    profit 40 yield exactly one TTM point of gross profit, of value 160, and
    one of revenue, of value 400, for the same period; the gross margin of
    every quarter and of the TTM period is 0.4. *)
Theorem ttm_four_quarters `{P : Platform} (rows : list IncomeStatement.t) :
  length rows = 4%nat ->
  Forall (fun row => IncomeStatement.revenue row = Some (Num 100)
                     /\ IncomeStatement.gross_profit row = Some (Num 40)) rows ->
  exists period,
    rollingTtmSeries rows IncomeStatement.gross_profit = [mkPoint period (Num 160)]
    /\ rollingTtmSeries rows IncomeStatement.revenue = [mkPoint period (Num 400)]
    /\ num_eqv (JS.div (Num 160) (Num 400)) (Num 0.4)
    /\ Forall (fun margin => num_eqv margin (Num 0.4)) (buildGmSeries rows).
Proof.
  intros Hlen Hall.
  unfold rollingTtmSeries, buildGmSeries.
  rewrite <- (sortByReportPeriod_perm rows) in Hall.
  rewrite <- (sortByReportPeriod_length rows) in Hlen.
  destruct (sortByReportPeriod rows) as [| a [| b [| c [| d [| e rest]]]]];
    try discriminate.
  apply Forall_cons in Hall as [[Ha1 Ha2] Hall].
  apply Forall_cons in Hall as [[Hb1 Hb2] Hall].
  apply Forall_cons in Hall as [[Hc1 Hc2] Hall].
  apply Forall_cons in Hall as [[Hd1 Hd2] _].
  exists (report_period d).
  unfold ttm_step, slice, sum, gm_of_row. simpl.
  rewrite Ha1, Ha2, Hb1, Hb2, Hc1, Hc2, Hd1, Hd2.
  repeat split; try reflexivity.
  repeat constructor; reflexivity.
Qed.

(** The four quarters of 2023. *)
Lemma ttm_four_quarters_witness :
  exists period,
    rollingTtmSeries (P := Sample.platform) Examples.four_quarters
      IncomeStatement.gross_profit = [mkPoint period (Num 160)]
    /\ rollingTtmSeries (P := Sample.platform) Examples.four_quarters
         IncomeStatement.revenue = [mkPoint period (Num 400)]
    /\ num_eqv (JS.div (Num 160) (Num 400)) (Num 0.4)
    /\ Forall (fun margin => num_eqv margin (Num 0.4))
              (buildGmSeries (P := Sample.platform) Examples.four_quarters).
Proof.
  apply (ttm_four_quarters (P := Sample.platform) Examples.four_quarters).
  - reflexivity.
  - repeat constructor.
Defined.

(** C2 as stated fails: the TTM points are 160 over 400, and that ratio is
    not 0.25. *)
Lemma ttm_four_quarters_margin_not_quarter :
  rollingTtmSeries (P := Sample.platform) Examples.four_quarters
    IncomeStatement.gross_profit = [mkPoint "2023-12-31" (Num 160)]
  /\ rollingTtmSeries (P := Sample.platform) Examples.four_quarters
       IncomeStatement.revenue = [mkPoint "2023-12-31" (Num 400)]
  /\ ~ num_eqv (JS.div (Num 160) (Num 400)) (Num 0.25).
Proof.
  repeat split; try reflexivity.
  simpl. intros Heq. unfold Qeq in Heq. simpl in Heq. lia.
Qed.

(** ** Market Dislocation Score *)

Section MdsFacts.
Context `{P : Platform}.

Lemma computeMdsFromSeries_returns (inputs : MdsSeriesInputs.t)
    (r : MdsSeriesResult.t) :
  Mds.computeMdsFromSeries inputs = Return r ->
  exists asofDate w_asof narrative,
    Mds.mds_asof inputs = Return (asofDate, w_asof)
    /\ Mds.narrative_step inputs = Return narrative
    /\ r = Mds.mds_result inputs (Mds.mds_locals inputs asofDate w_asof narrative).
Proof.
  unfold Mds.computeMdsFromSeries.
  destruct (Mds.mds_asof inputs) as [[asofDate w_asof] | e]; [| discriminate].
  destruct (Mds.narrative_step inputs) as [narrative | e]; [| discriminate].
  intros [= <-]. eauto 6.
Qed.

(** C3: when [short_interest_pct] is supplied, the short-interest sub-score
    of [computeMdsFromSeries] is 5 at or above the extreme threshold, 10 at or
    above the elevated threshold and not at or above the extreme one, and 0
    otherwise; with the default thresholds 0.20 and 0.10, a value of 0.25
    scores 5, 0.15 scores 10 and 0.05 scores 0. *)
Theorem short_interest_banding (inputs : MdsSeriesInputs.t) (pct : number)
    (r : MdsSeriesResult.t) :
  MdsSeriesInputs.short_interest_pct inputs = Some pct ->
  Mds.computeMdsFromSeries inputs = Return r ->
  let config :=
    MdsConfig.merge DEFAULT_MDS_CONFIG
      (default MdsConfig.no_override (MdsSeriesInputs.config inputs)) in
  let score := MdsSubscores.short_interest (MdsSeriesResult.subscores r) in
  score = (if JS.ge pct (MdsConfig.short_extreme config) then Num 5
           else if JS.ge pct (MdsConfig.short_elevated config) then Num 10
           else Num 0)
  /\ (MdsSeriesInputs.config inputs = None ->
      MdsConfig.short_extreme config = Num 0.20
      /\ MdsConfig.short_elevated config = Num 0.10
      /\ (pct = Num 0.25 -> score = Num 5)
      /\ (pct = Num 0.15 -> score = Num 10)
      /\ (pct = Num 0.05 -> score = Num 0)).
Proof.
  intros Hpct Hr config score.
  apply computeMdsFromSeries_returns in Hr
    as (asofDate & w_asof & narrative & _ & _ & ->).
  assert (Hscore : score = fst (Mds.short_interest_score config (Some pct))).
  { subst score. rewrite <- Hpct. reflexivity. }
  split; [exact Hscore |].
  intros Hcfg. subst config. rewrite Hcfg in *.
  repeat split; try reflexivity; intros ->; exact Hscore.
Qed.

End MdsFacts.

(** A short interest of 25% scores 5 points. *)
Lemma short_interest_banding_witness :
  exists r,
    Mds.computeMdsFromSeries (P := Sample.platform)
      (Examples.mds_inputs (Some (Num 0.25))) = Return r
    /\ MdsSubscores.short_interest (MdsSeriesResult.subscores r) = Num 5.
Proof.
  destruct (Mds.computeMdsFromSeries (P := Sample.platform)
              (Examples.mds_inputs (Some (Num 0.25)))) as [r | e] eqn:E;
    [| vm_compute in E; discriminate].
  exists r. split; [reflexivity |].
  exact (proj1 (proj2 (proj2 (proj2
           (short_interest_banding (P := Sample.platform)
              (Examples.mds_inputs (Some (Num 0.25))) (Num 0.25) r eq_refl E)
           eq_refl))) eq_refl).
Defined.

Section Coverage.
Context `{P : Platform}.

Lemma of_nat_ge (n : nat) (h : Q) :
  JS.ge (JS.of_nat n) (Num h) = true <-> h <= inject_Z (Z.of_nat n).
Proof. unfold JS.of_nat. apply ge_Num. Qed.

Lemma applyCoverage_full (score : number) (available : nat)
    (config : MdsConfig.t) (tag : string) (h : Q) :
  MdsConfig.history_min config = Num h ->
  h <= inject_Z (Z.of_nat available) ->
  Mds.applyCoverage score available config tag = (score, []).
Proof.
  intros Hmin Hge. unfold Mds.applyCoverage. rewrite Hmin.
  now rewrite (proj2 (of_nat_ge available h) Hge).
Qed.

Lemma applyCoverage_short (score : number) (available : nat)
    (config : MdsConfig.t) (tag : string) (h : Q) :
  MdsConfig.history_min config = Num h ->
  (0 < available)%nat -> inject_Z (Z.of_nat available) < h ->
  Mds.applyCoverage score available config tag
  = (JS.toFixed2 (JS.mul score (Num (inject_Z (Z.of_nat available) / h))),
     ["short_history_" +:+ tag]).
Proof.
  intros Hmin Hpos Hlt. unfold Mds.applyCoverage. rewrite Hmin.
  destruct (JS.ge (JS.of_nat available) (Num h)) eqn:E.
  { apply of_nat_ge in E. exfalso. exact (Qlt_not_le _ _ Hlt E). }
  destruct (decide (available = 0%nat)) as [-> | _]; [lia |].
  assert (Hh : 0 < h).
  { apply Qle_lt_trans with (y := inject_Z (Z.of_nat available)); [| exact Hlt].
    change 0 with (inject_Z 0). rewrite <- Zle_Qle. lia. }
  unfold JS.div, JS.of_nat.
  destruct (Qeq_bool h 0) eqn:E0; [| reflexivity].
  apply Qeq_bool_iff in E0. lra.
Qed.

Lemma applyCoverage_missing (score : number) (config : MdsConfig.t)
    (tag : string) (h : Q) :
  MdsConfig.history_min config = Num h -> 0 < h ->
  Mds.applyCoverage score 0 config tag = (Num 0, ["missing_history_" +:+ tag]).
Proof.
  intros Hmin Hpos. unfold Mds.applyCoverage. rewrite Hmin.
  destruct (JS.ge (JS.of_nat 0) (Num h)) eqn:E; [| reflexivity].
  apply of_nat_ge in E. change (inject_Z (Z.of_nat 0)) with 0 in E. lra.
Qed.

(** The finite values of the last [windowSize] points of the sorted
    history, when there is a current value: what [computeHistoryScore]
    observes. *)
Lemma computeHistoryScore_window (currentValue : option number)
    (history : list TtmPoint) (windowSize : number)
    (scoreFn : number -> number -> number) :
  let values :=
    match currentValue with
    | Some _ =>
        List.filter JS.isFinite
          (map value (slice_from (JS.neg windowSize) (sortByReportPeriod history)))
    | None => []
    end in
  Mds.computeHistoryScore currentValue history windowSize scoreFn
  = (match currentValue, median values with
     | Some current, Some med => scoreFn current med
     | _, _ => Num 0
     end,
     length values).
Proof.
  cbv zeta. unfold Mds.computeHistoryScore.
  destruct currentValue as [current |]; [| reflexivity].
  destruct (decide (length (List.filter JS.isFinite
              (map value (slice_from (JS.neg windowSize)
                            (sortByReportPeriod history)))) = 0%nat)) as [E | E].
  - rewrite E. apply length_zero_iff_nil in E. now rewrite E.
  - now destruct (median _).
Qed.

Lemma compressionScoreFn_whole (config : MdsConfig.t) (trend : EbitdaTrend)
    (current med : number) :
  exists z : Z, Mds.compressionScoreFn config trend current med = Num (inject_Z z).
Proof.
  unfold Mds.compressionScoreFn.
  repeat match goal with
         | |- context [if ?b then _ else _] => destruct b
         end;
    first [now exists 0%Z | now exists 10%Z | now exists 15%Z].
Qed.

Lemma fcfYieldScoreFn_whole (config : MdsConfig.t) (stability : FcfStability)
    (current med : number) :
  exists z : Z, Mds.fcfYieldScoreFn config stability current med = Num (inject_Z z).
Proof.
  unfold Mds.fcfYieldScoreFn.
  repeat match goal with
         | |- context [if ?b then _ else _] => destruct b
         end;
    first [now exists 0%Z | now exists 8%Z | now exists 15%Z].
Qed.

(** A whole score times a whole number of twelfths is a sixth of a hundredth
    at least away from a rounding tie. *)
Lemma whole_away_from_tie (s n : Z) (h : Q) :
  h == 12 -> away_from_tie (inject_Z s * (inject_Z n / h)).
Proof.
  intros Hh k.
  assert (E : 100 * (inject_Z s * (inject_Z n / h)) - (inject_Z k + (1 # 2))
              == inject_Z (50 * s * n - 6 * k - 3) * (1 # 6)).
  { rewrite Hh. unfold Zminus. rewrite !inject_Z_plus, !inject_Z_opp, !inject_Z_mult.
    change (inject_Z 50) with 50. change (inject_Z 6) with 6.
    change (inject_Z 3) with 3. field. }
  rewrite E, Qabs_Qmult.
  change (Qabs (inject_Z (50 * s * n - 6 * k - 3)))
    with (inject_Z (Z.abs (50 * s * n - 6 * k - 3))).
  change (Qabs (1 # 6)) with (1 # 6).
  assert (H1 : 1 <= inject_Z (Z.abs (50 * s * n - 6 * k - 3))).
  { change 1 with (inject_Z 1). rewrite <- Zle_Qle.
    replace (50 * s * n)%Z with (50 * (s * n))%Z by ring.
    generalize (s * n)%Z. intros p. lia. }
  lra.
Qed.

(** C6: the coverage adjustment of [computeMdsFromSeries], for a
    positive [history_min] (12 by default). Each of the four windows (the
    multiple and the free-cash-flow yield, over [history_short] and
    [history_long] points) observes the finite values of the last points of
    its sorted history, none when there is no current value; its score is
    that of the score function at the current value and the median of the
    observations, and 0 without observations. With [history_min] observations
    or more the adjusted score is the window score; with fewer but more than
    zero it is the window score times [available / history_min], rounded to
    two decimals, with a [short_history_*] warning; with none it is 0, with a
    [missing_history_*] warning. The rounded case is stated for a product
    away from a rounding tie, as it is for every window when [history_min]
    is 12. Each sub-score is the minimum of the adjusted scores of its two
    windows, and the warnings of the adjustment are in the result. *)
Theorem coverage_discounting (inputs : MdsSeriesInputs.t)
    (asofDate : option Date) (w_asof : list string)
    (narrative : number * option NarrativeShockResult.t * list string)
    (h : Q) :
  Mds.mds_asof inputs = Return (asofDate, w_asof) ->
  Mds.narrative_step inputs = Return narrative ->
  let l := Mds.mds_locals inputs asofDate w_asof narrative in
  let r := Mds.mds_result inputs l in
  let config := MdsLocals.config l in
  MdsConfig.history_min config = Num h -> 0 < h ->
  let observations (current : option number) (history : list TtmPoint)
      (size : number) :=
    match current with
    | Some _ =>
        List.filter JS.isFinite
          (map value (slice_from (JS.neg size) (sortByReportPeriod history)))
    | None => []
    end in
  let covered (window : number * nat) (current : option number)
      (values : list number) (scoreFn : number -> number -> number)
      (tag : string) (adjusted : number * list string) :=
    let available := inject_Z (Z.of_nat (length values)) in
    window
    = (match current, median values with
       | Some current, Some med => scoreFn current med
       | _, _ => Num 0
       end,
       length values)
    /\ (h <= available -> adjusted = (fst window, []))
    /\ (0 < available -> available < h ->
        (forall s, fst window = Num s -> away_from_tie (s * (available / h))) ->
        adjusted
        = (JS.toFixed2 (JS.mul (fst window) (Num (available / h))),
           ["short_history_" +:+ tag]))
    /\ (available == 0 -> adjusted = (Num 0, ["missing_history_" +:+ tag]))
    /\ (h == 12 ->
        forall s, fst window = Num s -> away_from_tie (s * (available / h))) in
  Mds.computeMdsFromSeries inputs = Return r
  /\ (MdsSeriesInputs.config inputs = None -> h == 12)
  /\ exists c3 c5 f3 f5 : number * list string,
       MdsSubscores.multiple_compression (MdsSeriesResult.subscores r)
       = JS.min (fst c3) (fst c5)
       /\ MdsSubscores.fcf_yield_expansion (MdsSeriesResult.subscores r)
          = JS.min (fst f3) (fst f5)
       /\ (forall code,
             code ∈ snd c3 ++ snd c5 ++ snd f3 ++ snd f5 ->
             code ∈ MdsSeriesResult.warnings r)
       /\ covered (MdsLocals.h3Compression l) (MdsLocals.currentEvToEbitda l)
            (observations (MdsLocals.currentEvToEbitda l)
               (MdsLocals.evToEbitdaSeries l) (MdsConfig.history_short config))
            (Mds.compressionScoreFn config (MdsLocals.ebitdaTrend l))
            "multiple_h3" c3
       /\ covered (MdsLocals.h5Compression l) (MdsLocals.currentEvToEbitda l)
            (observations (MdsLocals.currentEvToEbitda l)
               (MdsLocals.evToEbitdaSeries l) (MdsConfig.history_long config))
            (Mds.compressionScoreFn config (MdsLocals.ebitdaTrend l))
            "multiple_h5" c5
       /\ covered (MdsLocals.h3FcfYield l) (MdsLocals.currentFcfYield l)
            (observations (MdsLocals.currentFcfYield l)
               (MdsLocals.fcfYieldSeries l) (MdsConfig.history_short config))
            (Mds.fcfYieldScoreFn config (MdsLocals.fcfStability l))
            "fcf_yield_h3" f3
       /\ covered (MdsLocals.h5FcfYield l) (MdsLocals.currentFcfYield l)
            (observations (MdsLocals.currentFcfYield l)
               (MdsLocals.fcfYieldSeries l) (MdsConfig.history_long config))
            (Mds.fcfYieldScoreFn config (MdsLocals.fcfStability l))
            "fcf_yield_h5" f5.
Proof.
  intros Hasof Hnarr l r config Hmin Hpos observations covered.
  assert (Hcover : forall (current : option number) (history : list TtmPoint)
                     (size : number) (scoreFn : number -> number -> number)
                     (tag : string),
            (forall c m, exists z : Z, scoreFn c m = Num (inject_Z z)) ->
            covered (Mds.computeHistoryScore current history size scoreFn)
              current (observations current history size) scoreFn tag
              (Mds.applyCoverage
                 (fst (Mds.computeHistoryScore current history size scoreFn))
                 (snd (Mds.computeHistoryScore current history size scoreFn))
                 config tag)).
  { intros current history size scoreFn tag Hwhole. subst covered. cbv beta zeta.
    pose proof (computeHistoryScore_window current history size scoreFn) as Hw.
    cbv zeta in Hw. fold (observations current history size) in Hw.
    rewrite Hw. cbn [fst snd].
    generalize (observations current history size). intros values.
    split; [reflexivity |]. split; [| split; [| split]].
    - intros Hge. now apply applyCoverage_full with (h := h).
    - intros H0 Hlt _. apply applyCoverage_short; [assumption | | assumption].
      change 0 with (inject_Z 0) in H0. rewrite <- Zlt_Qlt in H0. lia.
    - intros E0.
      assert (length values = 0%nat) as ->.
      { unfold Qeq in E0. simpl in E0. lia. }
      now apply applyCoverage_missing with (h := h).
    - intros Hh s Hs.
      assert (Hz : exists z : Z, Num s = Num (inject_Z z)).
      { rewrite <- Hs. destruct current as [c |]; [| now exists 0%Z].
        destruct (median values) as [m |]; [apply Hwhole | now exists 0%Z]. }
      destruct Hz as [z [= ->]]. now apply whole_away_from_tie. }
  split.
  { unfold Mds.computeMdsFromSeries. now rewrite Hasof, Hnarr. }
  split.
  { intros Hcfg. subst config l. cbn [Mds.mds_locals MdsLocals.config] in Hmin.
    rewrite Hcfg in Hmin. injection Hmin as <-. reflexivity. }
  exists (Mds.applyCoverage (fst (MdsLocals.h3Compression l))
            (snd (MdsLocals.h3Compression l)) config "multiple_h3"),
         (Mds.applyCoverage (fst (MdsLocals.h5Compression l))
            (snd (MdsLocals.h5Compression l)) config "multiple_h5"),
         (Mds.applyCoverage (fst (MdsLocals.h3FcfYield l))
            (snd (MdsLocals.h3FcfYield l)) config "fcf_yield_h3"),
         (Mds.applyCoverage (fst (MdsLocals.h5FcfYield l))
            (snd (MdsLocals.h5FcfYield l)) config "fcf_yield_h5").
  split; [reflexivity |]. split; [reflexivity |]. split.
  { clear Hcover Hmin. intros code Hin. subst r config l.
    cbn [Mds.mds_result MdsSeriesResult.warnings Mds.mds_locals
         MdsLocals.warnings MdsLocals.h3Compression MdsLocals.h5Compression
         MdsLocals.h3FcfYield MdsLocals.h5FcfYield MdsLocals.config] in *.
    rewrite !elem_of_app in *. tauto. }
  split; [apply Hcover, compressionScoreFn_whole |].
  split; [apply Hcover, compressionScoreFn_whole |].
  split; [apply Hcover, fcfYieldScoreFn_whole |].
  apply Hcover, fcfYieldScoreFn_whole.
Qed.

End Coverage.

(** Seven observations of the multiple against the default minimum of 12:
    the window score of 10 becomes 5.83, with the warning of a short
    history. *)
Lemma coverage_discounting_witness :
  let l := Mds.mds_locals (P := Sample.platform) Examples.mds_short_history
             (Some 1703980800000%Z) [] (Num 0, None, ["missing_narrative_corpus"]) in
  MdsLocals.h3Compression l = (Num 10, 7%nat)
  /\ exists c3 c5 : number * list string,
       MdsSubscores.multiple_compression
         (MdsSeriesResult.subscores (Mds.mds_result Examples.mds_short_history l))
       = JS.min (fst c3) (fst c5)
       /\ c3 = (Num 5.83, ["short_history_multiple_h3"]).
Proof.
  intros l. subst l.
  assert (Hasof : Mds.mds_asof (P := Sample.platform) Examples.mds_short_history
                  = Return (Some 1703980800000%Z, []))
    by (vm_compute; reflexivity).
  assert (Hnarr : Mds.narrative_step (P := Sample.platform)
                    Examples.mds_short_history
                  = Return (Num 0, None, ["missing_narrative_corpus"]))
    by reflexivity.
  assert (Hmin : MdsConfig.history_min
                   (MdsLocals.config
                      (Mds.mds_locals (P := Sample.platform)
                         Examples.mds_short_history (Some 1703980800000%Z) []
                         (Num 0, None, ["missing_narrative_corpus"])))
                 = Num 12) by reflexivity.
  assert (Hpos : 0 < 12) by reflexivity.
  destruct (coverage_discounting (P := Sample.platform)
              Examples.mds_short_history (Some 1703980800000%Z) []
              (Num 0, None, ["missing_narrative_corpus"]) 12
              Hasof Hnarr Hmin Hpos)
    as (_ & _ & c3 & c5 & f3 & f5 & Hc & _ & _ & H3 & _).
  cbv zeta beta in H3. destruct H3 as (Hwin & _ & Hshort & _ & Htie).
  assert (Hw : MdsLocals.h3Compression
                 (Mds.mds_locals (P := Sample.platform)
                    Examples.mds_short_history (Some 1703980800000%Z) []
                    (Num 0, None, ["missing_narrative_corpus"]))
               = (Num 10, 7%nat)) by (vm_compute; reflexivity).
  split; [exact Hw |]. exists c3, c5. split; [exact Hc |].
  rewrite Hshort.
  - rewrite Hw. vm_compute. reflexivity.
  - vm_compute. reflexivity.
  - vm_compute. reflexivity.
  - apply Htie. reflexivity.
Defined.

(** C6 as stated fails: with 7 of 12 observations the window score of 10 is
    reported as 5.83, which is not 10 times 7/12. *)
Lemma coverage_discount_is_rounded :
  exists r,
    Mds.computeMdsFromSeries (P := Sample.platform) Examples.mds_short_history
    = Return r
    /\ MdsSubscores.multiple_compression (MdsSeriesResult.subscores r) = Num 5.83
    /\ Mds.applyCoverage (Num 10) 7 DEFAULT_MDS_CONFIG "multiple_h3"
       = (Num 5.83, ["short_history_multiple_h3"])
    /\ ~ num_eqv (Num 5.83) (JS.mul (Num 10) (JS.div (Num 7) (Num 12))).
Proof.
  eexists. split; [vm_compute; reflexivity |].
  split; [reflexivity |]. split; [reflexivity |].
  simpl. unfold Qeq. simpl. lia.
Qed.

(** ** Business Resilience Score *)

Section BrsFacts.
Context `{P : Platform}.

Lemma computeBrs_returns (inputs : BrsInputs.t) (r : BrsResult.t) :
  computeBrs inputs = Return r ->
  exists asofDate w_asof,
    resolveAsofDate (BrsInputs.income_statements inputs)
      (BrsInputs.balance_sheets inputs) (BrsInputs.cash_flow_statements inputs)
    = Return (asofDate, w_asof)
    /\ r = brs_result inputs (brs_locals inputs asofDate w_asof).
Proof.
  unfold computeBrs.
  destruct (resolveAsofDate _ _ _) as [[asofDate w_asof] | e]; [| discriminate].
  intros [= <-]. eauto.
Qed.

Lemma ratio_absent_or_zero (a b : option number) :
  absent_or_zero a \/ absent_or_zero b -> ratio_if_truthy a b = None.
Proof.
  unfold ratio_if_truthy, absent_or_zero.
  intros [[-> | (z & -> & Hz)] | [-> | (z & -> & Hz)]]; simpl.
  - reflexivity.
  - apply Qeq_bool_iff in Hz. now rewrite Hz.
  - now destruct (truthy a).
  - apply Qeq_bool_iff in Hz. rewrite Hz. now destruct (truthy a).
Qed.

(** C10: when the TTM operating cash flow or the TTM EBITDA of [computeBrs]
    is exactly zero, as when it is absent, the cash-conversion ratio is null,
    the [cash_conversion] sub-score is 0 and the warning
    [missing_cash_conversion] is in the result; likewise for
    [fcf_conversion] with the TTM free cash flow. *)
Theorem computeBrs_zero_ttm_is_missing (inputs : BrsInputs.t)
    (asofDate : option Date) (w_asof : list string) :
  resolveAsofDate (BrsInputs.income_statements inputs)
    (BrsInputs.balance_sheets inputs) (BrsInputs.cash_flow_statements inputs)
  = Return (asofDate, w_asof) ->
  let l := brs_locals inputs asofDate w_asof in
  exists r,
    computeBrs inputs = Return r
    /\ (absent_or_zero (BrsLocals.ocfTtm l)
        \/ absent_or_zero (BrsLocals.ebitdaTtm l) ->
        BrsLocals.cashConversion l = None
        /\ BrsSubscores.cash_conversion (BrsResult.subscores r) = Num 0
        /\ "missing_cash_conversion" ∈ BrsResult.warnings r)
    /\ (absent_or_zero (BrsLocals.fcfTtm l)
        \/ absent_or_zero (BrsLocals.ebitdaTtm l) ->
        BrsLocals.fcfConversion l = None
        /\ BrsSubscores.fcf_conversion (BrsResult.subscores r) = Num 0
        /\ "missing_fcf_conversion" ∈ BrsResult.warnings r).
Proof.
  intros Hasof l. exists (brs_result inputs l).
  split; [unfold computeBrs; now rewrite Hasof |].
  split; intros Hzero.
  - assert (Hnone : BrsLocals.cashConversion l = None)
      by (apply ratio_absent_or_zero; exact Hzero).
    split; [exact Hnone |]. split.
    + change (scoreCashConversion (BrsLocals.cashConversion l) = Num 0).
      now rewrite Hnone.
    + change ("missing_cash_conversion" ∈ BrsLocals.warnings l).
      cbn [l brs_locals BrsLocals.warnings].
      rewrite !elem_of_app.
      do 4 right. left.
      change (ratio_if_truthy _ _) with (BrsLocals.cashConversion l).
      rewrite Hnone. now left.
  - assert (Hnone : BrsLocals.fcfConversion l = None)
      by (apply ratio_absent_or_zero; exact Hzero).
    split; [exact Hnone |]. split.
    + change (scoreFcfConversion (BrsLocals.fcfConversion l) = Num 0).
      now rewrite Hnone.
    + change ("missing_fcf_conversion" ∈ BrsLocals.warnings l).
      cbn [l brs_locals BrsLocals.warnings].
      rewrite !elem_of_app.
      do 5 right. left.
      change (ratio_if_truthy _ _) with (BrsLocals.fcfConversion l).
      rewrite Hnone. now left.
Qed.

End BrsFacts.

(** Four quarters of zero operating cash flow: the TTM sum is 0, not
    absent, and the ratio is reported as missing. *)
Lemma computeBrs_zero_ttm_is_missing_witness :
  exists r,
    computeBrs (P := Sample.platform) (Examples.brs_inputs (Num 0) None) = Return r
    /\ BrsLocals.ocfTtm
         (brs_locals (P := Sample.platform) (Examples.brs_inputs (Num 0) None)
            (Some 1703980800000%Z) [])
       = Some (Num 0)
    /\ BrsSubscores.cash_conversion (BrsResult.subscores r) = Num 0
    /\ "missing_cash_conversion" ∈ BrsResult.warnings r.
Proof.
  assert (Hasof :
    resolveAsofDate (P := Sample.platform)
      (BrsInputs.income_statements (Examples.brs_inputs (Num 0) None))
      (BrsInputs.balance_sheets (Examples.brs_inputs (Num 0) None))
      (BrsInputs.cash_flow_statements (Examples.brs_inputs (Num 0) None))
    = Return (Some 1703980800000%Z, [])) by (vm_compute; reflexivity).
  assert (Hocf :
    BrsLocals.ocfTtm
      (brs_locals (P := Sample.platform) (Examples.brs_inputs (Num 0) None)
         (Some 1703980800000%Z) [])
    = Some (Num 0)) by (vm_compute; reflexivity).
  destruct (computeBrs_zero_ttm_is_missing (P := Sample.platform)
              (Examples.brs_inputs (Num 0) None) (Some 1703980800000%Z) [] Hasof)
    as (r & Hr & Hcash & _).
  exists r. split; [exact Hr |]. split; [exact Hocf |].
  apply Hcash. left. right. exists 0. split; [exact Hocf | reflexivity].
Defined.

Section PeerFacts.
Context `{P : Platform}.






End PeerFacts.


(** ** Totals *)

Lemma within_add (a b c d : Q) (x y : number) :
  within a b x -> within c d y -> within (a + c) (b + d) (JS.add x y).
Proof.
  destruct x as [p | | |], y as [q | | |]; simpl; try tauto.
  intros [? ?] [? ?]. split; lra.
Qed.

Lemma within_weaken (a b c d : Q) (x : number) :
  within a b x -> c <= a -> b <= d -> within c d x.
Proof. destruct x; simpl; try tauto. intros [? ?] ? ?. split; lra. Qed.

Lemma within_clamp_id (lo hi : Q) (x : number) :
  within lo hi x -> num_eqv (clamp x (Num lo) (Num hi)) x.
Proof.
  destruct x as [q | | |]; simpl; try tauto. intros [Hlo Hhi].
  unfold clamp, JS.min, JS.max.
  destruct (JS.lt (Num q) (Num hi)) eqn:E1.
  - destruct (JS.lt (Num lo) (Num q)) eqn:E2; simpl; js_compare; lra.
  - destruct (JS.lt (Num lo) (Num hi)) eqn:E2; simpl; js_compare; lra.
Qed.

(** Decides the tests of a scoring function and checks the bounds of the
    literal it returns. *)
Ltac score_cases :=
  repeat match goal with
    | |- context [if ?c then _ else _] => destruct c
    | |- context [match ?x with _ => _ end] => destruct x
    end;
  cbn [fst snd within]; try (split; lra).

Section BrsBounds.
Context `{P : Platform}.

Lemma scoreEvToEbitdaPercentile_within (rank : option number) :
  within 0 15 (fst (scoreEvToEbitdaPercentile rank)).
Proof. unfold scoreEvToEbitdaPercentile. score_cases. Qed.

Lemma scoreEvToEbitdaMedian_within (v m : option number) (bands : MedianBands.t) :
  within 0 15 (fst (scoreEvToEbitdaMedian v m bands)).
Proof. unfold scoreEvToEbitdaMedian. score_cases. Qed.

Lemma scoreFcfYield_within (v : option number) : within 0 10 (scoreFcfYield v).
Proof. unfold scoreFcfYield. score_cases. Qed.

Lemma scoreCashConversion_within (v : option number) :
  within 0 10 (scoreCashConversion v).
Proof. unfold scoreCashConversion. score_cases. Qed.

Lemma scoreFcfConversion_within (v : option number) :
  within 0 10 (scoreFcfConversion v).
Proof. unfold scoreFcfConversion. score_cases. Qed.

Lemma scoreIncrementalRoic_within (roic ebitda : option (list TtmPoint)) :
  within 0 10 (fst (scoreIncrementalRoic roic ebitda)).
Proof.
  unfold scoreIncrementalRoic.
  destruct (roic ≫= growthFromSeries) as [g |]; [score_cases |].
  destruct ebitda as [e |]; [| score_cases].
  destruct (growthFromSeries e); score_cases.
Qed.

Lemma round_within (q : Q) :
  0 <= q <= 5 -> within 0 5 (JS.round (Num q)).
Proof.
  intros [Hlo Hhi]. cbn [JS.round within]. split.
  - change 0 with (inject_Z (Qfloor 0)). rewrite <- Zle_Qle.
    apply Qfloor_resp_le. lra.
  - change 5 with (inject_Z (Qfloor (5 + (1 # 2)))). rewrite <- Zle_Qle.
    apply Qfloor_resp_le. lra.
Qed.

Lemma scoreGrossMarginStability_within (gmSeries : list number)
    (config : BrsConfig.t) (m : Q) :
  BrsConfig.low_history_gm_multiplier config = Num m -> 0 <= m <= 1 ->
  within 0 5 (fst (scoreGrossMarginStability gmSeries config)).
Proof.
  intros Hm Hrange. unfold scoreGrossMarginStability. rewrite Hm.
  destruct (decide (length gmSeries < 4)%nat); [score_cases |].
  destruct (slope _); [| score_cases]. destruct (stdev _); [| score_cases].
  destruct (_ && _); destruct (decide (length gmSeries < 8)%nat); cbn [fst];
    try (cbn [within]; split; lra).
  - apply round_within. lra.
  - apply round_within. lra.
Qed.

End BrsBounds.

Section BrsTotal.
Context `{P : Platform}.

Lemma roic_vs_wacc_within (roic wacc : option number) :
  within 0 15
    match roic, wacc with
    | Some roic, Some waccProxy =>
        if JS.ge roic (JS.add waccProxy (Num 0.05)) then Num 15
        else if JS.ge roic waccProxy then Num 10
        else Num 0
    | _, _ => Num 0
    end.
Proof. score_cases. Qed.

Lemma net_debt_within (ratio : option number) :
  within 0 10
    match ratio with
    | None => Num 0
    | Some r =>
        if JS.lt r (Num 2) then Num 10
        else if JS.le r (Num 4) then Num 5
        else Num 0
    end.
Proof. score_cases. Qed.

Lemma interest_coverage_within (coverage : option number) :
  within 0 5
    match coverage with
    | None => Num 0
    | Some c =>
        if JS.gt c (Num 8) then Num 5
        else if JS.ge c (Num 4) then Num 3
        else Num 0
    end.
Proof. score_cases. Qed.

Lemma shareholder_yield_within (dividends buybacks marketCap : option number) :
  within 0 5
    (fst match dividends, buybacks with
         | Some dividends, Some buybacks =>
             if truthy marketCap then
               let netBuybacks := JS.neg buybacks in
               let shareholderYield :=
                 JS.div (JS.add dividends netBuybacks) (default NaN marketCap) in
               (if JS.gt shareholderYield (Num 0.05) then Num 5
                else if JS.ge shareholderYield (Num 0.02) then Num 3
                else Num 0,
                [])
             else (Num 0, ["missing_shareholder_yield"])
         | _, _ => (Num 0, ["missing_shareholder_yield"])
         end).
Proof. cbv zeta. score_cases. Qed.

Lemma sbc_to_fcf_within (sbc fcf : option number) :
  within 0 5
    (fst match sbc with
         | Some sbc =>
             if truthy fcf && negb (JS.eq (default NaN fcf) (Num 0)) then
               let sbcRatio := JS.div sbc (default NaN fcf) in
               (if JS.lt sbcRatio (Num 0.10) then Num 5
                else if JS.le sbcRatio (Num 0.25) then Num 3
                else Num 0,
                [])
             else (Num 0, ["missing_sbc_or_fcf"])
         | None => (Num 0, ["missing_sbc_or_fcf"])
         end).
Proof. cbv zeta. score_cases. Qed.

Lemma ev_score_within (level : PeerLevel) (evToEbitda med evPercentile : option number)
    (bands : MedianBands.t) :
  within 0 15
    (fst (if decide (level = level_median) then
            let scored := scoreEvToEbitdaMedian evToEbitda med bands in
            (fst scored, "peer_set_too_small" :: snd scored)
          else scoreEvToEbitdaPercentile evPercentile)).
Proof.
  destruct (decide _); cbv zeta; cbn [fst].
  - apply scoreEvToEbitdaMedian_within.
  - apply scoreEvToEbitdaPercentile_within.
Qed.

Lemma brs_total_within (inputs : BrsInputs.t) (asofDate : option Date)
    (w_asof : list string) (m : Q) :
  let l := brs_locals inputs asofDate w_asof in
  BrsConfig.low_history_gm_multiplier (BrsLocals.config l) = Num m ->
  0 <= m <= 1 ->
  within 0 100 (BrsLocals.total l).
Proof.
  intros l Hm Hrange.
  assert (Hev : within 0 15 (BrsLocals.evScore l)) by apply ev_score_within.
  assert (Hfy : within 0 10 (BrsLocals.fcfYieldScore l))
    by apply scoreFcfYield_within.
  assert (Hcc : within 0 10 (BrsLocals.cashConversionScore l))
    by apply scoreCashConversion_within.
  assert (Hfc : within 0 10 (BrsLocals.fcfConversionScore l))
    by apply scoreFcfConversion_within.
  assert (Hrw : within 0 15 (BrsLocals.roicVsWaccScore l))
    by apply roic_vs_wacc_within.
  assert (Hir : within 0 10 (BrsLocals.incrementalRoicScore l))
    by apply scoreIncrementalRoic_within.
  assert (Hnd : within 0 10 (BrsLocals.netDebtScore l))
    by apply net_debt_within.
  assert (Hic : within 0 5 (BrsLocals.interestCoverageScore l))
    by apply interest_coverage_within.
  assert (Hgm : within 0 5 (BrsLocals.grossMarginScore l))
    by (apply (scoreGrossMarginStability_within _ _ m); assumption).
  assert (Hsy : within 0 5 (BrsLocals.shareholderYieldScore l))
    by apply shareholder_yield_within.
  assert (Hsb : within 0 5 (BrsLocals.sbcToFcfScore l))
    by apply sbc_to_fcf_within.
  change (BrsLocals.total l) with
    (JS.add
       (JS.add
          (JS.add
             (JS.add (JS.add (BrsLocals.evScore l) (BrsLocals.fcfYieldScore l))
                     (JS.add (BrsLocals.cashConversionScore l)
                             (BrsLocals.fcfConversionScore l)))
             (JS.add (BrsLocals.roicVsWaccScore l)
                     (BrsLocals.incrementalRoicScore l)))
          (JS.add (BrsLocals.netDebtScore l) (BrsLocals.interestCoverageScore l)))
       (JS.add (JS.add (BrsLocals.grossMarginScore l)
                       (BrsLocals.shareholderYieldScore l))
               (BrsLocals.sbcToFcfScore l))).
  eapply within_weaken;
    [repeat apply within_add; eassumption | lra | lra].
Qed.

End BrsTotal.

(** Decides the tests of a scoring function that returns literals, which
    are finite. *)
Ltac finite_cases :=
  repeat match goal with
    | |- context [if ?c then _ else _] => destruct c
    | |- context [match ?x with _ => _ end] => destruct x
    end;
  try reflexivity.

Lemma finite_add (x y : number) :
  JS.isFinite x = true -> JS.isFinite y = true -> JS.isFinite (JS.add x y) = true.
Proof. destruct x, y; simpl; congruence. Qed.

Lemma finite_min (x y : number) :
  JS.isFinite x = true -> JS.isFinite y = true -> JS.isFinite (JS.min x y) = true.
Proof.
  destruct x, y; simpl; try congruence. intros _ _.
  unfold JS.min. now destruct (JS.lt _ _).
Qed.

Lemma finite_within (lo hi : Q) (x : number) :
  within lo hi x -> JS.isFinite x = true.
Proof. destruct x; simpl; tauto. Qed.

Lemma finite_not_NaN (x : number) : JS.isFinite x = true -> x <> NaN.
Proof. destruct x; simpl; congruence. Qed.

Lemma finite_toFixed2 (x : number) :
  JS.isFinite x = true -> JS.isFinite (JS.toFixed2 x) = true.
Proof.
  destruct x as [q | | |]; simpl; try congruence. intros _.
  destruct (Qle_bool _ _); [reflexivity |]. now destruct (JS.sgn q).
Qed.

Section MdsBounds.
Context `{P : Platform}.

Lemma compressionScoreFn_finite (config : MdsConfig.t) (trend : EbitdaTrend)
    (current med : number) :
  JS.isFinite (Mds.compressionScoreFn config trend current med) = true.
Proof. unfold Mds.compressionScoreFn. finite_cases. Qed.

Lemma fcfYieldScoreFn_finite (config : MdsConfig.t) (stability : FcfStability)
    (current med : number) :
  JS.isFinite (Mds.fcfYieldScoreFn config stability current med) = true.
Proof. unfold Mds.fcfYieldScoreFn. finite_cases. Qed.

Lemma computeHistoryScore_finite (current : option number)
    (history : list TtmPoint) (windowSize : number)
    (scoreFn : number -> number -> number) :
  (forall a b, JS.isFinite (scoreFn a b) = true) ->
  JS.isFinite (fst (Mds.computeHistoryScore current history windowSize scoreFn))
  = true.
Proof.
  intros Hfn. unfold Mds.computeHistoryScore.
  destruct current; [| reflexivity].
  destruct (decide _); [reflexivity |].
  destruct (median _); [apply Hfn | reflexivity].
Qed.

Lemma applyCoverage_finite (score : number) (available : nat)
    (config : MdsConfig.t) (tag : string) :
  JS.isFinite score = true ->
  MdsConfig.history_min config <> NaN ->
  JS.isFinite (fst (Mds.applyCoverage score available config tag)) = true.
Proof.
  intros Hs Hmin. unfold Mds.applyCoverage.
  destruct (JS.ge _ _) eqn:Ege; [exact Hs |].
  destruct (decide _) as [| Hpos]; [reflexivity |].
  cbn [fst]. apply finite_toFixed2.
  destruct score as [s | | |]; try discriminate.
  destruct (MdsConfig.history_min config) as [h | | |] eqn:Eh;
    try congruence.
  - unfold JS.of_nat, JS.div in *.
    destruct (Qeq_bool h 0) eqn:E0; [| reflexivity].
    exfalso. apply Qeq_bool_iff in E0. apply le_Num_false in Ege.
    assert (0 <= inject_Z (Z.of_nat available)).
    { change 0 with (inject_Z 0). rewrite <- Zle_Qle. lia. }
    lra.
  - reflexivity.
  - discriminate.
Qed.

Lemma expectation_reset_finite (config : MdsConfig.t)
    (estimates : option (list EstimatePoint.t)) (revenueSeries : list TtmPoint) :
  JS.isFinite (fst (Mds.expectation_reset config estimates revenueSeries)) = true.
Proof.
  unfold Mds.expectation_reset.
  destruct (decide _); [| reflexivity].
  destruct (last _) as [recentRow |]; [| reflexivity].
  destruct (_ !! _) as [priorRow |]; [| reflexivity].
  destruct (EstimatePoint.eps_estimate recentRow); [| reflexivity].
  destruct (EstimatePoint.eps_estimate priorRow); [| reflexivity].
  destruct (_ && _); [| reflexivity].
  cbv zeta.
  match goal with
  | |- context [match ?signal with Some _ => _ | None => _ end] =>
      destruct signal as [[|] |]
  end; reflexivity.
Qed.

Lemma short_interest_score_finite (config : MdsConfig.t) (pct : option number) :
  JS.isFinite (fst (Mds.short_interest_score config pct)) = true.
Proof. unfold Mds.short_interest_score. finite_cases. Qed.

Lemma ownership_score_finite (config : MdsConfig.t)
    (history : option (list OwnershipPoint.t)) (intact : option bool)
    (ocfSeries : list TtmPoint) :
  JS.isFinite (fst (Mds.ownership_score config history intact ocfSeries)) = true.
Proof.
  unfold Mds.ownership_score.
  destruct history as [h |]; [| reflexivity].
  destruct (decide _); [| reflexivity].
  destruct (_ !! _); [| reflexivity]. destruct (_ !! _); [| reflexivity].
  cbv zeta. now destruct (_ && _).
Qed.

Lemma insider_bonus_finite (config : MdsConfig.t)
    (trades : option (list InsiderTrade.t)) (asofDate : option Date)
    (marketCap : option number) :
  JS.isFinite (fst (Mds.insider_bonus config trades asofDate marketCap)) = true.
Proof.
  unfold Mds.insider_bonus.
  destruct trades as [[| t ts] |]; try reflexivity.
  cbv zeta. destruct (JS.gt _ _); [| reflexivity]. now destruct (_ || _).
Qed.

Lemma classify_points (docs : list NarrativeDoc.t)
    (options : NarrativeShockParams.options) (detail : NarrativeShockResult.t) :
  classifyNarrativeShock docs options = Return detail ->
  NarrativeShockResult.mds_narrative_shock_points detail
  = NarrativeLocals.mdsPoints (narrative_locals docs options).
Proof.
  unfold classifyNarrativeShock.
  generalize (narrative_locals docs options). intros l.
  destruct (NarrativeLocals.windowStart l); [| discriminate].
  destruct (NarrativeLocals.windowEnd l); [| discriminate].
  intros [= <-]. reflexivity.
Qed.

Lemma mdsPoints_finite (docs : list NarrativeDoc.t)
    (options : NarrativeShockParams.options) :
  JS.isFinite (NarrativeLocals.mdsPoints (narrative_locals docs options)) = true.
Proof.
  assert (H : NarrativeLocals.mdsPoints (narrative_locals docs options)
              = match NarrativeLocals.shockType (narrative_locals docs options) with
                | ONE_OFF => Num 15
                | MACRO_ROTATION => Num 10
                | _ => Num 0
                end) by reflexivity.
  rewrite H. now destruct (NarrativeLocals.shockType _).
Qed.

Lemma narrative_step_finite (inputs : MdsSeriesInputs.t)
    (narrative : number * option NarrativeShockResult.t * list string) :
  Mds.narrative_step inputs = Return narrative ->
  JS.isFinite (fst (fst narrative)) = true.
Proof.
  unfold Mds.narrative_step.
  destruct (MdsSeriesInputs.docs inputs) as [[| d ds] |];
    try (intros [= <-]; reflexivity).
  destruct (classifyNarrativeShock _ _) as [detail | e] eqn:E; [| discriminate].
  intros [= <-]. cbn [fst].
  rewrite (classify_points _ _ _ E). apply mdsPoints_finite.
Qed.

End MdsBounds.

Section MdsTotal.
Context `{P : Platform}.

Lemma finite_clamp (lo hi : Q) (x : number) :
  lo <= hi -> JS.isFinite x = true ->
  JS.isFinite (clamp x (Num lo) (Num hi)) = true.
Proof.
  intros Hle Hx. apply (finite_within lo hi), clamp_within; [exact Hle |].
  now apply finite_not_NaN.
Qed.

Lemma gm_defense_finite (status : GmStatus) (declining : bool) :
  JS.isFinite
    (if bool_decide (status = gm_stable) && declining then Num 10
     else if bool_decide (status = gm_stable) || bool_decide (status = gm_slight)
     then Num 5
     else Num 0) = true.
Proof. finite_cases. Qed.

Lemma ocf_score_finite (stability : OcfStability) :
  JS.isFinite
    (if bool_decide (stability = ocf_stable) then Num 10
     else if bool_decide (stability = ocf_volatile) then Num 5
     else Num 0) = true.
Proof. finite_cases. Qed.

Lemma capex_score_finite (ratios : list number) (revenueTrend : option number) :
  JS.isFinite
    (fst (if decide (4 <= length ratios)%nat then
            let capexSlope := default (Num 0) (slope (slice_last 8 ratios)) in
            (if JS.le capexSlope (Num 0) then Num 5
             else if match revenueTrend with
                     | Some t => JS.lt t (Num 0)
                     | None => false
                     end
             then Num 3
             else Num 0,
             [])
          else (Num 0, ["missing_capex_history"]))) = true.
Proof.
  destruct (decide _); [| reflexivity]. cbv zeta. cbn [fst].
  destruct (JS.le _ _); [reflexivity |].
  now destruct (match revenueTrend with Some _ => _ | None => _ end).
Qed.

Lemma mds_total_within (inputs : MdsSeriesInputs.t) (asofDate : option Date)
    (w_asof : list string)
    (narrative : number * option NarrativeShockResult.t * list string) :
  let l := Mds.mds_locals inputs asofDate w_asof narrative in
  JS.isFinite (fst (fst narrative)) = true ->
  MdsConfig.history_min (MdsLocals.config l) <> NaN ->
  within 0 100 (MdsLocals.total l).
Proof.
  intros l Hnar Hmin.
  assert (Hc : JS.isFinite (MdsLocals.compressionScore l) = true).
  { apply finite_min; apply applyCoverage_finite; try exact Hmin;
      apply computeHistoryScore_finite, compressionScoreFn_finite. }
  assert (Hf : JS.isFinite (MdsLocals.fcfYieldScore l) = true).
  { apply finite_min; apply applyCoverage_finite; try exact Hmin;
      apply computeHistoryScore_finite, fcfYieldScoreFn_finite. }
  assert (Hmc : JS.isFinite (MdsLocals.multipleCompressionPoints l) = true).
  { apply (finite_clamp 0 30); [lra |]. now apply finite_add. }
  assert (Her : JS.isFinite (MdsLocals.expectationReset l) = true)
    by apply expectation_reset_finite.
  assert (Hor : JS.isFinite (MdsLocals.operatingResilience l) = true).
  { apply (finite_clamp 0 25); [lra |].
    repeat apply finite_add.
    - apply gm_defense_finite.
    - apply ocf_score_finite.
    - apply capex_score_finite. }
  assert (Hmp : JS.isFinite (MdsLocals.marketPositioning l) = true).
  { apply (finite_clamp 0 20); [lra |]. repeat apply finite_add.
    - apply short_interest_score_finite.
    - apply ownership_score_finite.
    - apply insider_bonus_finite. }
  change (MdsLocals.total l) with
    (clamp
       (JS.add
          (JS.add
             (JS.add (MdsLocals.multipleCompressionPoints l)
                     (JS.add (MdsLocals.expectationReset l) (fst (fst narrative))))
             (MdsLocals.operatingResilience l))
          (MdsLocals.marketPositioning l))
       (Num 0) (Num 100)).
  apply clamp_within; [lra |]. apply finite_not_NaN.
  repeat apply finite_add; assumption.
Qed.

End MdsTotal.

Section Totals.
Context `{P : Platform}.

Lemma sorted_candidates_last (candidates : list string) (d : string) :
  d ∈ candidates -> is_Some (parseReportDate d) ->
  is_Some (sorted_candidates candidates
           !! (length (sorted_candidates candidates) - 1)%nat).
Proof.
  intros Hin [date Hdate]. apply lookup_lt_is_Some_2.
  unfold sorted_candidates. rewrite js_sort_length.
  assert (Hmem : (d, date) ∈ omap (fun d => pair d <$> parseReportDate d) candidates).
  { apply list_elem_of_omap. exists d. split; [exact Hin |]. now rewrite Hdate. }
  destruct (omap _ candidates); [inversion Hmem | simpl; lia].
Qed.

Lemma resolveAsofDate_returns (income : list IncomeStatement.t)
    (balance : list BalanceSheet.t) (cashflow : list CashFlowStatement.t) :
  let candidates := asof_candidates income balance cashflow in
  candidates = []
  \/ (exists d, d ∈ candidates /\ is_Some (parseReportDate d)) ->
  exists asofDate w_asof,
    resolveAsofDate income balance cashflow = Return (asofDate, w_asof).
Proof.
  intros candidates Hok. unfold resolveAsofDate. fold candidates.
  destruct (decide (0 < length candidates)%nat) as [Hpos | Hzero]; [| eauto].
  destruct Hok as [Hnil | (d & Hin & Hparse)].
  - rewrite Hnil in Hpos. simpl in Hpos. lia.
  - destruct (sorted_candidates_last candidates d Hin Hparse) as [entry ->].
    eauto.
Qed.

(** C1, as amended. [computeBrs] returns whenever the statements have no
    report period in common or a common period parses; its total is the plain
    sum of the five sub-dimension scores, not clamped, and lies within
    [[0, 100]] when [low_history_gm_multiplier] lies within [[0, 1]], as the
    default 0.5 does. [computeMdsFromSeries] returns whenever an as-of date
    is supplied and no documents are; its total is the sum of its scores
    clamped to [[0, 100]], the narrative points being folded into the
    expectation-reset total, and lies within [[0, 100]] unless [history_min]
    is [NaN]. *)
Theorem totals_bounded :
  (forall inputs : BrsInputs.t,
     let config :=
       BrsConfig.merge DEFAULT_BRS_CONFIG
         (default BrsConfig.no_override (BrsInputs.config inputs)) in
     let candidates :=
       asof_candidates (BrsInputs.income_statements inputs)
         (BrsInputs.balance_sheets inputs)
         (BrsInputs.cash_flow_statements inputs) in
     (candidates = []
      \/ (exists d, d ∈ candidates /\ is_Some (parseReportDate d)) ->
      exists r, computeBrs inputs = Return r)
     /\ forall r, computeBrs inputs = Return r ->
          let s := BrsResult.scores r in
          BrsScores.total s
          = JS.add
              (JS.add
                 (JS.add
                    (JS.add (BrsScores.valuation_sanity s)
                            (BrsScores.cash_truth_quality s))
                    (BrsScores.capital_efficiency s))
                 (BrsScores.balance_sheet_risk s))
              (BrsScores.durability_alignment s)
          /\ (forall m,
                BrsConfig.low_history_gm_multiplier config = Num m ->
                0 <= m <= 1 ->
                within 0 100 (BrsScores.total s)
                /\ num_eqv (clamp (BrsScores.total s) (Num 0) (Num 100))
                           (BrsScores.total s))
          /\ (BrsInputs.config inputs = None -> within 0 100 (BrsScores.total s)))
  /\ (forall inputs : MdsSeriesInputs.t,
        let config :=
          MdsConfig.merge DEFAULT_MDS_CONFIG
            (default MdsConfig.no_override (MdsSeriesInputs.config inputs)) in
        (truthy_string (MdsSeriesInputs.asof_date inputs) = true ->
         MdsSeriesInputs.docs inputs = None ->
         exists r, Mds.computeMdsFromSeries inputs = Return r)
        /\ forall r, Mds.computeMdsFromSeries inputs = Return r ->
             MdsSeriesResult.total_mds_points r
             = clamp
                 (JS.add
                    (JS.add
                       (JS.add (MdsSeriesResult.multiple_compression_points r)
                               (MdsSeriesResult.expectation_reset_total r))
                       (MdsSeriesResult.operating_resilience_points r))
                    (MdsSeriesResult.market_positioning_points r))
                 (Num 0) (Num 100)
             /\ MdsSeriesResult.expectation_reset_total r
                = JS.add (MdsSeriesResult.expectation_reset_points r)
                         (MdsSeriesResult.narrative_shock_points r)
             /\ (MdsConfig.history_min config <> NaN ->
                 within 0 100 (MdsSeriesResult.total_mds_points r))).
Proof.
  split.
  - intros inputs config candidates. split.
    + intros Hok.
      destruct (resolveAsofDate_returns _ _ _ Hok) as (asofDate & w_asof & Hasof).
      unfold computeBrs. rewrite Hasof. eauto.
    + intros r Hr s.
      apply computeBrs_returns in Hr as (asofDate & w_asof & _ & ->).
      split; [reflexivity |].
      assert (Hbound : forall m,
                BrsConfig.low_history_gm_multiplier config = Num m ->
                0 <= m <= 1 -> within 0 100 (BrsScores.total s)).
      { intros m Hm Hrange.
        exact (brs_total_within inputs asofDate w_asof m Hm Hrange). }
      split.
      * intros m Hm Hrange. split; [now apply (Hbound m) |].
        apply within_clamp_id. now apply (Hbound m).
      * intros Hcfg. apply (Hbound 0.5); [| lra].
        subst config. now rewrite Hcfg.
  - intros inputs config. split.
    + intros Hasof Hdocs. unfold Mds.computeMdsFromSeries, Mds.mds_asof.
      rewrite Hasof. unfold Mds.narrative_step. rewrite Hdocs. eauto.
    + intros r Hr.
      pose proof Hr as Hret.
      apply computeMdsFromSeries_returns in Hret
        as (asofDate & w_asof & narrative & _ & Hnar & ->).
      split; [reflexivity |]. split; [reflexivity |].
      intros Hmin.
      apply (mds_total_within inputs asofDate w_asof narrative).
      * now apply narrative_step_finite with (inputs := inputs).
      * exact Hmin.
Qed.

End Totals.

(** The defaults bound the totals of the two example inputs. *)
Lemma totals_bounded_witness :
  (exists r,
     computeBrs (P := Sample.platform) (Examples.brs_inputs (Num 8) None) = Return r
     /\ within 0 100 (BrsScores.total (BrsResult.scores r)))
  /\ (exists r,
        Mds.computeMdsFromSeries (P := Sample.platform) Examples.mds_short_history
        = Return r
        /\ within 0 100 (MdsSeriesResult.total_mds_points r)).
Proof.
  destruct (totals_bounded (P := Sample.platform)) as [Hbrs Hmds].
  split.
  - destruct (Hbrs (Examples.brs_inputs (Num 8) None)) as [Hreturns Hbound].
    destruct Hreturns as [r Hr].
    { right. exists "2023-12-31". split; [| now eexists].
      vm_compute. apply list_elem_of_In. simpl. tauto. }
    exists r. split; [exact Hr |].
    now apply (Hbound r Hr).
  - destruct (Hmds Examples.mds_short_history) as [_ Hbound].
    destruct (Mds.computeMdsFromSeries (P := Sample.platform)
                Examples.mds_short_history) as [r | e] eqn:E;
      [| vm_compute in E; discriminate].
    exists r. split; [reflexivity |].
    apply (Hbound r eq_refl). discriminate.
Defined.

(** C1 as stated fails: with the multiplier of a short margin history
    overridden to 100, four steady quarters give a BRS total of 500. *)
Lemma computeBrs_total_above_100 :
  exists r,
    computeBrs (P := Sample.platform)
      (Examples.brs_four_quarters (Some (Examples.gm_multiplier (Num 100))))
    = Return r
    /\ BrsScores.total (BrsResult.scores r) = Num 500
    /\ ~ within 0 100 (BrsScores.total (BrsResult.scores r)).
Proof.
  eexists. split; [vm_compute; reflexivity |].
  split; [reflexivity |].
  simpl. intros [_ H]. revert H. unfold Qle. simpl. lia.
Qed.

(** ** Narrative shock classifier *)

Lemma event_class_ids : NoDup (map EventClass.id EVENT_CLASSES).
Proof.
  assert (H : bool_decide (NoDup (map EventClass.id EVENT_CLASSES)) = true)
    by (vm_compute; reflexivity).
  now apply bool_decide_eq_true in H.
Qed.

Lemma event_classes_sound (c : EventClass.t) :
  c ∈ EVENT_CLASSES -> sound_points c = true.
Proof.
  assert (H : forallb sound_points EVENT_CLASSES = true) by (vm_compute; reflexivity).
  rewrite forallb_forall in H. intros Hin. now apply H, list_elem_of_In.
Qed.

Lemma find_class (cs : list EventClass.t) (c : EventClass.t) :
  NoDup (map EventClass.id cs) -> c ∈ cs ->
  List.find (fun e => String.eqb (EventClass.id e) (EventClass.id c)) cs = Some c.
Proof.
  induction cs as [| e cs IH]; intros Hnd Hin; [inversion Hin |].
  cbn [map] in Hnd. apply NoDup_cons in Hnd as [Hne Hnd]. cbn [List.find].
  destruct (String.eqb_spec (EventClass.id e) (EventClass.id c)) as [E | E].
  - apply elem_of_cons in Hin as [-> | Hin]; [reflexivity |].
    exfalso. apply Hne. rewrite E.
    apply list_elem_of_In, in_map. now apply list_elem_of_In.
  - apply elem_of_cons in Hin as [-> | Hin]; [congruence | auto].
Qed.

Lemma find_class_none (cs : list EventClass.t) (k : string) :
  k ∉ map EventClass.id cs ->
  List.find (fun e => String.eqb (EventClass.id e) k) cs = None.
Proof.
  intros Hne. destruct (List.find _ cs) as [e |] eqn:E; [| reflexivity].
  apply find_some in E as [Hin Hid]. apply String.eqb_eq in Hid. subst k.
  exfalso. apply Hne. now apply list_elem_of_In, in_map.
Qed.

Lemma event_class_member (c : EventClass.t) :
  c ∈ EVENT_CLASSES -> event_class (EventClass.id c) = Some c.
Proof. apply find_class, event_class_ids. Qed.

Lemma event_class_unique (c e : EventClass.t) :
  c ∈ EVENT_CLASSES -> e ∈ EVENT_CLASSES -> EventClass.id e = EventClass.id c ->
  e = c.
Proof.
  intros Hc He Hid. apply event_class_member in Hc, He.
  rewrite Hid in He. congruence.
Qed.

Lemma match_class_lookup (doc : ProcessedDoc.t) (st : match_state)
    (c : EventClass.t) (k : string) :
  fst (match_class doc st c) !! k
  = if String.eqb (EventClass.id c) k
    then match doc_match c doc with
         | Some entry => Some (default [] (fst st !! k) ++ [entry])
         | None => fst st !! k
         end
    else fst st !! k.
Proof.
  unfold match_class, doc_match, labels_of.
  destruct (map patternLabel (List.filter _ (EventClass.strong c))) as [| s ss];
    destruct (map patternLabel (List.filter _ (EventClass.weak c))) as [| w ws];
    cbn [length];
    (destruct (decide _) as [[H1 H2] | H];
     [try discriminate | try (exfalso; apply H; split; reflexivity)]);
    destruct (String.eqb_spec (EventClass.id c) k) as [<- | E]; cbn [fst];
    rewrite ?lookup_insert_eq, ?lookup_insert_ne by exact E; reflexivity.
Qed.

Lemma match_doc_lookup (doc : ProcessedDoc.t) (cs : list EventClass.t) :
  forall (st : match_state) (k : string),
    NoDup (map EventClass.id cs) ->
    fst (fold_left (match_class doc) cs st) !! k
    = match List.find (fun c => String.eqb (EventClass.id c) k) cs with
      | Some c =>
          match doc_match c doc with
          | Some entry => Some (default [] (fst st !! k) ++ [entry])
          | None => fst st !! k
          end
      | None => fst st !! k
      end.
Proof.
  induction cs as [| e cs IH]; intros st k Hnd; [reflexivity |].
  cbn [map] in Hnd. apply NoDup_cons in Hnd as [Hne Hnd].
  cbn [fold_left List.find]. rewrite IH by exact Hnd.
  rewrite match_class_lookup.
  destruct (String.eqb_spec (EventClass.id e) k) as [E | E].
  - subst k. now rewrite find_class_none.
  - reflexivity.
Qed.

Lemma initial_lookup (cs : list EventClass.t) (k : string) :
  forall m : gmap string (list DocMatch.t),
    fold_left (fun m eventClass => <[EventClass.id eventClass := []]> m) cs m !! k
    = match List.find (fun c => String.eqb (EventClass.id c) k) cs with
      | Some _ => Some []
      | None => m !! k
      end.
Proof.
  induction cs as [| e cs IH]; intros m; [reflexivity |].
  cbn [fold_left List.find]. rewrite IH.
  destruct (String.eqb_spec (EventClass.id e) k) as [E | E].
  - subst k. rewrite lookup_insert_eq. now destruct (List.find _ cs).
  - now rewrite lookup_insert_ne.
Qed.

Lemma collect_lookup (cs : list EventClass.t) (docs : list ProcessedDoc.t)
    (k : string) :
  NoDup (map EventClass.id cs) ->
  forall st : match_state,
    fst (fold_left (fun st doc => fold_left (match_class doc) cs st) docs st) !! k
    = match List.find (fun c => String.eqb (EventClass.id c) k) cs with
      | Some c =>
          match omap (doc_match c) docs with
          | [] => fst st !! k
          | matches => Some (default [] (fst st !! k) ++ matches)
          end
      | None => fst st !! k
      end.
Proof.
  intros Hnd.
  induction docs as [| doc docs IH]; intros st.
  - now destruct (List.find _ cs).
  - cbn [fold_left]. rewrite IH.
    rewrite match_doc_lookup by exact Hnd.
    destruct (List.find _ cs) as [c |]; [| reflexivity].
    change (omap (doc_match c) (doc :: docs))
      with (match doc_match c doc with
            | Some m => m :: omap (doc_match c) docs
            | None => omap (doc_match c) docs
            end).
    destruct (doc_match c doc) as [m |]; [| reflexivity].
    destruct (omap (doc_match c) docs) as [| m' ms].
    + reflexivity.
    + cbn [default from_option id]. now rewrite <- app_assoc.
Qed.

(** [classMatches] after the loop: for each class, the entries of the
    documents that match a pattern of the class, in the order of the
    documents. *)
Lemma classMatches_lookup (docs : list ProcessedDoc.t) (k : string) :
  fst (collect_matches docs) !! k
  = (fun c => omap (doc_match c) docs) <$> event_class k.
Proof.
  unfold collect_matches, match_doc, initial_matches, event_class.
  generalize event_class_ids. generalize EVENT_CLASSES. intros cs Hnd.
  rewrite (collect_lookup cs docs k Hnd). cbn [fst].
  rewrite initial_lookup, lookup_empty.
  destruct (List.find _ cs) as [c |]; [| reflexivity].
  cbn [fmap option_fmap option_map default from_option id].
  now destruct (omap (doc_match c) docs).
Qed.

Lemma matches_of_collect (docs : list ProcessedDoc.t) (c : EventClass.t) :
  c ∈ EVENT_CLASSES ->
  matches_of (fst (collect_matches docs)) (EventClass.id c)
  = omap (doc_match c) docs.
Proof.
  intros Hc. unfold matches_of.
  now rewrite classMatches_lookup, event_class_member.
Qed.

Lemma two_sources (sources : list SourceType) :
  (2 <= length (remove_dups sources))%nat
  <-> exists a b, a ∈ sources /\ b ∈ sources /\ a <> b.
Proof.
  pose proof (NoDup_remove_dups sources) as Hnd.
  split.
  - destruct (remove_dups sources) as [| a [| b rest]] eqn:E;
      cbn [length]; [lia | lia | intros _].
    exists a, b. rewrite <- !(elem_of_remove_dups sources), E.
    split; [left | split; [right; left |]].
    apply NoDup_cons in Hnd as [Hne _]. intros ->. apply Hne. left.
  - intros (a & b & Ha & Hb & Hab).
    rewrite <- (elem_of_remove_dups sources) in Ha, Hb.
    destruct (remove_dups sources) as [| x [| y rest]]; cbn [length]; [| | lia].
    + inversion Ha.
    + apply list_elem_of_singleton in Ha, Hb. congruence.
Qed.

Lemma accountingConfirmed_spec (classMatches : gmap string (list DocMatch.t))
    (classId : string) (matches : list DocMatch.t) :
  classMatches !! classId = Some matches ->
  accountingConfirmed classMatches classId = true
  <-> (exists m, m ∈ matches /\ DocMatch.strongMatches m <> []
                 /\ ProcessedDoc.source_type (DocMatch.doc m) = SEC_FILING)
      \/ (exists m1 m2,
            m1 ∈ matches /\ m2 ∈ matches
            /\ DocMatch.strongMatches m1 <> [] /\ DocMatch.strongMatches m2 <> []
            /\ ProcessedDoc.source_type (DocMatch.doc m1)
               <> ProcessedDoc.source_type (DocMatch.doc m2)).
Proof.
  intros Hlookup. unfold accountingConfirmed. rewrite Hlookup.
  assert (Hstrong : forall m,
            m ∈ List.filter has_strong matches
            <-> m ∈ matches /\ DocMatch.strongMatches m <> []).
  { intros m. rewrite !list_elem_of_In, filter_In. unfold has_strong.
    rewrite bool_decide_eq_true.
    destruct (DocMatch.strongMatches m); cbn [length];
      split; intros [H1 H2]; split; try assumption; try lia; congruence. }
  set (strongDocs := List.filter has_strong matches) in *.
  assert (Hsec : existsb
            (fun m => bool_decide
               (ProcessedDoc.source_type (DocMatch.doc m) = SEC_FILING))
            strongDocs = true
          <-> exists m, m ∈ matches /\ DocMatch.strongMatches m <> []
                        /\ ProcessedDoc.source_type (DocMatch.doc m) = SEC_FILING).
  { rewrite existsb_exists. split.
    - intros (m & Hin & Hsrc). apply list_elem_of_In, Hstrong in Hin as [Hin Hs].
      apply bool_decide_eq_true in Hsrc. eauto.
    - intros (m & Hin & Hs & Hsrc). exists m.
      split; [now apply list_elem_of_In, Hstrong |].
      now apply bool_decide_eq_true. }
  assert (Htwo : (2 <= distinct_sources strongDocs)%nat
          <-> exists m1 m2,
                m1 ∈ matches /\ m2 ∈ matches
                /\ DocMatch.strongMatches m1 <> []
                /\ DocMatch.strongMatches m2 <> []
                /\ ProcessedDoc.source_type (DocMatch.doc m1)
                   <> ProcessedDoc.source_type (DocMatch.doc m2)).
  { unfold distinct_sources. rewrite two_sources. split.
    - intros (a & b & Ha & Hb & Hab).
      apply list_elem_of_In, in_map_iff in Ha as (m1 & <- & H1).
      apply list_elem_of_In, in_map_iff in Hb as (m2 & <- & H2).
      apply list_elem_of_In, Hstrong in H1 as [H1 S1].
      apply list_elem_of_In, Hstrong in H2 as [H2 S2].
      exists m1, m2. auto.
    - intros (m1 & m2 & H1 & H2 & S1 & S2 & Hne).
      exists (ProcessedDoc.source_type (DocMatch.doc m1)),
             (ProcessedDoc.source_type (DocMatch.doc m2)).
      split; [| split; [| exact Hne]]; apply list_elem_of_In;
        [apply (in_map (fun m => ProcessedDoc.source_type (DocMatch.doc m))
                       _ m1)
        | apply (in_map (fun m => ProcessedDoc.source_type (DocMatch.doc m))
                        _ m2)];
        apply list_elem_of_In, Hstrong; auto. }
  assert (Hnone : strongDocs = [] ->
            ~ ((exists m, m ∈ matches /\ DocMatch.strongMatches m <> []
                          /\ ProcessedDoc.source_type (DocMatch.doc m) = SEC_FILING)
               \/ (exists m1 m2,
                     m1 ∈ matches /\ m2 ∈ matches
                     /\ DocMatch.strongMatches m1 <> []
                     /\ DocMatch.strongMatches m2 <> []
                     /\ ProcessedDoc.source_type (DocMatch.doc m1)
                        <> ProcessedDoc.source_type (DocMatch.doc m2)))).
  { intros Hnil [(m & Hin & Hs & _) | (m & _ & Hin & _ & Hs & _)];
      assert (Hm : m ∈ strongDocs) by (apply Hstrong; auto);
      rewrite Hnil in Hm; inversion Hm. }
  destruct matches as [| m0 ms].
  - split; [discriminate | intros H; now apply Hnone in H].
  - destruct (decide (length strongDocs = 0%nat)) as [Hlen | Hlen].
    + split; [discriminate |]. intros H. apply Hnone in H; [easy |].
      now destruct strongDocs.
    + destruct (existsb _ strongDocs) eqn:Esec.
      * split; [intros _; left; now apply Hsec | reflexivity].
      * rewrite bool_decide_eq_true, Htwo. split; [now right |].
        intros [H | H]; [| exact H]. apply Hsec in H. congruence.
Qed.

Lemma computeClassScore_tiers (matches : list DocMatch.t) (pts : Points.t)
    (cap : number) (downgrade : bool) :
  computeClassScore matches pts cap downgrade
  = JS.min
      (fold_left
         (fun raw m =>
            let weight := ProcessedDoc.weight (DocMatch.doc m) in
            let raw :=
              match DocMatch.strongMatches m with
              | [] => raw
              | _ :: _ =>
                  JS.add raw
                    (JS.mul weight
                       (if downgrade then Points.weak pts else Points.strong pts))
              end in
            match DocMatch.weakMatches m with
            | [] => raw
            | _ :: _ =>
                JS.add raw
                  (JS.mul (JS.mul weight
                             (JS.of_nat (length (DocMatch.weakMatches m))))
                          (Points.weak pts))
            end)
         matches (Num 0))
      cap.
Proof.
  unfold computeClassScore. f_equal. generalize (Num 0).
  induction matches as [| m ms IH]; intros raw; [reflexivity |].
  cbn [fold_left]. rewrite <- IH. f_equal.
  destruct (DocMatch.strongMatches m), (DocMatch.weakMatches m); reflexivity.
Qed.

Lemma class_scores_entry (params : NarrativeShockParams.t)
    (classMatches : gmap string (list DocMatch.t))
    (points : EventClass.t -> Points.t) (c : EventClass.t) (v : number) :
  c ∈ EVENT_CLASSES ->
  (EventClass.id c, v) ∈ class_scores params classMatches points
  <-> v = computeClassScore (matches_of classMatches (EventClass.id c))
            (points c) (classCap params c)
            (downgradeStrong params classMatches c).
Proof.
  intros Hc. unfold class_scores. rewrite list_elem_of_In, in_map_iff. split.
  - intros (e & [= Hid <-] & He). apply list_elem_of_In in He.
    now rewrite (event_class_unique c e Hc He Hid).
  - intros ->. exists c. split; [reflexivity | now apply list_elem_of_In].
Qed.

(** *** The same text in an SEC filing *)

Lemma min_Num_le (a b c : Q) :
  a <= b ->
  exists u v,
    JS.min (Num a) (Num c) = Num u /\ JS.min (Num b) (Num c) = Num v /\ u <= v.
Proof.
  intros H. unfold JS.min.
  destruct (JS.lt (Num c) (Num a)) eqn:Ea, (JS.lt (Num c) (Num b)) eqn:Eb;
    rewrite ?lt_Num, ?lt_Num_false in *;
    do 2 eexists; (split; [reflexivity | split; [reflexivity | lra]]).
Qed.

Lemma clamp_Num_le (a b : Q) :
  a <= b ->
  exists u v,
    clamp (Num a) (Num 0) (Num 100) = Num u
    /\ clamp (Num b) (Num 0) (Num 100) = Num v /\ u <= v.
Proof.
  intros H. unfold clamp, JS.max, JS.min.
  destruct (JS.lt (Num a) (Num 100)) eqn:Ea, (JS.lt (Num b) (Num 100)) eqn:Eb;
    rewrite ?lt_Num, ?lt_Num_false in *;
    repeat match goal with
      | |- context [JS.lt (Num ?x) (Num ?y)] =>
          let E := fresh "E" in
          destruct (JS.lt (Num x) (Num y)) eqn:E;
          rewrite ?lt_Num, ?lt_Num_false in E
      end;
    do 2 eexists; (split; [reflexivity | split; [reflexivity | lra]]).
Qed.

Lemma round_Num_le (a b : Q) :
  a <= b -> JS.le (JS.round (Num a)) (JS.round (Num b)) = true.
Proof.
  intros H. cbn [JS.round]. apply le_Num. rewrite <- Zle_Qle.
  apply Qfloor_resp_le. lra.
Qed.

Lemma sound_points_spec (c : EventClass.t) :
  sound_points c = true ->
  exists s w s' w' cap,
    EventClass.severity c = Points.mk (Num s) (Num w)
    /\ EventClass.structural c = Points.mk (Num s') (Num w')
    /\ EventClass.cap c = Num cap
    /\ 0 <= w /\ w <= s /\ 0 <= w' /\ w' <= s'.
Proof.
  unfold sound_points.
  destruct (EventClass.severity c) as [[s | | |] [w | | |]]; try discriminate;
    destruct (EventClass.structural c) as [[s' | | |] [w' | | |]];
    try discriminate;
    destruct (EventClass.cap c) as [cap | | |]; try discriminate.
  rewrite !andb_true_iff, !Qle_bool_iff. intros [[[H1 H2] H3] H4].
  exists s, w, s', w', cap. auto 10.
Qed.

Lemma doc_match_filed (c : EventClass.t) (doc filed : ProcessedDoc.t) :
  ProcessedDoc.text filed = ProcessedDoc.text doc ->
  doc_match c filed
  = (fun m => DocMatch.mk filed (DocMatch.strongMatches m) (DocMatch.weakMatches m))
      <$> doc_match c doc.
Proof.
  intros H. unfold doc_match. rewrite H.
  destruct (map patternLabel (List.filter _ (EventClass.strong c))),
           (map patternLabel (List.filter _ (EventClass.weak c))); reflexivity.
Qed.

Lemma doc_match_doc (c : EventClass.t) (doc : ProcessedDoc.t) (m : DocMatch.t) :
  doc_match c doc = Some m -> DocMatch.doc m = doc.
Proof.
  unfold doc_match.
  destruct (map patternLabel (List.filter _ (EventClass.strong c))),
           (map patternLabel (List.filter _ (EventClass.weak c)));
    intros [= <-]; reflexivity.
Qed.

Lemma omap_cons_match (c : EventClass.t) (doc : ProcessedDoc.t)
    (docs : list ProcessedDoc.t) :
  omap (doc_match c) (doc :: docs)
  = match doc_match c doc with
    | Some m => m :: omap (doc_match c) docs
    | None => omap (doc_match c) docs
    end.
Proof. reflexivity. Qed.

Lemma class_raw_le (c : EventClass.t) (s w : Q) (dn df : bool)
    (docs filed : list ProcessedDoc.t) :
  0 <= w -> w <= s ->
  Forall2 filed_copy docs filed ->
  (df = true ->
   Forall (fun m => DocMatch.strongMatches m = []) (omap (doc_match c) filed)) ->
  forall a b : Q,
    a <= b ->
    exists u v,
      fold_left
        (fun raw m =>
           let weight := ProcessedDoc.weight (DocMatch.doc m) in
           let raw :=
             match DocMatch.strongMatches m with
             | [] => raw
             | _ :: _ => JS.add raw (JS.mul weight (if dn then Num w else Num s))
             end in
           match DocMatch.weakMatches m with
           | [] => raw
           | _ :: _ =>
               JS.add raw
                 (JS.mul (JS.mul weight
                            (JS.of_nat (length (DocMatch.weakMatches m))))
                         (Num w))
           end)
        (omap (doc_match c) docs) (Num a) = Num u
      /\ fold_left
           (fun raw m =>
              let weight := ProcessedDoc.weight (DocMatch.doc m) in
              let raw :=
                match DocMatch.strongMatches m with
                | [] => raw
                | _ :: _ => JS.add raw (JS.mul weight (if df then Num w else Num s))
                end in
              match DocMatch.weakMatches m with
              | [] => raw
              | _ :: _ =>
                  JS.add raw
                    (JS.mul (JS.mul weight
                               (JS.of_nat (length (DocMatch.weakMatches m))))
                            (Num w))
              end)
           (omap (doc_match c) filed) (Num b) = Num v
      /\ u <= v.
Proof.
  intros Hw Hs Hcopy. induction Hcopy as [| d f docs filed Hdf Hrest IH];
    intros Hdown a b Hab.
  - exists a, b. auto.
  - destruct Hdf as (Htext & _ & x & y & Hx & Hy & Hx0 & Hxy).
    rewrite !omap_cons_match in *. rewrite (doc_match_filed c d f Htext) in *.
    destruct (doc_match c d) as [m |] eqn:Em;
      cbn [fmap option_fmap option_map] in *; [| now apply IH].
    apply doc_match_doc in Em.
    cbn [fold_left DocMatch.doc DocMatch.strongMatches DocMatch.weakMatches].
    cbv zeta. rewrite Em, Hx, Hy.
    assert (Htail : df = true ->
              Forall (fun m => DocMatch.strongMatches m = [])
                     (omap (doc_match c) filed)).
    { intros E. specialize (Hdown E). now apply Forall_cons in Hdown as [_ H]. }
    assert (Hhead : df = true -> DocMatch.strongMatches m = []).
    { intros E. specialize (Hdown E). now apply Forall_cons in Hdown as [H _]. }
    assert (Hk : 0 <= inject_Z (Z.of_nat (length (DocMatch.weakMatches m)))).
    { change 0 with (inject_Z 0). rewrite <- Zle_Qle. lia. }
    assert (Hkw : x * inject_Z (Z.of_nat (length (DocMatch.weakMatches m))) * w
                  <= y * inject_Z (Z.of_nat (length (DocMatch.weakMatches m))) * w).
    { apply Qmult_le_compat_r; [| exact Hw].
      apply Qmult_le_compat_r; [exact Hxy | exact Hk]. }
    assert (Hxs : x * (if dn then w else s) <= y * s).
    { apply Qle_trans with (y * (if dn then w else s)).
      - apply Qmult_le_compat_r; [exact Hxy | destruct dn; lra].
      - rewrite !(Qmult_comm y). apply Qmult_le_compat_r; [destruct dn; lra | lra]. }
    assert (Hn : JS.mul (Num x) (if dn then Num w else Num s)
                 = Num (x * (if dn then w else s))) by now destruct dn.
    assert (Hf : DocMatch.strongMatches m <> [] ->
                 JS.mul (Num y) (if df then Num w else Num s) = Num (y * s)).
    { intros Hne. destruct df; [| reflexivity]. now specialize (Hhead eq_refl). }
    unfold JS.of_nat.
    generalize dependent (inject_Z (Z.of_nat (length (DocMatch.weakMatches m)))).
    intros k Hk Hkw.
    destruct (DocMatch.strongMatches m) as [| s0 ss];
      [| rewrite Hn, Hf by discriminate];
      destruct (DocMatch.weakMatches m) as [| w0 ws];
      cbn [JS.add JS.mul]; (apply IH; [exact Htail | lra]).
Qed.

Lemma class_score_le (c : EventClass.t) (s w cap : Q) (dn df : bool)
    (docs filed : list ProcessedDoc.t) :
  0 <= w -> w <= s ->
  Forall2 filed_copy docs filed ->
  (df = true ->
   Forall (fun m => DocMatch.strongMatches m = []) (omap (doc_match c) filed)) ->
  exists u v,
    computeClassScore (omap (doc_match c) docs) (Points.mk (Num s) (Num w))
      (Num cap) dn = Num u
    /\ computeClassScore (omap (doc_match c) filed) (Points.mk (Num s) (Num w))
         (Num cap) df = Num v
    /\ u <= v.
Proof.
  intros Hw Hs Hcopy Hdown.
  destruct (class_raw_le c s w dn df docs filed Hw Hs Hcopy Hdown 0 0)
    as (u & v & Hu & Hv & Huv); [lra |].
  destruct (min_Num_le u v cap Huv) as (u' & v' & Hu' & Hv' & Hle).
  exists u', v'. split; [| split; [| exact Hle]].
  - rewrite <- Hu', <- Hu. apply computeClassScore_tiers.
  - rewrite <- Hv', <- Hv. apply computeClassScore_tiers.
Qed.

Lemma sum_scores_le (cs : list EventClass.t)
    (f g : EventClass.t -> string * number) :
  (forall c, c ∈ cs ->
     exists u v, snd (f c) = Num u /\ snd (g c) = Num v /\ u <= v) ->
  exists a b,
    sum_scores (map f cs) = Num a /\ sum_scores (map g cs) = Num b /\ a <= b.
Proof.
  unfold sum_scores. assert (H0 : 0 <= 0) by lra. revert H0.
  generalize 0 at 1 3. generalize 0.
  induction cs as [| c cs IH]; intros a b Hab Hle.
  - exists b, a. auto.
  - cbn [map fold_left].
    destruct (Hle c) as (u & v & -> & -> & Huv); [left |].
    cbn [JS.add]. apply IH; [lra |].
    intros e He. apply Hle. now right.
Qed.

Lemma escalate_le (rules : list (bool * number)) :
  Forall (fun rule => exists q, snd rule = Num q) rules ->
  forall a b : Q,
    a <= b ->
    exists u v,
      escalate (Num a) rules = Num u /\ escalate (Num b) rules = Num v /\ u <= v.
Proof.
  unfold escalate. induction 1 as [| [flag pts] rules [q Hq] _ IH]; intros a b Hab.
  - exists a, b. auto.
  - cbn [fold_left fst snd] in *. subst pts.
    destruct flag; cbn [JS.add]; apply IH; lra.
Qed.

Lemma strong_labels_filed (c : EventClass.t) (docs filed : list ProcessedDoc.t) :
  Forall2 filed_copy docs filed ->
  map DocMatch.strongMatches (omap (doc_match c) filed)
  = map DocMatch.strongMatches (omap (doc_match c) docs).
Proof.
  induction 1 as [| d f docs filed (Htext & _) _ IH]; [reflexivity |].
  rewrite !omap_cons_match, (doc_match_filed c d f Htext).
  destruct (doc_match c d) as [m |]; cbn [fmap option_fmap option_map];
    [| exact IH].
  cbn [map DocMatch.strongMatches]. now rewrite IH.
Qed.

Lemma has_strong_labels (l l' : list DocMatch.t) :
  map DocMatch.strongMatches l = map DocMatch.strongMatches l' ->
  existsb has_strong l = existsb has_strong l'
  /\ length (List.filter has_strong l) = length (List.filter has_strong l').
Proof.
  revert l'. induction l as [| m l IH]; intros [| m' l']; try discriminate.
  - auto.
  - cbn [map]. intros [= Hm Hl]. destruct (IH l' Hl) as [IH1 IH2].
    assert (Hh : has_strong m = has_strong m')
      by (unfold has_strong; now rewrite Hm).
    cbn [existsb List.filter]. rewrite Hh, IH1. split; [reflexivity |].
    destruct (has_strong m'); cbn [length]; now rewrite IH2.
Qed.

Lemma escalations_filed (docs filed : list ProcessedDoc.t) (text : string) :
  Forall2 filed_copy docs filed ->
  escalations (fst (collect_matches filed)) text
  = escalations (fst (collect_matches docs)) text.
Proof.
  intros Hcopy.
  assert (H : forall k,
            existsb has_strong (matches_of (fst (collect_matches filed)) k)
            = existsb has_strong (matches_of (fst (collect_matches docs)) k)
            /\ length (List.filter has_strong
                         (matches_of (fst (collect_matches filed)) k))
               = length (List.filter has_strong
                           (matches_of (fst (collect_matches docs)) k))).
  { intros k. apply has_strong_labels. unfold matches_of.
    rewrite !classMatches_lookup.
    destruct (event_class k) as [c |]; [| reflexivity].
    cbn [fmap option_fmap option_map default from_option id].
    now apply strong_labels_filed. }
  generalize dependent (fst (collect_matches filed)).
  generalize (fst (collect_matches docs)).
  intros cmd cmf H. unfold escalations, classHasStrong.
  now rewrite !(proj1 (H _)), (proj2 (H _)).
Qed.

Lemma escalations_points (classMatches : gmap string (list DocMatch.t))
    (text : string) :
  Forall (fun rule : bool * number => exists q, snd rule = Num q)
         (escalations classMatches text).
Proof. unfold escalations. repeat constructor; eexists; reflexivity. Qed.

Lemma filed_not_downgraded (params : NarrativeShockParams.t)
    (filed : list ProcessedDoc.t) (c : EventClass.t) :
  c ∈ EVENT_CLASSES ->
  Forall (fun d => ProcessedDoc.source_type d = SEC_FILING) filed ->
  downgradeStrong params (fst (collect_matches filed)) c = true ->
  Forall (fun m => DocMatch.strongMatches m = []) (omap (doc_match c) filed).
Proof.
  intros Hc Hsec Hdown. unfold downgradeStrong in Hdown.
  destruct (needsConfirm params c); [| discriminate].
  cbn [andb] in Hdown. apply negb_true_iff in Hdown.
  apply Forall_forall. intros m Hm.
  destruct (DocMatch.strongMatches m) as [| s0 ss] eqn:E; [reflexivity |].
  exfalso.
  assert (Hconf : accountingConfirmed (fst (collect_matches filed))
                    (EventClass.id c) = true); [| congruence].
  apply (accountingConfirmed_spec _ _ (omap (doc_match c) filed)).
  { now rewrite classMatches_lookup, event_class_member. }
  left. exists m. split; [exact Hm |]. split; [congruence |].
  apply list_elem_of_omap in Hm as (d & Hd & Hdm).
  rewrite (doc_match_doc _ _ _ Hdm). rewrite Forall_forall in Hsec. auto.
Qed.

(** The sum of the class scores of a corpus is not above that of the corpus
    with every document in an SEC filing. *)
Lemma filed_scores_le (params : NarrativeShockParams.t)
    (points : EventClass.t -> Points.t) (docs filed : list ProcessedDoc.t) :
  NarrativeShockParams.max_points_per_event_class params = None ->
  (forall c, c ∈ EVENT_CLASSES ->
     exists s w, points c = Points.mk (Num s) (Num w) /\ 0 <= w /\ w <= s) ->
  Forall2 filed_copy docs filed ->
  exists a b,
    sum_scores (class_scores params (fst (collect_matches docs)) points) = Num a
    /\ sum_scores (class_scores params (fst (collect_matches filed)) points) = Num b
    /\ a <= b.
Proof.
  intros Hmax Hpoints Hcopy. unfold class_scores.
  generalize (fun c => matches_of_collect docs c),
             (fun c => matches_of_collect filed c),
             (fun c => filed_not_downgraded params filed c),
             event_classes_sound, Hpoints.
  generalize EVENT_CLASSES. intros cs Hdocs Hfiled Hdown Hsound Hpts.
  apply sum_scores_le. intros c Hc. cbn [snd].
  rewrite Hdocs, Hfiled by exact Hc.
  destruct (Hpts c Hc) as (s & w & -> & Hw & Hs).
  destruct (sound_points_spec c (Hsound c Hc))
    as (_ & _ & _ & _ & cap & _ & _ & Hcap & _).
  unfold classCap. rewrite Hmax, Hcap. cbn [truthy].
  apply class_score_le; [exact Hw | exact Hs | exact Hcopy |].
  intros E. apply Hdown; [exact Hc | | exact E].
  clear -Hcopy. induction Hcopy as [| d f docs filed (_ & Hsrc & _) _ IH];
    constructor; auto.
Qed.

Lemma narrative_locals_scores `{P : Platform} (docs : list NarrativeDoc.t)
    (options : NarrativeShockParams.options) :
  let l := narrative_locals docs options in
  let params :=
    NarrativeShockParams.merge DEFAULT_PARAMS
      (NarrativeShockParams.overrides options) in
  let processed :=
    buildProcessedDocs docs params (NarrativeLocals.windowStart l)
      (NarrativeLocals.windowEnd l) in
  let classMatches := fst (collect_matches processed) in
  NarrativeLocals.params l = params
  /\ NarrativeLocals.processedDocs l = processed
  /\ NarrativeLocals.classMatches l = classMatches
  /\ NarrativeLocals.classScores l
     = class_scores params classMatches EventClass.severity
  /\ NarrativeLocals.structuralScores l
     = class_scores params classMatches EventClass.structural
  /\ NarrativeLocals.severity l
     = clamp (sum_scores (class_scores params classMatches EventClass.severity))
             (Num 0) (Num 100)
  /\ NarrativeLocals.structuralRisk l
     = clamp
         (escalate
            (sum_scores (class_scores params classMatches EventClass.structural))
            (escalations classMatches
               (String.concat " " (map ProcessedDoc.text processed))))
         (Num 0) (Num 100).
Proof. repeat split; reflexivity. Qed.

Lemma narrative_locals_window `{P : Platform} (docs docs' : list NarrativeDoc.t)
    (options : NarrativeShockParams.options) :
  NarrativeLocals.windowStart (narrative_locals docs' options)
  = NarrativeLocals.windowStart (narrative_locals docs options)
  /\ NarrativeLocals.windowEnd (narrative_locals docs' options)
     = NarrativeLocals.windowEnd (narrative_locals docs options).
Proof. split; reflexivity. Qed.

Lemma classify_scores `{P : Platform} (docs : list NarrativeDoc.t)
    (options : NarrativeShockParams.options) (r : NarrativeShockResult.t) :
  classifyNarrativeShock docs options = Return r ->
  NarrativeShockResult.severity_0_100 r
  = JS.round (NarrativeLocals.severity (narrative_locals docs options))
  /\ NarrativeShockResult.structural_risk_0_100 r
     = JS.round (NarrativeLocals.structuralRisk (narrative_locals docs options)).
Proof.
  unfold classifyNarrativeShock. cbv zeta.
  destruct (NarrativeLocals.windowStart (narrative_locals docs options));
    [| discriminate].
  destruct (NarrativeLocals.windowEnd (narrative_locals docs options));
    [| discriminate].
  intros H. split.
  - change (NarrativeShockResult.severity_0_100 r)
      with (match Return r with
            | Return r => NarrativeShockResult.severity_0_100 r
            | Throw _ => NaN
            end).
    now rewrite <- H.
  - change (NarrativeShockResult.structural_risk_0_100 r)
      with (match Return r with
            | Return r => NarrativeShockResult.structural_risk_0_100 r
            | Throw _ => NaN
            end).
    now rewrite <- H.
Qed.

Lemma classify_returns_any `{P : Platform} (docs docs' : list NarrativeDoc.t)
    (options : NarrativeShockParams.options) (r : NarrativeShockResult.t) :
  classifyNarrativeShock docs options = Return r ->
  exists r', classifyNarrativeShock docs' options = Return r'.
Proof.
  unfold classifyNarrativeShock. cbv zeta.
  destruct (narrative_locals_window docs docs' options) as [-> ->].
  destruct (NarrativeLocals.windowStart (narrative_locals docs options));
    [| discriminate].
  destruct (NarrativeLocals.windowEnd (narrative_locals docs options));
    [| discriminate].
  intros _. eexists. reflexivity.
Qed.

Lemma processedDocs_filed `{P : Platform} (doc : NarrativeDoc.t)
    (params : NarrativeShockParams.t) (windowStart windowEnd : option Date) :
  let published_by source :=
    NarrativeDoc.mk source (NarrativeDoc.title doc) (NarrativeDoc.body doc)
      (NarrativeDoc.published_at doc) (NarrativeDoc.form_type doc)
      (NarrativeDoc.filing_item doc) (NarrativeDoc.url doc) (NarrativeDoc.id doc) in
  NarrativeShockParams.source_weights params = default_source_weights ->
  (forall d,
     d ∈ buildProcessedDocs [published_by SEC_FILING] params windowStart windowEnd ->
     exists w, ProcessedDoc.weight d = Num w /\ 0 <= w) ->
  Forall2 filed_copy
    (buildProcessedDocs [published_by NEWS] params windowStart windowEnd)
    (buildProcessedDocs [published_by SEC_FILING] params windowStart windowEnd).
Proof.
  intros published_by Hweights. unfold buildProcessedDocs, getDocWeight.
  rewrite Hweights. subst published_by.
  cbn [List.filter NarrativeDoc.published_at NarrativeDoc.source_type
       NarrativeDoc.title NarrativeDoc.body default_source_weights default
       from_option id].
  destruct (_ && _); cbn [map]; intros Hw; [| constructor].
  destruct (Hw _ (list_elem_of_here _ _)) as (w & Hweight & H0).
  cbn [ProcessedDoc.weight] in Hweight.
  constructor; [| constructor].
  unfold filed_copy.
  cbn [ProcessedDoc.text ProcessedDoc.source_type ProcessedDoc.weight].
  split; [reflexivity |]. split; [reflexivity |].
  destruct (Math_exp _) as [e | | |]; try discriminate.
  injection Hweight as <-. exists (0.5 * e), (1.0 * e).
  split; [reflexivity |]. split; [reflexivity |]. lra.
Qed.

(** C4: with [require_confirmation_for_accounting] enabled, the matches of the
    classes [ACCOUNTING_RESTATEMENT] and [FRAUD_OR_INTERNAL_CONTROL] are the
    entries of the documents of the window that match a pattern of the class,
    and the class is corroborated when an entry with a strong match is from an
    [SEC_FILING], or two entries with a strong match are from different source
    types. The severity and the structural score of a corroborated class add,
    for each entry with a strong match, its weight times the strong-tier
    points; those of a class that is not corroborated add its weight times the
    weak-tier points instead. With the default parameters a single document
    scores a severity and a structural risk that are not above those of the
    same document in an SEC filing, when the weight of the latter is a number
    that is not negative. The restatement notice published by a single [NEWS]
    source has a severity of 5 and a structural risk of 40, against 35 and 70
    for the same notice in an SEC filing. *)
Theorem confirmation_gate :
  (forall (P : Platform) (docs : list NarrativeDoc.t)
          (options : NarrativeShockParams.options) (c : EventClass.t),
     c ∈ EVENT_CLASSES ->
     EventClass.id c = ACCOUNTING_RESTATEMENT
     \/ EventClass.id c = FRAUD_OR_INTERNAL_CONTROL ->
     let l := narrative_locals docs options in
     let params := NarrativeLocals.params l in
     NarrativeShockParams.require_confirmation_for_accounting params = true ->
     let matches := omap (doc_match c) (NarrativeLocals.processedDocs l) in
     let source m := ProcessedDoc.source_type (DocMatch.doc m) in
     let strong m := DocMatch.strongMatches m <> [] in
     let corroborated :=
       (exists m, m ∈ matches /\ strong m /\ source m = SEC_FILING)
       \/ (exists m1 m2,
             m1 ∈ matches /\ m2 ∈ matches /\ strong m1 /\ strong m2
             /\ source m1 <> source m2) in
     let cap :=
       match NarrativeShockParams.max_points_per_event_class params with
       | Some limit =>
           if JS.truthy limit then JS.min (EventClass.cap c) limit
           else EventClass.cap c
       | None => EventClass.cap c
       end in
     let scored (pts : Points.t) (tier : number) :=
       JS.min
         (fold_left
            (fun raw m =>
               let weight := ProcessedDoc.weight (DocMatch.doc m) in
               let raw :=
                 match DocMatch.strongMatches m with
                 | [] => raw
                 | _ :: _ => JS.add raw (JS.mul weight tier)
                 end in
               match DocMatch.weakMatches m with
               | [] => raw
               | _ :: _ =>
                   JS.add raw
                     (JS.mul (JS.mul weight
                                (JS.of_nat (length (DocMatch.weakMatches m))))
                             (Points.weak pts))
               end)
            matches (Num 0))
         cap in
     NarrativeLocals.classMatches l !! EventClass.id c = Some matches
     /\ (corroborated ->
         (forall v,
            (EventClass.id c, v) ∈ NarrativeLocals.classScores l
            <-> v = scored (EventClass.severity c)
                      (Points.strong (EventClass.severity c)))
         /\ (forall v,
               (EventClass.id c, v) ∈ NarrativeLocals.structuralScores l
               <-> v = scored (EventClass.structural c)
                         (Points.strong (EventClass.structural c))))
     /\ (~ corroborated ->
         (forall v,
            (EventClass.id c, v) ∈ NarrativeLocals.classScores l
            <-> v = scored (EventClass.severity c)
                      (Points.weak (EventClass.severity c)))
         /\ (forall v,
               (EventClass.id c, v) ∈ NarrativeLocals.structuralScores l
               <-> v = scored (EventClass.structural c)
                         (Points.weak (EventClass.structural c)))))
  /\ (forall (P : Platform) (doc : NarrativeDoc.t)
             (options : NarrativeShockParams.options)
             (sec : NarrativeShockResult.t),
        let published_by source :=
          NarrativeDoc.mk source (NarrativeDoc.title doc) (NarrativeDoc.body doc)
            (NarrativeDoc.published_at doc) (NarrativeDoc.form_type doc)
            (NarrativeDoc.filing_item doc) (NarrativeDoc.url doc)
            (NarrativeDoc.id doc) in
        NarrativeShockParams.overrides options = NarrativeShockParams.no_override ->
        (forall d,
           d ∈ NarrativeLocals.processedDocs
                 (narrative_locals [published_by SEC_FILING] options) ->
           exists w, ProcessedDoc.weight d = Num w /\ 0 <= w) ->
        classifyNarrativeShock [published_by SEC_FILING] options = Return sec ->
        exists news,
          classifyNarrativeShock [published_by NEWS] options = Return news
          /\ JS.le (NarrativeShockResult.severity_0_100 news)
                   (NarrativeShockResult.severity_0_100 sec) = true
          /\ JS.le (NarrativeShockResult.structural_risk_0_100 news)
                   (NarrativeShockResult.structural_risk_0_100 sec) = true)
  /\ (exists news sec,
        classifyNarrativeShock (P := Sample.platform)
          [Examples.restatement_doc NEWS] Examples.window_2024_05_01
        = Return news
        /\ classifyNarrativeShock (P := Sample.platform)
             [Examples.restatement_doc SEC_FILING] Examples.window_2024_05_01
           = Return sec
        /\ NarrativeShockResult.severity_0_100 news = Num 5
        /\ NarrativeShockResult.severity_0_100 sec = Num 35
        /\ NarrativeShockResult.structural_risk_0_100 news = Num 40
        /\ NarrativeShockResult.structural_risk_0_100 sec = Num 70
        /\ JS.lt (NarrativeShockResult.severity_0_100 news)
                 (NarrativeShockResult.severity_0_100 sec) = true
        /\ JS.lt (NarrativeShockResult.structural_risk_0_100 news)
                 (NarrativeShockResult.structural_risk_0_100 sec) = true).
Proof.
  split; [| split].
  - intros P docs options c Hc Hid l params Hreq matches source strong
           corroborated cap scored.
    destruct (narrative_locals_scores docs options)
      as (_ & _ & Hcm & Hsev & Hstr & _).
    fold l in Hcm, Hsev, Hstr.
    assert (Hlookup : NarrativeLocals.classMatches l !! EventClass.id c
                      = Some matches).
    { rewrite Hcm at 1. rewrite classMatches_lookup, event_class_member by exact Hc.
      reflexivity. }
    assert (Hneeds : needsConfirm params c = true).
    { unfold needsConfirm. rewrite Hreq. now destruct Hid as [-> | ->]. }
    assert (Hdown : downgradeStrong params (NarrativeLocals.classMatches l) c
                    = negb (accountingConfirmed (NarrativeLocals.classMatches l)
                              (EventClass.id c))).
    { unfold downgradeStrong. now rewrite Hneeds. }
    pose proof (accountingConfirmed_spec _ _ _ Hlookup) as Hconf.
    fold corroborated in Hconf.
    assert (Hcap : classCap params c = cap).
    { unfold classCap. subst cap.
      now destruct (NarrativeShockParams.max_points_per_event_class params). }
    assert (Hentry : forall (points : EventClass.t -> Points.t) v,
              (EventClass.id c, v)
                ∈ class_scores params (NarrativeLocals.classMatches l) points
              <-> v = scored (points c)
                        (if accountingConfirmed (NarrativeLocals.classMatches l)
                              (EventClass.id c)
                         then Points.strong (points c)
                         else Points.weak (points c))).
    { intros points v. rewrite (class_scores_entry _ _ _ _ _ Hc).
      rewrite computeClassScore_tiers, Hdown, Hcap.
      unfold matches_of. rewrite Hlookup. cbn [default from_option id].
      now destruct (accountingConfirmed _ _). }
    assert (Hparams : NarrativeLocals.classScores l
                      = class_scores params (NarrativeLocals.classMatches l)
                          EventClass.severity) by reflexivity.
    assert (Hparams' : NarrativeLocals.structuralScores l
                       = class_scores params (NarrativeLocals.classMatches l)
                           EventClass.structural) by reflexivity.
    rewrite Hparams, Hparams'.
    split; [exact Hlookup |]. split.
    + intros Hcorr. apply Hconf in Hcorr.
      split; intros v; rewrite Hentry, Hcorr; reflexivity.
    + intros Hcorr.
      assert (E : accountingConfirmed (NarrativeLocals.classMatches l)
                    (EventClass.id c) = false).
      { destruct (accountingConfirmed _ _); [| reflexivity].
        exfalso. apply Hcorr. now apply Hconf. }
      split; intros v; rewrite Hentry, E; reflexivity.
  - intros P doc options sec published_by Hover Hweights Hsec.
    destruct (classify_returns_any _ [published_by NEWS] _ _ Hsec)
      as [news Hnews].
    exists news. split; [exact Hnews |].
    destruct (classify_scores _ _ _ Hsec) as [-> ->].
    destruct (classify_scores _ _ _ Hnews) as [-> ->].
    destruct (narrative_locals_scores [published_by SEC_FILING] options)
      as (_ & Hdocs & _ & _ & _ & -> & ->).
    destruct (narrative_locals_scores [published_by NEWS] options)
      as (_ & _ & _ & _ & _ & -> & ->).
    rewrite Hdocs in Hweights. clear Hdocs Hsec Hnews.
    destruct (narrative_locals_window [published_by SEC_FILING]
                [published_by NEWS] options) as [-> ->].
    revert Hweights. rewrite Hover.
    generalize (NarrativeLocals.windowStart
                  (narrative_locals [published_by SEC_FILING] options)),
               (NarrativeLocals.windowEnd
                  (narrative_locals [published_by SEC_FILING] options)).
    intros windowStart windowEnd Hweights.
    set (params := NarrativeShockParams.merge DEFAULT_PARAMS
                     NarrativeShockParams.no_override) in *.
    pose proof (processedDocs_filed doc params windowStart windowEnd
                  eq_refl Hweights) as Hcopy.
    fold published_by in Hcopy.
    assert (Htext : map ProcessedDoc.text
                      (buildProcessedDocs [published_by NEWS] params
                         windowStart windowEnd)
                    = map ProcessedDoc.text
                        (buildProcessedDocs [published_by SEC_FILING] params
                           windowStart windowEnd)).
    { clear -Hcopy. induction Hcopy as [| d f ds fs (Ht & _) _ IH];
        [reflexivity |]. cbn [map]. now rewrite Ht, IH. }
    rewrite Htext.
    rewrite (escalations_filed _ _ _ Hcopy).
    generalize dependent (buildProcessedDocs [published_by SEC_FILING] params
                            windowStart windowEnd).
    generalize (buildProcessedDocs [published_by NEWS] params
                  windowStart windowEnd).
    intros docs filed _ Hcopy _.
    assert (Hmax : NarrativeShockParams.max_points_per_event_class params = None)
      by reflexivity.
    split.
    + destruct (filed_scores_le params EventClass.severity docs filed Hmax)
        as (a & b & -> & -> & Hab); [| exact Hcopy |].
      { intros c Hc.
        destruct (sound_points_spec c (event_classes_sound c Hc))
          as (s & w & _ & _ & _ & -> & _ & _ & Hw & Hs & _). eauto. }
      destruct (clamp_Num_le a b Hab) as (u & v & -> & -> & Huv).
      now apply round_Num_le.
    + destruct (filed_scores_le params EventClass.structural docs filed Hmax)
        as (a & b & -> & -> & Hab); [| exact Hcopy |].
      { intros c Hc.
        destruct (sound_points_spec c (event_classes_sound c Hc))
          as (_ & _ & s & w & _ & _ & -> & _ & _ & _ & Hw & Hs). eauto. }
      destruct (escalate_le _ (escalations_points
                                 (fst (collect_matches docs))
                                 (String.concat " "
                                    (map ProcessedDoc.text filed)))
                            a b Hab)
        as (a' & b' & -> & -> & Hab').
      destruct (clamp_Num_le a' b' Hab') as (u & v & -> & -> & Huv).
      now apply round_Num_le.
  - eexists. eexists.
    split; [vm_compute; reflexivity |].
    split; [vm_compute; reflexivity |].
    repeat split; reflexivity.
Qed.

(** The restatement class of the notice: downgraded when a single [NEWS]
    source publishes it (0.5 x 10), at the strong tier in an SEC filing
    (1.0 x 35) and when a [NEWS] source and a press release publish it
    (0.5 x 35 + 0.7 x 35); the notice of the [NEWS] source does not score
    above the SEC filing. *)
Lemma confirmation_gate_witness :
  let scores docs :=
    NarrativeLocals.classScores
      (narrative_locals (P := Sample.platform) docs Examples.window_2024_05_01) in
  (ACCOUNTING_RESTATEMENT, Num 5.0) ∈ scores [Examples.restatement_doc NEWS]
  /\ (ACCOUNTING_RESTATEMENT, Num 35.0)
       ∈ scores [Examples.restatement_doc SEC_FILING]
  /\ (ACCOUNTING_RESTATEMENT, Num 42.00)
       ∈ scores [Examples.restatement_doc NEWS;
                 Examples.restatement_doc PRESS_RELEASE]
  /\ exists news sec,
       classifyNarrativeShock (P := Sample.platform)
         [Examples.restatement_doc NEWS] Examples.window_2024_05_01 = Return news
       /\ classifyNarrativeShock (P := Sample.platform)
            [Examples.restatement_doc SEC_FILING] Examples.window_2024_05_01
          = Return sec
       /\ JS.le (NarrativeShockResult.severity_0_100 news)
                (NarrativeShockResult.severity_0_100 sec) = true
       /\ JS.le (NarrativeShockResult.structural_risk_0_100 news)
                (NarrativeShockResult.structural_risk_0_100 sec) = true.
Proof.
  intros scores.
  destruct confirmation_gate as (Hgate & Hfiled & _).
  assert (Hclass : exists c,
            c ∈ EVENT_CLASSES /\ EventClass.id c = ACCOUNTING_RESTATEMENT
            /\ event_class ACCOUNTING_RESTATEMENT = Some c).
  { eexists. split; [apply list_elem_of_here |]. split; reflexivity. }
  destruct Hclass as (c & Hc & Hid & Hfind).
  vm_compute in Hfind. injection Hfind as <-.
  split; [| split; [| split]].
  - destruct (Hgate Sample.platform [Examples.restatement_doc NEWS]
                Examples.window_2024_05_01 _ Hc (or_introl Hid) eq_refl)
      as (Hlookup & _ & Hweak).
    apply Hweak; [| vm_compute; reflexivity].
    intros Hcorr. apply (accountingConfirmed_spec _ _ _ Hlookup) in Hcorr.
    vm_compute in Hcorr. discriminate.
  - destruct (Hgate Sample.platform [Examples.restatement_doc SEC_FILING]
                Examples.window_2024_05_01 _ Hc (or_introl Hid) eq_refl)
      as (Hlookup & Hstrong & _).
    apply Hstrong; [| vm_compute; reflexivity].
    apply (accountingConfirmed_spec _ _ _ Hlookup). vm_compute. reflexivity.
  - destruct (Hgate Sample.platform
                [Examples.restatement_doc NEWS;
                 Examples.restatement_doc PRESS_RELEASE]
                Examples.window_2024_05_01 _ Hc (or_introl Hid) eq_refl)
      as (Hlookup & Hstrong & _).
    apply Hstrong; [| vm_compute; reflexivity].
    apply (accountingConfirmed_spec _ _ _ Hlookup). vm_compute. reflexivity.
  - destruct (classifyNarrativeShock (P := Sample.platform)
                [Examples.restatement_doc SEC_FILING] Examples.window_2024_05_01)
      as [sec |] eqn:Esec; [| vm_compute in Esec; discriminate].
    destruct (Hfiled Sample.platform (Examples.restatement_doc NEWS)
                Examples.window_2024_05_01 sec eq_refl)
      as (news & Hnews & Hsev & Hstr); [| exact Esec |].
    + intros d Hd. vm_compute in Hd. apply list_elem_of_singleton in Hd.
      subst d. eexists. split; [reflexivity | discriminate].
    + exists news, sec. auto.
Defined.

(** C4: the scores of a single [NEWS] document are not strictly lower than
    those of the same text in an SEC filing for every restatement text. A
    notice that also reports a going-concern doubt and the loss of the largest
    customer has a strong match in [ACCOUNTING_RESTATEMENT]; its severity is
    30 from the [NEWS] source and 85 in the SEC filing, and its structural
    risk is 100, the upper bound of the scale, in both. *)
Lemma confirmation_gate_not_strict :
  exists news sec,
    classifyNarrativeShock (P := Sample.platform)
      [Scenarios.distress_doc NEWS] Examples.window_2024_05_01 = Return news
    /\ classifyNarrativeShock (P := Sample.platform)
         [Scenarios.distress_doc SEC_FILING] Examples.window_2024_05_01
       = Return sec
    /\ (exists c,
          c ∈ EVENT_CLASSES /\ EventClass.id c = ACCOUNTING_RESTATEMENT
          /\ map DocMatch.strongMatches
               (omap (doc_match c)
                  (NarrativeLocals.processedDocs
                     (narrative_locals (P := Sample.platform)
                        [Scenarios.distress_doc NEWS] Examples.window_2024_05_01)))
             = [["restate"]])
    /\ NarrativeShockResult.severity_0_100 news = Num 30
    /\ NarrativeShockResult.severity_0_100 sec = Num 85
    /\ NarrativeShockResult.structural_risk_0_100 news = Num 100
    /\ NarrativeShockResult.structural_risk_0_100 sec = Num 100
    /\ JS.lt (NarrativeShockResult.structural_risk_0_100 news)
             (NarrativeShockResult.structural_risk_0_100 sec) = false.
Proof.
  eexists. eexists.
  split; [vm_compute; reflexivity |].
  split; [vm_compute; reflexivity |].
  split.
  - eexists. split; [apply list_elem_of_here |].
    split; [reflexivity | vm_compute; reflexivity].
  - repeat split; reflexivity.
Qed.

(** ** Evaluation on small inputs *)

Example median_even :
  option_map (fun v => JS.eq v (Num 2.5))
             (median [Num 3; Num 1; Num 10; Num 2]) = Some true.
Proof. reflexivity. Qed.

Example median_empty : median [] = None.
Proof. reflexivity. Qed.

Example percentile_interpolates :
  option_map (fun v => JS.eq v (Num 2.5))
             (percentile [Num 1; Num 2; Num 3; Num 4] (Num 0.5)) = Some true.
Proof. reflexivity. Qed.

Example percentileRank_inclusive :
  option_map (fun v => JS.eq v (Num 0.75))
             (percentileRank [Num 4; Num 1; Num 3; Num 2] (Num 3)) = Some true.
Proof. reflexivity. Qed.

Example sum_taints : sum [Some (Num 1); None; Some (Num 2)] = None.
Proof. reflexivity. Qed.

Example sum_NaN : sum [Some (Num 1); Some NaN] = None.
Proof. reflexivity. Qed.

Example clamp_above : clamp (Num 130) (Num 0) (Num 100) = Num 100.
Proof. reflexivity. Qed.

Example toFixed2_rounds : JS.toFixed2 (Num (35 # 6)) = Num 5.83.
Proof. reflexivity. Qed.

Example normalizeText_sample :
  normalizeText "  The Company's  Q3: 10% -- $5.2M! " = "the company s q3 10% -- $5.2m".
Proof. reflexivity. Qed.

Example nearestByDate_within_five_days :
  option_map IncomeStatement.report_period
    (nearestByDate (P := Sample.platform) Examples.four_quarters
       1703721600000%Z (Num 5))
  = Some "2023-12-31".
Proof. reflexivity. Qed.

(** The restatement notice in an SEC filing is a structural risk and brings
    no MDS points. *)
Example restatement_in_sec_filing :
  exists r,
    classifyNarrativeShock (P := Sample.platform)
      [Examples.restatement_doc SEC_FILING] Examples.window_2024_05_01
    = Return r
    /\ NarrativeShockResult.primary_event_class r = "ACCOUNTING_RESTATEMENT"
    /\ NarrativeShockResult.shock_type r = STRUCTURAL_RISK
    /\ NarrativeShockResult.mds_narrative_shock_points r = Num 0.
Proof. eexists. split; [vm_compute; reflexivity |]. repeat split. Qed.

(** Two press sources confirm the restatement without an SEC filing. *)
Example restatement_in_two_sources :
  accountingConfirmed
    (NarrativeLocals.classMatches
       (narrative_locals (P := Sample.platform)
          [Examples.restatement_doc NEWS; Examples.restatement_doc PRESS_RELEASE]
          Examples.window_2024_05_01))
    ACCOUNTING_RESTATEMENT = true.
Proof. vm_compute. reflexivity. Qed.

(** An unparseable common period makes [computeBrs] raise. *)
Example computeBrs_raises :
  computeBrs (P := Sample.platform)
    {| BrsInputs.ticker := "ACME";
       BrsInputs.company_facts := [];
       BrsInputs.income_statements := [Examples.income_row "n/a"];
       BrsInputs.balance_sheets := [Examples.balance_row "n/a"];
       BrsInputs.cash_flow_statements := [Examples.cash_row (Num 1) "n/a"];
       BrsInputs.metrics_history := [];
       BrsInputs.universe_metrics := [];
       BrsInputs.config := None |}
  = Throw "TypeError".
Proof. reflexivity. Qed.

(** An as-of date that does not parse makes the narrative window invalid,
    and [computeMdsFromSeries] raise once documents are supplied. *)
Example computeMdsFromSeries_raises :
  Mds.computeMdsFromSeries (P := Sample.platform)
    {| MdsSeriesInputs.ticker := None;
       MdsSeriesInputs.asof_date := Some "soon";
       MdsSeriesInputs.metrics_history := [];
       MdsSeriesInputs.income_statements := [];
       MdsSeriesInputs.cash_flow_statements := [];
       MdsSeriesInputs.estimates := None;
       MdsSeriesInputs.ownership_history := None;
       MdsSeriesInputs.insider_trades := None;
       MdsSeriesInputs.short_interest_pct := None;
       MdsSeriesInputs.docs := Some [Examples.restatement_doc NEWS];
       MdsSeriesInputs.narrative_params := None;
       MdsSeriesInputs.fundamentals_intact := None;
       MdsSeriesInputs.config := None |}
  = Throw "RangeError".
Proof. reflexivity. Qed.

(** A value that [Number] converts to a finite number, as the empty string
    to 0, is normalised like that number. *)
Example normalizeShortInterest_converted :
  normalizeShortInterest (U_other (Num 0)) = Some (Num 0).
Proof. reflexivity. Qed.

(** * Properties of the rest of the code *)

(** ** Sorting numbers *)

Section KeyedByRational.
Context {A : Type} (cmp : A -> A -> number) (key : A -> Q) (ok : A -> Prop).
Hypothesis cmp_key :
  forall x y, ok x -> ok y ->
    (JS.lt (cmp x y) (Num 0) = true <-> key x < key y).

Local Abbreviation falling := (StronglySorted (fun a b => key b <= key a)).

Lemma sort_insert_falling (x : A) (acc : list A) :
  ok x -> Forall ok acc -> falling acc -> falling (sort_insert cmp x acc).
Proof.
  intros Hx Hok Hs. induction Hs as [| y rest Hs IH Hy]; simpl.
  - repeat constructor.
  - apply Forall_cons in Hok as [Hoky Hokr].
    destruct (JS.lt (cmp x y) (Num 0)) eqn:E.
    + apply cmp_key in E; [| assumption ..].
      constructor; [now apply IH |].
      rewrite sort_insert_perm. constructor; [lra | assumption].
    + assert (key y <= key x).
      { destruct (Qlt_le_dec (key x) (key y)) as [Hlt | Hge]; [| lra].
        apply cmp_key in Hlt; [congruence | assumption ..]. }
      constructor; [now constructor |].
      constructor; [assumption |].
      eapply Forall_impl; [exact Hy |]. simpl. intros; lra.
Qed.

Lemma sort_loop_falling (xs acc : list A) :
  Forall ok xs -> Forall ok acc -> falling acc ->
  falling (fold_left (fun acc x => sort_insert cmp x acc) xs acc).
Proof.
  revert acc. induction xs as [| x xs IH]; intros acc Hxs Hacc Hs; [assumption |].
  apply Forall_cons in Hxs as [Hx Hxs]. cbn [fold_left]. apply IH.
  - assumption.
  - rewrite sort_insert_perm. now constructor.
  - now apply sort_insert_falling.
Qed.

Lemma falling_lookup (acc : list A) :
  falling acc ->
  forall i j a b, (i < j)%nat -> acc !! i = Some a -> acc !! j = Some b ->
                  key b <= key a.
Proof.
  induction 1 as [| y rest Hs IH Hy]; intros i j a b Hij Hi Hj.
  - now rewrite lookup_nil in Hi.
  - destruct j as [| j]; [lia |]. destruct i as [| i]; simpl in *.
    + injection Hi as <-. rewrite Forall_forall in Hy. apply Hy.
      eapply list_elem_of_lookup_2. exact Hj.
    + eapply IH; [| eassumption ..]. lia.
Qed.

Lemma js_sort_rising (xs : list A) :
  Forall ok xs ->
  forall i j a b, (i <= j)%nat ->
    js_sort cmp xs !! i = Some a -> js_sort cmp xs !! j = Some b ->
    key a <= key b.
Proof.
  intros Hok i j a b Hij Hi Hj.
  destruct (decide (i = j)) as [-> | Hne].
  { rewrite Hi in Hj. injection Hj as <-. lra. }
  assert (Hd := sort_loop_falling xs [] Hok (Forall_nil_2 _) (SSorted_nil _)).
  unfold js_sort in *.
  set (acc := fold_left _ xs []) in *.
  assert (Hlen_j : (j < length acc)%nat).
  { apply lookup_lt_Some in Hj. now rewrite length_rev in Hj. }
  rewrite rev_lookup in Hi by lia. rewrite rev_lookup in Hj by lia.
  eapply (falling_lookup acc Hd); [| exact Hj | exact Hi]. lia.
Qed.

End KeyedByRational.

Lemma all_finite_perm (xs ys : list number) :
  xs ≡ₚ ys -> all_finite xs -> all_finite ys.
Proof. unfold all_finite. intros Hp. now rewrite Hp. Qed.

Lemma sort_numbers_perm (values : list number) :
  sort_numbers values ≡ₚ values.
Proof. apply js_sort_perm. Qed.

Lemma sort_numbers_length (values : list number) :
  length (sort_numbers values) = length values.
Proof. apply js_sort_length. Qed.

Lemma sort_numbers_finite (values : list number) :
  all_finite values -> all_finite (sort_numbers values).
Proof. apply all_finite_perm. symmetry. apply sort_numbers_perm. Qed.

(** The sorted copy of finite numbers is in non-decreasing order. *)
Lemma sort_numbers_rising (values : list number) :
  all_finite values ->
  forall i j x y, (i <= j)%nat ->
    sort_numbers values !! i = Some (Num x) ->
    sort_numbers values !! j = Some (Num y) -> x <= y.
Proof.
  intros Hfin i j x y Hij Hi Hj.
  apply (js_sort_rising (fun a b => JS.sub a b)
           (fun v => match v with Num q => q | _ => 0 end)
           (fun v => JS.isFinite v = true)) with (xs := values) (i := i) (j := j)
           (a := Num x) (b := Num y); try assumption.
  intros [p | | |] [q | | |]; try discriminate. intros _ _.
  unfold JS.sub, JS.neg, JS.add. rewrite lt_Num. split; intros; lra.
Qed.

Lemma finite_lookup (values : list number) (i : nat) (v : number) :
  all_finite values -> values !! i = Some v -> exists q, v = Num q.
Proof.
  intros Hfin Hi. unfold all_finite in Hfin. rewrite Forall_forall in Hfin.
  apply list_elem_of_lookup_2 in Hi. apply Hfin in Hi.
  destruct v; try discriminate. now eexists.
Qed.

Lemma at_index_finite (values : list number) (i : nat) :
  all_finite values -> (i < length values)%nat ->
  exists q, values !! i = Some (Num q) /\ at_index values i = Num q.
Proof.
  intros Hfin Hi. destruct (lookup_lt_is_Some_2 values i Hi) as [v Hv].
  destruct (finite_lookup values i v Hfin Hv) as [q ->].
  exists q. split; [assumption |]. unfold at_index. now rewrite Hv.
Qed.

(** A predicate that holds of the first [k] elements holds of [k] elements
    at least. *)
Lemma filter_length_prefix {A} (p : A -> bool) (xs : list A) (k : nat) :
  (k <= length xs)%nat ->
  (forall i x, (i < k)%nat -> xs !! i = Some x -> p x = true) ->
  (k <= length (List.filter p xs))%nat.
Proof.
  revert k. induction xs as [| x xs IH]; intros k Hk Hp; simpl in *; [lia |].
  destruct k as [| k]; [lia |].
  rewrite (Hp 0%nat x) by (reflexivity || lia). simpl.
  apply le_n_S, IH; [lia |]. intros i y Hi Hy. apply (Hp (S i)); [lia | exact Hy].
Qed.

Lemma filter_length_suffix {A} (p : A -> bool) (xs : list A) (k : nat) :
  (k <= length xs)%nat ->
  (forall i x, (k <= i)%nat -> xs !! i = Some x -> p x = true) ->
  (length xs - k <= length (List.filter p xs))%nat.
Proof.
  revert k. induction xs as [| x xs IH]; intros k Hk Hp; simpl in *; [lia |].
  destruct k as [| k].
  - rewrite (Hp 0%nat x) by (reflexivity || lia). simpl.
    specialize (IH 0%nat ltac:(lia)). rewrite Nat.sub_0_r in IH.
    apply le_n_S, IH. intros i y Hi Hy. apply (Hp (S i)); [lia | exact Hy].
  - specialize (IH k ltac:(lia)).
    assert (length xs - k <= length (List.filter p xs))%nat.
    { apply IH. intros i y Hi Hy. apply (Hp (S i)); [lia | exact Hy]. }
    destruct (p x); simpl; lia.
Qed.

Lemma filter_length_perm {A} (p : A -> bool) (xs ys : list A) :
  xs ≡ₚ ys -> length (List.filter p xs) = length (List.filter p ys).
Proof.
  induction 1; simpl; try congruence.
  - destruct (p x); simpl; congruence.
  - destruct (p x), (p y); simpl; congruence.
Qed.

(** ** Percentile rank, median, percentile *)

Lemma count_fold {A} (p : A -> bool) (xs : list A) (n : nat) :
  fold_left (fun count v => if p v then S count else count) xs n
  = (n + length (List.filter p xs))%nat.
Proof.
  revert n. induction xs as [| x xs IH]; intros n; simpl; [lia |].
  rewrite IH. destruct (p x); simpl; lia.
Qed.

Lemma div_of_nat (c n : nat) :
  (0 < n)%nat ->
  JS.div (JS.of_nat c) (JS.of_nat n)
  = Num (inject_Z (Z.of_nat c) / inject_Z (Z.of_nat n)).
Proof.
  intros Hn. unfold JS.div, JS.of_nat.
  destruct (Qeq_bool (inject_Z (Z.of_nat n)) 0) eqn:E; [| reflexivity].
  apply Qeq_bool_iff in E. unfold Qeq in E. simpl in E. lia.
Qed.

Lemma ratio_of_nat_bounds (c n : nat) :
  (0 < n)%nat -> (c <= n)%nat ->
  0 <= inject_Z (Z.of_nat c) / inject_Z (Z.of_nat n) <= 1.
Proof.
  intros Hn Hc.
  assert (Hpos : 0 < inject_Z (Z.of_nat n)).
  { change 0 with (inject_Z 0). rewrite <- Zlt_Qlt. lia. }
  split.
  - apply Qle_shift_div_l; [assumption |]. rewrite Qmult_0_l.
    change 0 with (inject_Z 0). rewrite <- Zle_Qle. lia.
  - apply Qle_shift_div_r; [assumption |]. rewrite Qmult_1_l.
    rewrite <- Zle_Qle. lia.
Qed.

(** X1: [percentileRank] returns [null] for an empty array only; otherwise it
    returns the share of the values that are at most [value], a fraction
    within [[0, 1]], whatever the order of the values. *)
Theorem percentileRank_share (values : list number) (value : number) :
  match percentileRank values value with
  | None => values = []
  | Some rank =>
      exists q,
        rank = Num q /\ 0 <= q <= 1
        /\ q == inject_Z (Z.of_nat (length (List.filter (fun v => JS.le v value)
                                                        values)))
                / inject_Z (Z.of_nat (length values))
  end.
Proof.
  unfold percentileRank. destruct (decide (length values = 0%nat)) as [E | E].
  - now destruct values.
  - rewrite count_fold, sort_numbers_length, Nat.add_0_l.
    rewrite (filter_length_perm _ _ _ (sort_numbers_perm values)).
    rewrite div_of_nat by lia. eexists. split; [reflexivity |].
    split; [| reflexivity].
    apply ratio_of_nat_bounds; [lia |]. apply List.filter_length_le.
Qed.

Lemma half_Num (a b : Q) :
  JS.div (JS.add (Num a) (Num b)) (Num 2) = Num ((a + b) / 2).
Proof. reflexivity. Qed.

Lemma median_cases (values : list number) :
  all_finite values -> values <> [] ->
  let sorted := sort_numbers values in
  let n := length values in
  (exists a b, (n mod 2 = 0)%nat
     /\ sorted !! (n / 2 - 1)%nat = Some (Num a)
     /\ sorted !! (n / 2)%nat = Some (Num b)
     /\ median values = Some (Num ((a + b) / 2)))
  \/ (exists a, (n mod 2 = 1)%nat
        /\ sorted !! (n / 2)%nat = Some (Num a)
        /\ median values = Some (Num a)).
Proof.
  intros Hfin Hne sorted n.
  assert (Hn : (0 < n)%nat)
    by (subst n; destruct values; [congruence | simpl; lia]).
  assert (Hs : all_finite sorted) by now apply sort_numbers_finite.
  assert (Hlen : length sorted = n) by apply sort_numbers_length.
  assert (Hdiv : (n / 2 < n)%nat) by (apply Nat.div_lt; lia).
  unfold median. destruct (decide (length values = 0%nat)) as [E | _]; [lia |].
  fold sorted. rewrite Hlen.
  destruct (at_index_finite sorted (n / 2) Hs ltac:(lia)) as (b & Hb & Eb).
  destruct (decide ((n mod 2)%nat = 0%nat)) as [Eeven | Eodd].
  - left.
    destruct (at_index_finite sorted (n / 2 - 1) Hs ltac:(lia)) as (a & Ha & Ea).
    exists a, b. rewrite Ea, Eb, half_Num. auto.
  - right. exists b. rewrite Eb. repeat split; try assumption.
    pose proof (Nat.mod_upper_bound n 2). lia.
Qed.

Lemma le_filter_prefix (values : list number) (m : Q) (k : nat) :
  all_finite values -> (k < length values)%nat ->
  (forall x, sort_numbers values !! k = Some (Num x) -> x <= m) ->
  (S k <= length (List.filter (fun v => JS.le v (Num m)) values))%nat.
Proof.
  intros Hfin Hk Hm.
  rewrite <- (filter_length_perm _ _ _ (sort_numbers_perm values)).
  assert (Hs : all_finite (sort_numbers values)) by now apply sort_numbers_finite.
  apply filter_length_prefix; [rewrite sort_numbers_length; lia |].
  intros i v Hi Hv. destruct (finite_lookup _ _ _ Hs Hv) as [q ->].
  destruct (at_index_finite (sort_numbers values) k Hs) as (x & Hx & _);
    [rewrite sort_numbers_length; lia |].
  apply le_Num.
  pose proof (sort_numbers_rising values Hfin i k q x ltac:(lia) Hv Hx).
  specialize (Hm x Hx). lra.
Qed.

Lemma ge_filter_suffix (values : list number) (m : Q) (k : nat) :
  all_finite values -> (k < length values)%nat ->
  (forall x, sort_numbers values !! k = Some (Num x) -> m <= x) ->
  (length values - k
   <= length (List.filter (fun v => JS.ge v (Num m)) values))%nat.
Proof.
  intros Hfin Hk Hm.
  rewrite <- (filter_length_perm _ _ _ (sort_numbers_perm values)).
  assert (Hs : all_finite (sort_numbers values)) by now apply sort_numbers_finite.
  rewrite <- (sort_numbers_length values) at 1.
  apply filter_length_suffix; [rewrite sort_numbers_length; lia |].
  intros i v Hi Hv. destruct (finite_lookup _ _ _ Hs Hv) as [q ->].
  destruct (at_index_finite (sort_numbers values) k Hs) as (x & Hx & _);
    [rewrite sort_numbers_length; lia |].
  apply ge_Num.
  pose proof (sort_numbers_rising values Hfin k i x q ltac:(lia) Hx Hv).
  specialize (Hm x Hx). lra.
Qed.

(** X2: the [median] of finite numbers is [null] for an empty array only;
    otherwise it is a finite number that splits the values: at least half of
    them are at most the median and at least half of them are at least the
    median. *)
Theorem median_splits (values : list number) :
  all_finite values ->
  match median values with
  | None => values = []
  | Some m =>
      exists q,
        m = Num q
        /\ (length values
            <= 2 * length (List.filter (fun v => JS.le v m) values))%nat
        /\ (length values
            <= 2 * length (List.filter (fun v => JS.ge v m) values))%nat
  end.
Proof.
  intros Hfin. destruct values as [| v0 rest] eqn:Ev; [reflexivity |].
  rewrite <- Ev in *. assert (Hne : values <> []) by (rewrite Ev; discriminate).
  assert (Hn : (0 < length values)%nat) by (rewrite Ev; simpl; lia).
  pose proof (Nat.div_mod_eq (length values) 2) as Hdm.
  assert (Hdiv : (length values / 2 < length values)%nat)
    by (apply Nat.div_lt; lia).
  destruct (median_cases values Hfin Hne)
    as [(a & b & Hmod & Ha & Hb & ->) | (a & Hmod & Ha & ->)].
  - assert (Hab : a <= b).
    { apply (sort_numbers_rising values Hfin (length values / 2 - 1)
               (length values / 2)); [lia | assumption ..]. }
    exists ((a + b) / 2). split; [reflexivity |]. split.
    + pose proof (le_filter_prefix values ((a + b) / 2)
                    (length values / 2 - 1) Hfin ltac:(lia)) as Hp.
      cut (S (length values / 2 - 1)
           <= length (List.filter (fun v => JS.le v (Num ((a + b) / 2))) values))%nat;
        [lia |].
      apply Hp. intros x Hx. rewrite Ha in Hx. injection Hx as <-.
      apply Qle_shift_div_l; lra.
    + pose proof (ge_filter_suffix values ((a + b) / 2)
                    (length values / 2) Hfin ltac:(lia)) as Hp.
      cut (length values - length values / 2
           <= length (List.filter (fun v => JS.ge v (Num ((a + b) / 2))) values))%nat;
        [lia |].
      apply Hp. intros x Hx. rewrite Hb in Hx. injection Hx as <-.
      apply Qle_shift_div_r; lra.
  - exists a. split; [reflexivity |]. split.
    + pose proof (le_filter_prefix values a (length values / 2) Hfin ltac:(lia)) as Hp.
      cut (S (length values / 2)
           <= length (List.filter (fun v => JS.le v (Num a)) values))%nat; [lia |].
      apply Hp. intros x Hx. rewrite Ha in Hx. injection Hx as <-. lra.
    + pose proof (ge_filter_suffix values a (length values / 2) Hfin ltac:(lia)) as Hp.
      cut (length values - length values / 2
           <= length (List.filter (fun v => JS.ge v (Num a)) values))%nat; [lia |].
      apply Hp. intros x Hx. rewrite Ha in Hx. injection Hx as <-. lra.
Qed.

Lemma median_splits_witness :
  all_finite [Num 3; Num 1; Num 10; Num 2]
  /\ match median [Num 3; Num 1; Num 10; Num 2] with
     | None => False
     | Some m =>
         exists q,
           m = Num q
           /\ (4 <= 2 * length (List.filter (fun v => JS.le v m)
                                  [Num 3; Num 1; Num 10; Num 2]))%nat
           /\ (4 <= 2 * length (List.filter (fun v => JS.ge v m)
                                  [Num 3; Num 1; Num 10; Num 2]))%nat
     end.
Proof.
  split; [repeat constructor |].
  exact (median_splits [Num 3; Num 1; Num 10; Num 2]
           ltac:(repeat constructor)).
Defined.

Lemma interpolate_between (a b w : Q) :
  a <= b -> 0 <= w <= 1 -> a <= a * (1 - w) + b * w <= b.
Proof.
  intros Hab [H0 H1].
  assert (E1 : a * (1 - w) + b * w == a + (b - a) * w) by ring.
  assert (E2 : a * (1 - w) + b * w == b - (b - a) * (1 - w)) by ring.
  assert (0 <= (b - a) * w) by (apply Qmult_le_0_compat; lra).
  assert (0 <= (b - a) * (1 - w)) by (apply Qmult_le_0_compat; lra).
  split; [rewrite E1 | rewrite E2]; lra.
Qed.

Lemma at_number_index (xs : list number) (z : Z) :
  (0 <= z)%Z -> at_number xs (Num (inject_Z z)) = at_index xs (Z.to_nat z).
Proof.
  intros Hz. unfold at_number. rewrite Qfloor_Z.
  rewrite (proj2 (Qeq_bool_iff _ _) (Qeq_refl _)).
  now rewrite (proj2 (Z.leb_le _ _) Hz).
Qed.

Lemma percentile_in_range (values : list number) (p : Q) :
  all_finite values -> values <> [] -> 0 <= p <= 1 ->
  exists q lo hi,
    percentile values (Num p) = Some (Num q)
    /\ Num lo ∈ values /\ Num hi ∈ values /\ lo <= q <= hi.
Proof.
  intros Hfin Hne [Hp0 Hp1].
  assert (Hn : (0 < length values)%nat)
    by (destruct values; [congruence | simpl; lia]).
  assert (Hs : all_finite (sort_numbers values)) by now apply sort_numbers_finite.
  pose proof (sort_numbers_length values) as Hlen.
  unfold percentile. destruct (decide (length values = 0%nat)) as [E | _]; [lia |].
  rewrite Hlen.
  set (top := inject_Z (Z.of_nat (length values - 1))).
  change (JS.mul (JS.of_nat (length values - 1)) (Num p)) with (Num (top * p)).
  set (idx := top * p).
  assert (Htop : 0 <= top).
  { unfold top. change 0 with (inject_Z 0). rewrite <- Zle_Qle. lia. }
  assert (Hidx0 : 0 <= idx) by (apply Qmult_le_0_compat; assumption).
  assert (Hidx1 : idx <= top).
  { unfold idx. rewrite <- (Qmult_1_r top) at 2.
    apply Qmult_le_compat_nonneg; split; lra. }
  cbn [JS.floor JS.ceil].
  pose proof (Qfloor_le idx) as HL. pose proof (Qle_ceiling idx) as HU.
  assert (HL0 : (0 <= Qfloor idx)%Z).
  { change 0%Z with (Qfloor 0). now apply Qfloor_resp_le. }
  assert (HU1 : (Qceiling idx <= Z.of_nat (length values - 1))%Z).
  { rewrite <- (Qceiling_Z (Z.of_nat (length values - 1))).
    now apply Qceiling_resp_le. }
  assert (HLU : (Qfloor idx <= Qceiling idx)%Z) by (rewrite Zle_Qle; lra).
  rewrite !at_number_index by lia.
  destruct (at_index_finite (sort_numbers values) (Z.to_nat (Qfloor idx)) Hs
              ltac:(lia)) as (a & Ha & ->).
  destruct (at_index_finite (sort_numbers values) (Z.to_nat (Qceiling idx)) Hs
              ltac:(lia)) as (b & Hb & ->).
  assert (Hina : Num a ∈ values).
  { rewrite <- (sort_numbers_perm values). eapply list_elem_of_lookup_2, Ha. }
  assert (Hinb : Num b ∈ values).
  { rewrite <- (sort_numbers_perm values). eapply list_elem_of_lookup_2, Hb. }
  assert (Hab : a <= b).
  { apply (sort_numbers_rising values Hfin (Z.to_nat (Qfloor idx))
             (Z.to_nat (Qceiling idx))); [lia | assumption ..]. }
  destruct (JS.eq _ _).
  - exists a, a, a. repeat split; try assumption; lra.
  - eexists _, a, b. split; [reflexivity |]. split; [assumption |].
    split; [assumption |].
    assert (Hw : 0 <= idx + - inject_Z (Qfloor idx) <= 1).
    { pose proof (Qlt_floor idx) as Hlt. rewrite inject_Z_plus in Hlt.
      change (inject_Z 1) with 1 in Hlt. lra. }
    pose proof (interpolate_between a b _ Hab Hw) as Hbetween.
    unfold Qminus in *. lra.
Qed.

(** At a rank whose index [(n - 1) * p] is the whole number [k], the
    percentile is the element [k] of the sorted values. *)
Lemma percentile_at_rank (values : list number) (p : Q) (k : nat) :
  all_finite values -> (k < length values)%nat ->
  inject_Z (Z.of_nat (length values - 1)) * p == inject_Z (Z.of_nat k) ->
  exists m,
    sort_numbers values !! k = Some (Num m)
    /\ percentile values (Num p) = Some (Num m).
Proof.
  intros Hfin Hk Hidx.
  assert (Hs : all_finite (sort_numbers values)) by now apply sort_numbers_finite.
  pose proof (sort_numbers_length values) as Hlen.
  destruct (at_index_finite (sort_numbers values) k Hs ltac:(lia))
    as (m & Hm & Hat).
  exists m. split; [assumption |].
  unfold percentile. destruct (decide (length values = 0%nat)) as [E | _]; [lia |].
  rewrite Hlen.
  change (JS.mul (JS.of_nat (length values - 1)) (Num p))
    with (Num (inject_Z (Z.of_nat (length values - 1)) * p)).
  assert (Hf : Qfloor (inject_Z (Z.of_nat (length values - 1)) * p)
               = Z.of_nat k).
  { rewrite (Qfloor_comp _ _ Hidx). apply Qfloor_Z. }
  assert (Hc : Qceiling (inject_Z (Z.of_nat (length values - 1)) * p)
               = Z.of_nat k).
  { rewrite (Qceiling_comp _ _ Hidx). apply Qceiling_Z. }
  cbn [JS.floor JS.ceil]. rewrite Hf, Hc.
  rewrite (proj2 (eq_Num _ _) (Qeq_refl _)).
  rewrite at_number_index by lia. now rewrite Nat2Z.id, Hat.
Qed.

(** X3: at a rank [p] that a double holds and whose index [(n - 1) * p] is a
    whole number [k], the [percentile] of finite numbers is one of the values,
    the order statistic of rank [k]: at least [k + 1] of the values are at
    most it and at least [n - k] of them are at least it. In particular the
    rank 0 gives the least value and the rank 1 the greatest. *)
Theorem percentile_order_statistic (values : list number) (p : Q) (k : nat) :
  all_finite values -> (k < length values)%nat ->
  dyadic p ->
  inject_Z (Z.of_nat (length values - 1)) * p == inject_Z (Z.of_nat k) ->
  exists m,
    percentile values (Num p) = Some (Num m)
    /\ Num m ∈ values
    /\ (k < length (List.filter (fun v => JS.le v (Num m)) values))%nat
    /\ (length values - k
        <= length (List.filter (fun v => JS.ge v (Num m)) values))%nat.
Proof.
  intros Hfin Hk _ Hidx.
  destruct (percentile_at_rank values p k Hfin Hk Hidx) as (m & Hm & Hp).
  exists m. split; [assumption |]. split.
  - rewrite <- (sort_numbers_perm values). eapply list_elem_of_lookup_2, Hm.
  - split.
    + apply le_filter_prefix; [assumption .. |].
      intros x Hx. rewrite Hm in Hx. injection Hx as <-. lra.
    + apply ge_filter_suffix; [assumption .. |].
      intros x Hx. rewrite Hm in Hx. injection Hx as <-. lra.
Qed.

(** The median rank of five values: the third smallest. *)
Lemma percentile_order_statistic_witness :
  (all_finite [Num 4; Num 1; Num 5; Num 3; Num 2]
   /\ dyadic 0.5
   /\ inject_Z (Z.of_nat (5 - 1)) * 0.5 == inject_Z (Z.of_nat 2))
  /\ percentile [Num 4; Num 1; Num 5; Num 3; Num 2] (Num 0.5) = Some (Num 3).
Proof.
  assert (Hfin : all_finite [Num 4; Num 1; Num 5; Num 3; Num 2])
    by repeat constructor.
  assert (Hk : (2 < length [Num 4; Num 1; Num 5; Num 3; Num 2])%nat)
    by (simpl; lia).
  assert (Hidx : inject_Z (Z.of_nat (5 - 1)) * 0.5 == inject_Z (Z.of_nat 2))
    by reflexivity.
  assert (Hp : dyadic 0.5) by (exists 1%Z, 1%nat; reflexivity).
  split; [now repeat split |].
  destruct (percentile_order_statistic [Num 4; Num 1; Num 5; Num 3; Num 2]
              0.5 2 Hfin Hk Hp Hidx) as (m & Hm & _).
  rewrite Hm. vm_compute in Hm. injection Hm as <-. reflexivity.
Defined.

(** X4: [winsorize] moves every value into the range from the percentile of
    rank [pLow] to the percentile of rank [pHigh] and changes nothing else:
    it keeps the length and the positions; a value is kept or replaced by
    one of the two percentiles; no result is above the high percentile, nor
    below the low one when that is the lower of the two; and a value between
    the two percentiles is kept. When a double holds each of the two ranks
    and their indices are whole numbers, every winsorized value is one of the
    original values. *)
Theorem winsorize_clamps (values : list number) (pLow pHigh : Q) :
  all_finite values -> values <> [] -> 0 <= pLow <= 1 -> 0 <= pHigh <= 1 ->
  let result := winsorize values (Num pLow) (Num pHigh) in
  exists low high,
    percentile values (Num pLow) = Some (Num low)
    /\ percentile values (Num pHigh) = Some (Num high)
    /\ length result = length values
    /\ (forall i v, values !! i = Some (Num v) ->
          exists w,
            result !! i = Some (Num w)
            /\ (w = v \/ w = low \/ w = high)
            /\ w <= high
            /\ (low <= high -> low <= w)
            /\ (low <= v <= high -> w == v))
    /\ (forall kLow kHigh,
          (kLow < length values)%nat -> (kHigh < length values)%nat ->
          dyadic pLow -> dyadic pHigh ->
          inject_Z (Z.of_nat (length values - 1)) * pLow
          == inject_Z (Z.of_nat kLow) ->
          inject_Z (Z.of_nat (length values - 1)) * pHigh
          == inject_Z (Z.of_nat kHigh) ->
          forall w, w ∈ result -> w ∈ values).
Proof.
  intros Hfin Hne Hlow Hhigh result.
  destruct (percentile_in_range values pLow Hfin Hne Hlow)
    as (low & lo1 & hi1 & Hpl & _).
  destruct (percentile_in_range values pHigh Hfin Hne Hhigh)
    as (high & lo2 & hi2 & Hph & _).
  exists low, high. split; [assumption |]. split; [assumption |].
  assert (Hres : result
                 = map (fun v => JS.min (Num high) (JS.max (Num low) v)) values).
  { subst result. unfold winsorize. now rewrite Hpl, Hph. }
  assert (Hclamp : forall v,
            exists w,
              JS.min (Num high) (JS.max (Num low) (Num v)) = Num w
              /\ (w = v \/ w = low \/ w = high)
              /\ w <= high
              /\ (low <= high -> low <= w)
              /\ (low <= v <= high -> w == v)).
  { intros v. unfold JS.max, JS.min.
    destruct (JS.lt (Num low) (Num v)) eqn:E1.
    - destruct (JS.lt (Num v) (Num high)) eqn:E2; js_compare.
      + exists v. repeat split; auto; lra.
      + exists high. repeat split; auto; lra.
    - destruct (JS.lt (Num low) (Num high)) eqn:E2; js_compare.
      + exists low. repeat split; auto; lra.
      + exists high. repeat split; auto; lra. }
  split; [rewrite Hres; apply length_map |]. split.
  - intros i v Hv. destruct (Hclamp v) as (w & Hw & Hcases).
    exists w. split; [| exact Hcases].
    rewrite Hres, list_lookup_fmap, Hv. cbn [fmap option_fmap option_map].
    now rewrite Hw.
  - intros kLow kHigh HkL HkH _ _ HiL HiH w Hw.
    destruct (percentile_at_rank values pLow kLow Hfin HkL HiL)
      as (ml & Hml & Hpl').
    destruct (percentile_at_rank values pHigh kHigh Hfin HkH HiH)
      as (mh & Hmh & Hph').
    assert (ml = low) by congruence. assert (mh = high) by congruence.
    subst ml mh.
    assert (HinL : Num low ∈ values).
    { rewrite <- (sort_numbers_perm values). eapply list_elem_of_lookup_2, Hml. }
    assert (HinH : Num high ∈ values).
    { rewrite <- (sort_numbers_perm values). eapply list_elem_of_lookup_2, Hmh. }
    rewrite Hres in Hw. apply list_elem_of_fmap in Hw as (v & -> & Hv).
    pose proof Hv as Hv'. apply list_elem_of_lookup_1 in Hv' as [i Hi].
    destruct (finite_lookup values i v Hfin Hi) as [q ->].
    destruct (Hclamp q) as (w & -> & [-> | [-> | ->]] & _); assumption.
Qed.

(** Five values winsorized at the ranks 0.25 and 0.75, the second and the
    fourth smallest: the least and the greatest value are moved onto them. *)
Lemma winsorize_clamps_witness :
  (all_finite [Num 4; Num 1; Num 30; Num 3; Num 2]
   /\ 0 <= 0.25 <= 1 /\ 0 <= 0.75 <= 1 /\ dyadic 0.25 /\ dyadic 0.75)
  /\ winsorize [Num 4; Num 1; Num 30; Num 3; Num 2] (Num 0.25) (Num 0.75)
     = [Num 4; Num 2; Num 4; Num 3; Num 2]
  /\ forall w,
       w ∈ winsorize [Num 4; Num 1; Num 30; Num 3; Num 2] (Num 0.25) (Num 0.75) ->
       w ∈ [Num 4; Num 1; Num 30; Num 3; Num 2].
Proof.
  assert (Hfin : all_finite [Num 4; Num 1; Num 30; Num 3; Num 2])
    by repeat constructor.
  assert (Hne : [Num 4; Num 1; Num 30; Num 3; Num 2] <> []) by discriminate.
  assert (Hl : 0 <= 0.25 <= 1) by (split; discriminate).
  assert (Hh : 0 <= 0.75 <= 1) by (split; discriminate).
  assert (Hdl : dyadic 0.25) by (exists 1%Z, 2%nat; reflexivity).
  assert (Hdh : dyadic 0.75) by (exists 3%Z, 2%nat; reflexivity).
  split; [now repeat split |]. split; [vm_compute; reflexivity |].
  destruct (winsorize_clamps [Num 4; Num 1; Num 30; Num 3; Num 2] 0.25 0.75
              Hfin Hne Hl Hh) as (low & high & _ & _ & _ & _ & Hwhole).
  apply (Hwhole 1%nat 3%nat);
    [simpl; lia | simpl; lia | exact Hdl | exact Hdh | reflexivity ..].
Defined.

(** ** The nearest row *)

Lemma days_from_Num (targetDate date : Date) :
  days_from targetDate date
  = Num (Qabs (inject_Z (date - targetDate)) / inject_Z ms_per_day).
Proof. reflexivity. Qed.

Lemma days_from_lt (targetDate d1 d2 : Date) :
  JS.lt (days_from targetDate d1) (days_from targetDate d2) = true
  <-> (Z.abs (d1 - targetDate) < Z.abs (d2 - targetDate))%Z.
Proof.
  rewrite !days_from_Num, lt_Num.
  assert (Hpos : 0 < inject_Z ms_per_day) by reflexivity.
  assert (Habs : forall z, Qabs (inject_Z z) == inject_Z (Z.abs z)).
  { intros z. unfold Qabs, inject_Z. reflexivity. }
  rewrite !Habs. unfold Qdiv.
  rewrite Qmult_lt_r by (apply Qinv_lt_0_compat; exact Hpos).
  now rewrite <- Zlt_Qlt.
Qed.

Section Nearest.
Context `{P : Platform} {T : Type} `{DatedValue T}.
Context (targetDate : Date) (maxDaysDiff : number).

(** What the loop of [nearestByDate] has established after the rows
    [seen]. *)
Local Abbreviation nearest_so_far seen best :=
  (match best with
   | None => forall row, row ∈ seen -> in_reach targetDate maxDaysDiff row = false
   | Some (b, diff) =>
       b ∈ seen /\ in_reach targetDate maxDaysDiff b = true
       /\ (exists db, parsed_date b = Some db /\ diff = days_from targetDate db)
       /\ forall row d db, row ∈ seen ->
            in_reach targetDate maxDaysDiff row = true ->
            parsed_date row = Some d -> parsed_date b = Some db ->
            (Z.abs (db - targetDate) <= Z.abs (d - targetDate))%Z
   end).

Lemma nearest_step_keeps (seen : list T) (best : option (T * number)) (row : T) :
  nearest_so_far seen best ->
  nearest_so_far (seen ++ [row]) (nearest_step targetDate maxDaysDiff best row).
Proof.
  intros Hinv. unfold nearest_step.
  change (parseReportDate (report_period row)) with (parsed_date row).
  destruct (parsed_date row) as [date |] eqn:Edate.
  2:{ (* no date: skipped *)
    destruct best as [[b diff] |].
    - destruct Hinv as (Hb & Hreach & Hdiff & Hmin).
      split; [apply elem_of_app; now left |].
      split; [assumption |]. split; [assumption |].
      intros r d db Hr Hrr Hd Hdb. apply elem_of_app in Hr as [Hr | Hr].
      + eapply Hmin; eassumption.
      + apply list_elem_of_singleton in Hr as ->. congruence.
    - intros r Hr. apply elem_of_app in Hr as [Hr | Hr]; [now apply Hinv |].
      apply list_elem_of_singleton in Hr as ->.
      unfold in_reach. now rewrite Edate. }
  fold (days_from targetDate date).
  assert (Hrow : in_reach targetDate maxDaysDiff row
                 = negb (JS.gt (days_from targetDate date) maxDaysDiff)).
  { unfold in_reach. now rewrite Edate. }
  destruct (JS.gt (days_from targetDate date) maxDaysDiff) eqn:Egt.
  { (* too far: skipped *)
    destruct best as [[b diff] |].
    - destruct Hinv as (Hb & Hreach & Hdiff & Hmin).
      split; [apply elem_of_app; now left |].
      split; [assumption |]. split; [assumption |].
      intros r d db Hr Hrr Hd Hdb. apply elem_of_app in Hr as [Hr | Hr].
      + eapply Hmin; eassumption.
      + apply list_elem_of_singleton in Hr as ->. rewrite Hrow in Hrr.
        discriminate.
    - intros r Hr. apply elem_of_app in Hr as [Hr | Hr]; [now apply Hinv |].
      apply list_elem_of_singleton in Hr as ->. now rewrite Hrow. }
  destruct best as [[b diff] |].
  - destruct Hinv as (Hb & Hreach & (db & Hdb & ->) & Hmin).
    destruct (JS.lt (days_from targetDate date) (days_from targetDate db)) eqn:Elt.
    + apply days_from_lt in Elt.
      split; [apply elem_of_app; right; apply list_elem_of_singleton; reflexivity |].
      split; [now rewrite Hrow |]. split; [now exists date |].
      intros r d db' Hr Hrr Hd Hdb'. rewrite Edate in Hdb'. injection Hdb' as <-.
      apply elem_of_app in Hr as [Hr | Hr].
      * specialize (Hmin r d db Hr Hrr Hd Hdb). lia.
      * apply list_elem_of_singleton in Hr as ->. rewrite Edate in Hd.
        injection Hd as <-. lia.
    + assert (Hge : (Z.abs (db - targetDate) <= Z.abs (date - targetDate))%Z).
      { destruct (Z.le_gt_cases (Z.abs (db - targetDate))
                    (Z.abs (date - targetDate))) as [Hle | Hgt]; [assumption |].
        apply days_from_lt in Hgt. congruence. }
      split; [apply elem_of_app; now left |].
      split; [assumption |]. split; [now exists db |].
      intros r d db' Hr Hrr Hd Hdb'. rewrite Hdb in Hdb'. injection Hdb' as <-.
      apply elem_of_app in Hr as [Hr | Hr].
      * eapply Hmin; eassumption.
      * apply list_elem_of_singleton in Hr as ->. rewrite Edate in Hd.
        now injection Hd as <-.
  - split; [apply elem_of_app; right; apply list_elem_of_singleton; reflexivity |].
    split; [now rewrite Hrow |]. split; [now exists date |].
    intros r d db Hr Hrr Hd Hdb. rewrite Edate in Hdb. injection Hdb as <-.
    apply elem_of_app in Hr as [Hr | Hr]; [now apply Hinv in Hr; congruence |].
    apply list_elem_of_singleton in Hr as ->. rewrite Edate in Hd.
    injection Hd as <-. lia.
Qed.

Lemma nearest_loop_keeps (rows seen : list T) (best : option (T * number)) :
  nearest_so_far seen best ->
  nearest_so_far (seen ++ rows)
    (fold_left (nearest_step targetDate maxDaysDiff) rows best).
Proof.
  revert seen best. induction rows as [| row rows IH]; intros seen best Hinv.
  - now rewrite app_nil_r.
  - cbn [fold_left]. rewrite (cons_middle row seen rows), app_assoc.
    apply IH. now apply nearest_step_keeps.
Qed.

(** X5: [nearestByDate] returns a row of [rows] whose date parses and is
    within [maxDaysDiff] days of the target, and no such row is strictly
    closer to the target; it returns [null] exactly when no row has a date
    within reach. *)
Theorem nearestByDate_closest (rows : list T) :
  match nearestByDate rows targetDate maxDaysDiff with
  | Some best =>
      best ∈ rows /\ in_reach targetDate maxDaysDiff best = true
      /\ forall row d db, row ∈ rows ->
           in_reach targetDate maxDaysDiff row = true ->
           parsed_date row = Some d -> parsed_date best = Some db ->
           (Z.abs (db - targetDate) <= Z.abs (d - targetDate))%Z
  | None =>
      forall row, row ∈ rows -> in_reach targetDate maxDaysDiff row = false
  end.
Proof.
  unfold nearestByDate.
  pose proof (nearest_loop_keeps (sortByReportPeriod rows) [] None) as Hloop.
  cbn [app] in Hloop.
  destruct (fold_left _ (sortByReportPeriod rows) None) as [[b diff] |].
  - destruct Hloop as (Hb & Hreach & _ & Hmin); [intros r Hr; inversion Hr |].
    cbn. rewrite sortByReportPeriod_perm in Hb. split; [assumption |].
    split; [assumption |]. intros r d db Hr. apply Hmin.
    now rewrite sortByReportPeriod_perm.
  - cbn. intros r Hr. apply Hloop; [intros r' Hr'; inversion Hr' |].
    now rewrite sortByReportPeriod_perm.
Qed.

End Nearest.

(** ** The as-of date and the trailing rows of [brs.ts] *)

Lemma elem_of_List_filter {A} (p : A -> bool) (xs : list A) (x : A) :
  x ∈ List.filter p xs <-> x ∈ xs /\ p x = true.
Proof. rewrite !list_elem_of_In. apply filter_In. Qed.

Lemma elem_of_set_of (x : string) (xs : list string) :
  x ∈ set_of xs <-> x ∈ xs.
Proof.
  induction xs as [| y xs IH]; [reflexivity |].
  cbn [set_of]. rewrite !elem_of_cons, elem_of_List_filter, IH.
  destruct (String.eqb_spec y x) as [-> | Hne]; simpl.
  - intuition congruence.
  - intuition congruence.
Qed.

Lemma set_has_true (s : list string) (x : string) :
  set_has s x = true <-> x ∈ s.
Proof.
  unfold set_has. rewrite existsb_exists. split.
  - intros (y & Hy & E). apply String.eqb_eq in E as ->.
    now apply list_elem_of_In.
  - intros Hx. exists x. split; [now apply list_elem_of_In |].
    apply String.eqb_refl.
Qed.

Lemma set_of_NoDup (xs : list string) : NoDup (set_of xs).
Proof.
  induction xs as [| x xs IH]; [constructor |].
  cbn [set_of]. constructor.
  - rewrite elem_of_List_filter. intros [_ E].
    now rewrite String.eqb_refl in E.
  - apply NoDup_ListNoDup, List.NoDup_filter, NoDup_ListNoDup, IH.
Qed.

Section AsofDate.
Context `{P : Platform}.

Lemma elem_of_asof_candidates (income : list IncomeStatement.t)
    (balance : list BalanceSheet.t) (cashflow : list CashFlowStatement.t)
    (d : string) :
  d ∈ asof_candidates income balance cashflow
  <-> d ∈ map report_period income /\ d ∈ map report_period balance
      /\ d ∈ map report_period cashflow.
Proof.
  unfold asof_candidates.
  rewrite elem_of_List_filter, andb_true_iff, !set_has_true, !elem_of_set_of.
  tauto.
Qed.

Lemma elem_of_sorted_candidates (candidates : list string) (d : string)
    (date : Date) :
  (d, date) ∈ sorted_candidates candidates
  <-> d ∈ candidates /\ parseReportDate d = Some date.
Proof.
  unfold sorted_candidates. rewrite js_sort_perm, list_elem_of_omap. split.
  - intros (d' & Hin & E). destruct (parseReportDate d') as [date' |] eqn:Ep;
      [| discriminate]. cbn in E. injection E as <- <-. auto.
  - intros [Hin E]. exists d. split; [assumption |]. now rewrite E.
Qed.

(** The last element of an array sorted by an integer key has the greatest
    key. *)
Lemma js_sort_last_greatest {A} (key : A -> Z) (xs : list A) (last : A) :
  let sorted := js_sort (fun a b => JS.of_Z (key a - key b)) xs in
  sorted !! (length sorted - 1)%nat = Some last ->
  forall x, x ∈ xs -> (key x <= key last)%Z.
Proof.
  intros sorted Hlast x Hx.
  assert (Hkey : forall x y : A, True -> True ->
            (JS.lt (JS.of_Z (key x - key y)) (Num 0) = true
             <-> (key x < key y)%Z)).
  { intros a b _ _. unfold JS.of_Z. rewrite lt_Num.
    change 0 with (inject_Z 0). rewrite <- Zlt_Qlt. lia. }
  assert (Hok : Forall (fun _ : A => True) xs) by (apply Forall_forall; auto).
  assert (Hin : x ∈ sorted) by (unfold sorted; now rewrite js_sort_perm).
  apply list_elem_of_lookup_1 in Hin as [i Hi].
  pose proof (lookup_lt_Some _ _ _ Hi) as Hlt.
  destruct (decide (i = length sorted - 1)%nat) as [E | Hne].
  { rewrite E, Hlast in Hi. injection Hi as ->. lia. }
  assert (Hij : (i < length sorted - 1)%nat) by lia.
  exact (js_sort_ascending _ key (fun _ => True) Hkey xs Hok i _ x last
           Hij Hi Hlast).
Qed.

Lemma sorted_candidates_latest (candidates : list string) (entry : string * Date) :
  sorted_candidates candidates !! (length (sorted_candidates candidates) - 1)%nat
  = Some entry ->
  forall (d : string) (date : Date),
    (d, date) ∈ sorted_candidates candidates -> (date <= snd entry)%Z.
Proof.
  intros Hlast d date Hin. unfold sorted_candidates in Hin.
  rewrite js_sort_perm in Hin.
  exact (js_sort_last_greatest (fun e : string * Date => snd e) _ entry
           Hlast (d, date) Hin).
Qed.

(** X6: [resolveAsofDate] of [brs.ts]. When the three statements have a
    report period in common, the as-of date is the latest of the common
    periods that parse, without a warning, and when none of the common
    periods parses the function raises a [TypeError]; when they have no
    period in common, it warns [asof_misalignment] and falls back to the
    latest date of the income statements, else of the balance sheets, else
    of the cash-flow statements. *)
Theorem resolveAsofDate_latest_common (income : list IncomeStatement.t)
    (balance : list BalanceSheet.t) (cashflow : list CashFlowStatement.t) :
  let common d :=
    d ∈ map report_period income /\ d ∈ map report_period balance
    /\ d ∈ map report_period cashflow in
  match resolveAsofDate income balance cashflow with
  | Throw e =>
      e = "TypeError" /\ (exists d, common d)
      /\ forall d, common d -> parseReportDate d = None
  | Return (asofDate, warnings) =>
      ((forall d, ~ common d) /\ warnings = ["asof_misalignment"]
       /\ asofDate
          = or_else (latestReportDate income)
              (or_else (latestReportDate balance) (latestReportDate cashflow)))
      \/ (warnings = []
          /\ exists d date,
               common d /\ parseReportDate d = Some date
               /\ asofDate = Some date
               /\ forall d' date', common d' -> parseReportDate d' = Some date' ->
                                   (date' <= date)%Z)
  end.
Proof.
  intros common. unfold resolveAsofDate.
  set (candidates := asof_candidates income balance cashflow).
  assert (Hcommon : forall d, d ∈ candidates <-> common d)
    by (intros d; apply elem_of_asof_candidates).
  destruct (decide (0 < length candidates)%nat) as [Hpos | Hzero].
  - destruct (sorted_candidates candidates
              !! (length (sorted_candidates candidates) - 1)%nat)
      as [[d date] |] eqn:Elast.
    + right. split; [reflexivity |]. exists d, date.
      pose proof (list_elem_of_lookup_2 _ _ _ Elast) as Hin.
      apply elem_of_sorted_candidates in Hin as [Hin Hparse].
      split; [now apply Hcommon |]. split; [assumption |].
      split; [reflexivity |]. intros d' date' Hd' Hparse'.
      apply (sorted_candidates_latest candidates (d, date) Elast d' date').
      apply elem_of_sorted_candidates. split; [now apply Hcommon | assumption].
    + split; [reflexivity |]. split.
      * destruct candidates as [| d rest] eqn:Ec; [simpl in Hpos; lia |].
        exists d. apply Hcommon. now left.
      * intros d Hd. apply Hcommon in Hd.
        destruct (parseReportDate d) as [date |] eqn:Ep; [| reflexivity].
        exfalso.
        destruct (sorted_candidates_last candidates d Hd) as [entry He];
          [now rewrite Ep |]. congruence.
  - left. split; [| split; reflexivity].
    intros d Hd. apply Hcommon in Hd.
    destruct candidates; [inversion Hd | simpl in Hzero; lia].
Qed.

End AsofDate.

(** ** Order facts *)

Lemma ordered_lookup_sorted {A} (R : A -> A -> Prop) (xs : list A) :
  (forall i j a b, (i < j)%nat -> xs !! i = Some a -> xs !! j = Some b -> R a b) ->
  StronglySorted R xs.
Proof.
  induction xs as [| x xs IH]; intros Hord; constructor.
  - apply IH. intros i j a b Hij Hi Hj. apply (Hord (S i) (S j)); [lia | assumption ..].
  - apply Forall_forall. intros y Hy.
    apply list_elem_of_lookup_1 in Hy as [j Hj].
    apply (Hord 0%nat (S j)); [lia | reflexivity | assumption].
Qed.

Lemma sorted_ordered_lookup {A} (R : A -> A -> Prop) (xs : list A) :
  StronglySorted R xs ->
  forall i j a b, (i < j)%nat -> xs !! i = Some a -> xs !! j = Some b -> R a b.
Proof.
  induction 1 as [| x xs Hs IH Hx]; intros i j a b Hij Hi Hj.
  - now rewrite lookup_nil in Hi.
  - destruct j as [| j]; [lia |]. destruct i as [| i]; simpl in *.
    + injection Hi as <-. rewrite Forall_forall in Hx. apply Hx.
      eapply list_elem_of_lookup_2. exact Hj.
    + eapply IH; [| eassumption ..]. lia.
Qed.

Lemma sorted_List_filter {A} (R : A -> A -> Prop) (p : A -> bool) (xs : list A) :
  StronglySorted R xs -> StronglySorted R (List.filter p xs).
Proof.
  induction 1 as [| x xs Hs IH Hx]; simpl; [constructor |].
  destruct (p x); [| assumption]. constructor; [assumption |].
  rewrite Forall_forall in *. intros y Hy.
  apply elem_of_List_filter in Hy as [Hy _]. now apply Hx.
Qed.

Lemma sorted_app_cross {A} (R : A -> A -> Prop) (xs ys : list A) :
  StronglySorted R (xs ++ ys) ->
  StronglySorted R ys /\ forall a b, a ∈ xs -> b ∈ ys -> R a b.
Proof.
  induction xs as [| x xs IH]; simpl; intros Hs.
  - split; [assumption |]. intros a b Ha. inversion Ha.
  - inversion Hs as [| ? ? Hs' Hx]; subst. destruct (IH Hs') as [Hys Hcross].
    split; [assumption |]. intros a b Ha Hb.
    apply elem_of_cons in Ha as [-> | Ha]; [| now apply Hcross].
    rewrite Forall_forall in Hx. apply Hx. apply elem_of_app. now right.
Qed.

Section TrailingRows.
Context `{P : Platform} {T : Type} `{DatedValue T}.

(** [a] is dated no later than [b], when both have a date. *)
Local Abbreviation no_later :=
  (fun a b : T => forall da db, parsed_date a = Some da -> parsed_date b = Some db ->
                                (da <= db)%Z).

Lemma sortByReportPeriod_sorted (rows : list T) :
  Forall (fun row => unparseable row = false) rows ->
  StronglySorted no_later (sortByReportPeriod rows).
Proof.
  intros Hok. apply ordered_lookup_sorted. intros i j a b Hij Hi Hj da db Ha Hb.
  pose proof (js_sort_ascending compareReportPeriod
                (fun r => default 0%Z (parsed_date r))
                (fun r => unparseable r = false)
                compare_by_date rows Hok i j a b Hij Hi Hj) as Hle.
  cbv beta in Hle. now rewrite Ha, Hb in Hle.
Qed.

(** X7: [lastNRows] returns at most [n] rows, all of them rows of the
    input dated on or before the as-of date; when the date of every row
    parses, they are in non-decreasing order of date and are the most recent
    ones: a row on or before the as-of date that is left out is dated no
    later than any row returned, and is left out only when [n] rows are
    returned. *)
Theorem lastNRows_most_recent (rows : list T) (asofDate : Date) (n : nat) :
  let kept := lastNRows rows asofDate n in
  (length kept <= n)%nat
  /\ (forall row, row ∈ kept ->
        row ∈ rows
        /\ exists d, parsed_date row = Some d /\ (d <= asofDate)%Z)
  /\ (Forall (fun row => unparseable row = false) rows ->
      dates_ascending kept
      /\ forall row d, row ∈ rows -> parsed_date row = Some d ->
           (d <= asofDate)%Z -> row ∉ kept ->
           length kept = n
           /\ forall k dk, k ∈ kept -> parsed_date k = Some dk -> (d <= dk)%Z).
Proof.
  intros kept. unfold lastNRows in kept.
  set (on_or_before := fun row : T =>
         match parseReportDate (report_period row) with
         | Some date => (date <=? asofDate)%Z
         | None => false
         end) in *.
  set (filtered := List.filter on_or_before (sortByReportPeriod rows)) in *.
  assert (Hfilter : forall row, row ∈ filtered
            <-> row ∈ rows /\ exists d, parsed_date row = Some d /\ (d <= asofDate)%Z).
  { intros row. unfold filtered.
    rewrite elem_of_List_filter, sortByReportPeriod_perm.
    unfold on_or_before, parsed_date.
    destruct (parseReportDate (report_period row)) as [d |].
    - rewrite Z.leb_le. split.
      + intros [? ?]. eauto.
      + intros [? (d' & E & ?)]. injection E as <-. auto.
    - split; [intros [_ ?]; discriminate | intros [_ (d' & E & _)]; discriminate]. }
  assert (Hsplit : filtered = take (length filtered - n) filtered ++ kept)
    by (symmetry; apply take_drop).
  split; [| split].
  - unfold kept, slice_last. rewrite length_drop. lia.
  - intros row Hrow. apply Hfilter. rewrite Hsplit. apply elem_of_app. now right.
  - intros Hok.
    assert (Hsorted : StronglySorted no_later filtered)
      by (apply sorted_List_filter, sortByReportPeriod_sorted, Hok).
    rewrite Hsplit in Hsorted. apply sorted_app_cross in Hsorted as [Hkept Hcross].
    split.
    + intros i j a b da db Hij Hi Hj Ha Hb.
      exact (sorted_ordered_lookup _ _ Hkept i j a b Hij Hi Hj da db Ha Hb).
    + intros row d Hrow Hd Hle Hout.
      assert (Hin : row ∈ filtered) by (apply Hfilter; eauto).
      rewrite Hsplit in Hin. apply elem_of_app in Hin as [Hin | Hin];
        [| contradiction].
      split.
      * unfold kept, slice_last. rewrite length_drop.
        apply list_elem_of_lookup_1 in Hin as [i Hi].
        apply lookup_lt_Some in Hi. rewrite length_take in Hi. lia.
      * intros k dk Hk Hdk. exact (Hcross row k Hin Hk d dk Hd Hdk).
Qed.

End TrailingRows.

Lemma lastNRows_most_recent_witness :
  Forall (fun row => unparseable (P := Sample.platform) row = false)
         Examples.shuffled_quarters
  /\ dates_ascending (P := Sample.platform)
       (lastNRows (P := Sample.platform) Examples.shuffled_quarters
          1703980800000%Z 4).
Proof.
  assert (Hok : Forall (fun row => unparseable (P := Sample.platform) row = false)
                       Examples.shuffled_quarters)
    by (repeat constructor).
  split; [exact Hok |].
  exact (proj1 (proj2 (proj2 (lastNRows_most_recent (P := Sample.platform)
                                Examples.shuffled_quarters 1703980800000%Z 4))
                      Hok)).
Defined.

(** ** The scores of [computeBrs] *)

(** Decides the comparisons of a banded score on two finite arguments. *)
Ltac band_cases :=
  repeat match goal with
    | |- context [if ?c then _ else _] => destruct c eqn:?
    end;
  js_compare; try reflexivity; try lra.

(** X8: the banded cash scores never fall when the measure rises:
    [scoreFcfYield], [scoreCashConversion] and [scoreFcfConversion] are
    non-decreasing in their argument, and [scoreEvToEbitdaPercentile] is
    non-increasing in the percentile rank (a cheaper multiple never scores
    lower). *)
Theorem banded_scores_monotone (x y : Q) :
  x <= y ->
  JS.le (scoreFcfYield (Some (Num x))) (scoreFcfYield (Some (Num y))) = true
  /\ JS.le (scoreCashConversion (Some (Num x)))
           (scoreCashConversion (Some (Num y))) = true
  /\ JS.le (scoreFcfConversion (Some (Num x)))
           (scoreFcfConversion (Some (Num y))) = true
  /\ JS.le (fst (scoreEvToEbitdaPercentile (Some (Num y))))
           (fst (scoreEvToEbitdaPercentile (Some (Num x)))) = true.
Proof.
  intros Hxy.
  unfold scoreFcfYield, scoreCashConversion, scoreFcfConversion,
    scoreEvToEbitdaPercentile.
  repeat split; band_cases.
Qed.

Lemma banded_scores_monotone_witness :
  0.04 <= 0.12
  /\ JS.le (scoreFcfYield (Some (Num 0.04))) (scoreFcfYield (Some (Num 0.12)))
     = true.
Proof.
  assert (H : 0.04 <= 0.12) by discriminate.
  split; [exact H |]. exact (proj1 (banded_scores_monotone 0.04 0.12 H)).
Defined.

Section BrsCategories.
Context `{P : Platform}.

Lemma resolveAsofDate_raises (income : list IncomeStatement.t)
    (balance : list BalanceSheet.t) (cashflow : list CashFlowStatement.t)
    (e : string) :
  resolveAsofDate income balance cashflow = Throw e -> e = "TypeError".
Proof.
  unfold resolveAsofDate. destruct (decide _); [| discriminate].
  destruct (_ !! _); [discriminate |]. now intros [= <-].
Qed.

(** X9: when [computeBrs] returns, its five category scores are finite and
    within their maxima: valuation sanity within [[0, 25]], cash truth
    quality within [[0, 20]], capital efficiency within [[0, 25]],
    balance-sheet risk within [[0, 15]] and, when
    [low_history_gm_multiplier] lies within [[0, 1]], durability alignment
    within [[0, 15]]. The only exception that it raises is the [TypeError]
    of the as-of date. *)
Theorem computeBrs_category_bounds (inputs : BrsInputs.t) :
  match computeBrs inputs with
  | Throw e => e = "TypeError"
  | Return r =>
      let scores := BrsResult.scores r in
      within 0 25 (BrsScores.valuation_sanity scores)
      /\ within 0 20 (BrsScores.cash_truth_quality scores)
      /\ within 0 25 (BrsScores.capital_efficiency scores)
      /\ within 0 15 (BrsScores.balance_sheet_risk scores)
      /\ forall m,
           BrsConfig.low_history_gm_multiplier
             (BrsConfig.merge DEFAULT_BRS_CONFIG
                (default BrsConfig.no_override (BrsInputs.config inputs)))
           = Num m ->
           0 <= m <= 1 ->
           within 0 15 (BrsScores.durability_alignment scores)
  end.
Proof.
  unfold computeBrs.
  destruct (resolveAsofDate _ _ _) as [[asofDate w_asof] | e] eqn:Easof;
    [| exact (resolveAsofDate_raises _ _ _ _ Easof)].
  set (l := brs_locals inputs asofDate w_asof).
  assert (Hev : within 0 15 (BrsLocals.evScore l)) by apply ev_score_within.
  assert (Hfy : within 0 10 (BrsLocals.fcfYieldScore l))
    by apply scoreFcfYield_within.
  assert (Hcc : within 0 10 (BrsLocals.cashConversionScore l))
    by apply scoreCashConversion_within.
  assert (Hfc : within 0 10 (BrsLocals.fcfConversionScore l))
    by apply scoreFcfConversion_within.
  assert (Hrw : within 0 15 (BrsLocals.roicVsWaccScore l))
    by apply roic_vs_wacc_within.
  assert (Hir : within 0 10 (BrsLocals.incrementalRoicScore l))
    by apply scoreIncrementalRoic_within.
  assert (Hnd : within 0 10 (BrsLocals.netDebtScore l))
    by apply net_debt_within.
  assert (Hic : within 0 5 (BrsLocals.interestCoverageScore l))
    by apply interest_coverage_within.
  assert (Hsy : within 0 5 (BrsLocals.shareholderYieldScore l))
    by apply shareholder_yield_within.
  assert (Hsb : within 0 5 (BrsLocals.sbcToFcfScore l))
    by apply sbc_to_fcf_within.
  cbv zeta. cbn [brs_result BrsResult.scores BrsScores.valuation_sanity
    BrsScores.cash_truth_quality BrsScores.capital_efficiency
    BrsScores.balance_sheet_risk BrsScores.durability_alignment].
  split; [| split; [| split; [| split]]].
  - change (BrsLocals.valuationSanity l)
      with (JS.add (BrsLocals.evScore l) (BrsLocals.fcfYieldScore l)).
    eapply within_weaken; [apply within_add; eassumption | lra | lra].
  - change (BrsLocals.cashTruthQuality l)
      with (JS.add (BrsLocals.cashConversionScore l)
                   (BrsLocals.fcfConversionScore l)).
    eapply within_weaken; [apply within_add; eassumption | lra | lra].
  - change (BrsLocals.capitalEfficiency l)
      with (JS.add (BrsLocals.roicVsWaccScore l)
                   (BrsLocals.incrementalRoicScore l)).
    eapply within_weaken; [apply within_add; eassumption | lra | lra].
  - change (BrsLocals.balanceSheetRisk l)
      with (JS.add (BrsLocals.netDebtScore l)
                   (BrsLocals.interestCoverageScore l)).
    eapply within_weaken; [apply within_add; eassumption | lra | lra].
  - intros m Hm Hrange.
    assert (Hgm : within 0 5 (BrsLocals.grossMarginScore l))
      by (apply (scoreGrossMarginStability_within _ _ m); assumption).
    change (BrsLocals.durabilityAlignment l)
      with (JS.add (JS.add (BrsLocals.grossMarginScore l)
                           (BrsLocals.shareholderYieldScore l))
                   (BrsLocals.sbcToFcfScore l)).
    eapply within_weaken; [repeat apply within_add; eassumption | lra | lra].
Qed.

(** X10: the peers that [resolvePeerSet] returns are companies of the
    universe, in the order of the universe; at the level [industry] every
    peer has the industry of the company, and at the level [sector] every
    peer has its sector. *)
Theorem resolvePeerSet_from_universe (ticker : string)
    (facts : list CompanyFacts.t) (universe : list UniverseMetric.t)
    (minPeers : number) :
  let peers := fst (resolvePeerSet ticker facts universe minPeers) in
  let level := snd (resolvePeerSet ticker facts universe minPeers) in
  let company := resolveCompanyFacts ticker facts in
  sublist peers universe
  /\ (level = level_industry ->
      forall peer, peer ∈ peers ->
        exists industry,
          company ≫= CompanyFacts.industry = Some industry
          /\ UniverseMetric.industry peer = Some industry)
  /\ (level = level_sector ->
      forall peer, peer ∈ peers ->
        exists sector,
          company ≫= CompanyFacts.sector = Some sector
          /\ UniverseMetric.sector peer = Some sector).
Proof.
  assert (Hsub : forall p, sublist (List.filter p universe) universe).
  { intros p. induction universe as [| u us IH]; simpl; [constructor |].
    destruct (p u); now constructor. }
  assert (Hgroup : forall mine theirs,
            same_group mine theirs = true ->
            exists g, mine = Some g /\ theirs = Some g).
  { intros [a |] [b |]; simpl; try discriminate.
    intros E. apply String.eqb_eq in E as ->. eauto. }
  cbv zeta. unfold resolvePeerSet, byIndustry, bySector.
  set (industry := resolveCompanyFacts ticker facts ≫= CompanyFacts.industry).
  set (sector := resolveCompanyFacts ticker facts ≫= CompanyFacts.sector).
  assert (Hind : forall peer,
            peer ∈ (if truthy_string industry
                    then List.filter (fun u => same_group industry
                                                 (UniverseMetric.industry u))
                                     universe
                    else []) ->
            exists g, industry = Some g /\ UniverseMetric.industry peer = Some g).
  { intros peer. destruct (truthy_string industry); [| intros Hp; inversion Hp].
    rewrite elem_of_List_filter. intros [_ E]. now apply Hgroup. }
  assert (Hsec : forall peer,
            peer ∈ (if truthy_string sector
                    then List.filter (fun u => same_group sector
                                                 (UniverseMetric.sector u))
                                     universe
                    else []) ->
            exists g, sector = Some g /\ UniverseMetric.sector peer = Some g).
  { intros peer. destruct (truthy_string sector); [| intros Hp; inversion Hp].
    rewrite elem_of_List_filter. intros [_ E]. now apply Hgroup. }
  assert (Hsub_ind : sublist (if truthy_string industry
                              then List.filter (fun u => same_group industry
                                                  (UniverseMetric.industry u))
                                               universe
                              else []) universe).
  { destruct (truthy_string industry); [apply Hsub | apply sublist_nil_l]. }
  assert (Hsub_sec : sublist (if truthy_string sector
                              then List.filter (fun u => same_group sector
                                                  (UniverseMetric.sector u))
                                               universe
                              else []) universe).
  { destruct (truthy_string sector); [apply Hsub | apply sublist_nil_l]. }
  destruct (reaches _ minPeers); cbn [fst snd].
  { split; [assumption |]. split; [intros _; assumption | discriminate]. }
  destruct (reaches _ minPeers); cbn [fst snd].
  { split; [assumption |]. split; [discriminate | intros _; assumption]. }
  destruct (reaches universe minPeers); cbn [fst snd].
  { split; [reflexivity |]. split; discriminate. }
  split; [| split; discriminate].
  destruct (decide _); [assumption | reflexivity].
Qed.

End BrsCategories.

Lemma computeBrs_category_bounds_witness :
  match computeBrs (P := Sample.platform) (Examples.brs_inputs (Num 8) None) with
  | Throw _ => False
  | Return r =>
      within 0 25 (BrsScores.valuation_sanity (BrsResult.scores r))
      /\ within 0 15 (BrsScores.durability_alignment (BrsResult.scores r))
  end.
Proof.
  pose proof (computeBrs_category_bounds (P := Sample.platform)
                (Examples.brs_inputs (Num 8) None)) as Hbounds.
  destruct (computeBrs (P := Sample.platform) (Examples.brs_inputs (Num 8) None))
    as [r | e] eqn:E; [| vm_compute in E; discriminate].
  destruct Hbounds as (Hv & _ & _ & _ & Hd).
  split; [exact Hv |].
  apply (Hd 0.5); [reflexivity | split; discriminate].
Defined.

(** ** The Market Dislocation Score *)

Lemma within_15_cases (x : number) :
  x = Num 0 \/ x = Num 10 \/ x = Num 15 -> within 0 15 x.
Proof. intros [-> | [-> | ->]]; simpl; lra. Qed.

Section MdsComponents.
Context `{P : Platform}.

Lemma mdsPoints_cases (docs : list NarrativeDoc.t)
    (options : NarrativeShockParams.options) :
  let points := NarrativeLocals.mdsPoints (narrative_locals docs options) in
  points = Num 0 \/ points = Num 10 \/ points = Num 15.
Proof.
  assert (H : NarrativeLocals.mdsPoints (narrative_locals docs options)
              = match NarrativeLocals.shockType (narrative_locals docs options) with
                | ONE_OFF => Num 15
                | MACRO_ROTATION => Num 10
                | _ => Num 0
                end) by reflexivity.
  cbv zeta. rewrite H. destruct (NarrativeLocals.shockType _); auto.
Qed.

Lemma narrative_step_cases (inputs : MdsSeriesInputs.t)
    (narrative : number * option NarrativeShockResult.t * list string) :
  Mds.narrative_step inputs = Return narrative ->
  fst (fst narrative) = Num 0 \/ fst (fst narrative) = Num 10
  \/ fst (fst narrative) = Num 15.
Proof.
  unfold Mds.narrative_step.
  destruct (MdsSeriesInputs.docs inputs) as [[| d ds] |];
    try (intros [= <-]; auto).
  destruct (classifyNarrativeShock _ _) as [detail | e] eqn:E; [| discriminate].
  intros [= <-]. cbn [fst].
  rewrite (classify_points _ _ _ E). apply mdsPoints_cases.
Qed.

Lemma classifyNarrativeShock_raises (docs : list NarrativeDoc.t)
    (options : NarrativeShockParams.options) (e : string) :
  classifyNarrativeShock docs options = Throw e -> e = "RangeError".
Proof.
  unfold classifyNarrativeShock.
  generalize (narrative_locals docs options). intros l.
  destruct (NarrativeLocals.windowStart l); [| now intros [= <-]].
  destruct (NarrativeLocals.windowEnd l); [discriminate | now intros [= <-]].
Qed.

Lemma narrative_step_raises (inputs : MdsSeriesInputs.t) (e : string) :
  Mds.narrative_step inputs = Throw e -> e = "RangeError".
Proof.
  unfold Mds.narrative_step.
  destruct (MdsSeriesInputs.docs inputs) as [[| d ds] |]; try discriminate.
  destruct (classifyNarrativeShock _ _) as [detail | e'] eqn:E; [discriminate |].
  intros [= <-]. exact (classifyNarrativeShock_raises _ _ _ E).
Qed.

Lemma mds_asof_raises (inputs : MdsSeriesInputs.t) (e : string) :
  Mds.mds_asof inputs = Throw e -> e = "TypeError".
Proof.
  unfold Mds.mds_asof. destruct (truthy_string _); [discriminate |].
  unfold Mds.resolveAsofDate. cbv zeta.
  destruct (decide _); [| discriminate].
  destruct (_ !! _); [discriminate |]. now intros [= <-].
Qed.

Lemma expectation_reset_within (config : MdsConfig.t)
    (estimates : option (list EstimatePoint.t)) (revenueSeries : list TtmPoint) :
  within 0 10 (fst (Mds.expectation_reset config estimates revenueSeries)).
Proof.
  unfold Mds.expectation_reset.
  destruct (decide _); [| simpl; lra].
  destruct (last _) as [recentRow |]; [| simpl; lra].
  destruct (_ !! _) as [priorRow |]; [| simpl; lra].
  destruct (EstimatePoint.eps_estimate recentRow); [| simpl; lra].
  destruct (EstimatePoint.eps_estimate priorRow); [| simpl; lra].
  destruct (_ && _); [| simpl; lra].
  cbv zeta.
  match goal with
  | |- context [match ?signal with Some _ => _ | None => _ end] =>
      destruct signal as [[|] |]
  end; simpl; lra.
Qed.

(** X11: when [computeMdsFromSeries] returns and [history_min] is not
    [NaN], its components are finite and within their maxima: multiple
    compression within [[0, 30]], expectation reset within [[0, 10]],
    narrative shock one of 0, 10 and 15, operating resilience within
    [[0, 25]] and market positioning within [[0, 20]]; the maxima add up to
    100, so the final clamp never binds and the total is the sum of the
    components. The exceptions that it raises are the [TypeError] of the
    as-of date and the [RangeError] of the narrative window. *)
Theorem computeMdsFromSeries_components (inputs : MdsSeriesInputs.t) :
  match Mds.computeMdsFromSeries inputs with
  | Throw e => e = "TypeError" \/ e = "RangeError"
  | Return r =>
      MdsConfig.history_min
        (MdsConfig.merge DEFAULT_MDS_CONFIG
           (default MdsConfig.no_override (MdsSeriesInputs.config inputs)))
      <> NaN ->
      let compression := MdsSeriesResult.multiple_compression_points r in
      let reset := MdsSeriesResult.expectation_reset_points r in
      let narrative := MdsSeriesResult.narrative_shock_points r in
      let resilience := MdsSeriesResult.operating_resilience_points r in
      let positioning := MdsSeriesResult.market_positioning_points r in
      within 0 30 compression /\ within 0 10 reset
      /\ (narrative = Num 0 \/ narrative = Num 10 \/ narrative = Num 15)
      /\ within 0 25 resilience /\ within 0 20 positioning
      /\ MdsSeriesResult.expectation_reset_total r = JS.add reset narrative
      /\ num_eqv (MdsSeriesResult.total_mds_points r)
           (JS.add (JS.add (JS.add compression (JS.add reset narrative))
                           resilience)
                   positioning)
  end.
Proof.
  unfold Mds.computeMdsFromSeries.
  destruct (Mds.mds_asof inputs) as [[asofDate w_asof] | e] eqn:Easof;
    [| left; exact (mds_asof_raises _ _ Easof)].
  destruct (Mds.narrative_step inputs) as [narrative | e] eqn:Enar;
    [| right; exact (narrative_step_raises _ _ Enar)].
  intros Hmin. set (l := Mds.mds_locals inputs asofDate w_asof narrative).
  assert (Hc : JS.isFinite (MdsLocals.compressionScore l) = true).
  { apply finite_min; apply applyCoverage_finite; try exact Hmin;
      apply computeHistoryScore_finite, compressionScoreFn_finite. }
  assert (Hf : JS.isFinite (MdsLocals.fcfYieldScore l) = true).
  { apply finite_min; apply applyCoverage_finite; try exact Hmin;
      apply computeHistoryScore_finite, fcfYieldScoreFn_finite. }
  assert (Hmc : within 0 30 (MdsLocals.multipleCompressionPoints l)).
  { apply clamp_within; [lra |]. apply finite_not_NaN. now apply finite_add. }
  assert (Her : within 0 10 (MdsLocals.expectationReset l))
    by apply expectation_reset_within.
  assert (Hn : MdsLocals.narrativeShockPoints l = Num 0
               \/ MdsLocals.narrativeShockPoints l = Num 10
               \/ MdsLocals.narrativeShockPoints l = Num 15)
    by exact (narrative_step_cases _ _ Enar).
  assert (Hor : within 0 25 (MdsLocals.operatingResilience l)).
  { apply clamp_within; [lra |]. apply finite_not_NaN.
    repeat apply finite_add.
    - apply gm_defense_finite.
    - apply ocf_score_finite.
    - apply capex_score_finite. }
  assert (Hmp : within 0 20 (MdsLocals.marketPositioning l)).
  { apply clamp_within; [lra |]. apply finite_not_NaN.
    repeat apply finite_add.
    - apply short_interest_score_finite.
    - apply ownership_score_finite.
    - apply insider_bonus_finite. }
  cbv zeta.
  cbn [Mds.mds_result MdsSeriesResult.multiple_compression_points
    MdsSeriesResult.expectation_reset_points
    MdsSeriesResult.narrative_shock_points
    MdsSeriesResult.operating_resilience_points
    MdsSeriesResult.market_positioning_points
    MdsSeriesResult.expectation_reset_total
    MdsSeriesResult.total_mds_points].
  repeat (split; [assumption |]).
  split; [reflexivity |].
  change (MdsLocals.total l) with
    (clamp
       (JS.add
          (JS.add
             (JS.add (MdsLocals.multipleCompressionPoints l)
                     (JS.add (MdsLocals.expectationReset l)
                             (MdsLocals.narrativeShockPoints l)))
             (MdsLocals.operatingResilience l))
          (MdsLocals.marketPositioning l))
       (Num 0) (Num 100)).
  apply within_clamp_id.
  eapply within_weaken;
    [repeat apply within_add;
       try eassumption; apply within_15_cases, Hn | lra | lra].
Qed.

(** Replaces the comparisons of numbers by their possible outcomes. *)
Ltac outcome_cases :=
  repeat match goal with
    | |- context [JS.ge ?x ?y] => generalize (JS.ge x y); intros []
    | |- context [JS.gt ?x ?y] => generalize (JS.gt x y); intros []
    | |- context [JS.le ?x ?y] => generalize (JS.le x y); intros []
    | |- context [JS.lt ?x ?y] => generalize (JS.lt x y); intros []
    | |- context [JS.eq ?x ?y] => generalize (JS.eq x y); intros []
    end.

Lemma zero_toFixed2 (x : number) :
  num_eqv x (Num 0) -> num_eqv (JS.toFixed2 x) (Num 0).
Proof.
  destruct x as [q | | |]; try (simpl; tauto). intros Hq. simpl in Hq.
  unfold JS.toFixed2.
  destruct (Qle_bool _ _) eqn:E.
  - apply Qle_bool_iff in E. rewrite Hq in E. exfalso.
    revert E. apply Qlt_not_le. reflexivity.
  - assert (Hfloor : Qfloor (Qabs q * 100 + (1 # 2)) = 0%Z).
    { rewrite (Qfloor_comp _ (1 # 2)); [reflexivity |].
      rewrite Hq. reflexivity. }
    rewrite Hfloor. destruct (JS.sgn q); simpl; reflexivity.
Qed.

Lemma zero_min (x y : number) :
  num_eqv x (Num 0) -> num_eqv y (Num 0) -> num_eqv (JS.min x y) (Num 0).
Proof.
  destruct x, y; simpl; try tauto. intros Hx Hy.
  unfold JS.min. destruct (JS.lt _ _); assumption.
Qed.

Lemma applyCoverage_zero (score : number) (available : nat)
    (config : MdsConfig.t) (tag : string) :
  score = Num 0 -> MdsConfig.history_min config <> NaN ->
  num_eqv (fst (Mds.applyCoverage score available config tag)) (Num 0).
Proof.
  intros -> Hmin. unfold Mds.applyCoverage.
  destruct (JS.ge _ _) eqn:Ege; [simpl; reflexivity |].
  destruct (decide _) as [| Hpos]; [simpl; reflexivity |].
  cbn [fst]. apply zero_toFixed2.
  destruct (MdsConfig.history_min config) as [h | | |] eqn:Eh;
    try congruence.
  - unfold JS.of_nat, JS.div in *.
    destruct (Qeq_bool h 0) eqn:E0.
    + exfalso. apply Qeq_bool_iff in E0. apply le_Num_false in Ege.
      assert (0 <= inject_Z (Z.of_nat available)).
      { change 0 with (inject_Z 0). rewrite <- Zle_Qle. lia. }
      lra.
    + simpl. ring.
  - simpl. reflexivity.
  - discriminate.
Qed.

Lemma computeHistoryScore_zero (current : option number)
    (history : list TtmPoint) (windowSize : number)
    (scoreFn : number -> number -> number) :
  (forall a b, scoreFn a b = Num 0) ->
  fst (Mds.computeHistoryScore current history windowSize scoreFn) = Num 0.
Proof.
  intros Hfn. unfold Mds.computeHistoryScore.
  destruct current; [| reflexivity].
  destruct (decide _); [reflexivity |].
  destruct (median _); [apply Hfn | reflexivity].
Qed.

(** X12: the guards of [computeMdsFromSeries] against value traps. When the
    EBITDA trend is [collapse] or [unknown], the multiple-compression
    sub-score is 0 whatever the compression of the multiple; when the
    stability of the free cash flow is [collapse] or [unknown], the sub-score
    of the free-cash-flow yield is 0 whatever its expansion ([history_min]
    not being [NaN]). *)
Theorem value_trap_guards (inputs : MdsSeriesInputs.t) (asofDate : option Date)
    (w_asof : list string)
    (narrative : number * option NarrativeShockResult.t * list string) :
  let l := Mds.mds_locals inputs asofDate w_asof narrative in
  let subscores := MdsSeriesResult.subscores (Mds.mds_result inputs l) in
  MdsConfig.history_min (MdsLocals.config l) <> NaN ->
  (MdsLocals.ebitdaTrend l = trend_collapse
   \/ MdsLocals.ebitdaTrend l = trend_unknown ->
   num_eqv (MdsSubscores.multiple_compression subscores) (Num 0))
  /\ (MdsLocals.fcfStability l = fcf_collapse
      \/ MdsLocals.fcfStability l = fcf_unknown ->
      num_eqv (MdsSubscores.fcf_yield_expansion subscores) (Num 0)).
Proof.
  intros l subscores Hmin. split.
  - intros Htrend.
    assert (Hfn : forall a b,
              Mds.compressionScoreFn (MdsLocals.config l)
                (MdsLocals.ebitdaTrend l) a b = Num 0).
    { intros a b. unfold Mds.compressionScoreFn.
      destruct Htrend as [-> | ->]; cbv zeta; outcome_cases; reflexivity. }
    change (MdsSubscores.multiple_compression subscores)
      with (MdsLocals.compressionScore l).
    apply zero_min; apply applyCoverage_zero; try exact Hmin;
      apply computeHistoryScore_zero, Hfn.
  - intros Hstab.
    assert (Hfn : forall a b,
              Mds.fcfYieldScoreFn (MdsLocals.config l)
                (MdsLocals.fcfStability l) a b = Num 0).
    { intros a b. unfold Mds.fcfYieldScoreFn.
      destruct Hstab as [-> | ->]; cbv zeta; outcome_cases; reflexivity. }
    change (MdsSubscores.fcf_yield_expansion subscores)
      with (MdsLocals.fcfYieldScore l).
    apply zero_min; apply applyCoverage_zero; try exact Hmin;
      apply computeHistoryScore_zero, Hfn.
Qed.

End MdsComponents.

Lemma computeMdsFromSeries_components_witness :
  match Mds.computeMdsFromSeries (P := Sample.platform)
          Examples.mds_short_history with
  | Throw _ => False
  | Return r =>
      within 0 30 (MdsSeriesResult.multiple_compression_points r)
      /\ within 0 10 (MdsSeriesResult.expectation_reset_points r)
  end.
Proof.
  pose proof (computeMdsFromSeries_components (P := Sample.platform)
                Examples.mds_short_history) as Hc.
  destruct (Mds.computeMdsFromSeries (P := Sample.platform)
              Examples.mds_short_history) as [r | e] eqn:E;
    [| vm_compute in E; discriminate].
  specialize (Hc ltac:(discriminate)).
  destruct Hc as (H1 & H2 & _). now split.
Defined.

(** The cheap-looking company with seven observations of each measure: with
    sound fundamentals the windows score 10 and 8; with an EBITDA that
    collapses and a negative free cash flow both sub-scores are 0. *)
Lemma value_trap_guards_witness :
  let trap := Scenarios.cheap_company (Num 2) (Num (-5)) in
  let sound := Scenarios.cheap_company (Num 10) (Num 5) in
  let l := Mds.mds_locals (P := Sample.platform) trap
             (Some 1703980800000%Z) [] (Num 0, None, []) in
  let l0 := Mds.mds_locals (P := Sample.platform) sound
              (Some 1703980800000%Z) [] (Num 0, None, []) in
  (MdsLocals.h3Compression l0 = (Num 10, 7%nat)
   /\ MdsLocals.h3FcfYield l0 = (Num 8, 7%nat))
  /\ (MdsLocals.ebitdaTrend l = trend_collapse
      /\ MdsLocals.fcfStability l = fcf_collapse
      /\ snd (MdsLocals.h3Compression l) = 7%nat
      /\ snd (MdsLocals.h3FcfYield l) = 7%nat)
  /\ num_eqv (MdsSubscores.multiple_compression
                (MdsSeriesResult.subscores (Mds.mds_result trap l)))
             (Num 0)
  /\ num_eqv (MdsSubscores.fcf_yield_expansion
                (MdsSeriesResult.subscores (Mds.mds_result trap l)))
             (Num 0).
Proof.
  intros trap sound l l0.
  assert (Hmin : MdsConfig.history_min (MdsLocals.config l) <> NaN)
    by discriminate.
  assert (Htrend : MdsLocals.ebitdaTrend l = trend_collapse)
    by (vm_compute; reflexivity).
  assert (Hfcf : MdsLocals.fcfStability l = fcf_collapse)
    by (vm_compute; reflexivity).
  split; [split; vm_compute; reflexivity |].
  split; [repeat split; try assumption; vm_compute; reflexivity |].
  pose proof (value_trap_guards (P := Sample.platform) trap
                (Some 1703980800000%Z) [] (Num 0, None, []) Hmin) as [Hc Hf].
  split; [exact (Hc (or_introl Htrend)) | exact (Hf (or_introl Hfcf))].
Defined.

(** ** [computeMds] *)

Section ComputeMdsFacts.
Context `{P : Platform}.

Lemma mds_narrative_cases (inputs : MdsInputs.t) :
  match mds_narrative inputs with
  | Throw e =>
      e = "RangeError" /\ MdsInputs.narrative_shock_override inputs = None
  | Return (points, detail) =>
      match MdsInputs.narrative_shock_override inputs with
      | Some override => points = override /\ detail = None
      | None => points = Num 0 \/ points = Num 10 \/ points = Num 15
      end
  end.
Proof.
  unfold mds_narrative.
  destruct (MdsInputs.narrative_shock_override inputs) as [override |];
    [now split |].
  destruct (MdsInputs.docs inputs) as [[| d ds] |]; auto.
  destruct (classifyNarrativeShock _ _) as [detail | e] eqn:E.
  - rewrite (classify_points _ _ _ E). apply mdsPoints_cases.
  - split; [| reflexivity]. exact (classifyNarrativeShock_raises _ _ _ E).
Qed.

(** X13: a [narrative_shock_override] takes precedence in [computeMds]:
    the classifier is not run, so the call returns whatever the documents
    and the window are, the narrative points are the override, no narrative
    detail is attached, and the expectation-reset total is the clamped
    expectation reset plus the override. *)
Theorem computeMds_override (inputs : MdsInputs.t) (override : number) :
  MdsInputs.narrative_shock_override inputs = Some override ->
  exists r,
    computeMds inputs = Return r
    /\ MdsResult.narrative_shock_points r = override
    /\ MdsResult.narrative_detail r = None
    /\ MdsResult.expectation_reset_total r
       = JS.add (clamp (MdsInputs.expectation_reset_points inputs)
                       (Num 0) (Num 10))
                override.
Proof.
  intros Hover. unfold computeMds, mds_narrative. rewrite Hover.
  eexists. split; [reflexivity |]. cbn. auto.
Qed.

(** X14: when the four component inputs of [computeMds] are not [NaN] and
    the override, if any, is one of 0, 10 and 15, the components of the
    result are their inputs clamped to [[0, 30]], [[0, 10]], [[0, 25]] and
    [[0, 20]], the narrative points are one of 0, 10 and 15, and the total is
    within [[0, 100]] and equal to the sum of the components: the final
    clamp never binds. The only exception is the [RangeError] of the
    classifier, and only without an override. *)
Theorem computeMds_components (inputs : MdsInputs.t) :
  MdsInputs.multiple_compression_points inputs <> NaN ->
  MdsInputs.expectation_reset_points inputs <> NaN ->
  MdsInputs.operating_resilience_points inputs <> NaN ->
  MdsInputs.market_positioning_points inputs <> NaN ->
  match MdsInputs.narrative_shock_override inputs with
  | Some override => override = Num 0 \/ override = Num 10 \/ override = Num 15
  | None => True
  end ->
  match computeMds inputs with
  | Throw e =>
      e = "RangeError" /\ MdsInputs.narrative_shock_override inputs = None
  | Return r =>
      let compression := MdsResult.multiple_compression_points r in
      let reset := MdsResult.expectation_reset_points r in
      let narrative := MdsResult.narrative_shock_points r in
      let resilience := MdsResult.operating_resilience_points r in
      let positioning := MdsResult.market_positioning_points r in
      within 0 30 compression /\ within 0 10 reset
      /\ (narrative = Num 0 \/ narrative = Num 10 \/ narrative = Num 15)
      /\ within 0 25 resilience /\ within 0 20 positioning
      /\ within 0 100 (MdsResult.total_mds_points r)
      /\ num_eqv (MdsResult.total_mds_points r)
           (JS.add (JS.add (JS.add compression (JS.add reset narrative))
                           resilience)
                   positioning)
  end.
Proof.
  intros Hmc Her Hor Hmp Hover. unfold computeMds.
  pose proof (mds_narrative_cases inputs) as Hnar.
  destruct (mds_narrative inputs) as [[points detail] | e]; [| exact Hnar].
  assert (Hpoints : points = Num 0 \/ points = Num 10 \/ points = Num 15).
  { destruct (MdsInputs.narrative_shock_override inputs) as [override |];
      [destruct Hnar as [-> _] |]; assumption. }
  cbv zeta. cbn [MdsResult.multiple_compression_points
    MdsResult.expectation_reset_points MdsResult.narrative_shock_points
    MdsResult.operating_resilience_points MdsResult.market_positioning_points
    MdsResult.total_mds_points].
  assert (H1 : within 0 30 (clamp (MdsInputs.multiple_compression_points inputs)
                                  (Num 0) (Num 30)))
    by (apply clamp_within; [lra | assumption]).
  assert (H2 : within 0 10 (clamp (MdsInputs.expectation_reset_points inputs)
                                  (Num 0) (Num 10)))
    by (apply clamp_within; [lra | assumption]).
  assert (H3 : within 0 25 (clamp (MdsInputs.operating_resilience_points inputs)
                                  (Num 0) (Num 25)))
    by (apply clamp_within; [lra | assumption]).
  assert (H4 : within 0 20 (clamp (MdsInputs.market_positioning_points inputs)
                                  (Num 0) (Num 20)))
    by (apply clamp_within; [lra | assumption]).
  assert (Hsum : within 0 100
            (JS.add
               (JS.add
                  (JS.add (clamp (MdsInputs.multiple_compression_points inputs)
                                 (Num 0) (Num 30))
                          (JS.add (clamp (MdsInputs.expectation_reset_points inputs)
                                         (Num 0) (Num 10))
                                  points))
                  (clamp (MdsInputs.operating_resilience_points inputs)
                         (Num 0) (Num 25)))
               (clamp (MdsInputs.market_positioning_points inputs)
                      (Num 0) (Num 20)))).
  { eapply within_weaken;
      [repeat apply within_add;
         try eassumption; apply within_15_cases, Hpoints | lra | lra]. }
  repeat (split; [assumption |]).
  split.
  - apply clamp_within; [lra |]. apply finite_not_NaN.
    exact (finite_within _ _ _ Hsum).
  - apply within_clamp_id, Hsum.
Qed.

End ComputeMdsFacts.

Lemma computeMds_override_witness :
  MdsInputs.narrative_shock_override (Scenarios.mds_points (Some (Num 10)))
  = Some (Num 10)
  /\ (exists r,
        computeMds (P := Sample.platform) (Scenarios.mds_points (Some (Num 10)))
        = Return r
        /\ MdsResult.narrative_shock_points r = Num 10
        /\ MdsResult.narrative_detail r = None)
  /\ computeMds (P := Sample.platform) (Scenarios.mds_points None)
     = Throw "RangeError".
Proof.
  split; [reflexivity |]. split; [| vm_compute; reflexivity].
  destruct (computeMds_override (P := Sample.platform)
              (Scenarios.mds_points (Some (Num 10))) (Num 10) eq_refl)
    as (r & Hr & Hp & Hd & _).
  exists r. auto.
Defined.

Lemma computeMds_components_witness :
  match computeMds (P := Sample.platform)
          (Scenarios.mds_points (Some (Num 15))) with
  | Throw _ => False
  | Return r =>
      within 0 100 (MdsResult.total_mds_points r)
      /\ JS.eq (MdsResult.total_mds_points r) (Num 100) = true
  end.
Proof.
  pose proof (computeMds_components (P := Sample.platform)
                (Scenarios.mds_points (Some (Num 15)))
                ltac:(discriminate) ltac:(discriminate) ltac:(discriminate)
                ltac:(discriminate) ltac:(cbn; auto)) as Hc.
  destruct (computeMds (P := Sample.platform)
              (Scenarios.mds_points (Some (Num 15)))) as [r | e] eqn:E;
    [| vm_compute in E; discriminate].
  destruct Hc as (_ & _ & _ & _ & _ & Htotal & _).
  split; [exact Htotal |].
  injection E as <-. vm_compute. reflexivity.
Defined.

(** ** Normalised text *)

(** A character of normalised text: kept by the first replacement, not an
    upper-case letter, and a plain space if it is whitespace. *)
Local Abbreviation plain :=
  (fun c : ascii =>
     is_kept c = true /\ ascii_lower c = c
     /\ (is_space c = true -> c = " "%char)).

Lemma kept_lower (c : ascii) : is_kept c = true -> ascii_lower c = c.
Proof.
  destruct c as [[] [] [] [] [] [] [] []]; vm_compute; congruence.
Qed.

Lemma space_kept (c : ascii) : is_space c = true -> is_kept c = true.
Proof. unfold is_kept. intros ->. apply orb_true_r. Qed.

Lemma collapse_plain (b : bool) (cs : list ascii) :
  Forall (fun c => is_kept c = true) cs ->
  Forall plain (collapse_spaces b cs).
Proof.
  intros Hkept. revert b. induction Hkept as [| c cs Hc _ IH]; intros b; simpl.
  - constructor.
  - destruct (is_space c) eqn:Es.
    + destruct b; [apply IH |]. constructor; [| apply IH].
      repeat split; reflexivity.
    + constructor; [| apply IH]. split; [assumption |].
      split; [now apply kept_lower | congruence].
Qed.

(** No two whitespace characters are next to each other. *)
Local Abbreviation spaced cs :=
  (forall l a b r, cs = l ++ a :: b :: r ->
                   is_space a = true -> is_space b = true -> False).

Lemma spaced_tail (c : ascii) (cs : list ascii) : spaced (c :: cs) -> spaced cs.
Proof. intros H l a b r E. apply (H (c :: l) a b r). now rewrite E. Qed.

Lemma spaced_suffix (pre cs : list ascii) : spaced (pre ++ cs) -> spaced cs.
Proof.
  induction pre as [| c pre IH]; [auto |]. intros H. apply IH.
  now apply (spaced_tail c).
Qed.

Lemma spaced_rev (cs : list ascii) : spaced cs -> spaced (rev cs).
Proof.
  intros H l a b r E Ha Hb. apply (H (rev r) b a (rev l)); try assumption.
  apply (f_equal (@rev ascii)) in E. rewrite rev_involutive in E.
  rewrite E, rev_app_distr. simpl. now rewrite <- !app_assoc.
Qed.

Lemma collapse_head (cs : list ascii) :
  match collapse_spaces true cs with
  | c :: _ => is_space c = false
  | [] => True
  end.
Proof.
  induction cs as [| c cs IH]; simpl; [exact I |].
  destruct (is_space c) eqn:E; [exact IH | exact E].
Qed.

Lemma collapse_spaced (b : bool) (cs : list ascii) :
  spaced (collapse_spaces b cs).
Proof.
  revert b. induction cs as [| c cs IH]; intros b; simpl.
  - intros [| ? ?] ? ? ? E; discriminate.
  - destruct (is_space c) eqn:Es.
    + destruct b; [apply IH |].
      intros [| x l] a b' r E Ha Hb; injection E as <- E.
      * pose proof (collapse_head cs) as Hh. rewrite E in Hh. congruence.
      * eapply IH; eassumption.
    + intros [| x l] a b' r E Ha Hb; injection E as <- E.
      * congruence.
      * eapply IH; eassumption.
Qed.

Lemma trim_start_suffix (cs : list ascii) :
  exists pre, cs = pre ++ trim_start cs.
Proof.
  induction cs as [| c cs [pre IH]]; simpl; [now exists [] |].
  destruct (is_space c); [| now exists []].
  exists (c :: pre). simpl. now rewrite <- IH.
Qed.

Lemma trim_start_head (cs : list ascii) :
  match trim_start cs with
  | c :: _ => is_space c = false
  | [] => True
  end.
Proof.
  induction cs as [| c cs IH]; simpl; [exact I |].
  destruct (is_space c) eqn:E; [exact IH | exact E].
Qed.

Lemma trim_start_fixed (cs : list ascii) :
  match cs with c :: _ => is_space c = false | [] => True end ->
  trim_start cs = cs.
Proof. destruct cs as [| c cs]; simpl; [reflexivity |]. now intros ->. Qed.

Lemma Forall_trim_start (Q : ascii -> Prop) (cs : list ascii) :
  Forall Q cs -> Forall Q (trim_start cs).
Proof.
  destruct (trim_start_suffix cs) as [pre E]. intros H. rewrite E in H.
  now apply Forall_app in H as [_ H].
Qed.

Lemma spaced_trim_start (cs : list ascii) : spaced cs -> spaced (trim_start cs).
Proof.
  destruct (trim_start_suffix cs) as [pre E]. intros H.
  apply (spaced_suffix pre). now rewrite <- E.
Qed.

(** The head of the reverse of a list that has been trimmed at the start
    and at the end. *)
Lemma trim_ends (cs : list ascii) :
  match trim cs with c :: _ => is_space c = false | [] => True end
  /\ match rev (trim cs) with c :: _ => is_space c = false | [] => True end.
Proof.
  unfold trim. rewrite rev_involutive. split; [| apply trim_start_head].
  pose proof (trim_start_head cs) as Hhead.
  destruct (trim_start_suffix (rev (trim_start cs))) as [pre E].
  set (inner := trim_start (rev (trim_start cs))) in *.
  destruct (rev inner) as [| c rest] eqn:Er; [exact I |].
  (* [c] is the first character of [trim_start cs] unless all of it was
     whitespace *)
  apply (f_equal (@rev ascii)) in E. rewrite rev_involutive, rev_app_distr, Er in E.
  simpl in E. rewrite E in Hhead. exact Hhead.
Qed.

Lemma collapse_fixed (b : bool) (cs : list ascii) :
  Forall plain cs -> spaced cs ->
  (b = true -> match cs with c :: _ => is_space c = false | [] => True end) ->
  collapse_spaces b cs = cs.
Proof.
  intros Hplain. revert b. induction Hplain as [| c cs Hc _ IH]; intros b Hsp Hb;
    simpl; [reflexivity |].
  cbv beta in Hc. destruct Hc as (_ & _ & Hspace).
  destruct (is_space c) eqn:Es.
  - destruct b; [specialize (Hb eq_refl); simpl in Hb; congruence |].
    rewrite (Hspace eq_refl). f_equal. apply IH; [now apply (spaced_tail c) |].
    intros _. destruct cs as [| d cs]; [exact I |].
    destruct (is_space d) eqn:Ed; [| reflexivity].
    exfalso. exact (Hsp [] c d cs eq_refl Es Ed).
  - f_equal. apply IH; [now apply (spaced_tail c) | discriminate].
Qed.

Lemma map_fixed {A} (f : A -> A) (xs : list A) :
  Forall (fun x => f x = x) xs -> map f xs = xs.
Proof. induction 1; simpl; congruence. Qed.

Lemma string_map_list (f : ascii -> ascii) (s : string) :
  list_ascii_of_string (string_map f s) = map f (list_ascii_of_string s).
Proof. induction s; simpl; congruence. Qed.

(** The characters of [normalizeText input]. *)
Lemma normalizeText_chars (input : string) :
  let cs := list_ascii_of_string (normalizeText input) in
  Forall plain cs /\ spaced cs
  /\ match cs with c :: _ => is_space c = false | [] => True end
  /\ match rev cs with c :: _ => is_space c = false | [] => True end.
Proof.
  unfold normalizeText. cbv zeta. rewrite list_ascii_of_string_of_list_ascii.
  set (replaced := map _ _).
  assert (Hkept : Forall (fun c => is_kept c = true) replaced).
  { unfold replaced. apply Forall_forall. intros c Hc.
    apply list_elem_of_fmap in Hc as (d & -> & _).
    destruct (is_kept d) eqn:E; [exact E | reflexivity]. }
  pose proof (collapse_plain false replaced Hkept) as Hplain.
  pose proof (collapse_spaced false replaced) as Hspaced.
  split; [| split; [| apply trim_ends]].
  - unfold trim. apply Forall_rev, Forall_trim_start, Forall_rev,
      Forall_trim_start, Hplain.
  - unfold trim. apply spaced_rev, spaced_trim_start, spaced_rev,
      spaced_trim_start, Hspaced.
Qed.

Lemma normalize_fixed (cs : list ascii) :
  Forall plain cs -> spaced cs ->
  match cs with c :: _ => is_space c = false | [] => True end ->
  match rev cs with c :: _ => is_space c = false | [] => True end ->
  normalizeText (string_of_list_ascii cs) = string_of_list_ascii cs.
Proof.
  intros Hplain Hspaced Hhead Hlast. unfold normalizeText, toLowerCase.
  cbv zeta. rewrite string_map_list, list_ascii_of_string_of_list_ascii.
  rewrite (map_fixed ascii_lower cs)
    by (eapply Forall_impl; [exact Hplain | simpl; tauto]).
  rewrite (map_fixed (fun c => if is_kept c then c else " "%char) cs).
  2:{ eapply Forall_impl; [exact Hplain |]. simpl. intros c (-> & _). reflexivity. }
  rewrite (collapse_fixed false cs Hplain Hspaced) by discriminate.
  unfold trim. rewrite (trim_start_fixed cs Hhead).
  rewrite (trim_start_fixed (rev cs) Hlast). now rewrite rev_involutive.
Qed.

(** The strings that the patterns of the taxonomy look for. *)
Local Abbreviation pattern_texts :=
  (fun p : Pattern =>
     match p with
     | Literal text => [text]
     | Composite all any _ => all ++ default [] any
     end).

(** X15: [normalizeText] is idempotent: its result consists of the
    characters [a-z], [0-9], [%], [$], [.], [-] and single spaces, without a
    space at either end, and normalising it again changes nothing. Every
    string that a pattern of the taxonomy looks for is in this normal form,
    so that no pattern is out of reach of a normalised text. *)
Theorem normalizeText_idempotent (input : string) :
  normalizeText (normalizeText input) = normalizeText input
  /\ Forall (fun c => is_kept c = true /\ (is_space c = true -> c = " "%char))
            (list_ascii_of_string (normalizeText input))
  /\ Forall (fun eventClass =>
               Forall (fun p => Forall (fun text => normalizeText text = text)
                                       (pattern_texts p))
                      (EventClass.strong eventClass ++ EventClass.weak eventClass))
            EVENT_CLASSES.
Proof.
  destruct (normalizeText_chars input) as (Hplain & Hspaced & Hhead & Hlast).
  split; [| split].
  - rewrite <- (string_of_list_ascii_of_string (normalizeText input)) at 1 2.
    rewrite normalize_fixed by assumption.
    now rewrite string_of_list_ascii_of_string.
  - eapply Forall_impl; [exact Hplain |]. simpl. tauto.
  - repeat (constructor; [repeat (constructor; [repeat constructor |]);
                          constructor |]).
    constructor.
Qed.

(** ** The narrative shock classifier *)

Section Classifier.
Context `{P : Platform}.

Lemma round_0_100 (x : number) :
  within 0 100 x ->
  exists n : Z, JS.round x = Num (inject_Z n) /\ (0 <= n <= 100)%Z.
Proof.
  destruct x as [q | | |]; try (simpl; tauto). intros [H0 H1].
  exists (Qfloor (q + (1 # 2))). split; [reflexivity |]. split.
  - change 0%Z with (Qfloor 0). apply Qfloor_resp_le. lra.
  - change 100%Z with (Qfloor (100 + (1 # 2))). apply Qfloor_resp_le. lra.
Qed.

Lemma round_clamp_0_100 (x : number) :
  JS.round (clamp x (Num 0) (Num 100)) = NaN
  \/ exists n : Z,
       JS.round (clamp x (Num 0) (Num 100)) = Num (inject_Z n)
       /\ (0 <= n <= 100)%Z.
Proof.
  destruct x as [q | | |] eqn:Ex; [right | right | right | left; reflexivity];
    apply round_0_100, clamp_within; try lra; discriminate.
Qed.

(** The best class other than the macro rotation is a class of the
    taxonomy. *)
Lemma bestNonMacro_id (docs : list NarrativeDoc.t)
    (options : NarrativeShockParams.options) (best : string * number) :
  List.find (fun c => negb (String.eqb (fst c) "MACRO_ROTATION"))
            (NarrativeLocals.sortedByScore (narrative_locals docs options))
  = Some best ->
  fst best <> "NONE" /\ fst best <> "MACRO_ROTATION".
Proof.
  set (l := narrative_locals docs options).
  assert (Hs : NarrativeLocals.sortedByScore l
               = js_sort (fun a b => JS.sub (snd b) (snd a))
                   (map (fun c => (EventClass.id c,
                                   default NaN
                                     (lookup_score (NarrativeLocals.classScores l)
                                                   (EventClass.id c))))
                        EVENT_CLASSES)) by reflexivity.
  rewrite Hs. generalize (NarrativeLocals.classScores l). intros scores Hfind.
  apply List.find_some in Hfind as [Hin Hnot]. split.
  - apply list_elem_of_In in Hin. rewrite js_sort_perm in Hin.
    apply list_elem_of_fmap in Hin as (c & -> & Hc). cbn [fst].
    assert (Hids : forallb (fun c => negb (String.eqb (EventClass.id c) "NONE"))
                           EVENT_CLASSES = true) by reflexivity.
    rewrite forallb_forall in Hids. apply list_elem_of_In in Hc.
    specialize (Hids c Hc). intros E. rewrite E in Hids. discriminate.
  - intros E. rewrite E in Hnot. discriminate.
Qed.

(** X16: the fields of a classification agree with each other. The shock
    type is [NONE] exactly when the primary event class is ["NONE"], and
    [MACRO_ROTATION] exactly when the primary class is the macro rotation;
    the narrative points are 15 for a one-off shock, 10 for a macro rotation
    and 0 otherwise, so that a structural risk earns none; the severity and
    the structural risk are whole numbers within [[0, 100]], or [NaN]; and
    there are at most ten top matches. The only exception is the
    [RangeError] of an invalid window. *)
Theorem classifyNarrativeShock_consistent (docs : list NarrativeDoc.t)
    (options : NarrativeShockParams.options) :
  match classifyNarrativeShock docs options with
  | Throw e => e = "RangeError"
  | Return r =>
      (NarrativeShockResult.shock_type r = NONE
       <-> NarrativeShockResult.primary_event_class r = "NONE")
      /\ (NarrativeShockResult.shock_type r = MACRO_ROTATION
          <-> NarrativeShockResult.primary_event_class r = "MACRO_ROTATION")
      /\ NarrativeShockResult.mds_narrative_shock_points r
         = match NarrativeShockResult.shock_type r with
           | ONE_OFF => Num 15
           | MACRO_ROTATION => Num 10
           | _ => Num 0
           end
      /\ (NarrativeShockResult.severity_0_100 r = NaN
          \/ exists n : Z,
               NarrativeShockResult.severity_0_100 r = Num (inject_Z n)
               /\ (0 <= n <= 100)%Z)
      /\ (NarrativeShockResult.structural_risk_0_100 r = NaN
          \/ exists n : Z,
               NarrativeShockResult.structural_risk_0_100 r = Num (inject_Z n)
               /\ (0 <= n <= 100)%Z)
      /\ (length (NarrativeShockResult.top_matches r) <= 10)%nat
  end.
Proof.
  pose proof (bestNonMacro_id docs options) as Hbest.
  unfold classifyNarrativeShock.
  set (l := narrative_locals docs options) in *.
  assert (Hpoints : NarrativeLocals.mdsPoints l
                    = match NarrativeLocals.shockType l with
                      | ONE_OFF => Num 15
                      | MACRO_ROTATION => Num 10
                      | _ => Num 0
                      end) by reflexivity.
  assert (Hsev : exists x, NarrativeLocals.severity l = clamp x (Num 0) (Num 100))
    by (eexists; reflexivity).
  assert (Hrisk : exists x,
            NarrativeLocals.structuralRisk l = clamp x (Num 0) (Num 100))
    by (eexists; reflexivity).
  assert (Hshock :
    NarrativeLocals.shockType l
    = if String.eqb (NarrativeLocals.primaryEvent l) "MACRO_ROTATION"
      then MACRO_ROTATION
      else if negb (String.eqb (NarrativeLocals.primaryEvent l) "NONE") then
        if JS.ge (NarrativeLocals.structuralRisk l)
                 (NarrativeShockParams.structural_threshold
                    (NarrativeLocals.params l))
        then STRUCTURAL_RISK
        else ONE_OFF
      else if JS.ge (score_or_zero (NarrativeLocals.classScores l) "MACRO_ROTATION")
                    (NarrativeShockParams.macro_threshold (NarrativeLocals.params l))
      then MACRO_ROTATION
      else NONE) by reflexivity.
  assert (Hprimary :
    NarrativeLocals.primaryEvent l
    = match List.find (fun c => negb (String.eqb (fst c) "MACRO_ROTATION"))
                      (NarrativeLocals.sortedByScore l) with
      | Some best =>
          if JS.ge (snd best)
                   (NarrativeShockParams.primary_min_threshold
                      (NarrativeLocals.params l))
          then fst best
          else if JS.ge (score_or_zero (NarrativeLocals.classScores l)
                                       "MACRO_ROTATION")
                        (NarrativeShockParams.macro_threshold
                           (NarrativeLocals.params l))
          then "MACRO_ROTATION"
          else "NONE"
      | None =>
          if JS.ge (score_or_zero (NarrativeLocals.classScores l)
                                  "MACRO_ROTATION")
                   (NarrativeShockParams.macro_threshold
                      (NarrativeLocals.params l))
          then "MACRO_ROTATION"
          else "NONE"
      end) by reflexivity.
  clearbody l.
  destruct (NarrativeLocals.windowStart l) as [windowStart |]; [| reflexivity].
  destruct (NarrativeLocals.windowEnd l) as [windowEnd |]; [| reflexivity].
  cbn [NarrativeShockResult.shock_type NarrativeShockResult.primary_event_class
       NarrativeShockResult.mds_narrative_shock_points
       NarrativeShockResult.severity_0_100
       NarrativeShockResult.structural_risk_0_100
       NarrativeShockResult.top_matches].
  assert (Hlink :
    (NarrativeLocals.shockType l = NONE
     <-> NarrativeLocals.primaryEvent l = "NONE")
    /\ (NarrativeLocals.shockType l = MACRO_ROTATION
        <-> NarrativeLocals.primaryEvent l = "MACRO_ROTATION")).
  { rewrite Hshock. clear Hshock.
    generalize dependent (NarrativeLocals.primaryEvent l). intros primary Hprimary.
    destruct (JS.ge (score_or_zero _ _) _) eqn:Emacro.
    - (* the macro score reaches its threshold: the primary class is not NONE *)
      assert (Hne : primary <> "NONE").
      { rewrite Hprimary. destruct (List.find _ _) as [best |] eqn:Efind;
          [| discriminate].
        destruct (JS.ge (snd best) _);
          [exact (proj1 (Hbest best eq_refl)) | discriminate]. }
      destruct (String.eqb_spec primary "MACRO_ROTATION") as [-> | Hnm].
      + split; split; try reflexivity; discriminate.
      + destruct (String.eqb_spec primary "NONE") as [-> | Hnn]; [congruence |].
        cbn [negb]. destruct (JS.ge (NarrativeLocals.structuralRisk l) _);
          split; split; congruence.
    - destruct (String.eqb_spec primary "MACRO_ROTATION") as [-> | Hnm].
      + split; split; try reflexivity; discriminate.
      + destruct (String.eqb_spec primary "NONE") as [-> | Hnn]; cbn [negb].
        * split; split; try reflexivity; try discriminate; congruence.
        * destruct (JS.ge (NarrativeLocals.structuralRisk l) _);
            split; split; congruence. }
  destruct Hlink as [Hnone Hmacro].
  split; [exact Hnone |]. split; [exact Hmacro |]. split; [exact Hpoints |].
  destruct Hsev as [x ->]. destruct Hrisk as [y ->].
  split; [apply round_clamp_0_100 |]. split; [apply round_clamp_0_100 |].
  rewrite length_take. lia.
Qed.

End Classifier.

(** Evaluates the right-hand side of the equation [H]. *)
Ltac evaluate_rhs H :=
  match type of H with
  | ?lhs = ?rhs =>
      let v := eval vm_compute in rhs in
      let E := fresh in
      assert (E : rhs = v) by (vm_compute; reflexivity);
      rewrite E in H; clear E
  end.

Section NothingInWindow.
Context `{P : Platform}.

(** X17: with the default parameters, a corpus without any document
    within the window (an empty corpus in particular) classifies as no shock:
    primary class ["NONE"], shock type [NONE], severity 0, structural risk 0,
    no narrative points, no top match and no secondary class. *)
Theorem classifyNarrativeShock_nothing_in_window (docs : list NarrativeDoc.t)
    (options : NarrativeShockParams.options) (r : NarrativeShockResult.t) :
  NarrativeShockParams.overrides options = NarrativeShockParams.no_override ->
  NarrativeLocals.processedDocs (narrative_locals docs options) = [] ->
  classifyNarrativeShock docs options = Return r ->
  NarrativeShockResult.primary_event_class r = "NONE"
  /\ NarrativeShockResult.shock_type r = NONE
  /\ NarrativeShockResult.severity_0_100 r = Num 0
  /\ NarrativeShockResult.structural_risk_0_100 r = Num 0
  /\ NarrativeShockResult.mds_narrative_shock_points r = Num 0
  /\ NarrativeShockResult.top_matches r = []
  /\ NarrativeShockResult.secondary_event_classes r = [].
Proof.
  intros Hover Hproc. unfold classifyNarrativeShock.
  set (l := narrative_locals docs options) in *.
  assert (Hparams : NarrativeLocals.params l
                    = NarrativeShockParams.merge DEFAULT_PARAMS
                        (NarrativeShockParams.overrides options))
    by reflexivity.
  assert (Hmatches : NarrativeLocals.classMatches l
                     = fst (collect_matches (NarrativeLocals.processedDocs l)))
    by reflexivity.
  assert (Hall : NarrativeLocals.allMatches l
                 = snd (collect_matches (NarrativeLocals.processedDocs l)))
    by reflexivity.
  assert (Hcs : NarrativeLocals.classScores l
                = class_scores (NarrativeLocals.params l)
                    (NarrativeLocals.classMatches l) EventClass.severity)
    by reflexivity.
  assert (Hss : NarrativeLocals.structuralScores l
                = class_scores (NarrativeLocals.params l)
                    (NarrativeLocals.classMatches l) EventClass.structural)
    by reflexivity.
  assert (Hsev : NarrativeLocals.severity l
                 = clamp (sum_scores (NarrativeLocals.classScores l))
                         (Num 0) (Num 100)) by reflexivity.
  assert (Hrisk : NarrativeLocals.structuralRisk l
                  = clamp
                      (escalate (sum_scores (NarrativeLocals.structuralScores l))
                         (escalations (NarrativeLocals.classMatches l)
                            (String.concat " "
                               (map ProcessedDoc.text
                                    (NarrativeLocals.processedDocs l)))))
                      (Num 0) (Num 100)) by reflexivity.
  assert (Hsorted : NarrativeLocals.sortedByScore l
               = js_sort (fun a b => JS.sub (snd b) (snd a))
                   (map (fun c => (EventClass.id c,
                                   default NaN
                                     (lookup_score (NarrativeLocals.classScores l)
                                                   (EventClass.id c))))
                        EVENT_CLASSES)) by reflexivity.
  assert (Hprimary :
    NarrativeLocals.primaryEvent l
    = match List.find (fun c => negb (String.eqb (fst c) "MACRO_ROTATION"))
                      (NarrativeLocals.sortedByScore l) with
      | Some best =>
          if JS.ge (snd best)
                   (NarrativeShockParams.primary_min_threshold
                      (NarrativeLocals.params l))
          then fst best
          else if JS.ge (score_or_zero (NarrativeLocals.classScores l)
                                       "MACRO_ROTATION")
                        (NarrativeShockParams.macro_threshold
                           (NarrativeLocals.params l))
          then "MACRO_ROTATION"
          else "NONE"
      | None =>
          if JS.ge (score_or_zero (NarrativeLocals.classScores l)
                                  "MACRO_ROTATION")
                   (NarrativeShockParams.macro_threshold
                      (NarrativeLocals.params l))
          then "MACRO_ROTATION"
          else "NONE"
      end) by reflexivity.
  assert (Hshock :
    NarrativeLocals.shockType l
    = if String.eqb (NarrativeLocals.primaryEvent l) "MACRO_ROTATION"
      then MACRO_ROTATION
      else if negb (String.eqb (NarrativeLocals.primaryEvent l) "NONE") then
        if JS.ge (NarrativeLocals.structuralRisk l)
                 (NarrativeShockParams.structural_threshold
                    (NarrativeLocals.params l))
        then STRUCTURAL_RISK
        else ONE_OFF
      else if JS.ge (score_or_zero (NarrativeLocals.classScores l) "MACRO_ROTATION")
                    (NarrativeShockParams.macro_threshold (NarrativeLocals.params l))
      then MACRO_ROTATION
      else NONE) by reflexivity.
  assert (Hpoints : NarrativeLocals.mdsPoints l
                    = match NarrativeLocals.shockType l with
                      | ONE_OFF => Num 15
                      | MACRO_ROTATION => Num 10
                      | _ => Num 0
                      end) by reflexivity.
  clearbody l.
  rewrite Hover in Hparams. rewrite Hproc in Hmatches, Hall, Hrisk.
  rewrite Hparams, Hmatches in Hcs, Hss. evaluate_rhs Hcs. evaluate_rhs Hss.
  rewrite Hcs in Hsev, Hsorted, Hprimary, Hshock.
  rewrite Hss, Hmatches in Hrisk.
  evaluate_rhs Hsev. evaluate_rhs Hrisk. evaluate_rhs Hsorted. evaluate_rhs Hall.
  rewrite Hsorted, Hparams in Hprimary. evaluate_rhs Hprimary.
  rewrite Hprimary, Hparams, Hrisk in Hshock. evaluate_rhs Hshock.
  rewrite Hshock in Hpoints.
  destruct (NarrativeLocals.windowStart l); [| discriminate].
  destruct (NarrativeLocals.windowEnd l); [| discriminate].
  intros [= <-].
  cbn [NarrativeShockResult.shock_type NarrativeShockResult.primary_event_class
       NarrativeShockResult.mds_narrative_shock_points
       NarrativeShockResult.severity_0_100
       NarrativeShockResult.structural_risk_0_100
       NarrativeShockResult.top_matches
       NarrativeShockResult.secondary_event_classes].
  rewrite Hprimary, Hshock, Hsev, Hrisk, Hpoints, Hall, Hsorted.
  repeat split; vm_compute; reflexivity.
Qed.

End NothingInWindow.

Lemma classifyNarrativeShock_nothing_in_window_witness :
  match classifyNarrativeShock (P := Sample.platform) []
          Examples.window_2024_05_01 with
  | Throw _ => False
  | Return r =>
      NarrativeShockResult.shock_type r = NONE
      /\ NarrativeShockResult.mds_narrative_shock_points r = Num 0
  end.
Proof.
  destruct (classifyNarrativeShock (P := Sample.platform) []
              Examples.window_2024_05_01) as [r | e] eqn:E;
    [| vm_compute in E; discriminate].
  destruct (classifyNarrativeShock_nothing_in_window (P := Sample.platform) []
              Examples.window_2024_05_01 r eq_refl eq_refl E)
    as (_ & Hshock & _ & _ & Hpoints & _).
  now split.
Defined.

(** ** The pipeline tool *)

Lemma set_add_elem (unique : list string) (x t : string) :
  t ∈ set_add unique x <-> t ∈ unique \/ t = x.
Proof.
  unfold set_add. destruct (set_has unique x) eqn:E.
  - apply set_has_true in E. split; [auto |]. intros [H | ->]; assumption.
  - rewrite elem_of_app, list_elem_of_singleton. tauto.
Qed.

Lemma set_add_NoDup (unique : list string) (x : string) :
  NoDup unique -> NoDup (set_add unique x).
Proof.
  intros Hnd. unfold set_add. destruct (set_has unique x) eqn:E; [assumption |].
  apply NoDup_app. split; [assumption |]. split; [| apply NoDup_singleton].
  intros y Hy Hx. apply list_elem_of_singleton in Hx as ->.
  apply set_has_true in Hy. congruence.
Qed.

Lemma set_add_length (unique : list string) (x : string) :
  (length (set_add unique x) <= S (length unique))%nat.
Proof.
  unfold set_add. destruct (set_has unique x); [lia |].
  rewrite length_app. simpl. lia.
Qed.

(** The element of [tickers] contributes the ticker [t]. *)
Local Abbreviation contributes :=
  (fun (ticker : TickerInput) (t : string) =>
     falsy_ticker ticker = false /\ ticker_value ticker <> ""
     /\ t = toUpperCase (js_trim (ticker_value ticker))).

Lemma upper_ticker_loop (tickers : list TickerInput) (unique : list string) :
  let result := fold_left upper_ticker_step tickers unique in
  (NoDup unique -> NoDup result)
  /\ (forall t, t ∈ result
        <-> t ∈ unique \/ exists ticker, ticker ∈ tickers /\ contributes ticker t)
  /\ (length result <= length unique + length tickers)%nat.
Proof.
  revert unique. induction tickers as [| ticker tickers IH]; intros unique; cbn zeta.
  - cbn [fold_left]. split; [auto |]. split; [| simpl; lia].
    intros t. split; [auto |]. intros [H | (ticker & Hin & _)]; [assumption |].
    inversion Hin.
  - cbn [fold_left]. destruct (IH (upper_ticker_step unique ticker))
      as (Hnd & Hmem & Hlen).
    assert (Hstep : forall t, t ∈ upper_ticker_step unique ticker
                      <-> t ∈ unique \/ contributes ticker t).
    { intros t. unfold upper_ticker_step.
      destruct (falsy_ticker ticker) eqn:Ef.
      { split; [auto |]. intros [H | (H & _)]; [assumption | discriminate]. }
      destruct (String.eqb_spec (ticker_value ticker) "") as [Ev | Ev].
      { split; [auto |]. intros [H | (_ & H & _)]; [assumption | contradiction]. }
      rewrite set_add_elem. split.
      - intros [H | H]; [now left | right]. auto.
      - intros [H | H]; [now left | right]. apply H. }
    split; [| split].
    + intros Hu. apply Hnd. unfold upper_ticker_step.
      destruct (falsy_ticker ticker); [assumption |].
      destruct (String.eqb _ _); [assumption |]. now apply set_add_NoDup.
    + intros t. rewrite Hmem, Hstep. split.
      * intros [[H | H] | (x & Hx & H)]; [now left | right | right].
        -- exists ticker. split; [now left | exact H].
        -- exists x. split; [now right | exact H].
      * intros [H | (x & Hx & H)]; [now left; left |].
        apply elem_of_cons in Hx as [-> | Hx]; [left; now right |].
        right. now exists x.
    + assert (length (upper_ticker_step unique ticker) <= S (length unique))%nat.
      { unfold upper_ticker_step. destruct (falsy_ticker ticker); [lia |].
        destruct (String.eqb _ _); [lia |]. apply set_add_length. }
      simpl. lia.
Qed.

(** X18: [toUpperTickers] returns, without duplicates, the trimmed and
    upper-cased tickers of the strings and of the objects with a string
    property [ticker], skipping every other element and the empty string; it
    returns at most as many tickers as there are elements. A string of
    whitespace only is not skipped: it yields the empty ticker. *)
Theorem toUpperTickers_unique (tickers : list TickerInput) :
  NoDup (toUpperTickers tickers)
  /\ (forall t, t ∈ toUpperTickers tickers
        <-> exists ticker, ticker ∈ tickers /\ contributes ticker t)
  /\ (length (toUpperTickers tickers) <= length tickers)%nat
  /\ (forall s, TickerString s ∈ tickers -> s <> "" -> js_trim s = "" ->
                "" ∈ toUpperTickers tickers).
Proof.
  destruct (upper_ticker_loop tickers []) as (Hnd & Hmem & Hlen).
  assert (Hiff : forall t, t ∈ toUpperTickers tickers
                   <-> exists ticker, ticker ∈ tickers /\ contributes ticker t).
  { intros t. unfold toUpperTickers. rewrite Hmem. split; [| auto].
    intros [H | H]; [inversion H | exact H]. }
  split; [apply Hnd; constructor |]. split; [exact Hiff |].
  split; [exact Hlen |].
  intros s Hs Hne Htrim. apply Hiff. exists (TickerString s).
  split; [assumption |]. cbn [falsy_ticker ticker_value]. split.
  - now apply String.eqb_neq.
  - split; [assumption |]. now rewrite Htrim.
Qed.

Lemma toUpperTickers_unique_witness :
  (TickerString "   " ∈ [TickerString "aapl"; TickerString "   "; TickerOther true]
   /\ "   " <> "" /\ js_trim "   " = "")
  /\ "" ∈ toUpperTickers [TickerString "aapl"; TickerString "   "; TickerOther true].
Proof.
  assert (Hin : TickerString "   "
                ∈ [TickerString "aapl"; TickerString "   "; TickerOther true])
    by (right; left).
  assert (Hne : "   " <> "") by discriminate.
  assert (Htrim : js_trim "   " = "") by reflexivity.
  split; [auto |].
  exact (proj2 (proj2 (proj2 (toUpperTickers_unique
                                [TickerString "aapl"; TickerString "   ";
                                 TickerOther true])))
               "   " Hin Hne Htrim).
Defined.

Lemma clampLookbackYears_within (value : number) :
  within 1 10 (clampLookbackYears value).
Proof.
  unfold clampLookbackYears. destruct value as [q | | |]; simpl negb; cbv iota;
    try (simpl; lra).
  unfold JS.min, JS.max, MAX_LOOKBACK_YEARS.
  destruct (JS.lt (Num 1) (Num q)) eqn:E1.
  - destruct (JS.lt (Num 10) (Num q)) eqn:E2; simpl; js_compare; lra.
  - destruct (JS.lt (Num 10) (Num 1)) eqn:E2; simpl; js_compare; lra.
Qed.

(** X19: whatever [lookback_years] is, [NaN] and the infinities included,
    [clampLookbackYears] returns a number of years within [[1, 10]], and the
    history limit that the pipeline asks the API for,
    [lookbackQuarters(clampLookbackYears(..))], is a whole number of quarters
    within [[8, 40]]. *)
Theorem historyLimit_range (lookback_years : option number) :
  within 1 10 (clampLookbackYears (default DEFAULT_LOOKBACK_YEARS lookback_years))
  /\ exists quarters : Z,
       historyLimit lookback_years = Num (inject_Z quarters)
       /\ (8 <= quarters <= 40)%Z.
Proof.
  split; [apply clampLookbackYears_within |].
  unfold historyLimit, lookbackQuarters.
  pose proof (clampLookbackYears_within
                (default DEFAULT_LOOKBACK_YEARS lookback_years)) as Hyears.
  destruct (clampLookbackYears _) as [y | | |]; simpl in Hyears; try tauto.
  destruct Hyears as [H1 H10].
  change (JS.round (JS.mul (Num y) (Num 4)))
    with (Num (inject_Z (Qfloor (y * 4 + (1 # 2))))).
  assert (Hlo : (4 <= Qfloor (y * 4 + (1 # 2)))%Z).
  { assert (H : 4 <= y * 4 + (1 # 2)) by lra.
    exact (Qfloor_resp_le 4 _ H). }
  assert (Hhi : (Qfloor (y * 4 + (1 # 2)) <= 40)%Z).
  { assert (H : y * 4 + (1 # 2) <= 40 + (1 # 2)) by lra.
    exact (Qfloor_resp_le _ (40 + (1 # 2)) H). }
  unfold JS.max, MIN_HISTORY_QUARTERS.
  destruct (JS.lt _ _) eqn:E.
  - eexists. split; [reflexivity |]. apply lt_Num in E.
    change 8 with (inject_Z 8) in E. rewrite <- Zlt_Qlt in E. lia.
  - exists 8%Z. split; [reflexivity | lia].
Qed.

(** ** Short interest in the pipeline *)

Lemma normalizeShortInterest_within (value : unknown) (v : number) :
  normalizeShortInterest value = Some v -> within 0 1 v.
Proof.
  unfold normalizeShortInterest.
  destruct value as [| | num | num]; try discriminate;
    (destruct num as [q | | |]; try discriminate; cbn [negb JS.isFinite];
     destruct (JS.lt (Num q) (Num 0)) eqn:E0; [discriminate |];
     destruct (JS.gt (Num q) (Num 1)) eqn:E1;
     destruct (JS.le (Num q) (Num 100)) eqn:E2; cbn [andb];
     try discriminate; intros [= <-]; js_compare;
     [ change (JS.div (Num q) (Num 100)) with (Num (q / 100)); simpl; split;
       [apply Qle_shift_div_l; lra | apply Qle_shift_div_r; lra]
     | simpl; lra | simpl; lra ]).
Qed.

(** The entry of the map is stored: its value is a valid short interest. *)
Local Abbreviation stored :=
  (fun entry : string * number =>
     match normalizeShortInterest (U_number (snd entry)) with
     | Some _ => true
     | None => false
     end).

Lemma short_interest_loop (entries : list (string * number))
    (st : ShortInterestState.t) :
  let final := fold_left short_interest_step entries st in
  (forall ticker v,
     ShortInterestState.values final !! ticker = Some v ->
     ShortInterestState.values st !! ticker = Some v
     \/ (within 0 1 v
         /\ exists entry, entry ∈ entries /\ stored entry = true
                          /\ ticker = toUpperCase (fst entry)))
  /\ (forall ticker,
        is_Some (ShortInterestState.values final !! ticker)
        <-> is_Some (ShortInterestState.values st !! ticker)
            \/ exists entry, entry ∈ entries /\ stored entry = true
                             /\ ticker = toUpperCase (fst entry))
  /\ ShortInterestState.errors final
     = ShortInterestState.errors st
       ++ map (fun entry => (toUpperCase (fst entry), "short_interest_invalid"))
              (List.filter (fun entry => negb (stored entry)) entries).
Proof.
  revert st. induction entries as [| entry entries IH]; intros st; cbn zeta.
  - cbn [fold_left List.filter map]. rewrite app_nil_r.
    split; [auto |]. split; [| reflexivity].
    intros ticker. split; [auto |]. intros [H | (e & He & _)]; [assumption |].
    inversion He.
  - cbn [fold_left]. destruct (IH (short_interest_step st entry))
      as (Hval & Hdom & Herr).
    unfold short_interest_step in *.
    destruct (normalizeShortInterest (U_number (snd entry))) as [normalized |] eqn:En.
    + cbn [ShortInterestState.values ShortInterestState.errors] in *.
      split; [| split].
      * intros ticker v Hv. apply Hval in Hv as [Hv | (Hw & e & He & Hs & ->)].
        -- destruct (decide (toUpperCase (fst entry) = ticker)) as [<- | Hne].
           ++ rewrite lookup_insert_eq in Hv. injection Hv as <-. right.
              split; [exact (normalizeShortInterest_within _ _ En) |].
              exists entry. split; [now left |]. now rewrite En.
           ++ rewrite lookup_insert_ne in Hv by assumption. now left.
        -- right. split; [assumption |]. exists e. split; [now right | auto].
      * intros ticker. rewrite Hdom. split.
        -- intros [H | (e & He & Hs & ->)].
           ++ destruct (decide (toUpperCase (fst entry) = ticker)) as [<- | Hne].
              ** right. exists entry. split; [now left |]. now rewrite En.
              ** rewrite lookup_insert_ne in H by assumption. now left.
           ++ right. exists e. split; [now right | auto].
        -- intros [H | (e & He & Hs & ->)].
           ++ left. destruct (decide (toUpperCase (fst entry) = ticker)) as [<- | Hne].
              ** rewrite lookup_insert_eq. eauto.
              ** now rewrite lookup_insert_ne by assumption.
           ++ apply elem_of_cons in He as [-> | He].
              ** left. rewrite lookup_insert_eq. eauto.
              ** right. exists e. auto.
      * rewrite Herr. cbn [List.filter]. now rewrite En.
    + cbn [ShortInterestState.values ShortInterestState.errors] in *.
      split; [| split].
      * intros ticker v Hv. apply Hval in Hv as [Hv | (Hw & e & He & Hs & ->)];
          [now left |].
        right. split; [assumption |]. exists e. split; [now right | auto].
      * intros ticker. rewrite Hdom. split.
        -- intros [H | (e & He & Hs & ->)]; [now left |].
           right. exists e. split; [now right | auto].
        -- intros [H | (e & He & Hs & ->)]; [now left |].
           apply elem_of_cons in He as [-> | He].
           ++ rewrite En in Hs. discriminate.
           ++ right. exists e. auto.
      * rewrite Herr. cbn [List.filter]. rewrite En. cbn [negb map].
        now rewrite <- app_assoc.
Qed.

(** X20: the short interest that the pipeline takes from its input. Every
    value that it stores is a fraction within [[0, 1]]; a ticker has a value
    exactly when some entry of the input map with that ticker, upper-cased,
    has a valid value; and the errors are the invalid entries, in the order of
    the map, each under its upper-cased ticker. *)
Theorem collect_short_interest_fractions (entries : list (string * number)) :
  let st := collect_short_interest entries in
  (forall ticker v, ShortInterestState.values st !! ticker = Some v -> within 0 1 v)
  /\ (forall ticker,
        is_Some (ShortInterestState.values st !! ticker)
        <-> exists entry, entry ∈ entries /\ stored entry = true
                          /\ ticker = toUpperCase (fst entry))
  /\ ShortInterestState.errors st
     = map (fun entry => (toUpperCase (fst entry), "short_interest_invalid"))
           (List.filter (fun entry => negb (stored entry)) entries).
Proof.
  destruct (short_interest_loop entries (ShortInterestState.mk ∅ ∅ []))
    as (Hval & Hdom & Herr).
  cbn zeta. unfold collect_short_interest. split; [| split].
  - intros ticker v Hv. apply Hval in Hv as [Hv | [Hw _]]; [| assumption].
    cbn in Hv. rewrite lookup_empty in Hv. discriminate.
  - intros ticker. rewrite Hdom. cbn [ShortInterestState.values].
    rewrite lookup_empty. split; [| auto].
    intros [[x Hx] | H]; [discriminate | assumption].
  - exact Herr.
Qed.

(** ** The as-of date of the pipeline *)

Section PipelineAsof.
Context `{P : Platform}.

Lemma latest_loop {T} `{DatedValue T} (rows : list T)
    (latest : option (Date * string)) :
  match fold_left latest_step rows latest with
  | None => latest = None /\ forall row, row ∈ rows -> parsed_date row = None
  | Some (d, s) =>
      (forall row d', row ∈ rows -> parsed_date row = Some d' -> (d' <= d)%Z)
      /\ (fold_left latest_step rows latest = latest
          \/ exists row, row ∈ rows /\ report_period row = s
                         /\ parsed_date row = Some d)
      /\ (forall da sa, latest = Some (da, sa) -> (da <= d)%Z)
  end.
Proof.
  revert latest. induction rows as [| row rows IH]; intros latest.
  - cbn [fold_left]. destruct latest as [[d s] |].
    + split; [intros r d' Hr; inversion Hr |]. split; [now left |].
      intros da sa [= -> ->]. lia.
    + split; [reflexivity |]. intros r Hr. inversion Hr.
  - cbn [fold_left]. specialize (IH (latest_step latest row)).
    destruct (fold_left latest_step rows (latest_step latest row))
      as [[d s] |] eqn:Ef.
    + destruct IH as (Hmax & Hfrom & Hacc).
      unfold latest_step in Hfrom, Hacc.
      change (parseReportDate (report_period row)) with (parsed_date row)
        in Hfrom, Hacc.
      destruct (parsed_date row) as [parsed |] eqn:Ep.
      * assert (Hrow : (parsed <= d)%Z
                       /\ forall da sa, latest = Some (da, sa) -> (da <= d)%Z).
        { destruct latest as [[da sa] |].
          - destruct (da <? parsed)%Z eqn:El.
            + pose proof (Hacc _ _ eq_refl). apply Z.ltb_lt in El.
              split; [assumption |]. intros ? ? [= <- <-]. lia.
            + pose proof (Hacc _ _ eq_refl). apply Z.ltb_ge in El.
              split; [lia |]. intros ? ? [= <- <-]. lia.
          - split; [exact (Hacc _ _ eq_refl) | discriminate]. }
        destruct Hrow as [Hp Hl].
        split; [| split; [| exact Hl]].
        -- intros r d' Hr Hd. apply elem_of_cons in Hr as [-> | Hr].
           ++ rewrite Ep in Hd. injection Hd as <-. assumption.
           ++ now apply (Hmax r).
        -- destruct Hfrom as [Hsame | (r & Hr & Hs & Hd)].
           ++ destruct latest as [[da sa] |].
              ** destruct (da <? parsed)%Z.
                 --- right. exists row. injection Hsame as -> ->.
                     split; [now left | auto].
                 --- now left.
              ** right. exists row. injection Hsame as -> ->.
                 split; [now left | auto].
           ++ right. exists r. split; [now right | auto].
      * split; [| split; [| exact Hacc]].
        -- intros r d' Hr Hd. apply elem_of_cons in Hr as [-> | Hr].
           ++ rewrite Ep in Hd. discriminate.
           ++ now apply (Hmax r).
        -- destruct Hfrom as [Hsame | (r & Hr & Hs & Hd)]; [now left |].
           right. exists r. split; [now right | auto].
    + destruct IH as (Hacc & Hnone). unfold latest_step in Hacc.
      change (parseReportDate (report_period row)) with (parsed_date row) in Hacc.
      destruct (parsed_date row) as [parsed |] eqn:Ep.
      * destruct latest as [[da sa] |]; [destruct (da <? parsed)%Z |];
          discriminate.
      * split; [assumption |]. intros r Hr.
        apply elem_of_cons in Hr as [-> | Hr]; [assumption | now apply Hnone].
Qed.

Lemma latestDate_cases {T} `{DatedValue T} (rows : list T) :
  match latestDate rows with
  | Some s =>
      exists row d,
        row ∈ rows /\ report_period row = s /\ parseReportDate s = Some d
        /\ forall row' d', row' ∈ rows -> parsed_date row' = Some d' -> (d' <= d)%Z
  | None => forall row, row ∈ rows -> parsed_date row = None
  end.
Proof.
  unfold latestDate. pose proof (latest_loop rows None) as Hloop.
  destruct (fold_left latest_step rows None) as [[d s] |]; cbn [fmap option_fmap option_map snd].
  - destruct Hloop as (Hmax & [Hsame | (row & Hrow & Hs & Hd)] & _);
      [discriminate |].
    exists row, d. split; [assumption |]. split; [assumption |].
    split; [| exact Hmax]. rewrite <- Hs. exact Hd.
  - apply Hloop.
Qed.

(** X21: [latestDate] returns the report period of a row whose date is the
    latest of the dates that parse, and [null] exactly when no row has a
    date that parses; rows without a date that parses are passed over. *)
Theorem latestDate_latest {T} `{DatedValue T} (rows : list T) :
  match latestDate rows with
  | Some s =>
      exists row d,
        row ∈ rows /\ report_period row = s /\ parseReportDate s = Some d
        /\ forall row' d', row' ∈ rows -> parsed_date row' = Some d' -> (d' <= d)%Z
  | None => forall row, row ∈ rows -> parsed_date row = None
  end.
Proof. apply latestDate_cases. Qed.

Lemma latestReportDate_latestDate {T} `{DatedValue T} (rows : list T) :
  Forall (fun row => unparseable row = false) rows ->
  latestReportDate rows = latestDate rows ≫= parseReportDate.
Proof.
  intros Hok. unfold latestReportDate.
  pose proof (latestDate_cases rows) as Hlatest.
  pose proof (sortByReportPeriod_sorted rows Hok) as Hsorted.
  assert (Hperm : sortByReportPeriod rows ≡ₚ rows) by apply js_sort_perm.
  destruct (sortByReportPeriod rows !! (length (sortByReportPeriod rows) - 1)%nat)
    as [last |] eqn:El.
  - assert (Hin : last ∈ rows).
    { rewrite <- Hperm. eapply list_elem_of_lookup_2, El. }
    rewrite Forall_forall in Hok. pose proof (Hok _ Hin) as Hl.
    unfold unparseable in Hl. destruct (parsed_date last) as [dl |] eqn:Edl;
      [| discriminate].
    change (parseReportDate (report_period last)) with (parsed_date last).
    rewrite Edl.
    destruct (latestDate rows) as [s |].
    + destruct Hlatest as (row & d & Hrow & Hs & Hd & Hmax).
      cbn [mbind option_bind]. rewrite Hd. f_equal.
      pose proof (Hmax _ _ Hin Edl) as Hle.
      assert (Hrd : parsed_date row = Some d).
      { unfold parsed_date. now rewrite Hs. }
      rewrite <- Hperm in Hrow. apply list_elem_of_lookup_1 in Hrow as [i Hi].
      pose proof (lookup_lt_Some _ _ _ Hi) as Hlt.
      destruct (decide (i = length (sortByReportPeriod rows) - 1)%nat) as [-> | Hne].
      * rewrite El in Hi. injection Hi as <-. congruence.
      * assert (Hij : (i < length (sortByReportPeriod rows) - 1)%nat) by lia.
        pose proof (sorted_ordered_lookup _ _ Hsorted _ _ _ _ Hij Hi El
                      _ _ Hrd Edl).
        f_equal. lia.
    + rewrite (Hlatest _ Hin) in Edl. discriminate.
  - apply lookup_ge_None in El.
    assert (Hrows : rows = []).
    { apply Permutation_length in Hperm. destruct rows; [reflexivity |].
      simpl in Hperm. lia. }
    subst rows. reflexivity.
Qed.

Lemma or_string_parsed (a b : option string) :
  Date_parse "" = None ->
  (forall s, a = Some s -> is_Some (parseReportDate s)) ->
  or_string a b ≫= parseReportDate
  = or_else (a ≫= parseReportDate) (b ≫= parseReportDate).
Proof.
  intros Hempty Ha. unfold or_string, truthy_string.
  destruct a as [s |]; [| reflexivity].
  destruct (Ha s eq_refl) as [d Hd].
  destruct (String.eqb_spec s "") as [-> | Hne].
  - unfold parseReportDate in Hd. congruence.
  - cbn [negb mbind option_bind]. rewrite Hd. reflexivity.
Qed.

Lemma latestDate_parsed {T} `{DatedValue T} (rows : list T) (s : string) :
  latestDate rows = Some s -> is_Some (parseReportDate s).
Proof.
  intros E. pose proof (latestDate_cases rows) as Hl. rewrite E in Hl.
  destruct Hl as (_ & d & _ & _ & Hd & _). eauto.
Qed.

(** X22: when every report period of the three statements parses (and the
    empty string is no date), the as-of date that the pipeline reports is the
    one that the resilience score uses: [resolveAsofDate] of [brs.ts] returns
    the date of the period that [computeAsofDate] returns, or [null] when
    that returns [null]. *)
Theorem computeAsofDate_agrees (income : list IncomeStatement.t)
    (balance : list BalanceSheet.t) (cashflow : list CashFlowStatement.t) :
  Date_parse "" = None ->
  Forall (fun row => unparseable row = false) income ->
  Forall (fun row => unparseable row = false) balance ->
  Forall (fun row => unparseable row = false) cashflow ->
  exists warnings,
    resolveAsofDate income balance cashflow
    = Return (computeAsofDate income balance cashflow ≫= parseReportDate,
              warnings).
Proof.
  intros Hempty Hi Hb Hc. unfold resolveAsofDate, computeAsofDate.
  destruct (decide (0 < length (asof_candidates income balance cashflow))%nat)
    as [Hlen | Hlen].
  - pose proof (elem_of_asof_candidates income balance cashflow) as Hcand.
    revert Hlen Hcand.
    generalize (asof_candidates income balance cashflow).
    intros candidates Hlen Hcand.
    destruct (sorted_candidates candidates
                !! (length (sorted_candidates candidates) - 1)%nat)
      as [[d date] |] eqn:El.
    + exists []. cbn [fmap option_fmap option_map fst snd mbind option_bind].
      apply list_elem_of_lookup_2, elem_of_sorted_candidates in El as [_ Hd].
      now rewrite Hd.
    + exfalso. apply lookup_ge_None in El.
      destruct candidates as [| c rest]; [simpl in Hlen; lia |].
      assert (Hin : c ∈ c :: rest) by now left.
      pose proof Hin as Hinc. apply Hcand in Hinc as (Hinc & _).
      apply list_elem_of_fmap in Hinc as (row & -> & Hrow).
      rewrite Forall_forall in Hi. pose proof (Hi _ Hrow) as Hp.
      unfold unparseable in Hp.
      destruct (parsed_date row) as [dt |] eqn:Edt; [| discriminate].
      assert (Hs : (report_period row, dt)
                   ∈ sorted_candidates (report_period row :: rest)).
      { apply elem_of_sorted_candidates. split; [exact Hin | exact Edt]. }
      destruct (sorted_candidates (report_period row :: rest));
        [inversion Hs | simpl in El; lia].
  - exists ["asof_misalignment"]. f_equal. f_equal.
    rewrite !latestReportDate_latestDate by assumption.
    rewrite or_string_parsed;
      [| assumption | intros s; apply latestDate_parsed].
    rewrite or_string_parsed;
      [| assumption | intros s; apply latestDate_parsed].
    reflexivity.
Qed.

End PipelineAsof.

Lemma computeAsofDate_agrees_witness :
  computeAsofDate (P := Sample.platform) Examples.shuffled_quarters [] []
  = Some "2024-03-31"
  /\ exists warnings,
       resolveAsofDate (P := Sample.platform) Examples.shuffled_quarters [] []
       = Return (Some 1711843200000%Z, warnings).
Proof.
  split; [reflexivity |].
  assert (Hempty : Date_parse (Platform := Sample.platform) "" = None)
    by reflexivity.
  assert (Hi : Forall (fun row => unparseable (P := Sample.platform) row = false)
                      Examples.shuffled_quarters)
    by (repeat constructor).
  assert (Hb : Forall (fun row : BalanceSheet.t =>
                         unparseable (P := Sample.platform) row = false) [])
    by constructor.
  assert (Hc : Forall (fun row : CashFlowStatement.t =>
                         unparseable (P := Sample.platform) row = false) [])
    by constructor.
  exact (computeAsofDate_agrees (P := Sample.platform)
           Examples.shuffled_quarters [] [] Hempty Hi Hb Hc).
Defined.

(** ** The summary table *)

Lemma length_of_list_ascii (cs : list ascii) :
  String.length (string_of_list_ascii cs) = length cs.
Proof. induction cs as [| c cs IH]; [reflexivity |]. simpl. now rewrite IH. Qed.

Lemma length_string_app (a b : string) :
  String.length (a +:+ b) = (String.length a + String.length b)%nat.
Proof. induction a as [| c a IH]; [reflexivity |]. simpl. now rewrite IH. Qed.

Lemma padEnd_length (width : nat) (s : string) :
  String.length (padEnd width s) = Nat.max width (String.length s).
Proof.
  unfold padEnd. rewrite length_string_app, length_of_list_ascii, length_replicate.
  lia.
Qed.

Lemma js_join_length (sep x : string) (xs : list string) :
  String.length (js_join sep (x :: xs))
  = (String.length x
     + sum_list_with (fun y => String.length sep + String.length y) xs)%nat.
Proof.
  unfold js_join. revert x. induction xs as [| y xs IH]; intros x.
  - simpl. lia.
  - change (String.concat sep (x :: y :: xs))
      with (x +:+ sep +:+ String.concat sep (y :: xs)).
    rewrite !length_string_app, IH. simpl. lia.
Qed.

(** Every cell fits the width of its column. *)
Local Abbreviation fits :=
  (Forall2 (fun (cell : string) (width : nat) =>
              (String.length cell <= width)%nat)).

Lemma padded_cells (widths : list nat) (cells : list string) :
  (length cells <= length widths)%nat ->
  imap (fun i cell => padEnd (default 0%nat (widths !! i)) cell) cells
  = zip_with (fun cell width => padEnd width cell) cells widths.
Proof.
  revert widths. induction cells as [| c cells IH]; intros widths Hlen;
    [reflexivity |].
  destruct widths as [| w widths]; [simpl in Hlen; lia |].
  rewrite imap_cons. cbn [zip_with]. f_equal.
  rewrite <- IH by (simpl in Hlen; lia). apply imap_ext. reflexivity.
Qed.

Lemma padded_sum (k : nat) (cells : list string) (widths : list nat) :
  fits cells widths ->
  sum_list_with (fun y => k + String.length y)%nat
    (zip_with (fun cell width => padEnd width cell) cells widths)
  = sum_list_with (fun w => k + w)%nat widths.
Proof.
  induction 1 as [| c w cells widths Hc Hrest IH]; [reflexivity |].
  cbn [zip_with sum_list_with]. rewrite IH, padEnd_length. lia.
Qed.

Lemma table_line_length (widths : list nat) (cells : list string) :
  widths <> [] -> fits cells widths ->
  String.length (table_line widths cells) = line_length widths.
Proof.
  intros Hne Hfits. unfold table_line.
  rewrite padded_cells by (apply Forall2_length in Hfits; lia).
  destruct Hfits as [| c w cells widths Hc Hrest]; [contradiction |].
  cbn [zip_with]. rewrite !length_string_app, js_join_length, padEnd_length.
  change (String.length " | ") with 3%nat. rewrite (padded_sum 3 _ _ Hrest).
  simpl. lia.
Qed.

Lemma separator_length (widths : list nat) :
  widths <> [] ->
  String.length
    ("+" +:+ js_join "+" (map (fun w => dashes (w + 2)) widths) +:+ "+")
  = line_length widths.
Proof.
  intros Hne. destruct widths as [| w ws]; [contradiction |].
  cbn [map]. rewrite !length_string_app, js_join_length.
  unfold dashes at 1. rewrite length_of_list_ascii, length_replicate.
  assert (E : sum_list_with
                (fun y => String.length "+" + String.length y)%nat
                (map (fun w => dashes (w + 2)) ws)
              = sum_list_with (fun w => 3 + w)%nat ws).
  { induction ws as [| v ws IH]; [reflexivity |].
    cbn [map sum_list_with]. rewrite IH by discriminate.
    unfold dashes at 1. rewrite length_of_list_ascii, length_replicate.
    simpl. lia. }
  rewrite E. simpl. lia.
Qed.

Lemma widen_length (widths : list nat) (row : list string) :
  length (widen widths row) = length widths.
Proof. apply length_imap. Qed.

Lemma widen_fits_row (widths : list nat) (row : list string) :
  length row = length widths -> fits row (widen widths row).
Proof.
  intros Hlen. apply Forall2_same_length_lookup_2.
  - now rewrite widen_length.
  - intros i cell w Hc Hw. unfold widen in Hw.
    rewrite list_lookup_imap, Hc in Hw.
    destruct (widths !! i); [| discriminate]. injection Hw as <-. lia.
Qed.

Lemma widen_fits_still (widths : list nat) (row cells : list string) :
  fits cells widths -> fits cells (widen widths row).
Proof.
  intros Hfits. apply Forall2_same_length_lookup in Hfits as [Hlen Hfits].
  apply Forall2_same_length_lookup_2.
  - now rewrite widen_length.
  - intros i cell w Hc Hw. unfold widen in Hw. rewrite list_lookup_imap in Hw.
    destruct (widths !! i) as [w0 |] eqn:Ew; [| discriminate].
    pose proof (Hfits i cell w0 Hc Ew). injection Hw as <-.
    destruct (row !! i); lia.
Qed.

Lemma widths_fit_still (rows : list (list string)) (widths : list nat)
    (cells : list string) :
  fits cells widths -> fits cells (fold_left widen rows widths).
Proof.
  revert widths. induction rows as [| row rows IH]; intros widths Hfits;
    [assumption |].
  cbn [fold_left]. apply IH. now apply widen_fits_still.
Qed.

Lemma widths_fit_rows (rows : list (list string)) (widths : list nat)
    (row : list string) :
  Forall (fun row => length row = length widths) rows ->
  row ∈ rows -> fits row (fold_left widen rows widths).
Proof.
  revert widths. induction rows as [| r rows IH]; intros widths Hlen Hin;
    [inversion Hin |].
  cbn [fold_left]. inversion Hlen as [| ? ? Hr Hrest]; subst.
  apply elem_of_cons in Hin as [-> | Hin].
  - apply widths_fit_still. now apply widen_fits_row.
  - apply IH; [| assumption]. rewrite widen_length. assumption.
Qed.

Lemma widths_length (rows : list (list string)) (widths : list nat) :
  length (fold_left widen rows widths) = length widths.
Proof.
  revert widths. induction rows as [| row rows IH]; intros widths;
    [reflexivity |].
  cbn [fold_left]. now rewrite IH, widen_length.
Qed.

(** X23: the summary table is rectangular. It has four lines more than there
    are results (the header and three separators), and all its lines have
    the same length, whatever the lengths of the tickers, scores and
    dates. *)
Theorem buildSummaryTable_aligned (String_of_number toFixed1 : number -> string)
    (results : list SummaryEntry.t) (shortInterest : gmap string number) :
  let lines := summary_lines String_of_number toFixed1 results shortInterest in
  length lines = (length results + 4)%nat
  /\ exists width, Forall (fun line => String.length line = width) lines.
Proof.
  cbn zeta. unfold summary_lines.
  set (rows := map (summary_row String_of_number toFixed1 shortInterest) results).
  set (widths := table_widths rows).
  assert (Hrows : Forall (fun row => length row
                            = length (map String.length TABLE_HEADERS)) rows).
  { apply Forall_forall. intros row Hrow. subst rows.
    apply list_elem_of_fmap in Hrow as (result & -> & _). reflexivity. }
  assert (Hne : widths <> []).
  { intros E. pose proof (widths_length rows (map String.length TABLE_HEADERS))
      as Hl. fold (table_widths rows) in Hl. fold widths in Hl.
    rewrite E in Hl. discriminate. }
  split.
  - rewrite !length_app, length_map. subst rows. rewrite length_map. simpl. lia.
  - exists (line_length widths).
    assert (Hsep := separator_length widths Hne).
    assert (Hhead : String.length (table_line widths TABLE_HEADERS)
                    = line_length widths).
    { apply table_line_length; [assumption |]. apply widths_fit_still.
      repeat constructor. }
    repeat (apply Forall_app; split); repeat (apply Forall_cons; split);
      try apply Forall_nil_2; try assumption.
    apply Forall_forall. intros line Hline.
    apply list_elem_of_fmap in Hline as (row & -> & Hrow).
    apply table_line_length; [assumption |].
    now apply widths_fit_rows.
Qed.

(** ** The look-back window of the score tool *)

Lemma ge_of_Z (a b : Z) : JS.ge (JS.of_Z a) (JS.of_Z b) = true <-> (b <= a)%Z.
Proof.
  unfold JS.ge, JS.of_Z. rewrite le_Num. now rewrite <- Zle_Qle.
Qed.

Lemma List_filter_sublist {A} (p : A -> bool) (xs : list A) :
  sublist (List.filter p xs) xs.
Proof.
  induction xs as [| x xs IH]; simpl; [constructor |].
  destruct (p x); [now apply sublist_skip | now apply sublist_cons].
Qed.

Lemma List_filter_all {A} (p : A -> bool) (xs : list A) :
  length (List.filter p xs) = length xs -> List.filter p xs = xs.
Proof.
  induction xs as [| x xs IH]; simpl; [reflexivity |].
  pose proof (filter_length_le p xs) as Hle.
  destruct (p x); simpl; intros E; [f_equal; apply IH; lia | lia].
Qed.

Lemma List_filter_twice {A} (p : A -> bool) (xs : list A) :
  List.filter p (List.filter p xs) = List.filter p xs.
Proof.
  induction xs as [| x xs IH]; simpl; [reflexivity |].
  destruct (p x) eqn:E; simpl; [rewrite E; f_equal |]; exact IH.
Qed.

Lemma latest_of_greatest (dates : list Date) (first : Date) :
  let latest := latest_of dates first in
  (first <= latest)%Z
  /\ (forall d : Date, d ∈ dates -> (d <= latest)%Z)
  /\ (latest = first \/ latest ∈ dates).
Proof.
  unfold latest_of. revert first.
  induction dates as [| d dates IH]; intros first; cbn zeta; cbn [fold_left].
  - split; [lia |]. split; [| now left]. intros d Hd. inversion Hd.
  - destruct (first <? d)%Z eqn:E.
    + apply Z.ltb_lt in E. destruct (IH d) as (H1 & H2 & H3).
      split; [lia |]. split.
      * intros d' Hd'. apply elem_of_cons in Hd' as [-> | Hd']; [assumption |].
        now apply H2.
      * right. destruct H3 as [-> | H3]; [now left | now right].
    + apply Z.ltb_ge in E. destruct (IH first) as (H1 & H2 & H3).
      split; [assumption |]. split.
      * intros d' Hd'. apply elem_of_cons in Hd' as [-> | Hd']; [lia |].
        now apply H2.
      * destruct H3 as [H3 | H3]; [now left | right; now right].
Qed.

Section LookbackWindow.
Context `{P : Platform}.
Context (years_before : Z -> Date -> option Date).
Context {T : Type} (date_of : T -> string).

(** The dates of the rows that have one. *)
Local Abbreviation dates_of :=
  (omap (fun row : T => parseReportDate (date_of row))).

(** The row is kept when [latest] is the latest date. *)
Local Abbreviation keeps :=
  (fun (latest : Date) (row : T) =>
     match parseReportDate (date_of row) with
     | Some date => JS.ge (JS.of_Z date) (getTime (years_before 10 latest))
     | None => true
     end).

Lemma trimByLookback_cases (rows : list T) (label : string) :
  (trimByLookback years_before date_of rows label = (rows, [])
   /\ dates_of rows = [])
  \/ exists latest : Date,
       latest ∈ dates_of rows
       /\ (forall d : Date, d ∈ dates_of rows -> (d <= latest)%Z)
       /\ trimByLookback years_before date_of rows label
          = (List.filter (keeps latest) rows,
             push_if (length (List.filter (keeps latest) rows) <? length rows)%nat
                     ("trimmed_" +:+ label +:+ "_lookback")).
Proof.
  unfold trimByLookback. destruct (decide (length rows = 0%nat)) as [E | E].
  { left. destruct rows; [auto | discriminate]. }
  destruct (dates_of rows) as [| first dates] eqn:Ed; [left; auto |].
  right. destruct (latest_of_greatest (first :: dates) first) as (H1 & H2 & H3).
  exists (latest_of (first :: dates) first). split; [| split].
  - destruct H3 as [-> | H3]; [now left | assumption].
  - exact H2.
  - reflexivity.
Qed.

Lemma dated_row (rows : list T) (d : Date) :
  d ∈ dates_of rows
  <-> exists row, row ∈ rows /\ parseReportDate (date_of row) = Some d.
Proof. apply list_elem_of_omap. Qed.

(** X24: the look-back window of the score tool, when ten years before a
    date of the rows is a date no later than it. The rows kept are a
    subsequence of the rows; the rows without a date that parses and the
    rows of the latest date are always kept; the warning is pushed exactly
    when a row is dropped; and trimming what was kept changes nothing and
    warns no more. *)
Theorem trimByLookback_window (rows : list T) (label : string) :
  (forall d : Date, d ∈ dates_of rows ->
     exists cutoff : Date, years_before 10 d = Some cutoff /\ (cutoff <= d)%Z) ->
  let kept := fst (trimByLookback years_before date_of rows label) in
  let warnings := snd (trimByLookback years_before date_of rows label) in
  sublist kept rows
  /\ (forall row, row ∈ rows -> parseReportDate (date_of row) = None ->
                  row ∈ kept)
  /\ (forall row (d : Date),
        row ∈ rows -> parseReportDate (date_of row) = Some d ->
        (forall d' : Date, d' ∈ dates_of rows -> (d' <= d)%Z) -> row ∈ kept)
  /\ (warnings = [] <-> kept = rows)
  /\ (warnings = [] \/ warnings = ["trimmed_" +:+ label +:+ "_lookback"])
  /\ trimByLookback years_before date_of kept label = (kept, []).
Proof.
  intros Hcut. cbn zeta.
  destruct (trimByLookback_cases rows label)
    as [[E Hnone] | (latest & Hin & Hmax & E)]; rewrite E; cbn [fst snd].
  { split; [reflexivity |]. repeat split; auto. }
  destruct (Hcut latest Hin) as (cutoff & Hc & Hle).
  assert (Hkeep : forall row, row ∈ rows ->
            (row ∈ List.filter (keeps latest) rows
             <-> match parseReportDate (date_of row) with
                 | Some date => (cutoff <= date)%Z
                 | None => True
                 end)).
  { intros row Hrow. rewrite elem_of_List_filter. cbv beta. rewrite Hc.
    cbn [getTime]. destruct (parseReportDate (date_of row)) as [date |].
    - rewrite ge_of_Z. tauto.
    - tauto. }
  split; [apply List_filter_sublist |].
  split; [intros row Hrow Hp; apply Hkeep; [assumption | now rewrite Hp] |].
  split.
  { intros row d Hrow Hp Hd. apply Hkeep; [assumption |]. rewrite Hp.
    pose proof (Hd latest Hin). lia. }
  pose proof (filter_length_le (keeps latest) rows) as Hlen.
  split; [| split].
  - unfold push_if.
    cbv beta in Hlen. destruct (_ <? _)%nat eqn:El.
    + apply Nat.ltb_lt in El. split; [intros Eq; discriminate Eq |]. intros Eq.
      rewrite Eq in El. lia.
    + apply Nat.ltb_ge in El. split; [| reflexivity]. intros _.
      apply List_filter_all. lia.
  - unfold push_if. destruct (_ <? _)%nat; [now right | now left].
  - destruct (trimByLookback_cases (List.filter (keeps latest) rows) label)
      as [[E' _] | (latest' & Hin' & Hmax' & E')]; [exact E' |].
    rewrite E'.
    assert (Hsame : latest' = latest).
    { apply dated_row in Hin' as (row' & Hrow' & Hp').
      apply elem_of_List_filter in Hrow' as [Hrow' _].
      assert (H1 : (latest' <= latest)%Z).
      { apply Hmax. apply dated_row. now exists row'. }
      apply dated_row in Hin as (row & Hrow & Hp).
      assert (H2 : (latest <= latest')%Z).
      { apply Hmax'. apply dated_row. exists row. split; [| assumption].
        apply Hkeep; [assumption |]. now rewrite Hp. }
      lia. }
    rewrite Hsame, List_filter_twice. unfold push_if.
    rewrite Nat.ltb_irrefl. reflexivity.
Qed.

End LookbackWindow.

Lemma trimByLookback_window_witness :
  map report_period
    (fst (trimByLookback (P := Sample.platform) Scenarios.utc_years_before
            report_period Scenarios.long_history "income"))
  = ["2024-03-31"; "n/a"; "2014-03-31"; "2023-12-31"]
  /\ trimByLookback (P := Sample.platform) Scenarios.utc_years_before
       report_period
       (fst (trimByLookback (P := Sample.platform) Scenarios.utc_years_before
               report_period Scenarios.long_history "income"))
       "income"
     = (fst (trimByLookback (P := Sample.platform) Scenarios.utc_years_before
               report_period Scenarios.long_history "income"), []).
Proof.
  split; [reflexivity |].
  assert (Hcut : forall d : Date,
            d ∈ omap (fun row => parseReportDate (P := Sample.platform)
                                   (report_period row))
                     Scenarios.long_history ->
            exists cutoff : Date,
              Scenarios.utc_years_before 10 d = Some cutoff /\ (cutoff <= d)%Z).
  { intros d Hd. vm_compute in Hd.
    repeat (apply elem_of_cons in Hd as [-> | Hd];
            [eexists; split; [vm_compute; reflexivity | lia] |]).
    inversion Hd. }
  exact (proj2 (proj2 (proj2 (proj2 (proj2
           (trimByLookback_window (P := Sample.platform)
              Scenarios.utc_years_before report_period
              Scenarios.long_history "income" Hcut)))))).
Defined.

(** ** The score runner *)

Lemma default_coalesce {A} (d : A) (base over : option A) :
  default d (coalesce over base) = default (default d base) over.
Proof. destruct over, base; reflexivity. Qed.

Lemma merge_spread_brs (d : BrsConfig.t) (base over : BrsConfig.partial) :
  BrsConfig.merge d (spread_brs base over)
  = BrsConfig.merge (BrsConfig.merge d base) over.
Proof.
  unfold BrsConfig.merge, spread_brs.
  cbn [BrsConfig.min_peers' BrsConfig.gm_stdev_threshold'
       BrsConfig.low_history_gm_multiplier' BrsConfig.winsor_low'
       BrsConfig.winsor_high' BrsConfig.median_bands'
       BrsConfig.min_peers BrsConfig.gm_stdev_threshold
       BrsConfig.low_history_gm_multiplier BrsConfig.winsor_low
       BrsConfig.winsor_high BrsConfig.median_bands].
  now rewrite !default_coalesce.
Qed.

Lemma merge_spread_mds (d : MdsConfig.t) (base over : MdsConfig.partial) :
  MdsConfig.merge d (spread_mds base over)
  = MdsConfig.merge (MdsConfig.merge d base) over.
Proof.
  destruct d, base, over. unfold MdsConfig.merge, spread_mds.
  f_equal; apply default_coalesce.
Qed.

(** X25: the configuration of a score request. A field of the request's
    [config] takes precedence over the same field of the settings file, which
    takes precedence over the default ([{ ...DEFAULT, ...settings,
    ...request }]); and a [config] inside [request.brs] or [request.mds] is
    not read: the response is the same whatever it is. *)
Theorem runScoreRequest_config `{P : Platform} (settings : ScoreConfig.t)
    (request : ScoreRequest.t) :
  let merged := mergeConfig settings (ScoreRequest.config request) in
  BrsConfig.merge DEFAULT_BRS_CONFIG
    (default BrsConfig.no_override (ScoreConfig.brs merged))
  = BrsConfig.merge
      (BrsConfig.merge DEFAULT_BRS_CONFIG
         (default BrsConfig.no_override (ScoreConfig.brs settings)))
      (default BrsConfig.no_override
               (ScoreRequest.config request ≫= ScoreConfig.brs))
  /\ MdsConfig.merge DEFAULT_MDS_CONFIG
       (default MdsConfig.no_override (ScoreConfig.mds merged))
     = MdsConfig.merge
         (MdsConfig.merge DEFAULT_MDS_CONFIG
            (default MdsConfig.no_override (ScoreConfig.mds settings)))
         (default MdsConfig.no_override
                  (ScoreRequest.config request ≫= ScoreConfig.mds))
  /\ forall brs_config mds_config,
       runScoreRequest settings
         {| ScoreRequest.brs :=
              (fun inputs => with_brs_config inputs brs_config)
                <$> ScoreRequest.brs request;
            ScoreRequest.mds :=
              (fun inputs => with_mds_config inputs mds_config)
                <$> ScoreRequest.mds request;
            ScoreRequest.config := ScoreRequest.config request |}
       = runScoreRequest settings request.
Proof.
  cbn zeta. split; [| split].
  - unfold mergeConfig. cbn [ScoreConfig.brs default from_option id].
    apply merge_spread_brs.
  - unfold mergeConfig. cbn [ScoreConfig.mds default from_option id].
    apply merge_spread_mds.
  - intros brs_config mds_config. unfold runScoreRequest.
    cbn [ScoreRequest.brs ScoreRequest.mds ScoreRequest.config].
    destruct (ScoreRequest.brs request) as [b |],
             (ScoreRequest.mds request) as [m |];
      cbn [fmap option_fmap option_map];
      try change (with_brs_config (with_brs_config b brs_config)
                    (ScoreConfig.brs
                       (mergeConfig settings (ScoreRequest.config request))))
        with (with_brs_config b
                (ScoreConfig.brs
                   (mergeConfig settings (ScoreRequest.config request))));
      try change (with_mds_config (with_mds_config m mds_config)
                    (ScoreConfig.mds
                       (mergeConfig settings (ScoreRequest.config request))))
        with (with_mds_config m
                (ScoreConfig.mds
                   (mergeConfig settings (ScoreRequest.config request))));
      reflexivity.
Qed.

(** ** The narrative corpus *)

Lemma includes_empty (text : string) : includes text "" = true.
Proof. destruct text; reflexivity. Qed.

(** X26: the filter of the allowed sources. An empty list allows every item;
    a list that is not empty allows an item when some token of it that is not
    blank is contained in the source or the host name, or contains the
    source; so a list of blank tokens allows nothing, and an item whose
    source is blank is allowed by any token that is not blank. *)
Theorem matchesAllowedSources_tokens (source : string) (hostname : option string)
    (allowedSources : list string) :
  matchesAllowedSources source hostname [] = true
  /\ (allowedSources <> [] ->
      (matchesAllowedSources source hostname allowedSources = true
       <-> exists allowed,
             allowed ∈ allowedSources /\ normalizeSource allowed <> ""
             /\ (includes (normalizeSource source) (normalizeSource allowed) = true
                 \/ includes
                      (if truthy_string hostname
                       then normalizeSource (default "" hostname) else "")
                      (normalizeSource allowed) = true
                 \/ includes (normalizeSource allowed) (normalizeSource source)
                    = true))
      /\ (Forall (fun allowed => normalizeSource allowed = "") allowedSources ->
          matchesAllowedSources source hostname allowedSources = false)
      /\ (normalizeSource source = "" ->
          (exists allowed, allowed ∈ allowedSources /\ normalizeSource allowed <> "") ->
          matchesAllowedSources source hostname allowedSources = true)).
Proof.
  split; [reflexivity |]. intros Hne.
  assert (Hiff : matchesAllowedSources source hostname allowedSources = true
            <-> exists allowed,
                  allowed ∈ allowedSources /\ normalizeSource allowed <> ""
                  /\ (includes (normalizeSource source) (normalizeSource allowed)
                      = true
                      \/ includes
                           (if truthy_string hostname
                            then normalizeSource (default "" hostname) else "")
                           (normalizeSource allowed) = true
                      \/ includes (normalizeSource allowed) (normalizeSource source)
                         = true)).
  { unfold matchesAllowedSources.
    destruct (decide (length allowedSources = 0%nat)) as [E | _].
    { destruct allowedSources; [contradiction | discriminate]. }
    rewrite existsb_exists. split.
    - intros (allowed & Hin & H). exists allowed.
      split; [now apply list_elem_of_In |].
      destruct (String.eqb_spec (normalizeSource allowed) "") as [E | E];
        [discriminate |].
      split; [assumption |]. apply orb_true_iff in H as [H | H]; [| auto].
      apply orb_true_iff in H as [H | H]; auto.
    - intros (allowed & Hin & Hblank & H). exists allowed.
      split; [now apply list_elem_of_In |].
      destruct (String.eqb_spec (normalizeSource allowed) "") as [E | E];
        [contradiction |].
      rewrite !orb_true_iff. tauto. }
  split; [exact Hiff |]. split.
  - intros Hall. apply not_true_is_false. intros H.
    apply Hiff in H as (allowed & Hin & Hblank & _).
    rewrite Forall_forall in Hall. now apply Hblank, Hall.
  - intros Hsrc (allowed & Hin & Hblank). apply Hiff. exists allowed.
    split; [assumption |]. split; [assumption |]. right. right.
    rewrite Hsrc. apply includes_empty.
Qed.

Lemma matchesAllowedSources_tokens_witness :
  matchesAllowedSources "Reuters" None [" "; ""] = false
  /\ matchesAllowedSources "  " (Some "example.com") ["reuters"] = true.
Proof.
  assert (Hne1 : [" "; ""] <> []) by discriminate.
  assert (Hblank : Forall (fun allowed => normalizeSource allowed = "") [" "; ""])
    by (repeat constructor).
  assert (Hne2 : ["reuters"] <> []) by discriminate.
  assert (Hsrc : normalizeSource "  " = "") by reflexivity.
  assert (Htok : exists allowed,
             allowed ∈ ["reuters"] /\ normalizeSource allowed <> "").
  { exists "reuters". split; [now left | discriminate]. }
  split.
  - exact (proj1 (proj2 (proj2 (matchesAllowedSources_tokens
                                  "Reuters" None [" "; ""]) Hne1)) Hblank).
  - exact (proj2 (proj2 (proj2 (matchesAllowedSources_tokens
                                  "  " (Some "example.com") ["reuters"]) Hne2))
                 Hsrc Htok).
Defined.

Lemma name_char_no_space (c : ascii) : is_name_char c = true -> is_space c = false.
Proof.
  destruct c as [[] [] [] [] [] [] [] []]; vm_compute; congruence.
Qed.

Lemma trim_name_chars (cs : list ascii) :
  Forall (fun c => is_name_char c = true) cs -> trim cs = cs.
Proof.
  intros Hcs. unfold trim.
  assert (Hstart : forall l, Forall (fun c => is_name_char c = true) l ->
                             trim_start l = l).
  { intros [| c l] Hl; [reflexivity |]. simpl.
    inversion Hl as [| ? ? Hc _]; subst. now rewrite (name_char_no_space c Hc). }
  rewrite (Hstart cs Hcs), Hstart, rev_involutive; [reflexivity |].
  apply Forall_forall. intros c Hc. rewrite Forall_forall in Hcs.
  apply Hcs. apply list_elem_of_In. apply in_rev, list_elem_of_In, Hc.
Qed.

Lemma split_name_chars (in_run : bool) (current cs : list ascii) :
  Forall (fun c => is_name_char c = true) current ->
  Forall (fun piece => Forall (fun c => is_name_char c = true)
                              (list_ascii_of_string piece))
         (split_name in_run current cs).
Proof.
  assert (Hpiece : forall current,
            Forall (fun c => is_name_char c = true) current ->
            Forall (fun c => is_name_char c = true)
                   (list_ascii_of_string (string_of_list_ascii (rev current)))).
  { intros l Hl. rewrite list_ascii_of_string_of_list_ascii.
    apply Forall_forall. intros c Hc. rewrite Forall_forall in Hl.
    apply Hl. apply list_elem_of_In. apply in_rev, list_elem_of_In, Hc. }
  revert in_run current. induction cs as [| c cs IH]; intros in_run current Hcur.
  - simpl. constructor; [now apply Hpiece | constructor].
  - simpl. destruct (is_name_char c) eqn:Ec.
    + apply IH. now constructor.
    + destruct in_run; [now apply IH |].
      constructor; [now apply Hpiece | apply IH; constructor].
Qed.

(** X27: every token that [buildNameTokens] returns has at least three
    characters, all of them lower-case letters or digits, and is none of the
    stop words ([inc], [corp], [holdings], ...). *)
Theorem buildNameTokens_tokens (name token : string) :
  token ∈ buildNameTokens name ->
  (3 <= String.length token)%nat
  /\ Forall (fun c => is_name_char c = true) (list_ascii_of_string token)
  /\ token ∉ COMPANY_NAME_STOPWORDS.
Proof.
  unfold buildNameTokens. intros Hin.
  apply elem_of_List_filter in Hin as [Hin Hp].
  apply andb_true_iff in Hp as [Hlen Hstop].
  apply bool_decide_eq_true in Hlen. split; [assumption |].
  split.
  - apply list_elem_of_fmap in Hin as (piece & -> & Hpiece).
    pose proof (split_name_chars false []
                  (list_ascii_of_string (toLowerCase name)) (Forall_nil_2 _))
      as Hall.
    rewrite Forall_forall in Hall. specialize (Hall _ Hpiece).
    unfold js_trim. rewrite (trim_name_chars _ Hall).
    now rewrite string_of_list_ascii_of_string.
  - intros Hmem. apply set_has_true in Hmem. rewrite Hmem in Hstop. discriminate.
Qed.

Lemma buildNameTokens_tokens_witness :
  buildNameTokens "Acme-Widgets Holdings, Inc." = ["acme"; "widgets"]
  /\ (3 <= String.length "widgets")%nat.
Proof.
  assert (E : buildNameTokens "Acme-Widgets Holdings, Inc." = ["acme"; "widgets"])
    by (vm_compute; reflexivity).
  split; [exact E |].
  assert (Hin : "widgets" ∈ buildNameTokens "Acme-Widgets Holdings, Inc.")
    by (rewrite E; right; left).
  exact (proj1 (buildNameTokens_tokens "Acme-Widgets Holdings, Inc." "widgets"
                  Hin)).
Defined.
